(* ===== verification/_CoqProject ===== *)
-Q . S2P
Prelude.v
DmaChannel.v
BufferData.v
ChannelTypes.v
InternalTest.v
Probe.v
AxiCtrl.v
JobQueue.v
ThreadPool.v
Socket.v
NetClient.v
Devices.v
BackendCall.v
Monitor.v
RawCalls.v
Remote.v
LocalBackend.v
Mapping.v
ZeroCopy.v
LocalStream.v
Context.v
BackendContext.v
Server.v
TestApp.v
Threads.v
LocalReceive.v
PoolLife.v
StreamChannel.v
Machine.v
AppMain.v
TxRxTest.v
FileTest.v
ClientTest.v
Served.v
Stalled.v
