(* ===== verification/Prelude.v ===== *)
(** * Streamio: a verification development

    Streamio moves sample streams and register accesses between applications
    and a programmable-logic design: two kernel drivers, a client library with
    a local and a network backend, an I/O server that lends its machine's
    devices to remote clients, and applications that use them.  This is the
    root file: it documents the development, and then holds what the other
    files share.

    ** The program and how its parts interact

    - The DMA proxy driver ([src/driver/stream_dma]) gives every DMA channel a
      ring of 128 KiB buffers that user space maps.  [ioctl] starts a transfer
      on a buffer, waits for it, or does both; [buffer_write] copies bytes in;
      [poll] looks at the counted interrupts.
    - The register driver ([src/driver/axi_ctrl]) is a character device over
      512 32-bit registers.
    - The client library ([src/lib]): a context owns devices; a device is a
      table of function pointers that a backend fills in.  The local backend
      opens the drivers' device files; the network backend sends commands to
      the I/O server.
    - The I/O server ([src/userspace/io_backend]) accepts connections and gives
      each to a pool of worker threads, which serve the frames that open and close
      contexts.  The handlers that run a client's commands on local devices
      ([client_mapped_channel], [client_stream_channel] and the command loops below
      them) are there, but their only calls are in a block of [main] that is
      commented out ([io_backend.c], 381-384): what is shown of them is what they
      do when they are called.
    - The applications ([src/userspace/test_app], [src/userspace/io_client])
      fill buffers with patterns and check what comes back.

    An application's block of samples goes through [NetClient] (or directly
    through the dispatch functions), a [Socket], [BackendCall], a device of
    [LocalBackend], the channel of [DmaChannel] and the engine.
    [LocalStream.remote_stream_reaches_hardware] follows it all the way, and
    [LocalReceive.remote_stream_from_hardware] the way back.

    ** How the code is modelled

    A function is a computation in the monad [M St] below: it takes the state,
    and either is [Done] with a result and a new state or is a [Fault] (a use
    of memory the code does not own, a NULL pointer, a call of a NULL function,
    or [OutOfFuel]).  An error the code reports is a result, as in the code: a
    negative int, a NULL pointer.  C integers are [Z]; where the code stores a
    value in a type that may be too narrow the wrap-around is written with
    [uwrap] and [swrap].  Threads and the hardware are step relations, and what
    is proved of them holds in every reachable state.

    Code that is not in the repository is a class that the definitions take as
    an argument, with a second class for what a theorem needs of it: the DMA
    engine and the scheduler ([DmaEngine], [DmaEngineLaws]), the registers'
    I/O memory ([IoMem], [IoMemLaws]), what uninitialised variables hold
    ([Stack]).  The kernel's answers while a driver is probed are a function in
    [Probe.kernel], those of [malloc] and [pthread_create] functions in
    [PoolLife.heap], and a TCP connection is the record [Socket.socket] with
    what the peer sends, cut into the pieces the calls return.  Each has a
    concrete instance on which the theorems' witnesses run.

    ** The files

    - [Prelude] (this file): machine integers, lists of bytes in little-endian
      order ([le_bytes], [le_val], [overwrite]), the monad [M] and its rules
      ([wp], [wp_step], [bind_done]), loops ([for_], [iterate] with fuel),
      [reachable] and rule induction.
    - [DmaChannel]: one channel of the DMA proxy driver at run time
      ([streamio-drv.c], [dma_tx.h]): [start_transfer], [wait_for_transfer],
      [local_open], [release], [ioctl], [buffer_write], the poll functions,
      [irq_handler].
    - [BufferData]: the bytes of the channel's buffers; [buffer_write] as an
      overwrite of a byte array.
    - [ChannelTypes]: the fields of the channel as C types.
    - [InternalTest]: the driver's self test, two threads on one channel.
    - [Probe]: probe and remove of both drivers, every kernel call recorded
      with an arbitrary answer.
    - [AxiCtrl]: the register driver's file operations
      ([streamio-ctrl-drv.c]).
    - [JobQueue], [ThreadPool]: [thpool.c], the linked job queue with its
      binary semaphore, and the workers and the controlling thread as a
      transition system over any queue that implements [JobQueueSpec].
    - [PoolLife]: the allocations of [thpool_init] and what [thpool_destroy]
      frees; [thpool_pause] and [thpool_resume] as an extension of the pool's
      transition system.
    - [Socket]: a connected TCP socket, and the frames of
      [bbio_backend_net.h].
    - [NetClient]: [bbio_backend_net.c] and [bbio_net_core.c], the client's
      side.
    - [Devices]: the interfaces of a register device and of a stream device,
      with what a sink and a source of blocks promise.
    - [BackendCall]: the command handlers [io_backend_call.c], written against
      [Devices].
    - [Monitor]: the thread that prints a stream's rate, next to the command that
      counts for it.
    - [RawCalls]: the commands on raw descriptors and addresses, which no
      dispatcher calls, and their local counterparts.
    - [Remote]: client and server together.
    - [LocalBackend]: [bbio_backend_local.c] and [buffer.c]: registers behind
      [mmap] and the ring of transfer buffers, over any [DmaDriver]; the
      channel of [DmaChannel] is its instance.
    - [Mapping]: [mmap] of the driver on the page tables of a process.
    - [ZeroCopy]: the ring, the channel and an engine that reads the buffers at
      its own pace.
    - [LocalStream]: the stream dispatch of [bbio_core.c] on that system, as an
      instance of [Devices.StreamSink].
    - [Context]: [bbio_core.c], [bbio_utils.c]: contexts and their device
      tables on a heap, over any [Backend].
    - [BackendContext]: the context frames and the register channel of
      [io_backend.c].
    - [StreamChannel]: the stream channel of [io_backend.c], on a stream device
      in the table of a context.
    - [Server]: the server process: command line, accept loop, thread pool,
      SIGINT.
    - [TestApp]: the streaming loops of the applications, on [Devices].
    - [Threads]: the two threads of [txrx_test_thread] as trees of device calls,
      run in the order of any schedule.
    - [LocalReceive]: the ring, the channel and an engine that stores a stream
      into the buffers, as an instance of [Devices.StreamSource] and
      [TestApp.StreamReader].
    - [Machine]: what programs run on: the process of [LocalBackend] and the
      driver's transmit and receive channels; opening and closing devices on it.
    - [AppMain]: the applications' main functions on a [Context] of that machine.
    - [TxRxTest], [FileTest]: the two test programs whose fate the buffers and the
      file decide, from nothing to the end on that machine.
    - [ClientTest]: what the receiving loop of the client application checks.
    - [Served]: the server's stream channel on that machine.
    - [Stalled]: the ring, the server and the applications on hardware that stops
      finishing transfers.

    ** What the theorems show

    - The driver ([DmaChannel], [BufferData], [AxiCtrl]): what [ioctl] returns
      in every reachable state; every branch of starting a transfer and of
      waiting for one; the DMA address programmed for a buffer is that buffer's,
      inside the channel's allocation; [buffer_write] against byte arrays;
      register reads and writes word by word, and their round trip; every field
      stays inside its C type ([ChannelTypes]); the self test cannot fail,
      because it compares a buffer with itself ([InternalTest]).
    - Bringing up and down ([Probe]): a probed channel is the fresh channel the
      run-time theorems start from; probe and remove give back what they take;
      a character device is created completely or not at all.
    - The thread pool ([JobQueue], [ThreadPool]): the queue is a FIFO list;
      every added job is queued, running or finished exactly once;
      [thpool_wait] returns after the jobs it saw; no wake-up is lost;
      [thpool_destroy] frees everything [thpool_init] allocated, but it may do so
      while the last worker has counted itself dead and not yet unlocked a mutex
      inside the pool; a thread whose pause signal comes after the resume stays in
      the handler ([PoolLife]).
    - The network ([NetClient], [Remote], [BackendContext], [StreamChannel]): payloads
      may be cut by TCP in any way (the small fields in front of them arrive
      whole, as the code assumes); a remote register device
      refines the local one; the blocks a client writes are the blocks the
      hardware gets, and the other way round; contexts are opened in the first
      free slot; a whole register or stream channel runs its commands on the
      device it opened and gives its descriptors and memory back, on this machine
      down to the blocks the engine sends ([Served]); the monitor never outlives the
      command it watches, and its lines account for what was counted, failed
      receives included ([Monitor]).
    - Devices and contexts ([LocalBackend], [ZeroCopy], [LocalStream],
      [Context]): a buffer is handed out when its status is free or the wait for
      it ended without a time-out, and as long as no signal ends a wait no transfer
      is outstanding on it; a transfer sends what its buffer held when it was
      started, in order; a remote reader gets the blocks the hardware received, behind the
      32 the ring held before ([LocalReceive]); adding and closing devices on
      every outcome, and a context's life gives every resource of a backend that
      keeps its contract back, which the local one does but for the mapping of a
      ring ([Machine.ring_left]); the bytes an application maps are those the hardware transfers, but the window is not
      bounded by the buffers ([Mapping]).
    - The programs ([Server], [TestApp], [AppMain]): every accepted connection is
      accounted for, once: finished, running, queued, about to be queued, or dropped
      because its job could not be allocated; the port is in range; what the sending thread sends and
      that the receiver's check is exact; the four programs of the test
      application from their first call to their last on this machine: the default
      one ([AppMain.main_tx_test_on_hardware]), also without its device and on
      hardware that stops ([Stalled]), the test with two threads in any order of
      their calls ([AppMain.txrx_test_thread_on_hardware]), the one with a single
      thread ([TxRxTest.main_txrx_test_outcome]) and the one that sends a file
      ([FileTest.main_tx_file_outcome]).

    Where the code does not do what it means to, the theorem states what it
    does: a signal during a wait hands out a busy buffer, a server whose client
    disappears in the middle of a command keeps looping, an [accept] that fails
    ends the process without serving the queue, a file loses the last words of
    every chunk, a buffer is cleared as far as its old contents say (over its
    status and length, if they say so), a thread that cannot be created hangs
    [thpool_init], a resume that comes before its signal is lost, the pool is freed
    under a worker's last unlock, a time-out is a NULL that nobody tests (the
    server's [writev] answers it with EFAULT, the applications store through it),
    the applications never free their arrays, and closing a stream leaves its ring
    mapped.

    ** Bounds and fuel

    Buffers have 128 KiB ([BUFFER_SIZE]) and rings [BUFFER_COUNT] buffers, as
    in the headers.  Loops the code bounds are structural ([for_], [for_up]).
    Receive loops, whose length the peer decides, are [iterate fuel]: a theorem
    that such a function returns asks for fuel above the number of commands or
    segments received, and gives the result for every such fuel.  A server loop
    that never ends by itself is shown to make its effect in the steps it had.

    ** Not modelled

    - [src/driver/stream_dma_enhanced]: an unfinished rewrite that is not C (a
      missing semicolon in its only function with a body, undeclared structures and
      an undeclared remove function), so it has no behaviour.
    - The kernel, the DMA engine, the scheduler, TCP, [argp], [sscanf], C's files
      and threads: not in the repository, parameters as described above.  What is
      assumed of them is in the classes named there: the registers behave like
      memory ([IoMemLaws], used where a value is read back), and nobody stores to a
      status or a length while a thread waits ([DmaEngineLaws]).
    - SIGPIPE: a send on a broken connection returns -1 ([Socket]).  EINTR in a job
      that the pool's pause signal interrupts, and [pthread_detach] of a thread that
      was not created ([PoolLife]).  The condition variable of the job queue's
      semaphore: its wait is the test of its value ([JobQueue]).  The file position
      the VFS keeps next to the one [tc_cdev_read] moves ([AxiCtrl]).
    - Printing to the terminal, and the floating-point speed of the monitor, which
      is left at the number of bytes it is computed from; the module tables and
      entry points of the drivers, which only register [probe] and [remove].
    - [io_post_context_close_net], which is not C (an empty argument), and
      [io_stream_alloc_buffer_net], which returns an uninitialised buffer.
    - The client's [main_tx] and [main_rx] are modelled ([AppMain]), but no theorem
      follows them whole on [Machine]: the client's [main] stops after creating its
      context and calls neither.  [ClientTest] is about the loop of [main_rx].
    - The headers under [src/userspace/lib], which are byte for byte those of
      [src/lib/include]. *)
From Stdlib Require Import ZArith Lia.
From stdpp Require Import base list numbers option gmap.

#[global] Open Scope Z_scope.

(** ** Machine integers *)

(** [uwrap w z] is the value an unsigned [w]-bit object holds after [z] is
    stored into it; [swrap w z] is the two's-complement counterpart. *)
Definition uwrap (w z : Z) : Z := z mod 2 ^ w.

Definition swrap (w z : Z) : Z := (z + 2 ^ (w - 1)) mod 2 ^ w - 2 ^ (w - 1).

Abbreviation u8 := (uwrap 8).
Abbreviation u16 := (uwrap 16).
Abbreviation u32 := (uwrap 32).
Abbreviation u64 := (uwrap 64).
Abbreviation s32 := (swrap 32).
Abbreviation s64 := (swrap 64).

(** ** Bytes and little-endian words *)

Definition is_byte (b : Z) : Prop := 0 ≤ b < 256.

Fixpoint le_bytes (n : nat) (z : Z) : list Z :=
  match n with
  | O => []
  | S n' => z mod 256 :: le_bytes n' (z / 256)
  end.

Fixpoint le_val (bs : list Z) : Z :=
  match bs with
  | [] => 0
  | b :: bs' => b + 256 * le_val bs'
  end.

(** ** Computations with a state and C faults

    A C function is a computation that threads a state and either returns or
    stops at a fault: an operation the C standard leaves undefined (a null
    dereference, an access outside an object, a use after free), or a loop that
    did not end within the fuel given to it. *)

Inductive fault :=
| NullDeref
| UseAfterFree
| OutOfBounds
| WildPointer
| Blocked
| OutOfFuel.

#[export] Instance fault_eq_dec : EqDecision fault.
Proof. solve_decision. Defined.

Inductive outcome (A : Type) : Type :=
| Done (a : A)
| Fault (f : fault).
Arguments Done {A} a.
Arguments Fault {A} f.

Definition M (St A : Type) : Type := St → outcome (A * St).

#[export] Instance M_ret {St} : MRet (M St) := λ A a s, Done (a, s).
#[export] Instance M_bind {St} : MBind (M St) :=
  λ A B k m s,
    match m s with
    | Done (a, s') => k a s'
    | Fault f => Fault f
    end.

Definition get {St} : M St St := λ s, Done (s, s).
Definition gets {St A} (f : St → A) : M St A := λ s, Done (f s, s).
Definition modify {St} (f : St → St) : M St unit := λ s, Done (tt, f s).
Definition raise {St A} (f : fault) : M St A := λ _, Fault f.

(** An operand that may be absent: the fault [f] when it is. *)
Definition require {St A} (f : fault) (o : option A) : M St A :=
  match o with
  | Some a => mret a
  | None => raise f
  end.

(** [when b m] is the C statement [if (b) m]. *)
Definition when {St} (b : bool) (m : M St unit) : M St unit :=
  if b then m else mret tt.

(** [for (i = lo; i < lo + n; i++) body(i)]. *)
Fixpoint for_from {St} (lo n : nat) (body : nat → M St unit) : M St unit :=
  match n with
  | O => mret tt
  | S n' => body lo ;; for_from (S lo) n' body
  end.

Abbreviation for_ n body := (for_from 0 n body).

(** A loop whose body either continues with new loop variables ([inl]) or
    leaves the loop with a result ([inr]); [fuel] bounds the iterations. *)
Fixpoint iterate {St A B} (fuel : nat) (body : A → M St (A + B)) (a : A) : M St B :=
  match fuel with
  | O => raise OutOfFuel
  | S fuel' =>
      r ← body a;
      match r with
      | inl a' => iterate fuel' body a'
      | inr b => mret b
      end
  end.

(** Running a computation on a part of a larger state. *)
Definition zoom {St T A} (getter : St → T) (setter : T → St → St) (m : M T A) : M St A :=
  λ s, match m (getter s) with
       | Done (a, t) => Done (a, setter t s)
       | Fault f => Fault f
       end.

(** ** Total-correctness weakest preconditions *)

(** [wp m Q s]: run from [s], [m] returns (no fault, enough fuel) and the
    result and final state satisfy [Q]. *)
Definition wp {St A} (m : M St A) (Q : A → St → Prop) (s : St) : Prop :=
  match m s with
  | Done (a, s') => Q a s'
  | Fault _ => False
  end.

(** [faults m f s]: run from [s], [m] stops at the fault [f]. *)
Definition faults {St A} (m : M St A) (f : fault) (s : St) : Prop := m s = Fault f.

(** Computations that agree on every state are interchangeable. *)
#[export] Instance M_equiv {St A} : Equiv (M St A) := λ m1 m2, ∀ s, m1 s = m2 s.

(** ** Step relations *)

(** Reachability in finitely many steps. *)
Inductive star {St : Type} (R : St → St → Prop) : St → St → Prop :=
| star_refl s : star R s s
| star_step s1 s2 s3 : R s1 s2 → star R s2 s3 → star R s1 s3.

(** [reachable init R s]: some run from an initial state arrives at [s]. *)
Definition reachable {St : Type} (init : St → Prop) (R : St → St → Prop) (s : St) : Prop :=
  ∃ s0, init s0 ∧ star R s0 s.

(** ** Automation *)

Create HintDb wp discriminated.
Create HintDb cint discriminated.
Create HintDb bytes discriminated.
Create Rewrite HintDb wp.
Create Rewrite HintDb cint.
Create Rewrite HintDb bytes.

(** ** Lemmas: machine integers *)

Lemma uwrap_range w z : 0 ≤ w → 0 ≤ uwrap w z < 2 ^ w.
Proof. intros Hw. apply Z.mod_pos_bound, Z.pow_pos_nonneg; lia. Qed.

Lemma uwrap_small w z : 0 ≤ z < 2 ^ w → uwrap w z = z.
Proof. apply Z.mod_small. Qed.

Lemma uwrap_idem w z : 0 ≤ w → uwrap w (uwrap w z) = uwrap w z.
Proof. intros Hw. apply uwrap_small, uwrap_range, Hw. Qed.

Lemma swrap_range w z : 0 < w → - 2 ^ (w - 1) ≤ swrap w z < 2 ^ (w - 1).
Proof.
  intros Hw. unfold swrap.
  assert (2 ^ w = 2 * 2 ^ (w - 1)) as Hp.
  { rewrite <- Z.pow_succ_r by lia. f_equal. lia. }
  pose proof (Z.mod_pos_bound (z + 2 ^ (w - 1)) (2 ^ w)
                ltac:(apply Z.pow_pos_nonneg; lia)). lia.
Qed.

Lemma swrap_small w z : 0 < w → - 2 ^ (w - 1) ≤ z < 2 ^ (w - 1) → swrap w z = z.
Proof.
  intros Hw Hz. unfold swrap.
  assert (2 ^ w = 2 * 2 ^ (w - 1)) as Hp.
  { rewrite <- Z.pow_succ_r by lia. f_equal. lia. }
  rewrite Z.mod_small by lia. lia.
Qed.

#[export] Hint Resolve uwrap_range swrap_range : cint.
#[export] Hint Rewrite uwrap_small swrap_small using lia : cint.

(** ** Lemmas: bytes *)

Lemma length_le_bytes n z : length (le_bytes n z) = n.
Proof. revert z; induction n; intros z; simpl; [done|]. by rewrite IHn. Qed.

Lemma le_bytes_bytes n z : Forall is_byte (le_bytes n z).
Proof.
  revert z; induction n; intros z; simpl; constructor; [|done].
  apply Z.mod_pos_bound. lia.
Qed.

Lemma le_val_bytes n z : 0 ≤ z < 256 ^ Z.of_nat n → le_val (le_bytes n z) = z.
Proof.
  revert z; induction n as [|n IH]; intros z Hz.
  - simpl in *. lia.
  - rewrite Nat2Z.inj_succ, Z.pow_succ_r in Hz by lia. simpl.
    pose proof (Z.div_mod z 256 ltac:(lia)).
    pose proof (Z.mod_pos_bound z 256 ltac:(lia)).
    rewrite IH; [lia|]. split; [apply Z.div_pos; lia|].
    apply Z.div_lt_upper_bound; lia.
Qed.

Lemma le_bytes_val bs : Forall is_byte bs → le_bytes (length bs) (le_val bs) = bs.
Proof.
  induction 1 as [|b bs Hb _ IH]; [done|]. unfold is_byte in Hb. simpl.
  replace (b + 256 * le_val bs) with (b + le_val bs * 256) by lia.
  rewrite Z.mod_add, Z.div_add, Z.mod_small, Z.div_small by lia.
  by rewrite Z.add_0_l, IH.
Qed.

Lemma le_val_range bs : Forall is_byte bs → 0 ≤ le_val bs < 256 ^ Z.of_nat (length bs).
Proof.
  induction 1 as [|b bs Hb _ IH]; [simpl; lia|]. unfold is_byte in Hb.
  rewrite length_cons, Nat2Z.inj_succ, Z.pow_succ_r by lia. simpl. lia.
Qed.

#[export] Hint Rewrite length_le_bytes : bytes.
#[export] Hint Rewrite le_val_bytes using lia : bytes.
#[export] Hint Resolve le_bytes_bytes : bytes.

(** ** Lemmas: lists as tables *)

Lemma Forall_insert {A} (P : A → Prop) (l : list A) i x :
  Forall P l → P x → Forall P (<[i:=x]> l).
Proof.
  intros Hl Hx. apply Forall_lookup. intros j y Hj.
  destruct (decide (i = j)) as [->|Hne].
  - assert (j < length l)%nat
      by (apply lookup_lt_Some in Hj; by rewrite length_insert in Hj).
    rewrite list_lookup_insert_eq in Hj by done. by simplify_eq.
  - rewrite list_lookup_insert_ne in Hj by done. by eapply Forall_lookup_1.
Qed.

Lemma drop_take_app {A} n (l : list A) : take n l ++ drop n l = l.
Proof. apply take_drop. Qed.

(** ** Lemmas: computations *)

#[export] Instance M_equiv_equivalence {St A} : Equivalence (≡@{M St A}).
Proof.
  split.
  - by intros m s.
  - intros m1 m2 H s. by rewrite H.
  - intros m1 m2 m3 H1 H2 s. by rewrite H1.
Qed.

#[export] Instance M_bind_proper {St A B} :
  Proper (pointwise_relation A (≡) ==> (≡) ==> (≡)) (M_bind (St:=St) A B).
Proof.
  intros k1 k2 Hk m1 m2 Hm s. unfold M_bind. rewrite Hm.
  destruct (m2 s) as [[a s']|f]; [apply Hk|done].
Qed.

#[export] Instance wp_proper {St A} :
  Proper ((≡@{M St A}) ==> eq ==> eq ==> iff) wp.
Proof. intros m1 m2 Hm Q ? <- s ? <-. unfold wp. by rewrite Hm. Qed.

Section Wp.
Context {St A B : Type}.
Implicit Types (m : M St A) (k : A → M St B) (s : St).

Lemma M_bind_ret_l (a : A) k : mret a ≫= k ≡ k a.
Proof. by intros s. Qed.

Lemma M_bind_ret_r m : m ≫= mret ≡ m.
Proof. intros s. unfold mbind, M_bind. by destruct (m s) as [[??]|]. Qed.

Lemma wp_ret (a : A) Q s : Q a s → wp (mret a) Q s.
Proof. done. Qed.

Lemma wp_bind m k Q s : wp m (λ a, wp (k a) Q) s ↔ wp (m ≫= k) Q s.
Proof. unfold wp, mbind, M_bind. by destruct (m s) as [[a s']|f]. Qed.

Lemma wp_bind_intro m k Q s : wp m (λ a, wp (k a) Q) s → wp (m ≫= k) Q s.
Proof. apply wp_bind. Qed.

Lemma wp_mono m (P Q : A → St → Prop) s :
  wp m P s → (∀ a s', P a s' → Q a s') → wp m Q s.
Proof. unfold wp. destruct (m s) as [[a s']|f]; [eauto|done]. Qed.

Lemma wp_run m Q s : wp m Q s → ∃ a s', m s = Done (a, s') ∧ Q a s'.
Proof. unfold wp. destruct (m s) as [[a s']|f]; [eauto|done]. Qed.

Lemma wp_done m (Q : A → St → Prop) s a s' : m s = Done (a, s') → Q a s' → wp m Q s.
Proof. unfold wp. by intros ->. Qed.

Lemma bind_done m k s a s' r : m s = Done (a, s') → k a s' = r → (m ≫= k) s = r.
Proof. unfold mbind, M_bind. by intros ->. Qed.

Lemma bind_fault m k s f : m s = Fault f → (m ≫= k) s = Fault f.
Proof. unfold mbind, M_bind. by intros ->. Qed.

Lemma bind_inv m k s b s' :
  (m ≫= k) s = Done (b, s') → ∃ a s1, m s = Done (a, s1) ∧ k a s1 = Done (b, s').
Proof. unfold mbind, M_bind. destruct (m s) as [[a s1]|f]; [eauto|done]. Qed.

End Wp.

Lemma wp_for_from {St} (I : nat → St → Prop) (body : nat → M St unit) lo n s :
  (∀ i s', (lo ≤ i < lo + n)%nat → I i s' → wp (body i) (λ _, I (S i)) s') →
  I lo s → wp (for_from lo n body) (λ _, I (lo + n)%nat) s.
Proof.
  revert lo s. induction n as [|n IH]; intros lo s Hbody HI; simpl.
  - apply wp_ret. by rewrite Nat.add_0_r.
  - apply wp_bind. eapply wp_mono; [apply Hbody; [lia|done]|].
    intros [] s' HI'. simpl. replace (lo + S n)%nat with (S lo + n)%nat by lia.
    apply IH; [|done]. intros i s'' Hi. apply Hbody. lia.
Qed.

Lemma wp_for {St} (I : nat → St → Prop) n (body : nat → M St unit) s :
  (∀ i s', (i < n)%nat → I i s' → wp (body i) (λ _, I (S i)) s') →
  I 0%nat s → wp (for_ n body) (λ _, I n) s.
Proof. intros Hb HI. apply (wp_for_from I body 0 n s); [|done]. intros. apply Hb; [lia|done]. Qed.

(** A loop whose body faults in round [k] faults. *)
Lemma for_fault {St} (I : nat → St → Prop) (body : nat → M St unit) n k f s :
  (k < n)%nat → (∀ i s, (i < k)%nat → I i s → wp (body i) (λ _, I (S i)) s) →
  (∀ s, I k s → body k s = Fault f) → I 0%nat s → for_ n body s = Fault f.
Proof.
  intros Hk Hb Hf. replace n with (k + S (n - S k))%nat by lia. generalize (n - S k)%nat. clear Hk n. intros m.
  assert (∀ j lo s, (lo + j = k)%nat → I lo s → for_from lo (j + S m) body s = Fault f) as Hgen; [|by apply Hgen].
  induction j as [|j IH]; intros lo s0 Hlo HI; simpl.
  - rewrite Nat.add_0_r in Hlo. subst lo. apply bind_fault. by apply Hf.
  - destruct (wp_run _ _ _ (Hb lo s0 ltac:(lia) HI)) as ([] & s1 & Hr & H1).
    eapply bind_done; [exact Hr|]. apply IH; [lia|done].
Qed.

(** The rule for loops: an invariant, and a measure below the fuel that every
    iteration which continues decreases. *)
Lemma wp_iterate {St A B} (I : A → St → Prop) (measure : A → St → nat)
    (body : A → M St (A + B)) (Q : B → St → Prop) fuel a s :
  (∀ a s, I a s →
     wp (body a) (λ r s', match r with
                          | inl a' => I a' s' ∧ (measure a' s' < measure a s)%nat
                          | inr b => Q b s'
                          end) s) →
  I a s → (measure a s < fuel)%nat → wp (iterate fuel body a) Q s.
Proof.
  intros Hbody. revert a s. induction fuel as [|fuel IH]; intros a s HI Hm; [lia|]. simpl.
  apply wp_bind. eapply wp_mono; [by apply Hbody|].
  intros [a'|b] s'; simpl; [|done]. intros [HI' Hlt]. apply IH; [done|lia].
Qed.

Lemma iterate_unfold {St A B} fuel (body : A → M St (A + B)) a :
  iterate (S fuel) body a =
    (body a ≫= λ r, match r with inl a' => iterate fuel body a' | inr b => mret b end).
Proof. done. Qed.

(** ** Lemmas: step relations *)

Lemma star_trans {St} (R : St → St → Prop) s1 s2 s3 :
  star R s1 s2 → star R s2 s3 → star R s1 s3.
Proof. induction 1; eauto using star. Qed.

Lemma star_one {St} (R : St → St → Prop) s1 s2 : R s1 s2 → star R s1 s2.
Proof. eauto using star. Qed.

(** An invariant of the initial states that every step preserves holds in every
    reachable state. *)
Lemma reachable_invariant {St} (init : St → Prop) (R : St → St → Prop) (Inv : St → Prop) :
  (∀ s, init s → Inv s) → (∀ s s', Inv s → R s s' → Inv s') →
  ∀ s, reachable init R s → Inv s.
Proof.
  intros H0 Hstep s (s0 & Hi & Hs). apply H0 in Hi.
  induction Hs; eauto.
Qed.

(** One step of symbolic execution: the first action of a sequence. *)
Lemma wp_get {St} (Q : St → St → Prop) s : Q s s → wp get Q s.
Proof. done. Qed.

Lemma wp_gets {St A} (f : St → A) (Q : A → St → Prop) s : Q (f s) s → wp (gets f) Q s.
Proof. done. Qed.

Lemma wp_modify {St} (f : St → St) (Q : unit → St → Prop) s : Q tt (f s) → wp (modify f) Q s.
Proof. done. Qed.

Lemma wp_require {St A} f (o : option A) a (Q : A → St → Prop) s :
  o = Some a → Q a s → wp (require f o) Q s.
Proof. by intros ->. Qed.

Ltac wp_seq := repeat match goal with |- wp (_ ≫= _) _ _ => apply wp_bind_intro end.

Ltac wp_step :=
  cbv beta; wp_seq;
  lazymatch goal with
  | |- wp get _ _ => apply wp_get
  | |- wp (gets _) _ _ => apply wp_gets
  | |- wp (modify _) _ _ => apply wp_modify
  | |- wp (mret _) _ _ => apply wp_ret
  | |- wp (require _ _) _ _ => eapply wp_require; [eassumption || reflexivity|]
  end;
  cbv beta.

#[export] Hint Resolve wp_ret : wp.
#[export] Hint Rewrite <- @wp_bind : wp.

(** ** Lemmas: computations on a part of the state *)

Lemma zoom_done {St T A} (g : St → T) (p : T → St → St) (m : M T A) s a t :
  m (g s) = Done (a, t) → zoom g p m s = Done (a, p t s).
Proof. unfold zoom. by intros ->. Qed.

Lemma zoom_fault {St T A} (g : St → T) (p : T → St → St) (m : M T A) s f :
  m (g s) = Fault f → zoom g p m s = Fault f.
Proof. unfold zoom. by intros ->. Qed.

Lemma wp_zoom {St T A} (g : St → T) (p : T → St → St) (m : M T A) Q s :
  wp m (λ a t, Q a (p t s)) (g s) → wp (zoom g p m) Q s.
Proof. unfold wp, zoom. by destruct (m (g s)) as [[a t]|f]. Qed.

(** A loop whose body always continues, along states related by [I], exhausts
    any fuel. *)
Lemma iterate_diverges {St A B} (I : A → St → Prop) (body : A → M St (A + B)) fuel a s :
  (∀ a s, I a s → ∃ a' s', body a s = Done (inl a', s') ∧ I a' s') →
  I a s → iterate fuel body a s = Fault OutOfFuel.
Proof.
  intros Hb. revert a s. induction fuel as [|fuel IH]; intros a s HI; [done|].
  destruct (Hb a s HI) as (a' & s' & Hr & HI'). simpl.
  erewrite bind_done; [|exact Hr|reflexivity]. by apply IH.
Qed.

(** Overwriting part of a byte array. *)
Definition overwrite (off : nat) (bs l : list Z) : list Z :=
  take off l ++ bs ++ drop (off + length bs) l.

Lemma length_overwrite off bs l :
  (off + length bs ≤ length l)%nat → length (overwrite off bs l) = length l.
Proof. intros H. unfold overwrite. rewrite !length_app, length_take, length_drop. lia. Qed.

(** Writing a piece after one already written is writing both at once. *)
Lemma overwrite_extend off a b l :
  (off + length a + length b ≤ length l)%nat →
  overwrite (off + length a) b (overwrite off a l) = overwrite off (a ++ b) l.
Proof.
  intros H. unfold overwrite. rewrite <-app_assoc.
  rewrite (app_assoc (take off l)), take_app_length'
    by (rewrite length_app, length_take; lia).
  rewrite drop_app_ge by (rewrite length_app, length_take; lia).
  rewrite drop_drop, !length_app, length_take, <-app_assoc. do 4 f_equal. lia.
Qed.

Lemma overwrite_nil off l : overwrite off [] l = l.
Proof. unfold overwrite. simpl. rewrite Nat.add_0_r. apply take_drop. Qed.

Lemma take_overwrite a l : take (length a) (overwrite 0 a l) = a.
Proof. unfold overwrite. simpl. by rewrite take_app_length. Qed.

(** ** Computations that preserve a predicate of the state *)

Definition preserves {St A} (P : St → Prop) (m : M St A) : Prop :=
  ∀ s a s', P s → m s = Done (a, s') → P s'.

Lemma preserves_ret {St A} (P : St → Prop) (a : A) : preserves P (mret a : M St A).
Proof. by intros s a' s' HP [= <- <-]. Qed.

Lemma preserves_bind {St A B} (P : St → Prop) (m : M St A) (k : A → M St B) :
  preserves P m → (∀ a, preserves P (k a)) → preserves P (m ≫= k).
Proof. intros Hm Hk s b s' HP (a & s1 & Hr & Hr')%bind_inv. eapply Hk; [by eapply Hm|done]. Qed.

Lemma preserves_if {St A} (P : St → Prop) (b : bool) (m1 m2 : M St A) :
  preserves P m1 → preserves P m2 → preserves P (if b then m1 else m2).
Proof. by destruct b. Qed.

Lemma preserves_modify {St} (P : St → Prop) f : (∀ s, P s → P (f s)) → preserves P (modify f).
Proof. intros Hf s [] s' HP [= <-]. by apply Hf. Qed.

Lemma preserves_pair {St A B C} (P : St → Prop) (p : A * B) (k : A → B → M St C) :
  (∀ a b, preserves P (k a b)) → preserves P (let '(a, b) := p in k a b).
Proof. destruct p. auto. Qed.

Create HintDb preserves discriminated.
#[export] Hint Resolve preserves_ret preserves_if preserves_bind preserves_pair : preserves.

#[global] Arguments le_bytes : simpl never.
#[global] Arguments le_val : simpl never.
