(* ===== verification/DmaChannel.v ===== *)
(** * DmaChannel: one channel of the DMA proxy driver

    The run-time part of [src/driver/stream_dma/streamio-drv.c] and the data of
    [dma_tx.h]: the channel state, the transfer functions [start_transfer] and
    [wait_for_transfer], and the file operations [local_open], [release],
    [ioctl], [buffer_write], the two poll functions and [irq_handler].  Device
    creation and removal are in [Probe].

    The DMA engine provider and the scheduler are not part of the source: they
    are the operations of the class [DmaEngine], and what the theorems use of
    them is the class [DmaEngineLaws]. *)
From Stdlib Require Import ZArith Lia.
From stdpp Require Import base list numbers option gmap.
From S2P Require Import Prelude.

(** ** Data of dma_tx.h *)

Definition BUFFER_SIZE : Z := 128 * 1024.
Definition BUFFER_COUNT : nat := 32.

(** [sizeof(struct channel_buffer)]: the data, the status and the length,
    rounded up to the declared alignment of 1024 bytes. *)
Definition sizeof_channel_buffer : Z := (BUFFER_SIZE + 4 + 4 + 1023) / 1024 * 1024.

(** [_IOC(dir, type, nr, size)] of the generic ioctl encoding. *)
Definition IOC (dir ty nr size : Z) : Z :=
  Z.lor (Z.shiftl dir 30) (Z.lor (Z.shiftl size 16) (Z.lor (Z.shiftl ty 8) nr)).

Definition FINISH_XFER : Z := IOC 1 97 97 8.
Definition START_XFER : Z := IOC 1 97 98 8.
Definition XFER : Z := IOC 2 97 99 8.

Definition EINVAL : Z := 22.

(** The status is an int in memory that user space may store to:
    [PROXY_OTHER] are the values that name no status. *)
Inductive proxy_status :=
| PROXY_NO_ERROR
| PROXY_BUSY
| PROXY_TIMEOUT
| PROXY_ERROR
| PROXY_QUEUED
| PROXY_OTHER (v : Z).

#[export] Instance proxy_status_eq_dec : EqDecision proxy_status.
Proof. solve_decision. Defined.

(** [struct channel_buffer]; the words of [buffer] that were never written
    read as the zero the coherent allocation holds. *)
Record channel_buffer := mk_buffer {
  cb_buffer : gmap Z Z;
  cb_status : proxy_status;
  cb_length : Z
}.

(** [struct proxy_bd]: [cmp_done] is the counter inside the [completion];
    [sglist] is the one entry (address, length) after [sg_init_table]. *)
Record proxy_bd := mk_bd {
  cmp_done : Z;
  cookie : Z;
  dma_handle : Z;
  sglist : option (Z * Z)
}.

(** [struct dma_proxy_channel], without the fields that only device creation
    uses.  [channel_p] is the state of the engine behind the channel. *)
Record dma_proxy_channel (E : Type) := mk_channel {
  buffer_table_p : option (list channel_buffer);
  buffer_phys_addr : Z;
  bdtable : list proxy_bd;
  channel_p : E;
  direction : Z;
  bdindex : Z;
  wait_transfer_count : Z
}.
Arguments mk_channel {E}.
Arguments buffer_table_p {E}.
Arguments buffer_phys_addr {E}.
Arguments bdtable {E}.
Arguments channel_p {E}.
Arguments direction {E}.
Arguments bdindex {E}.
Arguments wait_transfer_count {E}.

Definition set_cb_status (st : proxy_status) (b : channel_buffer) : channel_buffer :=
  mk_buffer (cb_buffer b) st (cb_length b).
Definition set_cb_length (n : Z) (b : channel_buffer) : channel_buffer :=
  mk_buffer (cb_buffer b) (cb_status b) n.
Definition set_cb_buffer (d : gmap Z Z) (b : channel_buffer) : channel_buffer :=
  mk_buffer d (cb_status b) (cb_length b).

Definition set_cmp_done (n : Z) (d : proxy_bd) : proxy_bd :=
  mk_bd n (cookie d) (dma_handle d) (sglist d).
Definition set_cookie (c : Z) (d : proxy_bd) : proxy_bd :=
  mk_bd (cmp_done d) c (dma_handle d) (sglist d).
Definition set_sglist (sg : Z * Z) (d : proxy_bd) : proxy_bd :=
  mk_bd (cmp_done d) (cookie d) (dma_handle d) (Some sg).

(** ** The DMA engine and the scheduler *)

Inductive dma_status := DMA_COMPLETE | DMA_IN_PROGRESS | DMA_PAUSED | DMA_ERROR.

#[export] Instance dma_status_eq_dec : EqDecision dma_status.
Proof. solve_decision. Defined.

(** Descriptors and cookies are numbers; a negative cookie is a submit error.
    [wait_for_completion_interruptible_timeout bd jiffies] sleeps on the
    completion of descriptor [bd]; while it sleeps interrupts and completion
    callbacks run, so it is a computation on the channel.  It returns 0 on
    timeout, a negative error when interrupted and the jiffies left
    otherwise. *)
Class DmaEngine (E : Type) := {
  device_prep_slave_sg : Z * Z → Z → E → option Z * E;
  dmaengine_submit : Z → nat → E → Z * E;
  dma_async_issue_pending : E → E;
  dma_async_is_tx_complete : Z → E → dma_status;
  device_terminate_all : E → E;
  wait_for_completion_interruptible_timeout : nat → Z → M (dma_proxy_channel E) Z
}.

(** Kernel primitives on counters: [complete] and [init_completion] act on the
    [done] counter (which saturates), the atomics on a 32-bit int. *)
Definition UINT_MAX : Z := 2 ^ 32 - 1.
Definition init_completion : Z := 0.
Definition complete (done : Z) : Z := if done =? UINT_MAX then done else done + 1.
Definition atomic_inc_return (v : Z) : Z := s32 (v + 1).
Definition atomic_dec_if_positive (v : Z) : Z := if v - 1 <? 0 then v else v - 1.

Definition dma_submit_error (c : Z) : bool := c <? 0.

Section Operations.
Context {E : Type} `{DmaEngine E}.
Abbreviation chan := (dma_proxy_channel E).

Definition set_bdtable (t : list proxy_bd) (pc : chan) : chan :=
  mk_channel (buffer_table_p pc) (buffer_phys_addr pc) t (channel_p pc)
    (direction pc) (bdindex pc) (wait_transfer_count pc).
Definition set_buffers (t : list channel_buffer) (pc : chan) : chan :=
  mk_channel (Some t) (buffer_phys_addr pc) (bdtable pc) (channel_p pc)
    (direction pc) (bdindex pc) (wait_transfer_count pc).
Definition set_engine (e : E) (pc : chan) : chan :=
  mk_channel (buffer_table_p pc) (buffer_phys_addr pc) (bdtable pc) e
    (direction pc) (bdindex pc) (wait_transfer_count pc).
Definition set_bdindex (i : Z) (pc : chan) : chan :=
  mk_channel (buffer_table_p pc) (buffer_phys_addr pc) (bdtable pc) (channel_p pc)
    (direction pc) i (wait_transfer_count pc).
Definition set_wait_count (n : Z) (pc : chan) : chan :=
  mk_channel (buffer_table_p pc) (buffer_phys_addr pc) (bdtable pc) (channel_p pc)
    (direction pc) (bdindex pc) n.

(** Array accesses: an index outside the table is a fault. *)
Definition index {A} (t : list A) (i : Z) : M chan A :=
  if i <? 0 then raise OutOfBounds else require OutOfBounds (t !! Z.to_nat i).

Definition read_bd (i : Z) : M chan proxy_bd :=
  pc ← get; index (bdtable pc) i.

Definition read_buffer (i : Z) : M chan channel_buffer :=
  pc ← get; t ← require NullDeref (buffer_table_p pc); index t i.

Definition update_bd (i : Z) (f : proxy_bd → proxy_bd) : M chan unit :=
  d ← read_bd i;
  modify (λ pc, set_bdtable (<[Z.to_nat i := f d]> (bdtable pc)) pc).

Definition update_buffer (i : Z) (f : channel_buffer → channel_buffer) : M chan unit :=
  b ← read_buffer i;
  modify (λ pc, match buffer_table_p pc with
                | Some t => set_buffers (<[Z.to_nat i := f b]> t) pc
                | None => pc
                end).

(** A call into the engine that answers and changes the engine's state. *)
Definition engine {A} (f : E → A * E) : M chan A :=
  λ pc, let '(a, e) := f (channel_p pc) in Done (a, set_engine e pc).

(** ** Transfers *)

Definition sync_callback (bd : Z) : M chan unit :=
  update_bd bd (λ d, set_cmp_done (complete (cmp_done d)) d).

Definition start_transfer : M chan unit :=
  bdindex ← gets bdindex;
  d ← read_bd bdindex;
  b ← read_buffer bdindex;
  update_bd bdindex (set_sglist (dma_handle d, cb_length b)) ;;
  direction ← gets direction;
  chan_desc ← engine (device_prep_slave_sg (dma_handle d, cb_length b) direction);
  match chan_desc with
  | None => mret tt
  | Some desc =>
      update_bd bdindex (set_cmp_done init_completion) ;;
      c ← engine (dmaengine_submit desc (Z.to_nat bdindex));
      update_bd bdindex (set_cookie c) ;;
      if dma_submit_error c then mret tt
      else
        update_buffer bdindex (set_cb_status PROXY_QUEUED) ;;
        modify (λ pc, set_engine (dma_async_issue_pending (channel_p pc)) pc)
  end.

(** [jiffies] is [msecs_to_jiffies(ch_timeout_ms)].  The result of the wait is
    stored in an unsigned long before it is tested, so an interrupted wait is
    a large positive number and not zero. *)
Definition wait_for_transfer (jiffies : Z) : M chan unit :=
  bdindex ← gets bdindex;
  update_buffer bdindex (set_cb_status PROXY_BUSY) ;;
  read_bd bdindex ;;
  ret ← wait_for_completion_interruptible_timeout (Z.to_nat bdindex) jiffies;
  let timeout := u64 ret in
  d ← read_bd bdindex;
  status ← gets (λ pc, dma_async_is_tx_complete (cookie d) (channel_p pc));
  if timeout =? 0 then
    update_buffer bdindex (set_cb_status PROXY_TIMEOUT)
  else if negb (bool_decide (status = DMA_COMPLETE)) then
    update_buffer bdindex (set_cb_status PROXY_ERROR)
  else
    update_buffer bdindex (set_cb_status PROXY_NO_ERROR) ;;
    modify (λ pc, set_wait_count (atomic_dec_if_positive (wait_transfer_count pc)) pc).

(** ** File operations *)

(** [for (i = 0; i < BUFFER_COUNT; i++) buffer_table_p[i].status = PROXY_NO_ERROR]. *)
Definition clear_statuses : M chan unit :=
  for_ BUFFER_COUNT (λ i, update_buffer (Z.of_nat i) (set_cb_status PROXY_NO_ERROR)).

Definition local_open : M chan Z :=
  modify (λ pc, set_engine (device_terminate_all (channel_p pc)) pc) ;;
  clear_statuses ;;
  mret 0.

Definition release : M chan Z :=
  clear_statuses ;;
  mret 0.

(** [ioctl]: the state is [file->private_data].  The assignment to the [int]
    field [bdindex] narrows the unsigned long argument. *)
Definition ioctl (jiffies cmd arg : Z) : M (option chan) Z :=
  λ private_data,
    match private_data with
    | None => Done (- EINVAL, None)
    | Some pc =>
        match (modify (set_bdindex (s32 arg)) ;;
               if cmd =? START_XFER then start_transfer
               else if cmd =? FINISH_XFER then wait_for_transfer jiffies
               else if cmd =? XFER then start_transfer ;; wait_for_transfer jiffies
               else mret tt) pc with
        | Done (_, pc') => Done (0, Some pc')
        | Fault f => Fault f
        end
    end.

(** [buffer_write] copies the user's bytes over the current buffer; the copy
    length is not compared with the size of the buffer, and a byte stored at or
    past the end of [buffer] is a fault.  [uncopied] is the number of bytes
    [copy_from_user] could not read: it pads what it read with zeros. *)
Definition store_byte (j byte : Z) (d : gmap Z Z) : gmap Z Z :=
  let sh := 8 * (j mod 4) in
  let w := default 0 (d !! (j / 4)) in
  <[j / 4 := Z.lor (Z.land w (Z.lnot (Z.shiftl 255 sh))) (Z.shiftl byte sh)]> d.

Fixpoint store_bytes (j : Z) (bs : list Z) (d : gmap Z Z) : option (gmap Z Z) :=
  match bs with
  | [] => Some d
  | b :: bs' => if j <? BUFFER_SIZE then store_bytes (j + 1) bs' (store_byte j b d) else None
  end.

Definition copy_from_user (uncopied : nat) (from : list Z) : list Z :=
  take (length from - uncopied) from ++ replicate (Nat.min uncopied (length from)) 0.

Definition buffer_write (uncopied : nat) (buff : list Z) : M (option chan) Z :=
  λ private_data,
    match private_data with
    | None => Done (- EINVAL, None)
    | Some pc =>
        match (i ← gets bdindex;
               b ← read_buffer i;
               d ← require OutOfBounds
                     (store_bytes 0 (copy_from_user uncopied buff) (cb_buffer b));
               update_buffer i (set_cb_buffer d) ;;
               mret (if (uncopied =? 0)%nat then Z.of_nat (length buff) else - EINVAL)) pc with
        | Done (r, pc') => Done (r, Some pc')
        | Fault f => Fault f
        end
    end.

Definition POLLIN : Z := 1.
Definition POLLOUT : Z := 4.
Definition POLLRDNORM : Z := 64.

Definition dma_proxy_poll (pc : chan) : Z :=
  let t_mask := if 0 <? wait_transfer_count pc then Z.lor 0 POLLIN else 0 in
  Z.lor t_mask POLLOUT.

Definition dma_proxy_buffer_poll (pc : chan) : Z :=
  if existsb (λ d, negb (cmp_done d =? 0)) (take BUFFER_COUNT (bdtable pc))
  then Z.lor POLLOUT POLLRDNORM else 0.

Definition irq_handler (pc : chan) : chan :=
  set_wait_count (atomic_inc_return (wait_transfer_count pc)) pc.

End Operations.

(** ** Well-formed channels *)

Section Wf.
Context {E : Type}.
Abbreviation chan := (dma_proxy_channel E).

(** What device creation establishes: 32 descriptors and 32 buffers, each
    descriptor holding the bus address of its buffer, and no scatter-gather
    entry that addresses anything else. *)
Record wf_channel (pc : chan) : Prop := {
  wf_bds : length (bdtable pc) = BUFFER_COUNT;
  wf_buffers : ∃ t, buffer_table_p pc = Some t ∧ length t = BUFFER_COUNT;
  wf_handles : ∀ i d, bdtable pc !! i = Some d →
    dma_handle d = buffer_phys_addr pc + sizeof_channel_buffer * Z.of_nat i;
  wf_sg : ∀ i d a n, bdtable pc !! i = Some d → sglist d = Some (a, n) → a = dma_handle d;
  wf_count : - 2 ^ 31 ≤ wait_transfer_count pc < 2 ^ 31
}.

(** [slot pc i d b]: descriptor [i] is [d] and buffer [i] is [b]. *)
Definition slot (pc : chan) (i : nat) (d : proxy_bd) (b : channel_buffer) : Prop :=
  bdtable pc !! i = Some d ∧ ∃ t, buffer_table_p pc = Some t ∧ t !! i = Some b.

(** The part of a descriptor that only the channel's own code changes. *)
Definition bd_static (d : proxy_bd) : Z * Z * option (Z * Z) :=
  (cookie d, dma_handle d, sglist d).

(** The part of a buffer that the hardware does not write. *)
Definition cb_meta (b : channel_buffer) : proxy_status * Z := (cb_status b, cb_length b).

(** The tables of statuses and lengths, and of the data. *)
Definition metas (pc : chan) : option (list (proxy_status * Z)) :=
  fmap (M:=option) (fmap (M:=list) cb_meta) (buffer_table_p pc).
Definition datas (pc : chan) : option (list (gmap Z Z)) :=
  fmap (M:=option) (fmap (M:=list) cb_buffer) (buffer_table_p pc).

(** What may happen to a channel while a thread sleeps on a completion: the
    engine advances and, on a receiving channel, writes the data of buffers;
    completions fire, interrupts are counted. *)
Record wait_frame (pc pc' : chan) : Prop := {
  wfr_buffers : metas pc' = metas pc;
  wfr_phys : buffer_phys_addr pc' = buffer_phys_addr pc;
  wfr_dir : direction pc' = direction pc;
  wfr_index : bdindex pc' = bdindex pc;
  wfr_bds : bd_static <$> bdtable pc' = bd_static <$> bdtable pc;
  wfr_count : - 2 ^ 31 ≤ wait_transfer_count pc' < 2 ^ 31
}.

(** [frame_slot i pc pc']: only slot [i] may differ between the two tables. *)
Record frame_slot (i : nat) (pc pc' : chan) : Prop := {
  fs_bds : ∀ j, j ≠ i → bd_static <$> (bdtable pc' !! j) = bd_static <$> (bdtable pc !! j);
  fs_buffers : ∀ j t t', j ≠ i → buffer_table_p pc = Some t → buffer_table_p pc' = Some t' →
    cb_meta <$> t' !! j = cb_meta <$> t !! j;
  fs_length : ∀ j t t', buffer_table_p pc = Some t → buffer_table_p pc' = Some t' →
    cb_length <$> t' !! j = cb_length <$> t !! j
}.

(** [slot_only i pc pc']: nothing outside slot [i] differs between the two tables,
    and of slot [i] neither the data nor the length. *)
Record slot_only (i : nat) (pc pc' : chan) : Prop := {
  so_bds : ∀ j, j ≠ i → bdtable pc' !! j = bdtable pc !! j;
  so_buffers : ∀ j, j ≠ i → (buffer_table_p pc' ≫= (.!! j)) = (buffer_table_p pc ≫= (.!! j));
  so_data : ∀ j, cb_buffer <$> (buffer_table_p pc' ≫= (.!! j)) = cb_buffer <$> (buffer_table_p pc ≫= (.!! j));
  so_length : ∀ j, cb_length <$> (buffer_table_p pc' ≫= (.!! j)) = cb_length <$> (buffer_table_p pc ≫= (.!! j));
  so_device : buffer_phys_addr pc' = buffer_phys_addr pc ∧ direction pc' = direction pc
}.

End Wf.

(** The documented behaviour of the kernel's timed wait: it always returns (the
    timeout is finite), and the fields only the driver and user space write stay.
    That is an assumption on the processes too: none stores to a status or a
    length, and no second thread calls into the channel, while one waits.  Between
    the calls both may happen ([chan_step]). *)
Class DmaEngineLaws (E : Type) `{DmaEngine E} : Prop := {
  wait_returns : ∀ bd jiffies (pc : dma_proxy_channel E),
    - 2 ^ 31 ≤ wait_transfer_count pc < 2 ^ 31 →
    ∃ r pc', wait_for_completion_interruptible_timeout bd jiffies pc = Done (r, pc')
             ∧ - 2 ^ 63 ≤ r < 2 ^ 63 ∧ wait_frame pc pc'
}.

(** An engine that only reads memory: the channel transmits. *)
Class TransmitEngine (E : Type) `{DmaEngine E} : Prop := {
  wait_keeps_data : ∀ bd jiffies (pc : dma_proxy_channel E) r pc',
    wait_for_completion_interruptible_timeout bd jiffies pc = Done (r, pc') → datas pc' = datas pc
}.

(** ** Table accesses on well-formed channels *)

Section Tables.
Context {E : Type} `{DmaEngine E}.
Abbreviation chan := (dma_proxy_channel E).
Implicit Types (pc : chan) (d : proxy_bd) (b : channel_buffer).

Definition put_bd (i : nat) (d : proxy_bd) (pc : chan) : chan :=
  set_bdtable (<[i := d]> (bdtable pc)) pc.

Definition put_buffer (i : nat) (b : channel_buffer) (pc : chan) : chan :=
  match buffer_table_p pc with
  | Some t => set_buffers (<[i := b]> t) pc
  | None => pc
  end.

Lemma slot_exists pc i : wf_channel pc → (i < BUFFER_COUNT)%nat → ∃ d b, slot pc i d b.
Proof.
  intros [Hb (t & Ht & Hl) _ _ _] Hi.
  destruct (lookup_lt_is_Some_2 (bdtable pc) i) as [d Hd]; [lia|].
  destruct (lookup_lt_is_Some_2 t i) as [b Hb']; [lia|].
  exists d, b. split; [done|]. by exists t.
Qed.

Lemma index_run {A} (t : list A) i a pc :
  t !! i = Some a → index t (Z.of_nat i) pc = Done (a, pc).
Proof.
  intros Ht. unfold index. rewrite (proj2 (Z.ltb_ge _ _)) by lia.
  by rewrite Nat2Z.id, Ht.
Qed.

Lemma index_fault {A} (t : list A) i pc :
  i < 0 ∨ Z.of_nat (length t) ≤ i → index t i pc = Fault OutOfBounds.
Proof.
  intros Hi. unfold index. destruct (Z.ltb_spec i 0); [done|].
  rewrite lookup_ge_None_2 by lia. done.
Qed.

Lemma read_bd_run pc i d b : slot pc i d b → read_bd (Z.of_nat i) pc = Done (d, pc).
Proof. intros [Hd _]. unfold read_bd. by apply index_run. Qed.

Lemma read_buffer_run pc i d b : slot pc i d b → read_buffer (Z.of_nat i) pc = Done (b, pc).
Proof.
  intros (_ & t & Ht & Hb). unfold read_buffer, mbind, M_bind, get. rewrite Ht. simpl.
  by apply index_run.
Qed.

Lemma update_bd_run pc i d b f :
  slot pc i d b → update_bd (Z.of_nat i) f pc = Done (tt, put_bd i (f d) pc).
Proof.
  intros Hs. unfold update_bd. eapply bind_done; [by eapply read_bd_run|].
  unfold modify. by rewrite Nat2Z.id.
Qed.

Lemma update_buffer_run pc i d b f :
  slot pc i d b → update_buffer (Z.of_nat i) f pc = Done (tt, put_buffer i (f b) pc).
Proof.
  intros Hs. unfold update_buffer. eapply bind_done; [by eapply read_buffer_run|].
  unfold modify, put_buffer. by rewrite Nat2Z.id.
Qed.

Lemma slot_put_bd pc i d b d' : slot pc i d b → slot (put_bd i d' pc) i d' b.
Proof.
  intros [Hd Ht]. split; [|done]. simpl.
  apply list_lookup_insert_eq. by eapply lookup_lt_Some.
Qed.

Lemma slot_put_buffer pc i d b b' : slot pc i d b → slot (put_buffer i b' pc) i d b'.
Proof.
  intros (Hd & t & Ht & Hb). unfold put_buffer. rewrite Ht. split; [done|].
  exists (<[i:=b']> t). split; [done|].
  apply list_lookup_insert_eq. by eapply lookup_lt_Some.
Qed.

Lemma slot_set_engine pc i d b e : slot pc i d b → slot (set_engine e pc) i d b.
Proof. done. Qed.

Lemma wf_put_bd pc i d b d' :
  slot pc i d b → dma_handle d' = dma_handle d →
  (∀ a n, sglist d' = Some (a, n) → a = dma_handle d') →
  wf_channel pc → wf_channel (put_bd i d' pc).
Proof.
  intros [Hd _] He Hsg [Hl Hb Hh Hs Hc].
  assert (i < length (bdtable pc))%nat by (by eapply lookup_lt_Some).
  split; simpl; [by rewrite length_insert|done| | |done].
  - intros j d'' [(-> & <- & _)|[_ Hj]]%list_lookup_insert_Some; [rewrite He|]; by apply Hh.
  - intros j d'' a n [(-> & <- & _)|[_ Hj]]%list_lookup_insert_Some; [apply Hsg|by eapply Hs].
Qed.

Lemma wf_put_buffer pc i b : wf_channel pc → wf_channel (put_buffer i b pc).
Proof.
  intros [Hl (t & Ht & Hb) Hh Hs Hc]. unfold put_buffer. rewrite Ht.
  split; simpl; try done. exists (<[i:=b]> t). by rewrite length_insert.
Qed.

Lemma wf_set_engine pc e : wf_channel pc → wf_channel (set_engine e pc).
Proof. by intros [? ? ? ? ?]. Qed.

Lemma wf_set_bdindex pc i : wf_channel pc → wf_channel (set_bdindex i pc).
Proof. by intros [? ? ? ? ?]. Qed.

Lemma frame_refl i pc : frame_slot i pc pc.
Proof. split; intros; by simplify_eq. Qed.

Lemma frame_trans i pc1 pc2 pc3 :
  wf_channel pc2 → frame_slot i pc1 pc2 → frame_slot i pc2 pc3 → frame_slot i pc1 pc3.
Proof.
  intros [_ (t2 & Ht2 & _) _ _ _] [A1 A2 A3] [B1 B2 B3]. split.
  - intros j Hj. rewrite B1, A1; done.
  - intros j t t' Hj Ht Ht'. rewrite (B2 j t2 t'), (A2 j t t2); done.
  - intros j t t' Ht Ht'. rewrite (B3 j t2 t'), (A3 j t t2); done.
Qed.

Lemma frame_put_bd i pc d : frame_slot i pc (put_bd i d pc).
Proof.
  split; simpl; intros; simplify_eq; try done.
  by rewrite list_lookup_insert_ne.
Qed.

Lemma frame_put_buffer i pc d b b' :
  slot pc i d b → cb_length b' = cb_length b → frame_slot i pc (put_buffer i b' pc).
Proof.
  intros (_ & t & Ht & Hb) Hn. unfold put_buffer. rewrite Ht.
  assert (i < length t)%nat by (by eapply lookup_lt_Some).
  split; simpl; [done| |].
  - intros j t1 t2 Hj ? ?. simplify_eq. by rewrite list_lookup_insert_ne.
  - intros j t1 t2 ? ?. simplify_eq. destruct (decide (i = j)) as [->|].
    + rewrite list_lookup_insert_eq, Hb by done. simpl. by rewrite Hn.
    + by rewrite list_lookup_insert_ne.
Qed.

Lemma frame_set_engine i pc e : frame_slot i pc (set_engine e pc).
Proof. split; simpl; intros; by simplify_eq. Qed.

Lemma frame_set_bdindex i pc j : frame_slot i pc (set_bdindex j pc).
Proof. split; simpl; intros; by simplify_eq. Qed.

Lemma frame_set_wait_count i pc n : frame_slot i pc (set_wait_count n pc).
Proof. split; simpl; intros; by simplify_eq. Qed.

Lemma slot_only_refl i pc : slot_only i pc pc.
Proof. done. Qed.

Lemma slot_only_trans i pc1 pc2 pc3 : slot_only i pc1 pc2 → slot_only i pc2 pc3 → slot_only i pc1 pc3.
Proof.
  intros [A1 A2 A3 A4 [A5 A6]] [B1 B2 B3 B4 [B5 B6]].
  split; [intros j Hj; by rewrite B1, A1|intros j Hj; by rewrite B2, A2|intros j; by rewrite B3|intros j; by rewrite B4|].
  by rewrite B5, B6.
Qed.

Lemma slot_only_put_bd i pc d : slot_only i pc (put_bd i d pc).
Proof. split; try done. intros j Hj. simpl. by rewrite list_lookup_insert_ne. Qed.

Lemma slot_only_put_buffer i pc d b b' :
  slot pc i d b → cb_buffer b' = cb_buffer b → cb_length b' = cb_length b → slot_only i pc (put_buffer i b' pc).
Proof.
  intros (_ & t & Ht & Hb) Hd Hn. unfold put_buffer. rewrite Ht. assert (i < length t)%nat by (by eapply lookup_lt_Some).
  split; try done; cbn [buffer_table_p set_buffers]; rewrite Ht; cbn [mbind option_bind].
  - intros j Hj. by rewrite list_lookup_insert_ne.
  - intros j. destruct (decide (i = j)) as [<-|]; [|by rewrite list_lookup_insert_ne].
    rewrite list_lookup_insert_eq, Hb by done. simpl. by rewrite Hd.
  - intros j. destruct (decide (i = j)) as [<-|]; [|by rewrite list_lookup_insert_ne].
    rewrite list_lookup_insert_eq, Hb by done. simpl. by rewrite Hn.
Qed.

Lemma slot_only_set_engine i pc e : slot_only i pc (set_engine e pc).
Proof. done. Qed.

Lemma slot_only_set_bdindex i pc j : slot_only i pc (set_bdindex j pc).
Proof. done. Qed.

Lemma slot_only_set_wait_count i pc n : slot_only i pc (set_wait_count n pc).
Proof. done. Qed.

Lemma metas_lookup pc pc' i t t' :
  metas pc' = metas pc → buffer_table_p pc = Some t → buffer_table_p pc' = Some t' →
  cb_meta <$> t' !! i = cb_meta <$> t !! i.
Proof. unfold metas. intros Hm Ht Ht'. rewrite Ht, Ht' in Hm. injection Hm as Hm. by rewrite <-!list_lookup_fmap, Hm. Qed.

Lemma frame_wait i pc pc' : wait_frame pc pc' → frame_slot i pc pc'.
Proof.
  intros [Hb _ _ _ Hd _]. split.
  - intros j Hj. by rewrite <-!list_lookup_fmap, Hd.
  - intros j t t' _. by apply metas_lookup.
  - intros j t t' Ht Ht'. pose proof (metas_lookup _ _ j _ _ Hb Ht Ht') as Hm.
    apply (f_equal (fmap snd)) in Hm. by rewrite <-!option_fmap_compose in Hm.
Qed.

Lemma wait_slot pc pc' i d b :
  wait_frame pc pc' → slot pc i d b →
  ∃ n b', slot pc' i (set_cmp_done n d) b' ∧ cb_meta b' = cb_meta b.
Proof.
  intros [Hb _ _ _ Hd _] [Hsd (t & Ht & Hsb)].
  assert (bd_static <$> bdtable pc' !! i = Some (bd_static d)) as Hi
    by (rewrite <-list_lookup_fmap, Hd, list_lookup_fmap, Hsd; done).
  destruct (bdtable pc' !! i) as [d'|] eqn:Ei; [|done].
  destruct (buffer_table_p pc') as [t'|] eqn:Et; [|unfold metas in Hb; by rewrite Ht, Et in Hb].
  pose proof (metas_lookup _ _ i _ _ Hb Ht Et) as Hm. rewrite Hsb in Hm.
  destruct (t' !! i) as [b'|] eqn:Eb; [|done]. injection Hm as Hm.
  exists (cmp_done d'), b'. split; [|unfold cb_meta; congruence]. split; [|by exists t']. simpl in Hi.
  injection Hi as H1 H2 H3. rewrite Ei. f_equal. destruct d', d. simpl in *. by subst.
Qed.

Lemma wait_bd pc pc' i d' :
  wait_frame pc pc' → bdtable pc' !! i = Some d' →
  ∃ d, bdtable pc !! i = Some d ∧ bd_static d = bd_static d'.
Proof.
  intros [_ _ _ _ Hd _] Hi.
  assert (bd_static <$> bdtable pc !! i = Some (bd_static d')) as He
    by (rewrite <-list_lookup_fmap, <-Hd, list_lookup_fmap, Hi; done).
  destruct (bdtable pc !! i) as [d|]; [|done]. exists d. split; [done|]. by injection He as H1 H2 H3; unfold bd_static; rewrite H1, H2, H3.
Qed.

Lemma wait_wf pc pc' : wait_frame pc pc' → wf_channel pc → wf_channel pc'.
Proof.
  intros Hw [Hl Ht Hh Hs Hn]. pose proof Hw as [Hb Hp Hdir Hi Hd Hc].
  split; [| | | |done].
  - by rewrite <-(length_fmap bd_static), Hd, length_fmap.
  - destruct Ht as (t & Ht & Hl'). unfold metas in Hb. rewrite Ht in Hb.
    destruct (buffer_table_p pc') as [t'|]; [|done]. exists t'. split; [done|].
    injection Hb as Hb. by rewrite <-(length_fmap cb_meta), Hb, length_fmap.
  - intros i d' (d & Hi' & He)%(wait_bd pc); [|done]. injection He as _ He _.
    rewrite Hp, <-He. by apply Hh.
  - intros i d' a n (d & Hi' & He)%(wait_bd pc) Hsg; [|done]. injection He as _ He1 He2.
    rewrite <-He1. rewrite <-He2 in Hsg. by eapply Hs.
Qed.

End Tables.

Create HintDb dma discriminated.
#[export] Hint Resolve slot_put_bd slot_put_buffer slot_set_engine wf_put_bd wf_put_buffer
  wf_set_engine wf_set_bdindex frame_refl frame_put_bd frame_put_buffer frame_set_engine
  frame_set_bdindex frame_set_wait_count frame_wait wait_wf slot_only_refl slot_only_put_bd slot_only_put_buffer slot_only_set_engine
  slot_only_set_bdindex slot_only_set_wait_count : dma.

(** ** The transfer functions on a valid index *)

Section Transfers.
Context {E : Type} `{DmaEngine E}.
Abbreviation chan := (dma_proxy_channel E).
Implicit Types (pc : chan) (d : proxy_bd) (b : channel_buffer).

Lemma engine_run {A} (f : E → A * E) pc :
  engine f pc = Done (fst (f (channel_p pc)), set_engine (snd (f (channel_p pc))) pc).
Proof. unfold engine. by destruct (f (channel_p pc)). Qed.

(** The channel after the engine refused to prepare a descriptor. *)
Definition refused (i : nat) d b (e : E) pc : chan :=
  set_engine e (put_bd i (set_sglist (dma_handle d, cb_length b) d) pc).

(** The channel after a descriptor was submitted with the answer [c]. *)
Definition submitted (i : nat) d b (c : Z) (e : E) pc : chan :=
  set_engine e
    (put_bd i (set_cookie c (set_cmp_done init_completion
                 (set_sglist (dma_handle d, cb_length b) d))) pc).

Lemma put_bd_put_bd i d1 d2 pc : put_bd i d2 (put_bd i d1 pc) = put_bd i d2 pc.
Proof. unfold put_bd, set_bdtable. simpl. by rewrite list_insert_insert_eq. Qed.

Lemma put_bd_engine i d e pc : put_bd i d (set_engine e pc) = set_engine e (put_bd i d pc).
Proof. done. Qed.

Lemma start_run pc i d b :
  bdindex pc = Z.of_nat i → slot pc i d b →
  start_transfer pc =
    let '(desc, e1) := device_prep_slave_sg (dma_handle d, cb_length b) (direction pc) (channel_p pc) in
    match desc with
    | None => Done (tt, refused i d b e1 pc)
    | Some ds =>
        let '(c, e2) := dmaengine_submit ds i e1 in
        Done (tt, if dma_submit_error c then submitted i d b c e2 pc
                  else set_engine (dma_async_issue_pending e2)
                         (put_buffer i (set_cb_status PROXY_QUEUED b) (submitted i d b c e2 pc)))
    end.
Proof.
  intros Hi Hs. unfold start_transfer, gets.
  eapply bind_done; [done|]. rewrite Hi.
  eapply bind_done; [by eapply read_bd_run|].
  eapply bind_done; [by eapply read_buffer_run|].
  eapply bind_done; [by eapply update_bd_run|].
  eapply bind_done; [done|].
  eapply bind_done; [apply engine_run|]. simpl.
  destruct (device_prep_slave_sg _ _ _) as [[ds|] e1]; [|done]. simpl.
  eapply bind_done; [eapply update_bd_run; by eauto with dma|].
  eapply bind_done; [apply engine_run|]. rewrite Nat2Z.id. simpl.
  destruct (dmaengine_submit ds i e1) as [c e2]. simpl.
  eapply bind_done; [eapply update_bd_run; by eauto 6 with dma|].
  rewrite !put_bd_engine, !put_bd_put_bd.
  destruct (dma_submit_error c); [done|].
  eapply bind_done; [eapply update_buffer_run; by eauto 6 with dma|].
  destruct Hs as (_ & t & Ht & _). unfold modify, put_buffer. simpl. by rewrite Ht.
Qed.

Lemma slot_refused pc i d b e : slot pc i d b →
  slot (refused i d b e pc) i (set_sglist (dma_handle d, cb_length b) d) b.
Proof. unfold refused. eauto with dma. Qed.

Lemma slot_submitted pc i d b c e : slot pc i d b →
  slot (submitted i d b c e pc) i (set_cookie c (set_cmp_done init_completion
     (set_sglist (dma_handle d, cb_length b) d))) b.
Proof. unfold submitted. eauto with dma. Qed.

Lemma wf_submitted pc i d b c e :
  slot pc i d b → wf_channel pc → wf_channel (submitted i d b c e pc).
Proof.
  intros Hs Hwf. apply wf_set_engine. eapply wf_put_bd; [done|done| |done].
  simpl. intros; by simplify_eq.
Qed.

Lemma wf_refused pc i d b e : slot pc i d b → wf_channel pc → wf_channel (refused i d b e pc).
Proof.
  intros Hs Hwf. apply wf_set_engine. eapply wf_put_bd; [done|done| |done].
  simpl. intros; by simplify_eq.
Qed.

Lemma frame_submitted pc i d b c e :
  slot pc i d b → wf_channel pc → frame_slot i pc (submitted i d b c e pc).
Proof.
  intros Hs Hwf. unfold submitted. eapply (frame_trans i _ (put_bd i _ pc));
    [|apply frame_put_bd|apply frame_set_engine].
  exact (wf_submitted pc i d b c (channel_p pc) Hs Hwf).
Qed.

Lemma frame_refused pc i d b e :
  slot pc i d b → wf_channel pc → frame_slot i pc (refused i d b e pc).
Proof.
  intros Hs Hwf. unfold refused. eapply (frame_trans i _ (put_bd i _ pc));
    [|apply frame_put_bd|apply frame_set_engine].
  exact (wf_refused pc i d b (channel_p pc) Hs Hwf).
Qed.

(** Every run of [start_transfer] on a valid index returns, keeps the channel
    well formed and touches that slot only. *)
Lemma start_safe pc i d b :
  wf_channel pc → bdindex pc = Z.of_nat i → slot pc i d b →
  wp start_transfer (λ _ pc', wf_channel pc' ∧ frame_slot i pc pc' ∧ bdindex pc' = bdindex pc
                              ∧ ∃ d' b', slot pc' i d' b' ∧
                                  sglist d' = Some (dma_handle d', cb_length b)) pc.
Proof.
  intros Hwf Hi Hs. unfold wp. rewrite (start_run pc i d b) by done.
  destruct (device_prep_slave_sg _ _ _) as [[ds|] e1].
  - destruct (dmaengine_submit ds i e1) as [c e2].
    pose proof (wf_submitted pc i d b c e2 Hs Hwf) as Hwf'.
    pose proof (slot_submitted pc i d b c e2 Hs) as Hs'.
    pose proof (frame_submitted pc i d b c e2 Hs Hwf) as Hf'.
    destruct (dma_submit_error c); [by eauto 8|]. split; [|split; [|split]].
    + by apply wf_set_engine, wf_put_buffer.
    + eapply frame_trans; [by apply wf_put_buffer| |apply frame_set_engine].
      eapply frame_trans; [done|done|]. by eapply frame_put_buffer.
    + unfold put_buffer. by destruct (buffer_table_p _).
    + do 2 eexists. split; [apply slot_set_engine; by eapply slot_put_buffer|done].
  - split; [|split; [|split]].
    + by apply wf_refused.
    + by apply frame_refused.
    + done.
    + do 2 eexists. split; [by apply slot_refused|done].
Qed.

Lemma start_only pc i d b :
  bdindex pc = Z.of_nat i → slot pc i d b → wp start_transfer (λ _ pc', slot_only i pc pc') pc.
Proof.
  intros Hi Hs. unfold wp. rewrite (start_run pc i d b) by done.
  assert (∀ d' e, slot_only i pc (set_engine e (put_bd i d' pc))) as Hbd
    by (intros; eapply slot_only_trans; [apply slot_only_put_bd|apply slot_only_set_engine]).
  destruct (device_prep_slave_sg _ _ _) as [[ds|] e1]; [|apply Hbd].
  destruct (dmaengine_submit ds i e1) as [c e2].
  destruct (dma_submit_error c); [apply Hbd|].
  eapply slot_only_trans; [apply Hbd|]. eapply slot_only_trans; [|apply slot_only_set_engine].
  by eapply slot_only_put_buffer; [by apply slot_submitted|..].
Qed.

Context `{!DmaEngineLaws E}.

(** The status the wait leaves in the buffer. *)
Definition final_status (timeout : Z) (st : dma_status) : proxy_status :=
  if timeout =? 0 then PROXY_TIMEOUT
  else if negb (bool_decide (st = DMA_COMPLETE)) then PROXY_ERROR
  else PROXY_NO_ERROR.

Lemma bdindex_put_buffer i b pc : bdindex (put_buffer i b pc) = bdindex pc.
Proof. unfold put_buffer. by destruct (buffer_table_p pc). Qed.

(** Every run of [wait_for_transfer] on a valid index returns, with a status
    computed from the wait's result and the engine's answer for the cookie. *)
Lemma wait_run pc i d b jiffies :
  wf_channel pc → bdindex pc = Z.of_nat i → slot pc i d b →
  ∃ pc1 ret n b1, let st := dma_async_is_tx_complete (cookie d) (channel_p pc1) in
    let pc2 := put_buffer i (set_cb_status (final_status (u64 ret) st) b1) pc1 in
    wait_for_completion_interruptible_timeout i jiffies
      (put_buffer i (set_cb_status PROXY_BUSY b) pc) = Done (ret, pc1) ∧
    wait_frame (put_buffer i (set_cb_status PROXY_BUSY b) pc) pc1 ∧
    slot pc1 i (set_cmp_done n d) b1 ∧ cb_length b1 = cb_length b ∧
    wait_for_transfer jiffies pc =
      Done (tt, if bool_decide (final_status (u64 ret) st = PROXY_NO_ERROR)
                then set_wait_count (atomic_dec_if_positive (wait_transfer_count pc1)) pc2
                else pc2).
Proof.
  intros Hwf Hi Hs.
  pose proof (wf_put_buffer pc i (set_cb_status PROXY_BUSY b) Hwf) as Hwf1.
  destruct (wait_returns i jiffies _ (wf_count _ Hwf1)) as (ret & pc1 & Hw & Hr & Hf).
  destruct (wait_slot _ _ i d (set_cb_status PROXY_BUSY b) Hf) as (n & b1 & Hs1 & Hm1).
  { by eapply slot_put_buffer. }
  exists pc1, ret, n, b1. split; [done|]. split; [done|]. split; [done|]. split; [by injection Hm1|].
  unfold wait_for_transfer. unfold gets at 1. eapply bind_done; [done|]. rewrite Hi.
  eapply bind_done; [by eapply update_buffer_run|].
  eapply bind_done; [eapply read_bd_run; by eauto with dma|]. rewrite Nat2Z.id.
  eapply bind_done; [done|]. simpl.
  eapply bind_done; [by eapply read_bd_run|].
  eapply bind_done; [done|]. unfold final_status. simpl.
  assert (∀ f, update_buffer (Z.of_nat i) f pc1 =
               Done (tt, put_buffer i (f b1) pc1)) as Hup
    by (intros; by eapply update_buffer_run).
  destruct (u64 ret =? 0); simpl; [by rewrite Hup|].
  destruct (bool_decide (_ = DMA_COMPLETE)) eqn:Ec; simpl.
  - eapply bind_done; [by apply Hup|]. unfold modify.
    unfold put_buffer. by destruct (buffer_table_p pc1).
  - by rewrite Hup.
Qed.

Lemma wait_safe pc i d b jiffies :
  wf_channel pc → bdindex pc = Z.of_nat i → slot pc i d b →
  wp (wait_for_transfer jiffies)
    (λ _ pc', wf_channel pc' ∧ frame_slot i pc pc' ∧
       ∃ n b', slot pc' i (set_cmp_done n d) b' ∧
               cb_status b' ∈ [PROXY_NO_ERROR; PROXY_TIMEOUT; PROXY_ERROR]) pc.
Proof.
  intros Hwf Hi Hs.
  destruct (wait_run pc i d b jiffies Hwf Hi Hs) as (pc1 & ret & n & b1 & Hw & Hf & Hs1 & Hl1 & Hrun).
  unfold wp. rewrite Hrun.
  set (st := final_status _ _).
  assert (st ∈ [PROXY_NO_ERROR; PROXY_TIMEOUT; PROXY_ERROR]) as Hst.
  { subst st. unfold final_status.
    destruct (_ =? _); [|destruct (negb _)]; set_solver. }
  set (pc2 := put_buffer i (set_cb_status st b1) pc1).
  assert (wf_channel pc1) as Hwf1
    by (eapply wait_wf; [done|]; by apply wf_put_buffer).
  assert (wf_channel pc2) as Hwf2 by (unfold pc2; apply wf_put_buffer; done).
  assert (frame_slot i pc pc2) as Hfr.
  { eapply (frame_trans i _ (put_buffer i (set_cb_status PROXY_BUSY b) pc)).
    - by apply wf_put_buffer.
    - by apply (frame_put_buffer i pc d b (set_cb_status PROXY_BUSY b)).
    - eapply frame_trans; [exact Hwf1|by apply frame_wait|]. by eapply frame_put_buffer. }
  assert (slot pc2 i (set_cmp_done n d) (set_cb_status st b1)) as Hs2
    by (by eapply slot_put_buffer).
  destruct (bool_decide _).
  - split; [|split; [|by do 2 eexists]].
    + destruct Hwf2 as [? ? ? ? Hc]. split; simpl; try done.
      assert (wait_transfer_count pc2 = wait_transfer_count pc1) as <-
        by (unfold pc2, put_buffer; by destruct (buffer_table_p pc1)).
      unfold atomic_dec_if_positive. destruct (Z.ltb_spec (wait_transfer_count pc2 - 1) 0); lia.
    + eapply frame_trans; [exact Hwf2|done|apply frame_set_wait_count].
  - split; [done|]. split; [done|]. by do 2 eexists.
Qed.

(** A wait touches its own slot only, before the thread sleeps and after it. *)
Definition waits_alone (i : nat) (jiffies : Z) pc pc' : Prop :=
  ∃ pc0 ret pc1, slot_only i pc pc0 ∧
    wait_for_completion_interruptible_timeout i jiffies pc0 = Done (ret, pc1) ∧ slot_only i pc1 pc'.

Lemma wait_only pc i d b jiffies :
  wf_channel pc → bdindex pc = Z.of_nat i → slot pc i d b →
  wp (wait_for_transfer jiffies) (λ _ pc', waits_alone i jiffies pc pc') pc.
Proof.
  intros Hwf Hi Hs.
  destruct (wait_run pc i d b jiffies Hwf Hi Hs) as (pc1 & ret & n & b1 & Hw & _ & Hs1 & _ & Hrun).
  unfold wp. rewrite Hrun. exists (put_buffer i (set_cb_status PROXY_BUSY b) pc), ret, pc1.
  split; [by eapply slot_only_put_buffer|]. split; [exact Hw|].
  assert (∀ st, slot_only i pc1 (put_buffer i (set_cb_status st b1) pc1)) as Hp by (intros; by eapply slot_only_put_buffer).
  destruct (bool_decide _); [|apply Hp]. eapply slot_only_trans; [apply Hp|apply slot_only_set_wait_count].
Qed.

End Transfers.

(** ** A scripted engine

    An engine whose answers are fixed in its state; the theorems' witnesses
    run on it. *)
Record script := mk_script {
  sc_prep : bool;          (* does device_prep_slave_sg find a descriptor *)
  sc_cookie : Z;           (* the cookie of the next submission *)
  sc_issued : nat;         (* how often pending transfers were issued *)
  sc_status : dma_status;  (* what the engine says of a cookie *)
  sc_wait : Z              (* what a wait returns *)
}.

#[export] Instance script_engine : DmaEngine script := {
  device_prep_slave_sg := λ _ _ e, (if sc_prep e then Some 7 else None, e);
  dmaengine_submit := λ _ _ e, (sc_cookie e, e);
  dma_async_issue_pending := λ e,
    mk_script (sc_prep e) (sc_cookie e) (S (sc_issued e)) (sc_status e) (sc_wait e);
  dma_async_is_tx_complete := λ _ e, sc_status e;
  device_terminate_all := λ e, e;
  wait_for_completion_interruptible_timeout := λ _ _ pc, Done (s64 (sc_wait (channel_p pc)), pc)
}.

#[export] Instance script_laws : DmaEngineLaws script.
Proof.
  split. intros bd j pc Hc. exists (s64 (sc_wait (channel_p pc))), pc.
  split; [done|]. split; [by apply (swrap_range 64)|]. by split.
Qed.

(** A fresh channel at bus address [phys]. *)
Definition fresh_channel {E} (e : E) (phys : Z) : dma_proxy_channel E :=
  mk_channel (Some (replicate BUFFER_COUNT (mk_buffer ∅ PROXY_NO_ERROR 0))) phys
    ((λ i, mk_bd 0 0 (phys + sizeof_channel_buffer * Z.of_nat i) None) <$> seq 0 BUFFER_COUNT)
    e 1 0 0.

Lemma wf_fresh_channel {E} (e : E) phys : wf_channel (fresh_channel e phys).
Proof.
  unfold fresh_channel. split; unfold bdtable, buffer_phys_addr;
    [done|by eexists| | |simpl; lia]; intros i d.
  - intros (k & -> & [-> _]%lookup_seq)%list_lookup_fmap_Some. done.
  - intros a n (k & -> & _)%list_lookup_fmap_Some. done.
Qed.

(** ** The file operations on a valid buffer number *)

Section Ioctl.
Context {E : Type} `{DmaEngine E} `{!DmaEngineLaws E}.
Abbreviation chan := (dma_proxy_channel E).
Implicit Types (pc : chan).

(** The statuses a wait leaves behind.  Only [PROXY_NO_ERROR] says that the
    transfer is over. *)
Definition settled (st : proxy_status) : bool :=
  match st with
  | PROXY_NO_ERROR | PROXY_TIMEOUT | PROXY_ERROR => true
  | PROXY_BUSY | PROXY_QUEUED | PROXY_OTHER _ => false
  end.

Definition status_at pc (i : nat) : option proxy_status :=
  cb_status <$> (buffer_table_p pc ≫= (.!! i)).

Lemma slot_view pc i d b :
  slot pc i d b → bdtable pc !! i = Some d ∧ status_at pc i = Some (cb_status b).
Proof.
  intros (? & t & Ht & Hb). split; [done|]. unfold status_at. rewrite Ht. simpl. by rewrite Hb.
Qed.

(** What a command on slot [i] guarantees. *)
Record cmd_post (jiffies : Z) (i : nat) (waits : bool) pc pc' : Prop := {
  cp_wf : wf_channel pc';
  cp_frame : frame_slot i pc pc';
  cp_only : if waits then waits_alone i jiffies pc pc' else slot_only i pc pc';
  cp_final : waits = true → settled <$> status_at pc' i = Some true
}.

Lemma start_cmd pc jiffies i :
  wf_channel pc → bdindex pc = Z.of_nat i → (i < BUFFER_COUNT)%nat →
  wp start_transfer (λ _ pc', cmd_post jiffies i false pc pc' ∧ bdindex pc' = bdindex pc) pc.
Proof.
  intros Hwf Hi Hlt. destruct (slot_exists pc i Hwf Hlt) as (d & b & Hs).
  pose proof (start_only pc i d b Hi Hs) as Ho. pose proof (start_safe pc i d b Hwf Hi Hs) as Hp. unfold wp in *.
  destruct (start_transfer pc) as [[[] pc']|]; [|done]. destruct Hp as (? & ? & ? & _). split; [|done]. by split.
Qed.

Lemma wait_cmd pc i jiffies :
  wf_channel pc → bdindex pc = Z.of_nat i → (i < BUFFER_COUNT)%nat →
  wp (wait_for_transfer jiffies) (λ _ pc', cmd_post jiffies i true pc pc') pc.
Proof.
  intros Hwf Hi Hlt. destruct (slot_exists pc i Hwf Hlt) as (d & b & Hs).
  pose proof (wait_only pc i d b jiffies Hwf Hi Hs) as Ho. pose proof (wait_safe pc i d b jiffies Hwf Hi Hs) as Hp.
  unfold wp in *. destruct (wait_for_transfer jiffies pc) as [[[] pc']|]; [|done].
  destruct Hp as (? & ? & n & b' & (_ & t & Ht & Hb) & Hst). split; [done|done|done|].
  intros _. unfold status_at. rewrite Ht. simpl. rewrite Hb. simpl.
  apply list_elem_of_In in Hst. by destruct Hst as [<-|[<-|[<-|[]]]].
Qed.

Lemma cmd_post_trans jiffies i w pc1 pc2 pc3 :
  cmd_post jiffies i false pc1 pc2 → cmd_post jiffies i w pc2 pc3 → cmd_post jiffies i w pc1 pc3.
Proof.
  intros [? ? Ho _] [? ? Hw ?]. split; [done|by apply (frame_trans i pc1 pc2)| |done].
  destruct w; [|by eapply slot_only_trans]. destruct Hw as (p0 & ret & p1 & H0 & Hw & H1).
  exists p0, ret, p1. split; [by eapply slot_only_trans|done].
Qed.

Definition waits_cmd (cmd : Z) : bool := (cmd =? FINISH_XFER) || (cmd =? XFER).

Lemma ioctl_safe pc jiffies cmd i :
  wf_channel pc → (i < BUFFER_COUNT)%nat →
  ∃ pc', ioctl jiffies cmd (Z.of_nat i) (Some pc) = Done (0, Some pc') ∧
         cmd_post jiffies i (waits_cmd cmd) pc pc'.
Proof.
  intros Hwf Hi. unfold ioctl, waits_cmd.
  rewrite (swrap_small 32) by (unfold BUFFER_COUNT in Hi; lia).
  set (pc0 := set_bdindex (Z.of_nat i) pc).
  assert (cmd_post jiffies i false pc pc0) as H0.
  { split; [by apply wf_set_bdindex|apply frame_set_bdindex|apply slot_only_set_bdindex|done]. }
  match goal with |- ∃ _, match (_ ;; ?m) _ with _ => _ end = _ ∧ _ =>
    cut (wp m (λ _ pc', cmd_post jiffies i ((cmd =? FINISH_XFER) || (cmd =? XFER)) pc0 pc') pc0) end.
  { intros ([] & pc' & Hrun & Hp)%wp_run. exists pc'.
    unfold mbind, M_bind, modify at 1. fold pc0. unfold mbind, M_bind in Hrun. rewrite Hrun.
    split; [done|]. by eapply cmd_post_trans. }
  destruct H0 as [Hwf0 _ _ _].
  destruct (Z.eqb_spec cmd START_XFER) as [->|_].
  { eapply wp_mono; [by apply (start_cmd pc0 jiffies i)|]. by intros [] pc' [? _]. }
  destruct (Z.eqb_spec cmd FINISH_XFER) as [->|_]; [by apply wait_cmd|].
  destruct (Z.eqb_spec cmd XFER) as [->|_]; simpl.
  - apply wp_bind. eapply wp_mono; [by apply (start_cmd pc0 jiffies i)|].
    intros [] pc1 [Hp1 Hi1]. eapply wp_mono.
    + apply (wait_cmd pc1 i); [apply Hp1|by rewrite Hi1|done].
    + intros [] pc2 Hp2. by eapply cmd_post_trans.
  - apply wp_ret. split; [done|apply frame_refl|apply slot_only_refl|done].
Qed.

Lemma transfer_bad_index pc jiffies :
  wf_channel pc → bdindex pc < 0 ∨ Z.of_nat BUFFER_COUNT ≤ bdindex pc →
  start_transfer pc = Fault OutOfBounds ∧ wait_for_transfer jiffies pc = Fault OutOfBounds.
Proof.
  intros [Hl (t & Ht & Hlt) _ _ _] Hi.
  unfold start_transfer, wait_for_transfer, update_buffer, read_bd, read_buffer.
  unfold gets, mbind, M_bind, get. rewrite Ht. simpl.
  rewrite !index_fault by lia. done.
Qed.

End Ioctl.

(** ** Runs of a channel *)

Section Runs.
Context {E : Type} `{DmaEngine E} `{!DmaEngineLaws E}.
Abbreviation chan := (dma_proxy_channel E).
Implicit Types (pc : chan).

(** One event in the life of an opened channel: a file operation of the driver,
    a completion callback, an interrupt, or a user process storing into the
    mapped buffers. *)
Inductive chan_step : chan → chan → Prop :=
| step_open pc r pc' : local_open pc = Done (r, pc') → chan_step pc pc'
| step_release pc r pc' : release pc = Done (r, pc') → chan_step pc pc'
| step_ioctl pc jiffies cmd i r pc' : (i < BUFFER_COUNT)%nat →
    ioctl jiffies cmd (Z.of_nat i) (Some pc) = Done (r, Some pc') → chan_step pc pc'
| step_write pc uncopied buff r pc' :
    buffer_write uncopied buff (Some pc) = Done (r, Some pc') → chan_step pc pc'
| step_callback pc i pc' : sync_callback i pc = Done (tt, pc') → chan_step pc pc'
| step_irq pc : chan_step pc (irq_handler pc)
| step_user pc i b : chan_step pc (put_buffer i b pc).

Lemma index_inv {A} (t : list A) i pc a pc' :
  index t i pc = Done (a, pc') → pc' = pc ∧ t !! Z.to_nat i = Some a.
Proof.
  unfold index, require, raise. destruct (i <? 0); [done|].
  destruct (t !! Z.to_nat i); [|done]. by intros [= <- <-].
Qed.

Lemma read_bd_inv pc i d pc' :
  read_bd i pc = Done (d, pc') → pc' = pc ∧ bdtable pc !! Z.to_nat i = Some d.
Proof. apply index_inv. Qed.

Lemma read_buffer_inv pc i b pc' : read_buffer i pc = Done (b, pc') → pc' = pc.
Proof.
  unfold read_buffer, mbind, M_bind, get. destruct (buffer_table_p pc) as [t|]; [|done].
  intros [-> _]%(index_inv t). done.
Qed.

Lemma wf_update_buffer pc i f pc' :
  wf_channel pc → update_buffer i f pc = Done (tt, pc') → wf_channel pc'.
Proof.
  intros Hwf (b & pc1 & Hr & Hm)%bind_inv.
  apply read_buffer_inv in Hr as ->.
  injection Hm as <-. fold (put_buffer (Z.to_nat i) (f b) pc). by apply wf_put_buffer.
Qed.

Lemma wf_sync_callback pc i pc' :
  wf_channel pc → sync_callback i pc = Done (tt, pc') → wf_channel pc'.
Proof.
  intros Hwf (d & pc1 & Hr & Hm)%bind_inv.
  apply read_bd_inv in Hr as [-> Hd].
  destruct Hwf as [Hl (t & Ht & Hlt) Hh Hs Hc].
  destruct (lookup_lt_is_Some_2 t (Z.to_nat i)) as [b Hb].
  { apply lookup_lt_Some in Hd. lia. }
  injection Hm as <-. eapply (wf_put_bd pc (Z.to_nat i) d b (set_cmp_done (complete (cmp_done d)) d)).
  - split; [done|]. by exists t.
  - done.
  - intros a n. simpl. by apply (Hs (Z.to_nat i)).
  - split; try done. by exists t.
Qed.

Lemma clear_statuses_run pc :
  wf_channel pc →
  wp clear_statuses (λ _ pc', wf_channel pc' ∧
    bdtable pc' = bdtable pc ∧ channel_p pc' = channel_p pc ∧
    (∀ i, (i < BUFFER_COUNT)%nat → status_at pc' i = Some PROXY_NO_ERROR) ∧
    (∀ i t t', buffer_table_p pc = Some t → buffer_table_p pc' = Some t' →
       cb_buffer <$> t' !! i = cb_buffer <$> t !! i ∧ cb_length <$> t' !! i = cb_length <$> t !! i)) pc.
Proof.
  intros Hwf. unfold clear_statuses.
  eapply wp_mono; [apply (wp_for (λ n pc', wf_channel pc' ∧
    bdtable pc' = bdtable pc ∧ channel_p pc' = channel_p pc ∧
    (∀ i, (i < n)%nat → status_at pc' i = Some PROXY_NO_ERROR) ∧
    (∀ i t t', buffer_table_p pc = Some t → buffer_table_p pc' = Some t' →
       cb_buffer <$> t' !! i = cb_buffer <$> t !! i ∧ cb_length <$> t' !! i = cb_length <$> t !! i)))|].
  - intros n pc1 Hn (Hwf1 & Hb & He & Hst & Hd).
    destruct (slot_exists pc1 n Hwf1 Hn) as (d & b & Hs).
    unfold wp. erewrite update_buffer_run by done.
    pose proof Hs as (_ & t & Ht & Htn).
    assert (n < length t)%nat by (by eapply lookup_lt_Some).
    split; [by apply wf_put_buffer|]. unfold put_buffer, status_at. rewrite Ht. simpl.
    split; [done|]. split; [done|]. split.
    + intros i Hi. destruct (decide (n = i)) as [->|Hne].
      * by rewrite list_lookup_insert_eq.
      * rewrite list_lookup_insert_ne by done.
        specialize (Hst i ltac:(lia)). unfold status_at in Hst. by rewrite Ht in Hst.
    + intros i t0 t' Ht0 Ht'. simplify_eq. specialize (Hd i t0 t Ht0 Ht).
      destruct (decide (n = i)) as [->|Hne].
      * rewrite list_lookup_insert_eq by done. by rewrite Htn in Hd.
      * by rewrite list_lookup_insert_ne.
  - split; [done|]. split; [done|]. split; [done|]. split; [lia|]. intros. by simplify_eq.
  - done.
Qed.

Lemma wf_step pc pc' : wf_channel pc → chan_step pc pc' → wf_channel pc'.
Proof.
  intros Hwf Hs. destruct Hs as [pc r pc' Hr|pc r pc' Hr|pc jiffies cmd i r pc' Hi Hr
    |pc u buff r pc' Hr|pc i pc' Hr|pc|pc i b].
  - apply bind_inv in Hr as ([] & pc1 & [= <-] & Hr).
    pose proof (clear_statuses_run _ (wf_set_engine pc (device_terminate_all (channel_p pc)) Hwf)) as Hc.
    apply bind_inv in Hr as ([] & pc2 & Hc2 & [= <- <-]). unfold wp in Hc. rewrite Hc2 in Hc. apply Hc.
  - pose proof (clear_statuses_run _ Hwf) as Hc.
    apply bind_inv in Hr as ([] & pc2 & Hc2 & [= <- <-]). unfold wp in Hc. rewrite Hc2 in Hc. apply Hc.
  - destruct (ioctl_safe pc jiffies cmd i Hwf Hi) as (pc2 & Hr2 & Hp). rewrite Hr in Hr2.
    simplify_eq. apply Hp.
  - unfold buffer_write in Hr.
    match type of Hr with match ?m pc with _ => _ end = _ => destruct (m pc) as [[z pc2]|] eqn:Hm end;
      [|done]. simplify_eq.
    apply bind_inv in Hm as (i & pc1 & [= <- <-] & Hm).
    apply bind_inv in Hm as (b & pc1 & Hb & Hm).
    apply read_buffer_inv in Hb as ->.
    apply bind_inv in Hm as (d & pc1 & Hd & Hm). unfold require in Hd.
    destruct (store_bytes _ _ _); [|done]. injection Hd as <- <-.
    apply bind_inv in Hm as ([] & pc3 & Hu & [= _ <-]). by eapply wf_update_buffer.
  - by eapply wf_sync_callback.
  - destruct Hwf as [? ? ? ? ?]. split; try done. simpl. unfold atomic_inc_return.
    by apply (swrap_range 32).
  - by apply wf_put_buffer.
Qed.

Lemma wf_reachable pc e phys :
  reachable (λ pc0, pc0 = fresh_channel e phys) chan_step pc → wf_channel pc.
Proof.
  apply reachable_invariant; [|apply wf_step]. intros ? ->. apply wf_fresh_channel.
Qed.

End Runs.

(** ** Properties *)

Section Properties.
Context {E : Type} `{DmaEngine E}.
Abbreviation chan := (dma_proxy_channel E).

(** C10: [start_transfer] on a valid buffer programs exactly that buffer's bus
    address and the length stored in the shared memory; if the engine has no
    descriptor the status stays, if the submission fails the cookie records the
    error and the status stays, and otherwise the completion is re-armed and
    the buffer becomes PROXY_QUEUED. *)
Theorem start_transfer_outcomes (pc : chan) i d b :
  wf_channel pc → bdindex pc = Z.of_nat i → slot pc i d b →
  let req := (dma_handle d, cb_length b) in
  let '(desc, e1) := device_prep_slave_sg req (direction pc) (channel_p pc) in
  ∃ pc', start_transfer pc = Done (tt, pc') ∧ frame_slot i pc pc' ∧
    sglist <$> bdtable pc' !! i = Some (Some req) ∧
    match desc with
    | None => status_at pc' i = Some (cb_status b) ∧ cookie <$> bdtable pc' !! i = Some (cookie d)
    | Some ds =>
        let c := fst (dmaengine_submit ds i e1) in
        cookie <$> bdtable pc' !! i = Some c ∧ cmp_done <$> bdtable pc' !! i = Some 0 ∧
        status_at pc' i = Some (if c <? 0 then cb_status b else PROXY_QUEUED)
    end.
Proof.
  intros Hwf Hi Hs req. pose proof (start_run pc i d b Hi Hs) as Hrun.
  pose proof (start_safe pc i d b Hwf Hi Hs) as Hsafe. unfold wp in Hsafe. rewrite Hrun in Hsafe.
  rewrite Hrun. clear Hrun. fold req in Hsafe |- *.
  destruct (device_prep_slave_sg _ _ _) as [[ds|] e1].
  - destruct (dmaengine_submit ds i e1) as [c e2]. simpl.
    eexists. split; [done|]. split; [apply Hsafe|].
    pose proof (slot_submitted pc i d b c e2 Hs) as Hs'. unfold dma_submit_error in *.
    destruct (c <? 0).
    + by destruct (slot_view _ _ _ _ Hs') as [-> ->].
    + pose proof (slot_set_engine _ _ _ _ (dma_async_issue_pending e2)
        (slot_put_buffer _ _ _ _ (set_cb_status PROXY_QUEUED b) Hs')) as Hs2.
      by destruct (slot_view _ _ _ _ Hs2) as [-> ->].
  - eexists. split; [done|]. split; [apply Hsafe|].
    by destruct (slot_view _ _ _ _ (slot_refused pc i d b e1 Hs)) as [-> ->].
Qed.

Context `{!DmaEngineLaws E}.

(** C15: [wait_for_transfer] on a valid buffer always returns, and the status it
    leaves is PROXY_TIMEOUT exactly when the wait returned 0, PROXY_ERROR when
    it did not and the engine does not report the cookie complete (so also for
    a wait a signal interrupted), and PROXY_NO_ERROR otherwise, which alone
    consumes one counted interrupt if there is one. *)
Theorem wait_for_transfer_outcomes (pc : chan) i d b jiffies :
  wf_channel pc → bdindex pc = Z.of_nat i → slot pc i d b →
  ∃ ret pc1 pc',
    wait_for_completion_interruptible_timeout i jiffies
      (put_buffer i (set_cb_status PROXY_BUSY b) pc) = Done (ret, pc1) ∧
    wait_for_transfer jiffies pc = Done (tt, pc') ∧
    let complete := bool_decide (dma_async_is_tx_complete (cookie d) (channel_p pc1) = DMA_COMPLETE) in
    status_at pc' i = Some (if ret =? 0 then PROXY_TIMEOUT
                            else if complete then PROXY_NO_ERROR else PROXY_ERROR) ∧
    wait_transfer_count pc' =
      (if negb (ret =? 0) && complete && (0 <? wait_transfer_count pc1)
       then wait_transfer_count pc1 - 1 else wait_transfer_count pc1) ∧
    frame_slot i pc pc'.
Proof.
  intros Hwf Hi Hs.
  destruct (wait_run pc i d b jiffies Hwf Hi Hs) as (pc1 & ret & n & b1 & Hw & Hf & Hs1 & _ & Hrun).
  pose proof (wait_safe pc i d b jiffies Hwf Hi Hs) as Hsafe. unfold wp in Hsafe. rewrite Hrun in Hsafe.
  destruct (wait_returns i jiffies _ (wf_count _ (wf_put_buffer pc i (set_cb_status PROXY_BUSY b) Hwf)))
    as (ret' & pc1' & Hw' & Hr & _). rewrite Hw in Hw'. injection Hw' as <- <-.
  do 3 eexists. split; [done|]. split; [done|].
  assert ((u64 ret =? 0) = (ret =? 0)) as Hz.
  { unfold uwrap. destruct (Z.eqb_spec ret 0) as [->|Hn]; [done|]. apply Z.eqb_neq. intros Hm.
    apply Z.mod_divide in Hm as [k Hk]; [|done]. change (2 ^ 64) with 18446744073709551616 in Hk. lia. }
  unfold final_status in *. rewrite Hz in *.
  destruct Hs1 as (Hd1 & t & Ht & Hb1).
  assert (i < length t)%nat by (by eapply lookup_lt_Some).
  destruct (ret =? 0); simpl in *;
    [|destruct (bool_decide (dma_async_is_tx_complete _ _ = _)); simpl in *].
  all: split; [unfold status_at, put_buffer; rewrite Ht; simpl; by rewrite list_lookup_insert_eq by done|].
  all: split; [|apply Hsafe].
  - unfold put_buffer. by rewrite Ht.
  - unfold atomic_dec_if_positive. destruct (Z.ltb_spec (wait_transfer_count pc1 - 1) 0), (Z.ltb_spec 0 (wait_transfer_count pc1)); lia.
  - unfold put_buffer. by rewrite Ht.
Qed.

(** C9: In every state a channel can reach, every ioctl on a valid buffer number
    returns 0 and leads to a state from which the same holds.  A command that does
    not wait leaves every other descriptor, completion included, and every other
    buffer exactly as it was, and of its own buffer the data and the length; one
    that waits does so up to the moment the thread sleeps and from the moment it
    wakes, and what runs while it sleeps leaves the statuses and lengths and the
    cookies, addresses and scatter-gather entries alone.  The buffer of a command
    that waits has one of the three statuses of a wait at the end: no error,
    time-out or error. *)
Theorem ioctl_reachable_contract (pc : chan) e phys jiffies cmd i :
  reachable (λ pc0, pc0 = fresh_channel e phys) chan_step pc → (i < BUFFER_COUNT)%nat →
  ∃ pc', ioctl jiffies cmd (Z.of_nat i) (Some pc) = Done (0, Some pc') ∧
    reachable (λ pc0, pc0 = fresh_channel e phys) chan_step pc' ∧
    frame_slot i pc pc' ∧
    (if waits_cmd cmd then waits_alone i jiffies pc pc' else slot_only i pc pc') ∧
    (waits_cmd cmd = true → settled <$> status_at pc' i = Some true).
Proof.
  intros Hr Hi. pose proof (wf_reachable pc e phys Hr) as Hwf.
  destruct (ioctl_safe pc jiffies cmd i Hwf Hi) as (pc' & Hrun & [Hwf' Hf Ho Hfin]).
  exists pc'. split; [done|]. split; [|done].
  destruct Hr as (pc0 & Hp0 & Hst). exists pc0. split; [done|].
  eapply star_trans; [done|]. apply star_one. by eapply step_ioctl.
Qed.

(** C16: In every reachable state a descriptor's scatter-gather entry, if it has
    one, is the address of its own buffer; the buffers' address ranges lie
    inside the allocation and do not overlap. *)
Theorem dma_addresses_confined (pc : chan) e phys i j di dj a n :
  reachable (λ pc0, pc0 = fresh_channel e phys) chan_step pc →
  bdtable pc !! i = Some di → bdtable pc !! j = Some dj → sglist di = Some (a, n) →
  a = buffer_phys_addr pc + sizeof_channel_buffer * Z.of_nat i ∧
  buffer_phys_addr pc ≤ a ∧
  a + BUFFER_SIZE ≤ buffer_phys_addr pc + sizeof_channel_buffer * Z.of_nat BUFFER_COUNT ∧
  (i ≠ j → a + BUFFER_SIZE ≤ dma_handle dj ∨ dma_handle dj + BUFFER_SIZE ≤ a).
Proof.
  intros Hr%wf_reachable Hi Hj Hsg. destruct Hr as [Hl _ Hh Hs _].
  rewrite (Hs i di a n Hi Hsg), (Hh i di Hi), (Hh j dj Hj).
  apply lookup_lt_Some in Hi, Hj. rewrite Hl in Hi, Hj.
  unfold BUFFER_SIZE, BUFFER_COUNT in *. change sizeof_channel_buffer with 132096. lia.
Qed.

(** An ioctl whose argument is not a buffer number indexes outside the
    tables for every transfer command; the driver checks nothing but a null
    channel, for which alone it reports an error. *)
Theorem ioctl_unchecked_index (pc : chan) jiffies cmd arg :
  wf_channel pc → s32 arg < 0 ∨ Z.of_nat BUFFER_COUNT ≤ s32 arg →
  ioctl jiffies cmd arg None = Done (- EINVAL, None) ∧
  ioctl jiffies cmd arg (Some pc) =
    (if (cmd =? START_XFER) || (cmd =? FINISH_XFER) || (cmd =? XFER)
     then Fault OutOfBounds else Done (0, Some (set_bdindex (s32 arg) pc))).
Proof.
  intros Hwf Ha. split; [done|]. unfold ioctl, mbind, M_bind, modify.
  destruct (transfer_bad_index (set_bdindex (s32 arg) pc) jiffies) as [H1 H2];
    [by apply wf_set_bdindex|done|].
  destruct (cmd =? START_XFER); [by rewrite H1|].
  destruct (cmd =? FINISH_XFER); [by rewrite H2|].
  destruct (cmd =? XFER); [by rewrite H1|]. done.
Qed.

(** Interrupts are counted and poll reports the channel readable exactly
    while the count is positive (it always reports it writable); the 32-bit
    count wraps at 2^31 and the channel then stops being reported readable. *)
Theorem poll_counts_interrupts (pc : chan) (n : nat) :
  0 ≤ wait_transfer_count pc < 2 ^ 31 → wait_transfer_count pc + Z.of_nat n ≤ 2 ^ 31 →
  let pc' := Nat.iter n irq_handler pc in
  let count := wait_transfer_count pc + Z.of_nat n in
  wait_transfer_count pc' = (if count =? 2 ^ 31 then - 2 ^ 31 else count) ∧
  dma_proxy_poll pc' = (if (0 <? count) && (count <? 2 ^ 31) then Z.lor POLLIN POLLOUT else POLLOUT).
Proof.
  intros H0 Hn pc' count.
  assert (∀ m, (m ≤ n)%nat → wait_transfer_count (Nat.iter m irq_handler pc) =
    (if wait_transfer_count pc + Z.of_nat m =? 2 ^ 31 then - 2 ^ 31
     else wait_transfer_count pc + Z.of_nat m)) as Hc.
  { induction m as [|m IH]; intros Hm.
    - change (Z.of_nat 0) with 0. rewrite Z.add_0_r. destruct (Z.eqb_spec (wait_transfer_count pc) (2 ^ 31)); [lia|done].
    - change (wait_transfer_count (Nat.iter (S m) irq_handler pc)) with
        (atomic_inc_return (wait_transfer_count (Nat.iter m irq_handler pc))).
      rewrite IH by lia. destruct (Z.eqb_spec (wait_transfer_count pc + Z.of_nat m) (2 ^ 31)); [lia|].
      unfold atomic_inc_return.
      destruct (Z.eqb_spec (wait_transfer_count pc + Z.of_nat (S m)) (2 ^ 31)).
      + replace (wait_transfer_count pc + Z.of_nat m + 1) with (2 ^ 31) by lia. done.
      + rewrite (swrap_small 32); lia. }
  assert (wait_transfer_count pc' = (if count =? 2 ^ 31 then - 2 ^ 31 else count)) as He
    by (apply Hc; lia).
  split; [done|]. unfold dma_proxy_poll. rewrite He.
  destruct (Z.eqb_spec count (2 ^ 31)) as [->|]; [done|].
  destruct (Z.ltb_spec 0 count); simpl; [|done].
  destruct (Z.ltb_spec count (2 ^ 31)); [done|]. unfold count in *. lia.
Qed.

End Properties.

(** ** Concrete runs *)

Definition demo_engine : script := mk_script true 5 0 DMA_COMPLETE 100.
Definition demo_channel : dma_proxy_channel script :=
  set_bdindex 3 (fresh_channel demo_engine 4096).
Definition demo_bd : proxy_bd := mk_bd 0 0 (4096 + sizeof_channel_buffer * 3) None.
Definition demo_buffer : channel_buffer := mk_buffer ∅ PROXY_NO_ERROR 0.

Lemma demo_wf : wf_channel demo_channel.
Proof. apply wf_set_bdindex, wf_fresh_channel. Qed.

Lemma demo_slot : slot demo_channel 3 demo_bd demo_buffer.
Proof. split; [reflexivity|]. eexists. split; reflexivity. Qed.

Lemma demo_reachable : reachable (λ pc0, pc0 = fresh_channel demo_engine 4096) chan_step
  (irq_handler (fresh_channel demo_engine 4096)).
Proof. eexists. split; [reflexivity|]. apply star_one, step_irq. Qed.

Lemma start_transfer_outcomes_witness :
  ∃ pc', start_transfer demo_channel = Done (tt, pc') ∧ status_at pc' 3 = Some PROXY_QUEUED.
Proof.
  pose proof (start_transfer_outcomes demo_channel 3 demo_bd demo_buffer demo_wf eq_refl demo_slot) as Hx.
  cbn [device_prep_slave_sg script_engine] in Hx.
  destruct Hx as (pc' & Hrun & _ & _ & _ & _ & Hst). exists pc'. split; [exact Hrun|exact Hst].
Defined.

Lemma wait_for_transfer_outcomes_witness :
  ∃ pc', wait_for_transfer 300 demo_channel = Done (tt, pc') ∧ frame_slot 3 demo_channel pc'.
Proof.
  destruct (wait_for_transfer_outcomes demo_channel 3 demo_bd demo_buffer 300 demo_wf eq_refl demo_slot)
    as (ret & pc1 & pc' & _ & Hrun & _ & _ & Hf). exists pc'. split; [exact Hrun|exact Hf].
Defined.

Lemma ioctl_reachable_contract_witness :
  ∃ pc', ioctl 300 XFER 7 (Some (irq_handler (fresh_channel demo_engine 4096))) = Done (0, Some pc')
         ∧ settled <$> status_at pc' 7 = Some true.
Proof.
  destruct (ioctl_reachable_contract (irq_handler (fresh_channel demo_engine 4096)) demo_engine 4096
    300 XFER 7 demo_reachable ltac:(unfold BUFFER_COUNT; lia)) as (pc' & Hrun & _ & _ & _ & Hst).
  exists pc'. split; [exact Hrun|]. exact (Hst eq_refl).
Defined.

(** A state in which slot 3 holds a programmed descriptor. *)
Definition demo_started : dma_proxy_channel script :=
  match ioctl 300 START_XFER 3 (Some (fresh_channel demo_engine 4096)) with
  | Done (_, Some pc) => pc
  | _ => fresh_channel demo_engine 4096
  end.

Lemma demo_started_reachable :
  reachable (λ pc0, pc0 = fresh_channel demo_engine 4096) chan_step demo_started.
Proof.
  eexists. split; [reflexivity|]. apply star_one.
  apply (step_ioctl _ 300 START_XFER 3 0); [unfold BUFFER_COUNT; lia|vm_compute; reflexivity].
Qed.

Lemma dma_addresses_confined_witness :
  4096 + sizeof_channel_buffer * 3 + BUFFER_SIZE ≤ 4096 + sizeof_channel_buffer * 4.
Proof.
  destruct (dma_addresses_confined demo_started demo_engine 4096 3 4
    (mk_bd 0 5 (4096 + sizeof_channel_buffer * 3) (Some (4096 + sizeof_channel_buffer * 3, 0)))
    (mk_bd 0 0 (4096 + sizeof_channel_buffer * 4) None)
    (4096 + sizeof_channel_buffer * 3) 0 demo_started_reachable
    eq_refl eq_refl eq_refl) as (_ & _ & _ & [Hd|Hd]); [lia|exact Hd|]. vm_compute in Hd. congruence.
Defined.

Lemma ioctl_unchecked_index_witness :
  ioctl 300 START_XFER 32 (Some demo_channel) = Fault OutOfBounds.
Proof.
  destruct (ioctl_unchecked_index demo_channel 300 START_XFER 32 demo_wf
    ltac:(right; vm_compute; congruence)) as [_ Hx]. exact Hx.
Defined.

Lemma poll_counts_interrupts_witness :
  dma_proxy_poll (Nat.iter 2 irq_handler demo_channel) = 5.
Proof.
  destruct (poll_counts_interrupts demo_channel 2) as [_ Hx];
    [vm_compute; split; congruence|vm_compute; congruence|exact Hx].
Defined.
