(* ===== verification/BufferData.v ===== *)
(** * BufferData: the bytes of the channel buffers

    A channel buffer of [DmaChannel] holds 32-bit words; user space and the
    device see bytes.  This file reads the words as bytes, shows that the byte
    stores of [buffer_write] ([src/driver/stream_dma/streamio-drv.c]) are an
    overwrite of the byte array, and that no file operation of a transmitting
    channel but [buffer_write] changes the data of a buffer. *)
From Stdlib Require Import ZArith Lia.
From stdpp Require Import base list numbers option gmap.
From S2P Require Import Prelude DmaChannel.

(** The byte at offset [j], least significant first, and the first [n]. *)
Definition byte_of (d : gmap Z Z) (j : Z) : Z :=
  Z.land (Z.shiftr (default 0 (d !! (j / 4))) (8 * (j mod 4))) 255.

Definition load (n : nat) (d : gmap Z Z) : list Z := (λ k, byte_of d (Z.of_nat k)) <$> seq 0 n.

(** The whole data of a buffer. *)
Definition buffer_data (d : gmap Z Z) : list Z := load (Z.to_nat BUFFER_SIZE) d.

(** ** Lemmas: bytes of words *)

Lemma land_255_byte z : is_byte (Z.land z 255).
Proof. change 255 with (Z.ones 8). rewrite Z.land_ones by lia. apply Z.mod_pos_bound. lia. Qed.

Lemma byte_testbit b n : is_byte b → 8 ≤ n → Z.testbit b n = false.
Proof.
  intros Hb Hn. rewrite <-(Z.mod_small b (2 ^ 8)) by exact Hb. by apply Z.mod_pow2_bits_high.
Qed.

(** Putting byte [b] at bit [sh] of a word and reading a byte at bit [sh']. *)
Lemma set_byte_same w b sh :
  0 ≤ sh → is_byte b →
  Z.land (Z.shiftr (Z.lor (Z.land w (Z.lnot (Z.shiftl 255 sh))) (Z.shiftl b sh)) sh) 255 = b.
Proof.
  intros Hsh Hb. apply Z.bits_inj'. intros n Hn.
  change 255 with (Z.ones 8).
  rewrite Z.land_spec, Z.shiftr_spec, Z.lor_spec, Z.land_spec, Z.lnot_spec, !Z.shiftl_spec by lia.
  replace (n + sh - sh) with n by lia.
  destruct (Z.lt_ge_cases n 8) as [Hlt|Hge].
  - rewrite Z.ones_spec_low by lia. simpl. by rewrite !andb_false_r, andb_true_r.
  - rewrite Z.ones_spec_high by lia. rewrite andb_false_r. symmetry. by apply byte_testbit.
Qed.

Lemma set_byte_other w b sh sh' :
  0 ≤ sh → 0 ≤ sh' → is_byte b → sh + 8 ≤ sh' ∨ sh' + 8 ≤ sh →
  Z.land (Z.shiftr (Z.lor (Z.land w (Z.lnot (Z.shiftl 255 sh))) (Z.shiftl b sh)) sh') 255 =
  Z.land (Z.shiftr w sh') 255.
Proof.
  intros Hsh Hsh' Hb Hd. apply Z.bits_inj'. intros n Hn.
  change 255 with (Z.ones 8).
  rewrite !Z.land_spec, !Z.shiftr_spec, Z.lor_spec, Z.land_spec, Z.lnot_spec, !Z.shiftl_spec by lia.
  destruct (Z.lt_ge_cases n 8) as [Hlt|Hge]; [|by rewrite (Z.ones_spec_high 8 n), !andb_false_r by lia].
  rewrite (Z.ones_spec_low 8 n) by lia. rewrite !andb_true_r.
  destruct Hd as [Hd|Hd].
  - rewrite (Z.ones_spec_high 8 (n + sh' - sh)) by lia. rewrite (byte_testbit b) by (done || lia).
    simpl. by rewrite andb_true_r, orb_false_r.
  - rewrite !(Z.testbit_neg_r _ (n + sh' - sh)) by lia. simpl. by rewrite andb_true_r, orb_false_r.
Qed.

(** Storing a byte changes that byte only. *)
Lemma byte_of_store j b d k :
  0 ≤ j → 0 ≤ k → is_byte b →
  byte_of (store_byte j b d) k = if k =? j then b else byte_of d k.
Proof.
  intros Hj Hk Hb. unfold byte_of, store_byte.
  pose proof (Z.mod_pos_bound j 4 ltac:(lia)) as Hmj. pose proof (Z.mod_pos_bound k 4 ltac:(lia)) as Hmk.
  pose proof (Z.div_mod j 4 ltac:(lia)) as Hdj. pose proof (Z.div_mod k 4 ltac:(lia)) as Hdk.
  destruct (Z.eqb_spec k j) as [->|Hne].
  - rewrite lookup_insert_eq. simpl. apply set_byte_same; [lia|done].
  - destruct (decide (j / 4 = k / 4)) as [Heq|Hneq].
    + rewrite Heq, lookup_insert_eq. simpl. apply set_byte_other; try done; lia.
    + by rewrite lookup_insert_ne.
Qed.

Lemma length_load n d : length (load n d) = n.
Proof. unfold load. by rewrite length_fmap, length_seq. Qed.

Lemma load_lookup n d k : (k < n)%nat → load n d !! k = Some (byte_of d (Z.of_nat k)).
Proof. intros Hk. unfold load. rewrite list_lookup_fmap, lookup_seq_lt by done. done. Qed.

Lemma load_bytes n d : Forall is_byte (load n d).
Proof. apply Forall_fmap, Forall_forall. intros k _. apply land_255_byte. Qed.

Lemma take_load n m d : (n ≤ m)%nat → take n (load m d) = load n d.
Proof.
  intros Hle. apply list_eq_same_length with n; rewrite ?length_take, ?length_load; [lia|lia|].
  intros k x y Hk Hx Hy. rewrite lookup_take_lt, load_lookup in Hx by lia. rewrite load_lookup in Hy by done.
  congruence.
Qed.

Lemma load_store n j b d :
  (j < n)%nat → is_byte b → load n (store_byte (Z.of_nat j) b d) = <[j := b]> (load n d).
Proof.
  intros Hj Hb. apply list_eq_same_length with n; rewrite ?length_insert, ?length_load; [done|done|].
  intros k x y Hk Hx Hy. rewrite load_lookup in Hx by done. injection Hx as <-.
  rewrite byte_of_store by (done || lia). destruct (Z.eqb_spec (Z.of_nat k) (Z.of_nat j)) as [He|Hne].
  - apply Nat2Z.inj in He as ->. rewrite list_lookup_insert_eq in Hy by (by rewrite length_load). congruence.
  - rewrite list_lookup_insert_ne, load_lookup in Hy by (done || (intros ->; done)). congruence.
Qed.

Lemma overwrite_cons off b bs l :
  (off < length l)%nat → overwrite (S off) bs (<[off := b]> l) = overwrite off (b :: bs) l.
Proof.
  intros Hl. unfold overwrite. rewrite (take_S_r _ off b) by (by apply list_lookup_insert_eq).
  rewrite take_insert_ge by lia. rewrite <-app_assoc. simpl. do 3 f_equal.
  rewrite drop_insert_lt by lia. f_equal. lia.
Qed.

(** Storing bytes is overwriting, and fails exactly past the end. *)
Lemma store_bytes_load n off bs d :
  Z.of_nat n = BUFFER_SIZE → Forall is_byte bs → (off + length bs ≤ n)%nat →
  ∃ d', store_bytes (Z.of_nat off) bs d = Some d' ∧ load n d' = overwrite off bs (load n d).
Proof.
  intros Hn Hbs. revert off d. induction Hbs as [|b bs Hb Hbs IH]; intros off d Hle.
  - exists d. split; [done|]. by rewrite overwrite_nil.
  - simpl in Hle. cbn [store_bytes]. rewrite (proj2 (Z.ltb_lt _ _)) by lia.
    destruct (IH (S off) (store_byte (Z.of_nat off) b d) ltac:(lia)) as (d' & Hs & Hl).
    exists d'. split.
    + rewrite <-Hs. f_equal. lia.
    + rewrite Hl, load_store by (done || lia). apply overwrite_cons. rewrite length_load. lia.
Qed.

Lemma store_bytes_past n off bs d :
  Z.of_nat n = BUFFER_SIZE → (off ≤ n)%nat → (n < off + length bs)%nat →
  store_bytes (Z.of_nat off) bs d = None.
Proof.
  intros Hn. revert off d. induction bs as [|b bs IH]; intros off d Hoff Hlt; simpl in Hlt; [lia|].
  cbn [store_bytes]. destruct (Z.ltb_spec (Z.of_nat off) BUFFER_SIZE); [|done].
  replace (Z.of_nat off + 1) with (Z.of_nat (S off)) by lia. apply IH; lia.
Qed.

Lemma buffer_size_nat : Z.of_nat (Z.to_nat BUFFER_SIZE) = BUFFER_SIZE.
Proof. apply Z2Nat.id. unfold BUFFER_SIZE. lia. Qed.

Lemma length_buffer_data d : Z.of_nat (length (buffer_data d)) = BUFFER_SIZE.
Proof. unfold buffer_data. rewrite length_load. apply buffer_size_nat. Qed.

Lemma take_buffer_data n d : (n ≤ Z.to_nat BUFFER_SIZE)%nat → take n (buffer_data d) = load n d.
Proof. intros Hn. unfold buffer_data. by apply take_load. Qed.

Lemma store_data off x d :
  Forall is_byte x → (off + length x ≤ length (buffer_data d))%nat →
  ∃ d', store_bytes (Z.of_nat off) x d = Some d' ∧ buffer_data d' = overwrite off x (buffer_data d).
Proof.
  intros Hx Hle. apply store_bytes_load; [apply buffer_size_nat|done|].
  rewrite <-(Nat2Z.id (length (buffer_data d))), length_buffer_data in Hle. exact Hle.
Qed.

Lemma store_data_past off x d :
  (off ≤ length (buffer_data d))%nat → (length (buffer_data d) < off + length x)%nat →
  store_bytes (Z.of_nat off) x d = None.
Proof.
  pose proof (length_buffer_data d) as Hl. intros Hoff Hlt.
  exact (store_bytes_past (length (buffer_data d)) off x d Hl Hoff Hlt).
Qed.

(** ** Lemmas: which operations change data *)

Section Data.
Context {E : Type} `{DmaEngine E}.
Abbreviation chan := (dma_proxy_channel E).
Implicit Types (pc : chan) (d : proxy_bd) (b : channel_buffer).

(** The data of buffer [i]. *)
Definition data_at pc (i : nat) : option (gmap Z Z) := cb_buffer <$> (buffer_table_p pc ≫= (.!! i)).

Lemma data_at_datas pc pc' i : datas pc' = datas pc → data_at pc' i = data_at pc i.
Proof.
  unfold datas, data_at. destruct (buffer_table_p pc) as [t|], (buffer_table_p pc') as [t'|]; try done.
  intros Hd. injection Hd as Hd. simpl. by rewrite <-!list_lookup_fmap, Hd.
Qed.

Lemma slot_data pc i d b : slot pc i d b → data_at pc i = Some (cb_buffer b).
Proof. intros (_ & t & Ht & Hb). unfold data_at. rewrite Ht. simpl. by rewrite Hb. Qed.

Lemma datas_put_buffer pc i d b b' :
  slot pc i d b → cb_buffer b' = cb_buffer b → datas (put_buffer i b' pc) = datas pc.
Proof.
  intros (_ & t & Ht & Hb) Hd. unfold datas, put_buffer. rewrite Ht. simpl. f_equal.
  rewrite list_fmap_insert, Hd. apply list_insert_id. by rewrite list_lookup_fmap, Hb.
Qed.

Lemma data_put_other pc i j b : j ≠ i → data_at (put_buffer i b pc) j = data_at pc j.
Proof.
  intros Hj. unfold data_at, put_buffer. destruct (buffer_table_p pc) as [t|] eqn:Ht; [|by rewrite Ht].
  simpl. by rewrite list_lookup_insert_ne.
Qed.

Lemma start_keeps_data pc i d b pc' :
  bdindex pc = Z.of_nat i → slot pc i d b → start_transfer pc = Done (tt, pc') → datas pc' = datas pc.
Proof.
  intros Hi Hs. rewrite (start_run pc i d b Hi Hs).
  destruct (device_prep_slave_sg _ _ _) as [[ds|] e1]; [|by intros [= <-]].
  destruct (dmaengine_submit ds i e1) as [c e2].
  destruct (dma_submit_error c); [by intros [= <-]|]. intros [= <-].
  pose proof (slot_submitted pc i d b c e2 Hs) as Hs'.
  transitivity (datas (submitted i d b c e2 pc)); [|done].
  exact (datas_put_buffer _ i _ _ (set_cb_status PROXY_QUEUED b) Hs' eq_refl).
Qed.

Context `{!DmaEngineLaws E, !TransmitEngine E}.

Lemma wait_keeps pc i d b jiffies pc' :
  wf_channel pc → bdindex pc = Z.of_nat i → slot pc i d b →
  wait_for_transfer jiffies pc = Done (tt, pc') → datas pc' = datas pc.
Proof.
  intros Hwf Hi Hs. destruct (wait_run pc i d b jiffies Hwf Hi Hs) as (pc1 & ret & n & b1 & Hw & _ & Hs1 & _ & ->).
  apply wait_keeps_data in Hw.
  rewrite (datas_put_buffer pc i d b (set_cb_status PROXY_BUSY b) Hs eq_refl) in Hw.
  assert (∀ st, datas (put_buffer i (set_cb_status st b1) pc1) = datas pc) as Hd.
  { intros st. rewrite (datas_put_buffer pc1 i (set_cmp_done n d) b1) by done. done. }
  intros Hr. injection Hr as <-. destruct (bool_decide _); [|apply Hd].
  exact (Hd (final_status (u64 ret) (dma_async_is_tx_complete (cookie d) (channel_p pc1)))).
Qed.

(** An ioctl leaves the data of every buffer alone. *)
Lemma ioctl_keeps_data pc jiffies cmd i r pc' :
  wf_channel pc → (i < BUFFER_COUNT)%nat →
  ioctl jiffies cmd (Z.of_nat i) (Some pc) = Done (r, Some pc') → datas pc' = datas pc.
Proof.
  intros Hwf Hlt. unfold ioctl.
  rewrite (swrap_small 32) by (unfold BUFFER_COUNT in Hlt; lia).
  set (pc0 := set_bdindex (Z.of_nat i) pc).
  assert (wf_channel pc0) as Hwf0 by by apply wf_set_bdindex.
  change (datas pc) with (datas pc0). destruct (slot_exists pc0 i Hwf0 Hlt) as (d & b & Hs).
  unfold mbind at 1, M_bind at 1, modify. fold pc0.
  destruct (cmd =? START_XFER).
  { destruct (start_transfer pc0) as [[[] p1]|] eqn:Er; [|done]. intros [= _ <-].
    by eapply start_keeps_data. }
  destruct (cmd =? FINISH_XFER).
  { destruct (wait_for_transfer jiffies pc0) as [[[] p1]|] eqn:Er; [|done]. intros [= _ <-].
    by eapply wait_keeps. }
  destruct (cmd =? XFER); [|by intros [= _ <-]].
  destruct ((start_transfer ;; wait_for_transfer jiffies) pc0) as [[[] p2]|] eqn:Er; [|done].
  intros [= _ <-]. apply bind_inv in Er as ([] & p1 & H1 & H2).
  pose proof (start_safe pc0 i d b Hwf0 eq_refl Hs) as Hsafe. unfold wp in Hsafe. rewrite H1 in Hsafe.
  destruct Hsafe as (Hwf1 & _ & Hi1 & _). destruct (slot_exists p1 i Hwf1 Hlt) as (d1 & b1 & Hs1).
  rewrite (wait_keeps p1 i d1 b1 jiffies p2) by done. by eapply start_keeps_data.
Qed.

End Data.

(** ** Properties *)

(** C18: Writing to a channel's device file stores the user's bytes at the start of
    the current buffer and changes nothing else of the channel; what could not
    be read from user space is stored as zeros and reported as an error, and
    more bytes than the buffer holds overrun it. *)
Theorem buffer_write_overwrites {E} `{DmaEngine E} (pc : dma_proxy_channel E) i d b uncopied buff :
  wf_channel pc → bdindex pc = Z.of_nat i → slot pc i d b → Forall is_byte buff →
  let copied := copy_from_user uncopied buff in
  if Z.of_nat (length buff) <=? BUFFER_SIZE then
    ∃ pc' b', buffer_write uncopied buff (Some pc) =
        Done (if (uncopied =? 0)%nat then Z.of_nat (length buff) else - EINVAL, Some pc') ∧
      slot pc' i d b' ∧ cb_meta b' = cb_meta b ∧
      buffer_data (cb_buffer b') = overwrite 0 copied (buffer_data (cb_buffer b)) ∧
      ∀ j, j ≠ i → data_at pc' j = data_at pc j
  else buffer_write uncopied buff (Some pc) = Fault OutOfBounds.
Proof.
  intros Hwf Hi Hs Hbuff copied.
  assert (length copied = length buff) as Hlen.
  { unfold copied, copy_from_user. rewrite length_app, length_take, length_replicate. lia. }
  assert (Forall is_byte copied) as Hcop.
  { apply Forall_app. split; [by apply Forall_take|]. apply Forall_replicate. unfold is_byte. lia. }
  assert (Z.of_nat (Z.to_nat BUFFER_SIZE) = BUFFER_SIZE) as Hn.
  { apply Z2Nat.id. unfold BUFFER_SIZE. lia. }
  assert (∀ k, (∀ r, store_bytes 0 copied (cb_buffer b) = r → k = r) →
    buffer_write uncopied buff (Some pc) =
    match k with
    | Some d' => Done (if (uncopied =? 0)%nat then Z.of_nat (length buff) else - EINVAL,
                       Some (put_buffer i (set_cb_buffer d' b) pc))
    | None => Fault OutOfBounds
    end) as Hrun.
  { intros k Hk. rewrite (Hk _ eq_refl). unfold buffer_write. fold copied.
    destruct (store_bytes 0 copied (cb_buffer b)) as [d'|] eqn:Es.
    - erewrite bind_done; [|reflexivity|rewrite Hi; eapply bind_done; [by eapply read_buffer_run|];
        rewrite Es; eapply bind_done; [reflexivity|];
        eapply bind_done; [by eapply update_buffer_run|reflexivity]]. done.
    - erewrite bind_done; [|reflexivity|rewrite Hi; eapply bind_done; [by eapply read_buffer_run|];
        rewrite Es; by apply bind_fault]. done. }
  destruct (Z.leb_spec (Z.of_nat (length buff)) BUFFER_SIZE) as [Hle|Hgt].
  - destruct (store_bytes_load (Z.to_nat BUFFER_SIZE) 0 copied (cb_buffer b) Hn) as (d' & Hst & Hl);
      [done|rewrite Hlen; lia|].
    exists (put_buffer i (set_cb_buffer d' b) pc), (set_cb_buffer d' b).
    split; [rewrite (Hrun (Some d')); [done|intros r <-; by rewrite <-Hst]|].
    split; [by eapply slot_put_buffer|]. split; [done|]. split; [exact Hl|].
    intros j Hj. by apply data_put_other.
  - rewrite (Hrun None); [done|]. intros r <-.
    symmetry. apply (store_bytes_past (Z.to_nat BUFFER_SIZE) 0); [done|lia|rewrite Hlen; lia].
Qed.

(** ** Concrete runs *)

Lemma buffer_write_overwrites_witness :
  ∃ pc' b', buffer_write 1 [7; 8; 9] (Some demo_channel) = Done (- EINVAL, Some pc') ∧
    slot pc' 3 demo_bd b' ∧
    buffer_data (cb_buffer b') = overwrite 0 [7; 8; 0] (buffer_data (cb_buffer demo_buffer)).
Proof.
  pose proof (buffer_write_overwrites demo_channel 3 demo_bd demo_buffer 1 [7; 8; 9] demo_wf eq_refl demo_slot)
    as Hx.
  assert (Z.of_nat (length [7; 8; 9]) <=? BUFFER_SIZE = true) as He by reflexivity.
  cbv zeta in Hx. rewrite He in Hx.
  destruct Hx as (pc' & b' & Hr & Hs & _ & Hd & _); [repeat constructor; lia|].
  exists pc', b'. split; [exact Hr|]. split; [exact Hs|exact Hd].
Defined.
