(* ===== verification/ChannelTypes.v ===== *)
(** * ChannelTypes: the channel's fields stay in their C types

    The data of [dma_tx.h] are machine integers: a buffer is an array of
    [unsigned int], the length of a transfer an [unsigned int], a cookie and the
    buffer number an [int], the completion count an [unsigned int] and the
    interrupt count an [atomic_t].  The model keeps them as integers, so that
    they fit is a typing of the state; this file shows that every file operation
    of [src/driver/stream_dma/streamio-drv.c] preserves it. *)
From Stdlib Require Import ZArith Lia.
From stdpp Require Import base list numbers option gmap.
From S2P Require Import Prelude DmaChannel.

(** ** C types *)

Definition is_int (z : Z) : Prop := - 2 ^ 31 ≤ z < 2 ^ 31.
Definition is_uint (z : Z) : Prop := 0 ≤ z < 2 ^ 32.
Definition is_addr (z : Z) : Prop := 0 ≤ z < 2 ^ 64.

Definition typed_buffer (b : channel_buffer) : Prop :=
  is_uint (cb_length b) ∧ map_Forall (λ _ w, is_uint w) (cb_buffer b).

Definition typed_sg (sg : option (Z * Z)) : Prop :=
  match sg with
  | Some (a, n) => is_addr a ∧ is_uint n
  | None => True
  end.

Record typed_bd (d : proxy_bd) : Prop := {
  tb_done : is_uint (cmp_done d);
  tb_cookie : is_int (cookie d);
  tb_handle : is_addr (dma_handle d);
  tb_sg : typed_sg (sglist d)
}.

Record typed_channel {E} (pc : dma_proxy_channel E) : Prop := {
  tc_bds : Forall typed_bd (bdtable pc);
  tc_buffers : ∀ t, buffer_table_p pc = Some t → Forall typed_buffer t;
  tc_phys : is_addr (buffer_phys_addr pc);
  tc_index : is_int (bdindex pc);
  tc_count : is_int (wait_transfer_count pc)
}.

(** A provider's cookies are [s32], and what runs while a thread waits is typed
    too. *)
Class TypedEngine (E : Type) `{DmaEngine E} : Prop := {
  typed_submit : ∀ ds i e, is_int (fst (dmaengine_submit ds i e));
  typed_wait : ∀ bd jiffies, preserves typed_channel (wait_for_completion_interruptible_timeout bd jiffies)
}.

(** ** The calls on an open channel *)

Inductive file_op :=
| OpOpen
| OpRelease
| OpIoctl (jiffies cmd arg : Z)
| OpWrite (uncopied : nat) (buff : list Z)
| OpCallback (bd : Z)
| OpIrq.

Section Calls.
Context {E : Type} `{DmaEngine E}.
Abbreviation chan := (dma_proxy_channel E).

(** [file->private_data] is the channel. *)
Definition on_file (m : M (option chan) Z) : M chan Z := λ pc,
  match m (Some pc) with
  | Done (r, Some pc') => Done (r, pc')
  | Done (r, None) => Done (r, pc)
  | Fault f => Fault f
  end.

Definition run_op (o : file_op) : M chan Z :=
  match o with
  | OpOpen => local_open
  | OpRelease => release
  | OpIoctl jiffies cmd arg => on_file (ioctl jiffies cmd arg)
  | OpWrite uncopied buff => on_file (buffer_write uncopied buff)
  | OpCallback bd => sync_callback bd ;; mret 0
  | OpIrq => modify irq_handler ;; mret 0
  end.

Fixpoint run_ops (l : list file_op) : M chan (list Z) :=
  match l with
  | [] => mret []
  | o :: l' => r ← run_op o; rs ← run_ops l'; mret (r :: rs)
  end.

End Calls.

(** What user space passes is typed. *)
Definition typed_op (o : file_op) : Prop :=
  match o with OpWrite _ buff => Forall is_byte buff | _ => True end.

(** ** Lemmas *)

Section Lemmas.
Context {E : Type} `{DmaEngine E}.
Abbreviation chan := (dma_proxy_channel E).
Implicit Types (pc : chan).

Lemma typed_set_engine pc e : typed_channel pc → typed_channel (set_engine e pc).
Proof. by intros [? ? ? ? ?]. Qed.

Lemma typed_set_bdindex pc i : is_int i → typed_channel pc → typed_channel (set_bdindex i pc).
Proof. by intros ? [? ? ? ? ?]. Qed.

Lemma typed_set_wait_count pc n : is_int n → typed_channel pc → typed_channel (set_wait_count n pc).
Proof. by intros ? [? ? ? ? ?]. Qed.

(** A computation whose result has a type too. *)
Definition yields {A} (Q : A → Prop) (m : M chan A) : Prop :=
  ∀ pc a pc', typed_channel pc → m pc = Done (a, pc') → typed_channel pc' ∧ Q a.

Lemma yields_bind {A B} (Q : A → Prop) (R : B → Prop) m (k : A → M chan B) :
  yields Q m → (∀ a, Q a → yields R (k a)) → yields R (m ≫= k).
Proof. intros Hm Hk pc b pc' Ht (a & pc1 & [Ht1 Ha]%Hm & Hr)%bind_inv; [|done]. by eapply Hk. Qed.

Lemma yields_mono {A} (Q R : A → Prop) (m : M chan A) : (∀ a, Q a → R a) → yields Q m → yields R m.
Proof. intros HQ Hm pc a pc' Ht Hr. destruct (Hm pc a pc' Ht Hr). auto. Qed.

Lemma yields_ret {A} (Q : A → Prop) a : Q a → yields Q (mret a).
Proof. by intros HQ pc a' pc' Ht [= <- <-]. Qed.

Lemma yields_gets {A} (Q : A → Prop) (f : chan → A) : (∀ pc, typed_channel pc → Q (f pc)) → yields Q (gets f).
Proof. intros Hf pc a pc' Ht [= <- <-]. auto. Qed.

Lemma yields_modify (f : chan → chan) :
  (∀ pc, typed_channel pc → typed_channel (f pc)) → yields (λ _, True) (modify f).
Proof. intros Hf pc [] pc' Ht [= <-]. auto. Qed.

Lemma yields_index {A} (P : A → Prop) (t : list A) i : Forall P t → yields P (index t i).
Proof. intros Ht pc a pc' Hpc [-> Hi]%index_inv. split; [done|]. by eapply Forall_lookup_1. Qed.

Lemma yields_read_bd i : yields typed_bd (read_bd i).
Proof.
  intros pc d pc' Ht. unfold read_bd, mbind, M_bind, get. apply yields_index; [apply Ht|done].
Qed.

Lemma yields_read_buffer i : yields typed_buffer (read_buffer i).
Proof.
  intros pc b pc' Ht. unfold read_buffer, mbind, M_bind, get.
  destruct (buffer_table_p pc) as [t|] eqn:Et; [|done]. apply yields_index; [by eapply tc_buffers|done].
Qed.

Lemma yields_update_bd i f : (∀ d, typed_bd d → typed_bd (f d)) → yields (λ _, True) (update_bd i f).
Proof.
  intros Hf. eapply yields_bind; [apply yields_read_bd|]. intros d Hd. apply yields_modify.
  intros pc [Hb ? ? ? ?]. split; try done. cbn. by apply Forall_insert; auto.
Qed.

Lemma yields_update_buffer i f :
  (∀ b, typed_buffer b → typed_buffer (f b)) → yields (λ _, True) (update_buffer i f).
Proof.
  intros Hf. eapply yields_bind; [apply yields_read_buffer|]. intros b Hb. apply yields_modify.
  intros pc Ht. destruct (buffer_table_p pc) as [t|] eqn:Et; [|done].
  pose proof (tc_buffers pc Ht t Et) as Htt. destruct Ht as [? ? ? ? ?]. split; try done.
  intros t' [= <-]. by apply Forall_insert; auto.
Qed.

Lemma yields_engine {A} (Q : A → Prop) (f : E → A * E) : (∀ e, Q (fst (f e))) → yields Q (engine f).
Proof.
  intros Hf pc a pc' Ht. rewrite engine_run. intros [= <- <-]. split; [by apply typed_set_engine|done].
Qed.

Lemma yields_for (body : nat → M chan unit) n :
  (∀ i, yields (λ _, True) (body i)) → yields (λ _, True) (for_ n body).
Proof.
  intros Hb. generalize 0%nat. induction n as [|n IH]; intros lo; [by apply yields_ret|].
  cbn [for_from]. eapply yields_bind; [apply Hb|]. intros _ _. apply IH.
Qed.

(** A byte stored into a word leaves a word. *)
Lemma store_byte_typed j byte g :
  is_byte byte → map_Forall (λ _ w, is_uint w) g → map_Forall (λ _ w, is_uint w) (store_byte j byte g).
Proof.
  intros Hb Hg. unfold store_byte. apply map_Forall_insert_2; [|done].
  pose proof (Z.mod_pos_bound j 4 ltac:(lia)) as Hm. set (sh := 8 * (j mod 4)).
  assert (is_uint (default 0 (g !! (j / 4)))) as Hw.
  { destruct (g !! (j / 4)) eqn:Eg; [by eapply Hg|]. unfold is_uint. simpl. lia. }
  set (w := default 0 _) in *.
  assert (0 ≤ Z.lor (Z.land w (Z.lnot (Z.shiftl 255 sh))) (Z.shiftl byte sh)) as Hnn.
  { apply Z.lor_nonneg. split; [apply Z.land_nonneg; left; apply Hw|apply Z.shiftl_nonneg, Hb]. }
  split; [done|]. rewrite <-(Z.mod_small w (2 ^ 32)) in Hnn |- * by exact Hw.
  rewrite <-(Z.mod_small byte (2 ^ 8)) in Hnn |- * by exact Hb.
  destruct (Z.lt_ge_cases (Z.lor (Z.land (w mod 2 ^ 32) (Z.lnot (Z.shiftl 255 sh))) (Z.shiftl (byte mod 2 ^ 8) sh)) (2 ^ 32))
    as [|Hge]; [done|exfalso].
  set (z := Z.lor _ _) in *. assert (0 < z) as Hpos by lia.
  pose proof (Z.log2_le_pow2 z 32 Hpos) as Hlog. assert (32 ≤ Z.log2 z) as Hl by (by apply Hlog).
  pose proof (Z.bit_log2 z Hpos) as Hbit. revert Hbit. unfold z at 1.
  rewrite Z.lor_spec, Z.land_spec, Z.shiftl_spec, !Z.mod_pow2_bits_high by lia. done.
Qed.

Lemma store_bytes_typed j bs g g' :
  Forall is_byte bs → map_Forall (λ _ w, is_uint w) g → store_bytes j bs g = Some g' →
  map_Forall (λ _ w, is_uint w) g'.
Proof.
  intros Hbs. revert j g. induction Hbs as [|b bs Hb _ IH]; intros j g Hg; cbn [store_bytes]; [by intros [= <-]|].
  destruct (j <? BUFFER_SIZE); [|done]. apply IH. by apply store_byte_typed.
Qed.

Lemma copy_from_user_bytes uncopied buff : Forall is_byte buff → Forall is_byte (copy_from_user uncopied buff).
Proof.
  intros Hb. apply Forall_app. split; [by apply Forall_take|]. apply Forall_replicate. unfold is_byte. lia.
Qed.

(** ** Lemmas: the operations *)

Context `{!TypedEngine E}.

Lemma typed_start : yields (λ _, True) (start_transfer (E:=E)).
Proof.
  eapply yields_bind; [by apply (yields_gets (λ _, True))|]. intros i _.
  eapply yields_bind; [apply yields_read_bd|]. intros d Hd.
  eapply yields_bind; [apply yields_read_buffer|]. intros b [Hl Hb].
  assert (∀ d', typed_bd d' → typed_bd (set_sglist (dma_handle d, cb_length b) d')) as Hsg
    by (intros d' [? ? ? ?]; split; try done; split; [apply Hd|done]).
  eapply yields_bind; [by apply yields_update_bd|]. intros _ _.
  eapply yields_bind; [by apply (yields_gets (λ _, True))|]. intros dir _.
  eapply yields_bind; [by apply (yields_engine (λ _, True))|]. intros [ds|] _; [|by apply yields_ret].
  eapply yields_bind; [apply yields_update_bd; by intros d' [? ? ? ?]; split|]. intros _ _.
  eapply yields_bind; [apply (yields_engine is_int), typed_submit|]. intros c Hc.
  eapply yields_bind; [apply yields_update_bd; by intros d' [? ? ? ?]; split|]. intros _ _.
  destruct (dma_submit_error c); [by apply yields_ret|].
  eapply yields_bind; [by apply yields_update_buffer|]. intros _ _.
  apply yields_modify. intros pc. apply typed_set_engine.
Qed.

Lemma typed_count pc : typed_channel pc → typed_channel (set_wait_count (atomic_dec_if_positive (wait_transfer_count pc)) pc).
Proof.
  intros Ht. apply typed_set_wait_count; [|done]. pose proof (tc_count pc Ht) as Hc. unfold is_int in *.
  unfold atomic_dec_if_positive. destruct (Z.ltb_spec (wait_transfer_count pc - 1) 0); lia.
Qed.

Lemma typed_wait_for_transfer jiffies : yields (λ _, True) (wait_for_transfer (E:=E) jiffies).
Proof.
  eapply yields_bind; [by apply (yields_gets (λ _, True))|]. intros i _.
  eapply yields_bind; [by apply yields_update_buffer|]. intros _ _.
  eapply yields_bind; [apply yields_read_bd|]. intros _ _.
  eapply (yields_bind (λ _, True)); [intros pc r pc' Ht Hr; split; [by eapply typed_wait|done]|]. intros ret _.
  eapply yields_bind; [apply yields_read_bd|]. intros d _.
  eapply yields_bind; [by apply (yields_gets (λ _, True))|]. intros st _.
  destruct (_ =? 0); [by apply yields_update_buffer|].
  destruct (negb _); [by apply yields_update_buffer|].
  eapply yields_bind; [by apply yields_update_buffer|]. intros _ _. apply yields_modify, typed_count.
Qed.

Lemma typed_clear : yields (λ _, True) (clear_statuses (E:=E)).
Proof. apply yields_for. intros i. by apply yields_update_buffer. Qed.

Lemma typed_ioctl jiffies cmd arg : yields is_int (on_file (ioctl (E:=E) jiffies cmd arg)).
Proof.
  intros pc r pc' Ht. unfold on_file, ioctl.
  match goal with |- context [match ?m pc with _ => _ end] => assert (yields (λ _, True) m) as Hm end.
  { eapply yields_bind; [apply yields_modify; intros pc0; apply typed_set_bdindex, (swrap_range 32); lia|]. intros _ _.
    destruct (cmd =? START_XFER); [apply typed_start|].
    destruct (cmd =? FINISH_XFER); [apply typed_wait_for_transfer|].
    destruct (cmd =? XFER); [|by apply yields_ret].
    eapply yields_bind; [apply typed_start|]. intros _ _. apply typed_wait_for_transfer. }
  match goal with |- context [match ?m pc with _ => _ end] => destruct (m pc) as [[u pc1]|] eqn:Er end; [|done].
  intros [= <- <-]. split; [by eapply Hm|]. unfold is_int. lia.
Qed.

Lemma typed_buffer_write uncopied buff :
  Forall is_byte buff → yields (λ _, True) (on_file (buffer_write (E:=E) uncopied buff)).
Proof.
  intros Hb pc r pc' Ht. unfold on_file, buffer_write.
  match goal with |- context [match ?m pc with _ => _ end] => assert (yields (λ _, True) m) as Hm end.
  { eapply yields_bind; [by apply (yields_gets (λ _, True))|]. intros i _.
    eapply yields_bind; [apply yields_read_buffer|]. intros b [_ Hw].
    eapply (yields_bind (map_Forall (λ _ w, is_uint w))).
    { destruct (store_bytes _ _ _) as [g|] eqn:Eg; [|done]. apply yields_ret.
      eapply store_bytes_typed; [by apply copy_from_user_bytes|exact Hw|exact Eg]. }
    intros g Hg. eapply yields_bind; [by apply yields_update_buffer; intros b' [? _]|].
    intros _ _. by apply yields_ret. }
  match goal with |- context [match ?m pc with _ => _ end] => destruct (m pc) as [[u pc1]|] eqn:Er end; [|done].
  intros [= <- <-]. split; [by eapply Hm|done].
Qed.

Lemma typed_complete n : is_uint n → is_uint (complete n).
Proof. unfold is_uint, complete, UINT_MAX. destruct (Z.eqb_spec n (2 ^ 32 - 1)); lia. Qed.

Lemma typed_run_op o : typed_op o → yields (λ _, True) (run_op (E:=E) o).
Proof.
  destruct o as [| |jiffies cmd arg|uncopied buff|bd|]; intros Ho.
  - eapply yields_bind; [apply yields_modify; intros pc; apply typed_set_engine|]. intros _ _.
    eapply yields_bind; [apply typed_clear|]. intros _ _. by apply yields_ret.
  - eapply yields_bind; [apply typed_clear|]. intros _ _. by apply yields_ret.
  - eapply yields_mono; [|apply typed_ioctl]. done.
  - by apply typed_buffer_write.
  - eapply (yields_bind (λ _, True)); [|intros _ _; by apply yields_ret].
    apply yields_update_bd. intros d [? ? ? ?]. split; try done. by apply typed_complete.
  - eapply (yields_bind (λ _, True)); [|intros _ _; by apply yields_ret].
    apply yields_modify. intros pc Ht. apply typed_set_wait_count; [|done].
    unfold atomic_inc_return. apply (swrap_range 32). lia.
Qed.

Lemma typed_run_ops l : Forall typed_op l → yields (λ _, True) (run_ops (E:=E) l).
Proof.
  induction 1 as [|o l Ho _ IH]; [by apply yields_ret|].
  eapply yields_bind; [by apply typed_run_op|]. intros r _.
  eapply yields_bind; [apply IH|]. intros rs _. by apply yields_ret.
Qed.

Lemma typed_fresh_channel (e : E) phys :
  0 ≤ phys → phys + sizeof_channel_buffer * Z.of_nat BUFFER_COUNT ≤ 2 ^ 64 → typed_channel (fresh_channel e phys).
Proof.
  intros H0 H1. assert (0 < sizeof_channel_buffer) as Hpos by (vm_compute; done).
  split; unfold fresh_channel; cbn [bdtable buffer_table_p buffer_phys_addr bdindex wait_transfer_count].
  - apply Forall_fmap, Forall_seq. intros i Hi. split; cbn; unfold is_uint, is_int, is_addr; try lia.
    unfold BUFFER_COUNT in *. nia.
  - intros t Ht. apply (inj Some) in Ht as <-. apply Forall_replicate. split; [unfold is_uint; cbn; lia|apply map_Forall_empty].
  - unfold is_addr, BUFFER_COUNT in *. lia.
  - unfold is_int. lia.
  - unfold is_int. lia.
Qed.

End Lemmas.

(** ** Properties *)

(** Every field stays inside its C type: on a channel fresh from the probe,
    any sequence of calls, with any unsigned long as an ioctl's argument and any
    bytes written, leaves 32-bit words in the buffers, a 32-bit length, cookie,
    buffer number and interrupt count, and a completion count that saturates. *)
Theorem channel_well_typed {E} `{TypedEngine E} (e : E) phys ops rs pc :
  0 ≤ phys → phys + sizeof_channel_buffer * Z.of_nat BUFFER_COUNT ≤ 2 ^ 64 → Forall typed_op ops →
  run_ops ops (fresh_channel e phys) = Done (rs, pc) → typed_channel pc.
Proof.
  intros Hlo Hhi Hops Hrun.
  exact (proj1 (typed_run_ops ops Hops _ _ _ (typed_fresh_channel e phys Hlo Hhi) Hrun)).
Qed.

(** ** Concrete runs *)

(** An engine whose cookies wrap. *)
Record wrap_engine := mk_wrap_engine { we_next : Z }.

#[export] Instance wrap_engine_ops : DmaEngine wrap_engine := {
  device_prep_slave_sg := λ _ _ e, (Some 1, e);
  dmaengine_submit := λ _ _ e, (s32 (we_next e), mk_wrap_engine (we_next e + 1));
  dma_async_issue_pending := λ e, e;
  dma_async_is_tx_complete := λ _ _, DMA_COMPLETE;
  device_terminate_all := λ e, e;
  wait_for_completion_interruptible_timeout := λ _ _ pc, Done (1, pc)
}.

#[export] Instance wrap_engine_typed : TypedEngine wrap_engine.
Proof.
  split; [intros ds i e; cbn; apply (swrap_range 32); lia|]. by intros bd j pc r pc' Ht [= _ <-].
Qed.

Definition demo_ops : list file_op :=
  [OpOpen; OpIoctl 300 99 (2 ^ 32 + 1); OpIoctl 300 XFER 3; OpCallback 3; OpIrq; OpWrite 0 [255; 255; 255; 255; 1]; OpRelease].

Lemma channel_well_typed_witness :
  ∃ rs pc, run_ops demo_ops (fresh_channel (mk_wrap_engine (2 ^ 31)) 4096) = Done (rs, pc) ∧ typed_channel pc.
Proof.
  do 2 eexists. split; [vm_compute; reflexivity|].
  eapply (channel_well_typed (mk_wrap_engine (2 ^ 31)) 4096 demo_ops); [lia|vm_compute; congruence| |vm_compute; reflexivity].
  repeat constructor; unfold is_byte; lia.
Defined.
