(* ===== verification/InternalTest.v ===== *)
(** * InternalTest: the driver's self test

    [test] and its worker [tx_test] in [src/driver/stream_dma/streamio-drv.c]:
    a pattern is stored into a buffer of the transmit channel, sent by a worker
    while the caller receives it on the receive channel, and the two buffers are
    compared.  (The probe runs it when the constant [internal_test] is not 0.) *)
From Stdlib Require Import ZArith Lia.
From stdpp Require Import base list numbers option gmap.
From S2P Require Import Prelude DmaChannel.

Definition TX_CHANNEL : nat := 1.
Definition RX_CHANNEL : nat := 1.
Definition TEST_SIZE : Z := 1024.

Section Test.
Context {E : Type} `{DmaEngine E} (jiffies : Z).
Abbreviation chan := (dma_proxy_channel E).

(** The state is [lp->channels]. *)
Definition channel {A} (i : nat) (m : M chan A) : M (list chan) A := λ lp,
  match lp !! i with
  | None => Fault OutOfBounds
  | Some pc =>
      match m pc with
      | Done (a, pc') => Done (a, <[i := pc']> lp)
      | Fault f => Fault f
      end
  end.

(** [buffer_table_p[0].buffer[i]]. *)
Definition set_word (i v : Z) : M chan unit :=
  update_buffer 0 (λ b, set_cb_buffer (<[i := v]> (cb_buffer b)) b).
Definition get_word (i : Z) : M chan Z :=
  b ← read_buffer 0; mret (default 0 (cb_buffer b !! i)).

Definition test_words : nat := Z.to_nat (TEST_SIZE / 4).

(** The worker's statements. *)
Definition tx_test : list (M (list chan) unit) := [
  channel TX_CHANNEL (update_buffer 0 (set_cb_length TEST_SIZE));
  channel TX_CHANNEL (modify (set_bdindex 0));
  channel TX_CHANNEL start_transfer;
  channel TX_CHANNEL (wait_for_transfer jiffies)
].

Definition init_buffers : M (list chan) unit :=
  for_ test_words (λ i,
    channel TX_CHANNEL (set_word (Z.of_nat i) (Z.of_nat i)) ;;
    channel RX_CHANNEL (set_word (Z.of_nat i) 0)).

(** The statements of [test] between the scheduling of the worker and the
    comparison. *)
Definition receive_test : list (M (list chan) unit) := [
  channel RX_CHANNEL (update_buffer 0 (set_cb_length TEST_SIZE));
  channel TX_CHANNEL (modify (set_bdindex 0));
  channel RX_CHANNEL start_transfer;
  channel RX_CHANNEL (wait_for_transfer jiffies)
].

(** The first index where the buffers differ. *)
Fixpoint compare_from (n i : nat) : M (list chan) (option nat) :=
  match n with
  | O => mret None
  | S n' =>
      a ← channel TX_CHANNEL (get_word (Z.of_nat i));
      b ← channel RX_CHANNEL (get_word (Z.of_nat i));
      if negb (a =? b) then mret (Some i) else compare_from n' (S i)
  end.

Fixpoint run_all (l : list (M (list chan) unit)) : M (list chan) unit :=
  match l with
  | [] => mret tt
  | m :: l' => m ;; run_all l'
  end.

(** [schedule] is the order in which the statements of the two threads run. *)
Definition test (schedule : list (M (list chan) unit)) : M (list chan) (option nat) :=
  init_buffers ;;
  run_all schedule ;;
  compare_from test_words 0.

End Test.

(** The orders of two threads: the worker's last statements may come after the
    comparison. *)
Inductive interleaves {A} : list A → list A → list A → Prop :=
| interleaves_end l : interleaves [] l []
| interleaves_last l : interleaves [] l l
| interleaves_left x l1 l2 l : interleaves l1 l2 l → interleaves (x :: l1) l2 (x :: l)
| interleaves_right x l1 l2 l : interleaves l1 l2 l → interleaves l1 (x :: l2) (x :: l).

(** ** Lemmas *)

Lemma interleaves_forall {A} (P : A → Prop) l1 l2 l :
  interleaves l1 l2 l → Forall P l1 → Forall P l2 → Forall P l.
Proof. induction 1; rewrite ?Forall_cons; naive_solver. Qed.

Section Lemmas.
Context {E : Type} `{DmaEngine E} `{!DmaEngineLaws E} (jiffies : Z).
Abbreviation chan := (dma_proxy_channel E).
Implicit Types (pc : chan) (lp : list chan).

(** The channel the test works on is there and at its first buffer. *)
Definition ready lp : Prop := ∃ pc, lp !! 1%nat = Some pc ∧ wf_channel pc ∧ bdindex pc = 0.

(** A statement that returns and keeps the device ready. *)
Definition safe (m : M (list chan) unit) : Prop := ∀ lp, ready lp → wp m (λ _, ready) lp.

Lemma channel_safe (m : M chan unit) :
  (∀ pc, wf_channel pc → bdindex pc = 0 → wp m (λ _ pc', wf_channel pc' ∧ bdindex pc' = 0) pc) →
  safe (channel 1 m).
Proof.
  intros Hm lp (pc & Hpc & Hwf & Hi). unfold wp, channel. rewrite Hpc.
  specialize (Hm pc Hwf Hi). unfold wp in Hm. destruct (m pc) as [[[] pc']|]; [|done].
  exists pc'. split; [apply list_lookup_insert_eq; by eapply lookup_lt_Some|done].
Qed.

Lemma run_all_safe l : Forall safe l → safe (run_all l).
Proof.
  induction 1 as [|m l Hm _ IH]; intros lp Hlp; [done|]. apply wp_bind_intro.
  eapply wp_mono; [by apply Hm|]. intros [] lp' Hlp'. by apply IH.
Qed.

Lemma buffer_statement f : safe (channel 1 (update_buffer 0 f)).
Proof.
  apply channel_safe. intros pc Hwf Hi.
  destruct (slot_exists pc 0 Hwf ltac:(unfold BUFFER_COUNT; lia)) as (d & b & Hs).
  eapply wp_done; [apply (update_buffer_run pc 0 d b f Hs)|].
  split; [by apply wf_put_buffer|]. by rewrite bdindex_put_buffer.
Qed.

Lemma transfer_statements :
  safe (channel 1 (modify (set_bdindex 0))) ∧ safe (channel 1 start_transfer) ∧
  safe (channel 1 (wait_for_transfer jiffies)).
Proof.
  split; [|split]; apply channel_safe; intros pc Hwf Hi.
  - apply wp_modify. split; [by apply wf_set_bdindex|done].
  - destruct (slot_exists pc 0 Hwf ltac:(unfold BUFFER_COUNT; lia)) as (d & b & Hs).
    eapply wp_mono; [by apply (start_safe pc 0 d b)|]. intros [] pc' (Hwf' & _ & Hi' & _).
    split; [done|congruence].
  - destruct (slot_exists pc 0 Hwf ltac:(unfold BUFFER_COUNT; lia)) as (d & b & Hs).
    pose proof (wait_safe pc 0 d b jiffies Hwf Hi Hs) as Hw. unfold wp in *.
    destruct (wait_run pc 0 d b jiffies Hwf Hi Hs) as (pc1 & ret & n & b1 & _ & Hf & _ & _ & Hr).
    rewrite Hr in Hw |- *. split; [apply Hw|]. pose proof (wfr_index _ _ Hf) as Hi1.
    rewrite bdindex_put_buffer, Hi in Hi1.
    destruct (bool_decide _); cbn [bdindex set_wait_count]; by rewrite bdindex_put_buffer.
Qed.

Lemma threads_safe : Forall safe (receive_test (E:=E) jiffies) ∧ Forall safe (tx_test (E:=E) jiffies).
Proof.
  destruct transfer_statements as (Hi & Hs & Hw). pose proof (buffer_statement (set_cb_length TEST_SIZE)) as Hb.
  split; repeat constructor; assumption.
Qed.

Lemma init_safe : safe (init_buffers (E:=E)).
Proof.
  intros lp Hlp. unfold init_buffers. apply (wp_for (λ _, ready)); [|done].
  intros i lp1 _ H1. apply wp_bind_intro. eapply wp_mono; [by apply buffer_statement|].
  intros [] lp2 H2. by apply buffer_statement.
Qed.

(** Reading the same word twice. *)
Lemma compare_same n i lp : ready lp → compare_from (E:=E) n i lp = Done (None, lp).
Proof.
  intros Hlp. pose proof Hlp as (pc & Hpc & Hwf & _).
  destruct (slot_exists pc 0 Hwf ltac:(unfold BUFFER_COUNT; lia)) as (d & b & Hs).
  assert (∀ k, channel 1 (get_word k) lp = Done (default 0 (cb_buffer b !! k), lp)) as Hg.
  { intros k. unfold channel. rewrite Hpc. unfold get_word. unfold mbind, M_bind.
    pose proof (read_buffer_run pc 0 d b Hs) as Hr. change (Z.of_nat 0) with 0 in Hr. rewrite Hr.
    cbn. by rewrite list_insert_id. }
  revert i. induction n as [|n IH]; intros i; [done|]. cbn [compare_from].
  eapply bind_done; [apply Hg|]. eapply bind_done; [apply Hg|]. rewrite Z.eqb_refl. apply IH.
Qed.

End Lemmas.

(** ** Properties *)

(** The internal test cannot fail: its transmit and receive channel are the
    same one, so whatever the hardware does and in whatever order the worker's
    statements run between its own, it compares a buffer with itself, and
    reports no difference; on a device with one channel it is outside the table. *)
Theorem internal_test_passes {E} `{DmaEngine E} `{!DmaEngineLaws E} jiffies schedule (lp : list (dma_proxy_channel E)) :
  interleaves (receive_test jiffies) (tx_test jiffies) schedule →
  match lp !! 1%nat with
  | Some pc => wf_channel pc → bdindex pc = 0 → ∃ lp', test schedule lp = Done (None, lp')
  | None => test schedule lp = Fault OutOfBounds
  end.
Proof.
  intros Hsch. destruct (lp !! 1%nat) as [pc|] eqn:Hpc.
  - intros Hwf Hi. assert (ready lp) as Hlp by (by exists pc).
    destruct (threads_safe (E:=E) jiffies) as [H1 H2].
    pose proof (run_all_safe _ (interleaves_forall safe _ _ _ Hsch H1 H2)) as Hrun.
    assert (wp (test schedule) (λ r _, r = None) lp) as Hwp.
    { unfold test. apply wp_bind_intro. eapply wp_mono; [by apply init_safe|]. intros [] lp1 Hlp1.
      apply wp_bind_intro. eapply wp_mono; [by apply Hrun|]. intros [] lp2 Hlp2.
      eapply wp_done; [by apply compare_same|done]. }
    apply wp_run in Hwp as (r & lp' & Hr & ->). by exists lp'.
  - unfold test, init_buffers. apply bind_fault. assert (test_words = S 255) as -> by reflexivity.
    apply bind_fault, bind_fault. unfold channel, TX_CHANNEL. by rewrite Hpc.
Qed.

(** ** Concrete runs *)

Lemma internal_test_passes_witness :
  ∃ lp', test (tx_test 300 ++ receive_test 300) [demo_channel; fresh_channel demo_engine 4096] = Done (None, lp').
Proof.
  refine (internal_test_passes 300 (tx_test 300 ++ receive_test 300) [demo_channel; fresh_channel demo_engine 4096]
    _ (wf_fresh_channel _ _) eq_refl).
  do 4 apply interleaves_right. do 4 apply interleaves_left. apply interleaves_end.
Defined.
