(* ===== verification/Probe.v ===== *)
(** * Probe: bringing the two kernel drivers up and down

    [cdevice_init], [cdevice_exit], [create_channel] and the probe and remove
    functions of [src/driver/stream_dma/streamio-drv.c] and
    [src/driver/axi_ctrl/streamio-ctrl-drv.c].  The kernel's functions are not
    defined here: every call is recorded with the answer an arbitrary kernel
    gives, and the theorems count what the record acquires and releases.
    Device-managed memory and interrupts are released by the kernel and not
    counted. *)
From Stdlib Require Import ZArith Lia.
From stdpp Require Import base list numbers option.
From S2P Require Import Prelude DmaChannel.

(** ** Calls to the kernel *)

(** A [struct cdev] inside entry [i] of a channel table, or made by
    [cdev_alloc]. *)
Inductive cdev_ref := Embedded (table : Z) (i : nat) | Allocated (p : Z).

(** A call and what it answered: [rc] a return code, [p] and [dev] what a
    successful call hands out. *)
Inductive event :=
| AllocRegion (rc dev : Z)
| UnregisterRegion (dev : Z)
| CdevAlloc (p : Z)
| CdevAdd (c : cdev_ref) (dev rc : Z)
| CdevDel (c : cdev_ref)
| ClassCreate (p : Z)
| ClassUnregister (cls : Z)
| ClassDestroy (cls : Z)
| DeviceCreate (cls dev p : Z)
| DeviceDestroy (cls dev : Z)
| RequestChan (name : list Z) (p : Z)
| TerminateAll (chan : Z)
| ReleaseChan (chan : Z)
| AllocCoherent (p : Z)
| CoherentAddress (phys : Z)
| Kmalloc (p : Z)
| ReadNames (rc : Z)
| GetIrq (i : nat) (irq : Z)
| RequestIrq (irq : Z) (i : nat) (rc : Z)
| Ioremap (p : Z).

(** [answers n] is what call number [n] answers: a code and a value. *)
Record kernel := mk_kernel { answers : nat → Z * Z; klog : list event }.

Definition ask (e : Z → Z → event) : M kernel (Z * Z) := λ k,
  let '(rc, p) := answers k (length (klog k)) in
  Done ((rc, p), mk_kernel (answers k) (klog k ++ [e rc p])).

Definition tell (e : event) : M kernel unit := ask (λ _ _, e) ;; mret tt.

(** Pointers that carry an error code: [IS_ERR]. *)
Definition MAX_ERRNO : Z := 4095.
Definition is_err (p : Z) : bool := (- MAX_ERRNO <=? p) && (p <? 0).

(** What a driver has to give back. *)
Inductive resource :=
| Region (dev : Z)
| Cdev (c : cdev_ref)
| Class_ (cls : Z)
| Node (cls dev : Z)
| Chan (p : Z).

#[export] Instance cdev_ref_eq_dec : EqDecision cdev_ref.
Proof. solve_decision. Defined.
#[export] Instance resource_eq_dec : EqDecision resource.
Proof. solve_decision. Defined.

Definition one (r r' : resource) : Z := if decide (r = r') then 1 else 0.

(** How a call changes the number of acquisitions of [r] not given back.  An
    allocated [cdev] counts from its allocation, and [cdev_del] gives it back
    whether or not it was added; an embedded one counts once it is added. *)
Definition effect (r : resource) (e : event) : Z :=
  match e with
  | AllocRegion rc dev => if rc =? 0 then one r (Region dev) else 0
  | UnregisterRegion dev => - one r (Region dev)
  | CdevAlloc p => one r (Cdev (Allocated p))
  | CdevAdd (Embedded t i) _ rc => if rc =? 0 then one r (Cdev (Embedded t i)) else 0
  | CdevDel c => - one r (Cdev c)
  | ClassCreate p => if is_err p then 0 else one r (Class_ p)
  | ClassUnregister cls | ClassDestroy cls => - one r (Class_ cls)
  | DeviceCreate cls dev p => if is_err p then 0 else one r (Node cls dev)
  | DeviceDestroy cls dev => - one r (Node cls dev)
  | RequestChan _ p => if is_err p then 0 else one r (Chan p)
  | ReleaseChan p => - one r (Chan p)
  | _ => 0
  end.

Fixpoint balance (r : resource) (log : list event) : Z :=
  match log with
  | [] => 0
  | e :: log' => effect r e + balance r log'
  end.

(** ** The stream driver *)

(** The fields of [struct dma_proxy_channel] that are set here. *)
Record probe_channel := mk_probe_channel {
  pc_buffer_table : Z;
  pc_phys : Z;
  pc_device : Z;
  pc_dev_node : Z;
  pc_class : Z;
  pc_handles : list Z;
  pc_chan : Z;
  pc_direction : Z;
  pc_bdindex : Z;
  pc_irq : Z;
  pc_count : Z
}.

Definition set_table_phys b p (c : probe_channel) := mk_probe_channel b p (pc_device c) (pc_dev_node c)
  (pc_class c) (pc_handles c) (pc_chan c) (pc_direction c) (pc_bdindex c) (pc_irq c) (pc_count c).
Definition set_device p c := mk_probe_channel (pc_buffer_table c) (pc_phys c) p (pc_dev_node c)
  (pc_class c) (pc_handles c) (pc_chan c) (pc_direction c) (pc_bdindex c) (pc_irq c) (pc_count c).
Definition set_dev_node v c := mk_probe_channel (pc_buffer_table c) (pc_phys c) (pc_device c) v
  (pc_class c) (pc_handles c) (pc_chan c) (pc_direction c) (pc_bdindex c) (pc_irq c) (pc_count c).
Definition set_class v c := mk_probe_channel (pc_buffer_table c) (pc_phys c) (pc_device c) (pc_dev_node c)
  v (pc_handles c) (pc_chan c) (pc_direction c) (pc_bdindex c) (pc_irq c) (pc_count c).
Definition set_handles v b c := mk_probe_channel (pc_buffer_table c) (pc_phys c) (pc_device c) (pc_dev_node c)
  (pc_class c) v (pc_chan c) (pc_direction c) b (pc_irq c) (pc_count c).
Definition set_chan v c := mk_probe_channel (pc_buffer_table c) (pc_phys c) (pc_device c) (pc_dev_node c)
  (pc_class c) (pc_handles c) v (pc_direction c) (pc_bdindex c) (pc_irq c) (pc_count c).
Definition set_direction v c := mk_probe_channel (pc_buffer_table c) (pc_phys c) (pc_device c) (pc_dev_node c)
  (pc_class c) (pc_handles c) (pc_chan c) v (pc_bdindex c) (pc_irq c) (pc_count c).
Definition set_irq v n c := mk_probe_channel (pc_buffer_table c) (pc_phys c) (pc_device c) (pc_dev_node c)
  (pc_class c) (pc_handles c) (pc_chan c) (pc_direction c) (pc_bdindex c) v n.

(** The device-tree node: the number and the names in [dma-names]; [pd_class]
    is the [class] field of the platform device, [pd_uninit] what an allocated
    table holds before it is written. *)
Record platform := mk_platform {
  dt_count : Z;
  dt_names : list (list Z);
  pd_class : Z;
  pd_uninit : probe_channel
}.

(** The module's variables and the driver data of one device. *)
Record driver := mk_driver {
  dr_kernel : kernel;
  local_class_p : Z;
  total_count : Z;
  channel_count : Z;
  channels : Z;
  table : list probe_channel
}.

Definition set_kernel k d :=
  mk_driver k (local_class_p d) (total_count d) (channel_count d) (channels d) (table d).
Definition set_local_class c d :=
  mk_driver (dr_kernel d) c (total_count d) (channel_count d) (channels d) (table d).
Definition set_total n d :=
  mk_driver (dr_kernel d) (local_class_p d) n (channel_count d) (channels d) (table d).
Definition set_count n d :=
  mk_driver (dr_kernel d) (local_class_p d) (total_count d) n (channels d) (table d).
Definition set_channels p t d :=
  mk_driver (dr_kernel d) (local_class_p d) (total_count d) (channel_count d) p t.

Definition on_kernel {A} (m : M kernel A) : M driver A := zoom dr_kernel set_kernel m.
Definition tell_dr (e : event) : M driver unit := on_kernel (tell e).

Definition channel_at (i : nat) : M driver probe_channel :=
  d ← get; require OutOfBounds (table d !! i).
Definition update_channel (i : nat) (f : probe_channel → probe_channel) : M driver unit :=
  c ← channel_at i; modify (λ d, set_channels (channels d) (<[i := f c]> (table d)) d).
Definition cdev_of (i : nat) : M driver cdev_ref := gets (λ d, Embedded (channels d) i).

Definition ERROR : Z := -1.
Definition ENOMEM : Z := 12.

(** [char device_name[32] = "dma_proxy"]: [strcat] has room for 22 bytes. *)
Definition strcat_device_name (name : list Z) : M driver unit :=
  if (9 + length name + 1 <=? 32)%nat then mret tt else raise OutOfBounds.

Definition init_error1 (i : nat) (rc : Z) : M driver Z :=
  c ← channel_at i; tell_dr (UnregisterRegion (pc_dev_node c)) ;; mret rc.
Definition init_error2 (i : nat) (rc : Z) : M driver Z :=
  c ← cdev_of i; tell_dr (CdevDel c) ;; init_error1 i rc.
Definition init_error3 (i : nat) (rc : Z) : M driver Z :=
  c ← channel_at i; tell_dr (ClassDestroy (pc_class c)) ;; init_error2 i rc.

(** The device node of channel [i], once the class is there; [rc] is still the
    0 of [cdev_add]. *)
Definition create_node (i : nat) (name : list Z) (rc : Z) : M driver Z :=
  cls ← gets local_class_p;
  update_channel i (set_class cls) ;;
  strcat_device_name name ;;
  c ← channel_at i;
  '(_, p) ← on_kernel (ask (λ _ p, DeviceCreate (pc_class c) (pc_dev_node c) p));
  update_channel i (set_device p) ;;
  if is_err p then init_error3 i rc else mret 0.

Definition cdevice_init (pdev : platform) (i : nat) (name : list Z) : M driver Z :=
  '(rc, dev) ← on_kernel (ask AllocRegion);
  if negb (rc =? 0) then mret rc
  else
    update_channel i (set_dev_node dev) ;;
    c ← cdev_of i;
    '(rc, _) ← on_kernel (ask (λ rc _, CdevAdd c dev rc));
    if negb (rc =? 0) then init_error1 i rc
    else
      cls ← gets local_class_p;
      if cls =? 0 then
        '(_, p) ← on_kernel (ask (λ _ p, ClassCreate p));
        modify (set_local_class p) ;;
        if is_err (pd_class pdev) then init_error2 i ERROR else create_node i name rc
      else create_node i name rc.

Definition cdevice_exit (i : nat) : M driver unit :=
  c ← channel_at i;
  if negb (pc_device c =? 0) then
    tell_dr (DeviceDestroy (pc_class c) (pc_dev_node c)) ;;
    n ← gets total_count;
    when (n =? 1) (tell_dr (ClassDestroy (pc_class c))) ;;
    r ← cdev_of i;
    tell_dr (CdevDel r) ;;
    tell_dr (UnregisterRegion (pc_dev_node c))
  else mret tt.

(** [bdtable[bd].dma_handle] for every buffer; a buffer is the first member of
    its entry. *)
Definition bd_handles (phys : Z) : list Z :=
  (λ bd, u64 (phys + sizeof_channel_buffer * Z.of_nat bd)) <$> seq 0 BUFFER_COUNT.

(** The bus address is the output argument of the allocation. *)
Definition create_channel (pdev : platform) (i : nat) (name : list Z) (direction : Z) : M driver Z :=
  '(_, p) ← on_kernel (ask (λ _ p, RequestChan name p));
  update_channel i (set_chan p) ;;
  if is_err p then mret p
  else
    error ← cdevice_init pdev i name;
    if negb (error =? 0) then mret error
    else
      update_channel i (set_direction direction) ;;
      '(_, b) ← on_kernel (ask (λ _ p, AllocCoherent p));
      '(_, phys) ← on_kernel (ask (λ _ phys, CoherentAddress phys));
      update_channel i (set_table_phys b phys) ;;
      update_channel i (set_handles (bd_handles phys) 0) ;;
      if b =? 0 then mret ERROR else mret 0.

Definition DMA_MEM_TO_DEV : Z := 1.

(** One pass of the loop of [dma_proxy_probe]; [irq] is unsigned, so the test
    for a missing interrupt never holds. *)
Definition probe_one (pdev : platform) (i : nat) : M driver Z :=
  name ← require OutOfBounds (dt_names pdev !! i);
  rc ← create_channel pdev i name DMA_MEM_TO_DEV;
  if negb (rc =? 0) then mret rc
  else
    '(_, irq0) ← on_kernel (ask (λ _ irq, GetIrq i irq));
    let irq := u32 irq0 in
    (if irq <? 0 then mret tt
     else
       '(rc, _) ← on_kernel (ask (λ rc _, RequestIrq irq i rc));
       if negb (rc =? 0) then mret tt else update_channel i (set_irq irq 0)) ;;
    modify (λ d, set_total (s32 (total_count d + 1)) d) ;;
    mret 0.

Fixpoint probe_all (pdev : platform) (i n : nat) : M driver Z :=
  match n with
  | O => mret 0
  | S n' =>
      rc ← probe_one pdev i;
      if negb (rc =? 0) then mret rc else probe_all pdev (S i) n'
  end.

(** [internal_test] is 0 and cannot be set: the test after the loop never runs. *)
Definition dma_proxy_probe (pdev : platform) : M driver Z :=
  '(_, lp) ← on_kernel (ask (λ _ p, Kmalloc p));
  if lp =? 0 then mret (- ENOMEM)
  else
    modify (set_count (dt_count pdev)) ;;
    if dt_count pdev <=? 0 then mret 0
    else
      '(_, names) ← on_kernel (ask (λ _ p, Kmalloc p));
      if names =? 0 then mret (- ENOMEM)
      else
        '(rc, _) ← on_kernel (ask (λ rc _, ReadNames rc));
        if rc <? 0 then mret rc
        else
          '(_, p) ← on_kernel (ask (λ _ p, Kmalloc p));
          modify (set_channels p (replicate (Z.to_nat (dt_count pdev)) (pd_uninit pdev))) ;;
          if p =? 0 then mret (- ENOMEM)
          else probe_all pdev 0 (Z.to_nat (dt_count pdev)).

Definition remove_node (i : nat) : M driver unit :=
  c ← channel_at i;
  when (negb (pc_device c =? 0)) (cdevice_exit i) ;;
  modify (λ d, set_total (s32 (total_count d - 1)) d).

Definition remove_chan (i : nat) : M driver unit :=
  c ← channel_at i;
  when (negb (pc_chan c =? 0))
    (tell_dr (TerminateAll (pc_chan c)) ;; tell_dr (ReleaseChan (pc_chan c))).

Definition dma_proxy_remove : M driver Z :=
  n ← gets channel_count;
  for_ (Z.to_nat n) remove_node ;;
  for_ (Z.to_nat n) remove_chan ;;
  mret 0.

(** ** The register driver *)

(** The kernel and the fields of the global [dev_data]. *)
Record ctrl := mk_ctrl {
  ct_kernel : kernel;
  ct_devid : Z;
  ct_major : Z;
  ct_minor : Z;
  ct_cdev : Z;
  ct_class : Z;
  ct_device : Z;
  ct_regs : Z
}.

Definition ct_set_kernel k c :=
  mk_ctrl k (ct_devid c) (ct_major c) (ct_minor c) (ct_cdev c) (ct_class c) (ct_device c) (ct_regs c).
Definition ct_set_devid v c :=
  mk_ctrl (ct_kernel c) v (Z.shiftr v 20) (Z.land v (Z.ones 20)) (ct_cdev c) (ct_class c) (ct_device c) (ct_regs c).
Definition ct_set_cdev v c :=
  mk_ctrl (ct_kernel c) (ct_devid c) (ct_major c) (ct_minor c) v (ct_class c) (ct_device c) (ct_regs c).
Definition ct_set_class v c :=
  mk_ctrl (ct_kernel c) (ct_devid c) (ct_major c) (ct_minor c) (ct_cdev c) v (ct_device c) (ct_regs c).
Definition ct_set_device v c :=
  mk_ctrl (ct_kernel c) (ct_devid c) (ct_major c) (ct_minor c) (ct_cdev c) (ct_class c) v (ct_regs c).
Definition ct_set_regs v c :=
  mk_ctrl (ct_kernel c) (ct_devid c) (ct_major c) (ct_minor c) (ct_cdev c) (ct_class c) (ct_device c) v.

Definition on_ct {A} (m : M kernel A) : M ctrl A := zoom ct_kernel ct_set_kernel m.
Definition tell_ct (e : event) : M ctrl unit := on_ct (tell e).

Definition MKDEV (major minor : Z) : Z := Z.lor (Z.shiftl major 20) minor.
Definition ENAVAIL : Z := 119.

Definition r_class (err : Z) : M ctrl Z :=
  c ← get; tell_ct (CdevDel (Allocated (ct_cdev c))) ;;
  tell_ct (UnregisterRegion (ct_devid c)) ;; mret err.
Definition r_device (err : Z) : M ctrl Z :=
  c ← get; tell_ct (ClassDestroy (ct_class c)) ;; r_class err.

(** [cdev_init] writes to what [cdev_alloc] returned. *)
Definition ctrl_cdevice_init : M ctrl Z :=
  '(err, dev) ← on_ct (ask AllocRegion);
  if negb (err =? 0) then mret (- ENAVAIL)
  else
    modify (ct_set_devid dev) ;;
    '(_, p) ← on_ct (ask (λ _ p, CdevAlloc p));
    modify (ct_set_cdev p) ;;
    (if p =? 0 then raise NullDeref else mret tt) ;;
    '(err, _) ← on_ct (ask (λ rc _, CdevAdd (Allocated p) dev rc));
    if negb (err =? 0) then r_class err
    else
      '(_, cls) ← on_ct (ask (λ _ p, ClassCreate p));
      modify (ct_set_class cls) ;;
      if is_err cls then r_class cls
      else
        '(_, node) ← on_ct (ask (λ _ p, DeviceCreate cls dev p));
        modify (ct_set_device node) ;;
        if is_err node then r_device node else mret 0.

Definition ctrl_cdevice_exit : M ctrl unit :=
  c ← get;
  tell_ct (DeviceDestroy (ct_class c) (MKDEV (ct_major c) (ct_minor c))) ;;
  tell_ct (ClassUnregister (ct_class c)) ;;
  tell_ct (ClassDestroy (ct_class c)) ;;
  tell_ct (CdevDel (Allocated (ct_cdev c))) ;;
  tell_ct (UnregisterRegion (ct_devid c)).

(** [dev] is the platform device; the resource pointers it also stores are only
    printed. *)
Definition transmit_control_probe (dev : Z) : M ctrl Z :=
  modify (ct_set_device dev) ;;
  '(_, regs) ← on_ct (ask (λ _ p, Ioremap p));
  modify (ct_set_regs regs) ;;
  if is_err regs then mret regs
  else
    ret ← ctrl_cdevice_init;
    if negb (ret =? 0) then mret ret else mret 0.

Definition transmit_control_remove : M ctrl Z := ctrl_cdevice_exit ;; mret 0.

(** ** Lemmas: the record of calls *)

Lemma balance_snoc r log e : balance r (log ++ [e]) = balance r log + effect r e.
Proof. induction log as [|e' log IH]; simpl; [lia|]. rewrite IH. lia. Qed.

(** Every call succeeds. *)
Definition kernel_ok (k : kernel) : Prop := ∀ n, (answers k n).1 = 0 ∧ 0 < (answers k n).2.

Definition bal (r : resource) (d : driver) : Z := balance r (klog (dr_kernel d)).
Definition say (e : event) (d : driver) : driver :=
  set_kernel (mk_kernel (answers (dr_kernel d)) (klog (dr_kernel d) ++ [e])) d.

Lemma bal_say r e d : bal r (say e d) = bal r d + effect r e.
Proof. apply balance_snoc. Qed.

Lemma wp_ask (e : Z → Z → event) (Q : Z * Z → driver → Prop) d :
  (∀ rc p, (kernel_ok (dr_kernel d) → rc = 0 ∧ 0 < p) → Q (rc, p) (say (e rc p) d)) →
  wp (on_kernel (ask e)) Q d.
Proof.
  intros HQ. unfold on_kernel, ask. unfold wp, zoom.
  destruct (answers (dr_kernel d) (length (klog (dr_kernel d)))) as [rc p] eqn:Ea.
  apply HQ. intros Hok. specialize (Hok (length (klog (dr_kernel d)))). by rewrite Ea in Hok.
Qed.

Lemma wp_tell e (Q : unit → driver → Prop) d : Q tt (say e d) → wp (tell_dr e) Q d.
Proof.
  intros HQ. unfold tell_dr, on_kernel, tell, ask. unfold wp, zoom, mbind, M_bind.
  by destruct (answers (dr_kernel d) (length (klog (dr_kernel d)))).
Qed.

Lemma wp_channel_at i c (Q : probe_channel → driver → Prop) d :
  table d !! i = Some c → Q c d → wp (channel_at i) Q d.
Proof. intros Hi HQ. unfold wp, channel_at, mbind, M_bind. simpl. by rewrite Hi. Qed.

(** The state after a store to a field of entry [i]. *)
Definition store_entry (i : nat) (c : probe_channel) (d : driver) : driver :=
  set_channels (channels d) (<[i := c]> (table d)) d.

Lemma wp_update i f c (Q : unit → driver → Prop) d :
  table d !! i = Some c → Q tt (store_entry i (f c) d) → wp (update_channel i f) Q d.
Proof. intros Hi HQ. unfold update_channel. apply wp_bind. by eapply wp_channel_at. Qed.

Lemma table_store i c d : (i < length (table d))%nat → table (store_entry i c d) !! i = Some c.
Proof. intros Hi. by apply list_lookup_insert_eq. Qed.

(** Only entry [i] of the table changed, to [c]; the kernel goes on with the
    same answers.  The two counts of the module are not part of this. *)
Record touched (i : nat) (c : probe_channel) (d d' : driver) : Prop := {
  td_table : table d' = <[i := c]> (table d);
  td_channels : channels d' = channels d;
  td_count : channel_count d' = channel_count d;
  td_answers : answers (dr_kernel d') = answers (dr_kernel d)
}.

Lemma touched_lookup i c d d' : touched i c d d' → (i < length (table d))%nat → table d' !! i = Some c.
Proof. intros [-> _ _ _] Hi. by apply list_lookup_insert_eq. Qed.

Lemma touched_same i c d : table d !! i = Some c → touched i c d d.
Proof. intros Hc. split; [|done..]. by rewrite list_insert_id. Qed.

Lemma touched_store i c d : touched i c d (store_entry i c d).
Proof. done. Qed.

Lemma touched_trans i c c' d d' d'' :
  touched i c d d' → touched i c' d' d'' → touched i c' d d''.
Proof.
  intros [H1 H2 H3 H4] [K1 K2 K3 K4]. split; [|congruence..]. by rewrite K1, H1, list_insert_insert_eq.
Qed.

Lemma touched_say i c d d' e : touched i c d d' → touched i c d (say e d').
Proof. by intros []. Qed.

Lemma touched_class i c d d' p : touched i c d d' → touched i c d (set_local_class p d').
Proof. by intros []. Qed.

Lemma touched_total i c d d' n : touched i c d d' → touched i c d (set_total n d').
Proof. by intros []. Qed.

Lemma touched_ok i c d d' : touched i c d d' → kernel_ok (dr_kernel d) → kernel_ok (dr_kernel d').
Proof. intros [_ _ _ Ha] Hk n. rewrite Ha. apply Hk. Qed.

Create HintDb touched discriminated.
#[export] Hint Resolve touched_say touched_class touched_total touched_store touched_same : touched.
#[export] Hint Extern 3 (touched _ _ _ (store_entry _ _ _)) => eapply touched_trans; [|apply touched_store] : touched.

(** What entry [i] of the table at [base] holds. *)
Definition node_part (base : Z) (r : resource) (i : nat) (c : probe_channel) : Z :=
  one r (Region (pc_dev_node c)) + one r (Cdev (Embedded base i)) +
  one r (Node (pc_class c) (pc_dev_node c)).
Definition chan_part (r : resource) (i : nat) (c : probe_channel) : Z := one r (Chan (pc_chan c)).

Lemma is_err_pos p : 0 < p → is_err p = false.
Proof. intros Hp. unfold is_err. rewrite (proj2 (Z.ltb_ge p 0)) by lia. apply andb_false_r. Qed.

(** Symbolic execution of the channel functions: the effects on the record of
    calls and the entry of the table stay folded. *)
Ltac probe_step :=
  wp_seq;
  lazymatch goal with
  | |- wp (channel_at _) _ _ => eapply wp_channel_at; [eapply touched_lookup; [|eassumption]; solve [eauto 25 with touched]|]
  | |- wp (update_channel _ _) _ _ => eapply wp_update; [eapply touched_lookup; [|eassumption]; solve [eauto 25 with touched]|]
  | |- wp (tell_dr _) _ _ => apply wp_tell
  | |- wp (cdev_of _) _ _ => apply wp_gets
  | |- wp (gets _) _ _ => apply wp_gets
  | |- wp (mret _) _ _ => apply wp_ret
  | |- wp (modify _) _ _ => apply wp_modify
  end; cbv beta.

(** Balances of states that differ in calls only. *)
Lemma bal_store r i c d : bal r (store_entry i c d) = bal r d.
Proof. done. Qed.
Lemma bal_class r p d : bal r (set_local_class p d) = bal r d.
Proof. done. Qed.
Lemma bal_total r n d : bal r (set_total n d) = bal r d.
Proof. done. Qed.

Create Rewrite HintDb bal.
#[export] Hint Rewrite bal_say bal_store bal_class bal_total : bal.

(** The device node of channel [i]: there, or everything taken down. *)
Lemma wp_create_node i name rc d c0 :
  table d !! i = Some c0 → (length name ≤ 22)%nat →
  wp (create_node i name rc) (λ ret d', ∃ p,
    touched i (set_device p (set_class (local_class_p d) c0)) d d' ∧
    total_count d' = total_count d ∧ local_class_p d' = local_class_p d ∧
    (kernel_ok (dr_kernel d) → 0 < p) ∧
    if is_err p then ret = rc ∧ ∀ r, bal r d' = bal r d - one r (Class_ (local_class_p d)) -
      one r (Cdev (Embedded (channels d) i)) - one r (Region (pc_dev_node c0))
    else ret = 0 ∧ ∀ r, bal r d' = bal r d + one r (Node (local_class_p d) (pc_dev_node c0))) d.
Proof.
  intros Hc Hn. pose proof (lookup_lt_Some _ _ _ Hc) as Hlt. unfold create_node.
  do 2 probe_step. wp_seq. unfold strcat_device_name. rewrite (proj2 (Nat.leb_le _ _)) by lia.
  do 2 probe_step. wp_seq. apply wp_ask. intros rc' p Hok. cbv beta iota. probe_step.
  destruct (is_err p) eqn:Ep.
  - unfold init_error3, init_error2, init_error1. do 7 probe_step. exists p. rewrite Ep.
    split; [eauto 25 with touched|]. do 2 (split; [reflexivity|]). split; [intros Hk; by apply Hok|].
    split; [done|]. intros r. autorewrite with bal. cbn [effect pc_class pc_dev_node set_class set_device].
    rewrite Ep. cbn. clear. lia.
  - probe_step. exists p. rewrite Ep.
    split; [eauto 25 with touched|]. do 2 (split; [reflexivity|]). split; [intros Hk; by apply Hok|].
    split; [done|]. intros r. autorewrite with bal. cbn [effect]. rewrite Ep. reflexivity.
Qed.

(** [r] is no class. *)
Definition no_class (r : resource) : Prop := ∀ cls, r ≠ Class_ cls.

Lemma one_no_class r cls : no_class r → one r (Class_ cls) = 0.
Proof. intros Hr. unfold one. by rewrite decide_False. Qed.

(** What [cdevice_init] for entry [i] (before: [c0]) does to the driver. *)
Record init_post (pdev : platform) (i : nat) (c0 : probe_channel) (d : driver) (ret : Z) (d' : driver)
    (c : probe_channel) (cl : resource → Z) : Prop := {
  ip_touched : touched i c d d';
  ip_total : total_count d' = total_count d;
  ip_chan : pc_chan c = pc_chan c0;
  ip_class : local_class_p d ≠ 0 → local_class_p d' = local_class_p d;
  ip_balance : ∀ r, bal r d' = bal r d +
    (if (ret =? 0) && negb (is_err (pc_device c)) then node_part (channels d) r i c else 0) + cl r;
  ip_no_class : ∀ r, no_class r → cl r = 0;
  ip_ok : kernel_ok (dr_kernel d) → is_err (pd_class pdev) = false →
    ret = 0 ∧ 0 < pc_device c ∧ pc_class c = local_class_p d' ∧ local_class_p d' ≠ 0 ∧
    ∀ r, cl r = if local_class_p d =? 0 then one r (Class_ (local_class_p d')) else 0
}.

(** The last part of [cdevice_init], from the state [d1] in which the region and
    the character device of entry [i] were acquired. *)
Lemma wp_init_node pdev i name c0 c1 d d1 cl1 :
  (i < length (table d))%nat → pc_chan c1 = pc_chan c0 →
  touched i c1 d d1 → total_count d1 = total_count d → (length name ≤ 22)%nat →
  (local_class_p d ≠ 0 → local_class_p d1 = local_class_p d) →
  (∀ r, bal r d1 = bal r d + one r (Region (pc_dev_node c1)) + one r (Cdev (Embedded (channels d) i)) + cl1 r) →
  (∀ r, no_class r → cl1 r = 0) →
  (kernel_ok (dr_kernel d) → is_err (pd_class pdev) = false → local_class_p d1 ≠ 0 ∧
    ∀ r, cl1 r = if local_class_p d =? 0 then one r (Class_ (local_class_p d1)) else 0) →
  wp (create_node i name 0) (λ ret d', ∃ c cl, init_post pdev i c0 d ret d' c cl) d1.
Proof.
  intros Hlt Hch Hd1 Ht1 Hn Hcls Hb Hnc Hok.
  eapply wp_mono; [apply (wp_create_node i name 0 d1 c1); [by eapply touched_lookup|done]|].
  intros ret d' (p & Hd' & Ht & Hl & Hp & Hres). rewrite (td_channels _ _ _ _ Hd1) in Hres.
  exists (set_device p (set_class (local_class_p d1) c1)),
    (λ r, cl1 r - if is_err p then one r (Class_ (local_class_p d1)) else 0). split.
  - by eapply touched_trans.
  - congruence.
  - exact Hch.
  - intros Hz. rewrite Hl. by apply Hcls.
  - intros r. cbn [pc_device set_device]. unfold node_part. cbn [pc_dev_node pc_class set_device set_class].
    destruct (is_err p); destruct Hres as [-> Hres]; rewrite Hres, Hb; cbn [negb andb Z.eqb]; clear; lia.
  - intros r Hr. simpl. rewrite Hnc by done. destruct (is_err p); [by rewrite one_no_class|done].
  - intros Hk Hpd. specialize (Hp (touched_ok _ _ _ _ Hd1 Hk)). rewrite (is_err_pos p Hp) in *.
    destruct Hres as [-> _]. destruct (Hok Hk Hpd) as [Hnz Hcl]. rewrite Hl.
    do 3 (split; [done|]). split; [done|]. intros r. rewrite Hcl. clear. lia.
Qed.

Lemma wp_cdevice_init pdev i name d c0 :
  table d !! i = Some c0 → (length name ≤ 22)%nat →
  wp (cdevice_init pdev i name) (λ ret d', ∃ c cl, init_post pdev i c0 d ret d' c cl) d.
Proof.
  intros Hc Hn. pose proof (lookup_lt_Some _ _ _ Hc) as Hlt. unfold cdevice_init. wp_seq.
  apply wp_ask. intros rc dev Hok. cbv beta iota.
  destruct (rc =? 0) eqn:Erc; cbn [negb].
  2: { probe_step. exists c0, (λ _, 0). split; try (solve [eauto 25 with touched]); try done.
    - intros r. autorewrite with bal. cbn [effect]. rewrite Erc. clear. cbn [andb]. lia.
    - intros Hk. destruct (Hok Hk) as [-> _]. discriminate Erc. }
  do 2 probe_step. wp_seq. apply wp_ask. intros rc2 x Hok2. cbv beta iota.
  destruct (rc2 =? 0) eqn:Erc2; cbn [negb].
  2: { unfold init_error1. do 3 probe_step.
    exists (set_dev_node dev c0), (λ _, 0). split; try (solve [eauto 25 with touched]); try done.
    - intros r. autorewrite with bal. cbn [effect pc_dev_node set_dev_node]. rewrite Erc, Erc2.
      cbn [andb]. clear. lia.
    - intros Hk. destruct (Hok2 Hk) as [-> _]. discriminate Erc2. }
  apply Z.eqb_eq in Erc2 as ->. probe_step.
  assert (∀ r, bal r (say (CdevAdd (Embedded (channels d) i) dev 0) (store_entry i (set_dev_node dev c0)
      (say (AllocRegion rc dev) d))) =
    bal r d + one r (Region dev) + one r (Cdev (Embedded (channels d) i))) as Hb.
  { intros r. autorewrite with bal. cbn [effect Z.eqb]. by rewrite Erc. }
  cbn [local_class_p say store_entry set_kernel set_channels channels].
  destruct (local_class_p d =? 0) eqn:El.
  2: { apply (wp_init_node pdev i name c0 (set_dev_node dev c0) d _ (λ _, 0)); try (solve [eauto 25 with touched]); try done.
    - intros r. rewrite Hb. cbn [pc_dev_node set_dev_node]. clear. lia.
    - intros _ _. split; [by apply Z.eqb_neq in El|]. intros r. by rewrite El. }
  wp_seq. apply wp_ask. intros rc3 p Hok3. cbv beta iota. probe_step.
  apply Z.eqb_eq in El.
  set (cl := λ r, if is_err p then 0 else one r (Class_ p)).
  assert (∀ r, no_class r → cl r = 0) as Hcl.
  { intros r Hr. unfold cl. destruct (is_err p); [done|]. by apply one_no_class. }
  assert (∀ r, bal r (set_local_class p (say (ClassCreate p) (say (CdevAdd (Embedded (channels d) i) dev 0)
      (store_entry i (set_dev_node dev c0) (say (AllocRegion rc dev) d))))) =
    bal r d + one r (Region dev) + one r (Cdev (Embedded (channels d) i)) + cl r) as Hb2.
  { intros r. rewrite bal_class, bal_say, Hb. reflexivity. }
  destruct (is_err (pd_class pdev)) eqn:Epd.
  - unfold init_error2, init_error1. do 5 probe_step.
    exists (set_dev_node dev c0), cl. split; try (solve [eauto 25 with touched]); try done.
    + intros r. rewrite !bal_say. cbn [channels set_local_class say set_kernel store_entry set_channels] in Hb2 |- *.
      rewrite Hb2. cbn [effect pc_dev_node set_dev_node andb Z.eqb ERROR]. clear. lia.
    + intros _ ?. congruence.
  - apply (wp_init_node pdev i name c0 (set_dev_node dev c0) d _ cl); try (solve [eauto 25 with touched]); try done.
    intros Hk _. destruct (Hok3 Hk) as [_ Hp]. cbn [local_class_p set_local_class].
    split; [clear -Hp; lia|]. intros r. rewrite El. unfold cl. by rewrite is_err_pos.
Qed.

(** A channel that is completely set up. *)
Record ready (cls : Z) (c : probe_channel) : Prop := {
  rd_buffers : 0 < pc_buffer_table c;
  rd_device : 0 < pc_device c;
  rd_class : pc_class c = cls;
  rd_chan : 0 < pc_chan c;
  rd_handles : pc_handles c = bd_handles (pc_phys c);
  rd_direction : pc_direction c = DMA_MEM_TO_DEV;
  rd_bdindex : pc_bdindex c = 0
}.

(** What happened to the driver while entry [i] was set up. *)
Record made (i : nat) (d : driver) (d' : driver) (c : probe_channel) : Prop := {
  mk_touched : touched i c d d';
  mk_ready : ready (local_class_p d') c;
  mk_class : local_class_p d' ≠ 0 ∧ (local_class_p d ≠ 0 → local_class_p d' = local_class_p d);
  mk_balance : ∀ r, bal r d' = bal r d + node_part (channels d) r i c + chan_part r i c +
    (if local_class_p d =? 0 then one r (Class_ (local_class_p d')) else 0)
}.

Lemma wp_create_channel pdev i name d c0 :
  table d !! i = Some c0 → (length name ≤ 22)%nat → kernel_ok (dr_kernel d) →
  is_err (pd_class pdev) = false →
  wp (create_channel pdev i name DMA_MEM_TO_DEV) (λ ret d',
    ret = 0 ∧ total_count d' = total_count d ∧ ∃ c, made i d d' c) d.
Proof.
  intros Hc Hn Hk Hpd. pose proof (lookup_lt_Some _ _ _ Hc) as Hlt. unfold create_channel. wp_seq.
  apply wp_ask. intros rc p Hok. destruct (Hok Hk) as [_ Hp]. cbv beta iota. probe_step.
  rewrite is_err_pos by done. wp_seq.
  set (d1 := store_entry i (set_chan p c0) (say (RequestChan name p) d)).
  assert (touched i (set_chan p c0) d d1) as Hd1 by (unfold d1; eauto 25 with touched).
  eapply wp_mono; [apply (wp_cdevice_init pdev i name d1 (set_chan p c0)); [by eapply touched_lookup|done]|].
  intros ret d2 (c & cl & [Hst Ht Hch Hcls Hb _ Hi]). destruct (Hi Hk Hpd) as (-> & Hdev & Hcl & Hl & Hclb).
  cbn [Z.eqb negb]. clear Hi. rewrite is_err_pos in Hb by done.
  pose proof (touched_trans _ _ _ _ _ _ Hd1 Hst) as Hd2. pose proof (touched_ok _ _ _ _ Hd2 Hk) as Hk2.
  probe_step. wp_seq. apply wp_ask. intros rc2 b Hok2. cbv beta iota. destruct (Hok2 Hk2) as [_ Hbp].
  wp_seq. apply wp_ask. intros rc3 phys _. cbv beta iota. do 2 probe_step.
  rewrite (proj2 (Z.eqb_neq b 0)) by (clear -Hbp; lia). probe_step. split; [done|]. split; [exact Ht|].
  eexists. split.
  - eauto 25 with touched.
  - split; try done. change (0 < pc_chan c). by rewrite Hch.
  - split; [done|]. intros Hz. by apply Hcls.
  - intros r. autorewrite with bal. rewrite Hb, Hclb. unfold d1. autorewrite with bal.
    cbn [effect]. rewrite is_err_pos by done. unfold node_part, chan_part.
    cbn [pc_dev_node pc_class pc_chan set_handles set_table_phys set_direction local_class_p set_local_class
         channels store_entry set_channels say set_kernel Z.eqb andb negb].
    rewrite Hch. cbn [pc_chan set_chan]. clear. lia.
Qed.

Lemma wp_probe_one pdev i name d c0 :
  dt_names pdev !! i = Some name → (length name ≤ 22)%nat → table d !! i = Some c0 →
  kernel_ok (dr_kernel d) → is_err (pd_class pdev) = false → 0 ≤ total_count d < 2 ^ 31 - 1 →
  wp (probe_one pdev i) (λ ret d',
    ret = 0 ∧ total_count d' = total_count d + 1 ∧ ∃ c, made i d d' c ∧ pc_count c = 0) d.
Proof.
  intros Hname Hn Hc Hk Hpd Ht. pose proof (lookup_lt_Some _ _ _ Hc) as Hlt. unfold probe_one.
  wp_seq. eapply wp_require; [exact Hname|]. wp_seq.
  eapply wp_mono; [by eapply wp_create_channel|].
  intros ret d1 (-> & Ht1 & c & [Hd1 Hr Hcl Hb]). cbn [Z.eqb negb].
  pose proof (touched_ok _ _ _ _ Hd1 Hk) as Hk1.
  wp_seq. apply wp_ask. intros rc irq _. cbv beta iota zeta.
  pose proof (uwrap_range 32 irq ltac:(lia)) as Hirq.
  rewrite (proj2 (Z.ltb_ge (u32 irq) 0)) by (clear -Hirq; lia). clear Hirq.
  wp_seq. apply wp_ask. intros rc2 x Hok2. cbv beta iota. destruct (Hok2 Hk1) as [-> _].
  cbn [Z.eqb negb]. do 3 probe_step. split; [done|]. split.
  { cbn [total_count set_total store_entry set_channels say set_kernel]. rewrite Ht1. apply swrap_small; lia. }
  exists (set_irq (u32 irq) 0 c). split; [|reflexivity]. split.
  - eauto 25 with touched.
  - by destruct Hr.
  - exact Hcl.
  - intros r. autorewrite with bal. rewrite Hb. cbn [effect]. unfold node_part, chan_part.
    cbn [pc_dev_node pc_class pc_chan set_irq local_class_p set_total store_entry set_channels say set_kernel].
    clear. lia.
Qed.

(** Sums over the entries of a table, from entry [i] on. *)
Fixpoint table_sum (f : nat → probe_channel → Z) (i : nat) (cs : list probe_channel) : Z :=
  match cs with
  | [] => 0
  | c :: cs' => f i c + table_sum f (S i) cs'
  end.

Lemma table_sum_snoc f i cs c : table_sum f i (cs ++ [c]) = table_sum f i cs + f (i + length cs)%nat c.
Proof.
  revert i. induction cs as [|c' cs IH]; intros i; simpl; [rewrite Nat.add_0_r; lia|].
  rewrite IH. replace (S i + length cs)%nat with (i + S (length cs))%nat by lia. lia.
Qed.

Lemma table_sum_add f g i cs :
  table_sum (λ i c, f i c + g i c) i cs = table_sum f i cs + table_sum g i cs.
Proof. revert i. induction cs as [|c cs IH]; intros i; simpl; [lia|]. rewrite IH. lia. Qed.

(** The first [i] channels are set up. *)
Record probed (d0 : driver) (i : nat) (d : driver) : Prop := {
  pb_answers : answers (dr_kernel d) = answers (dr_kernel d0);
  pb_channels : channels d = channels d0;
  pb_count : channel_count d = channel_count d0;
  pb_length : length (table d) = length (table d0);
  pb_total : total_count d = total_count d0 + Z.of_nat i;
  pb_class : local_class_p d0 ≠ 0 ∨ i = 0%nat → local_class_p d = local_class_p d0;
  pb_made : i ≠ 0%nat → local_class_p d ≠ 0;
  pb_ready : ∀ j c, (j < i)%nat → table d !! j = Some c → ready (local_class_p d) c ∧ pc_count c = 0;
  pb_balance : ∀ r, bal r d = bal r d0 +
    table_sum (λ j c, node_part (channels d0) r j c + chan_part r j c) 0 (take i (table d)) +
    (if (local_class_p d0 =? 0) && negb (i =? 0)%nat then one r (Class_ (local_class_p d)) else 0)
}.

Lemma probed_start d : probed d 0 d.
Proof.
  split; try done; [lia|lia|]. intros r. simpl. rewrite andb_false_r. lia.
Qed.

Lemma probed_step d0 i d d' c :
  probed d0 i d → (i < length (table d0))%nat → total_count d' = total_count d + 1 →
  made i d d' c → pc_count c = 0 → probed d0 (S i) d'.
Proof.
  intros [Pa Pc Pn Pl Pt Pcl Pm Pr Pb] Hi Ht [[Htab Hch Hcc Ha] Hr [Hnz Hcl] Hb] Hcnt.
  assert (take (S i) (table d') = take i (table d) ++ [c]) as Htake.
  { rewrite Htab, (take_S_r _ i c) by (apply list_lookup_insert_eq; lia). by rewrite take_insert_ge by lia. }
  assert (i ≠ 0%nat → local_class_p d' = local_class_p d) as Hsame by auto.
  split.
  - by rewrite Ha.
  - by rewrite Hch.
  - by rewrite Hcc.
  - rewrite Htab, length_insert. exact Pl.
  - rewrite Ht, Pt. lia.
  - intros [Hz|?]; [|done]. assert (local_class_p d = local_class_p d0) as He by auto. rewrite Hcl by congruence. done.
  - done.
  - intros j c' Hj Hj'. destruct (decide (j = i)) as [->|Hne].
    + rewrite Htab, list_lookup_insert_eq in Hj' by lia. by simplify_eq.
    + rewrite Htab, list_lookup_insert_ne in Hj' by done. rewrite Hsame by lia. apply (Pr j); [lia|done].
  - intros r. rewrite Hb, Pb, Htake, table_sum_snoc, length_take_le, Nat.add_0_l, Pc by lia.
    cbn [Nat.eqb negb]. rewrite andb_true_r. destruct (decide (i = 0%nat)) as [->|Hne].
    + rewrite Pcl by auto. simpl. rewrite andb_false_r. lia.
    + rewrite (proj2 (Z.eqb_neq (local_class_p d) 0)) by auto. rewrite Hsame by done.
      rewrite (proj2 (Nat.eqb_neq _ _)) by done. cbn [negb]. rewrite andb_true_r. lia.
Qed.

Lemma wp_probe_all pdev d0 i n d :
  (∀ name, name ∈ dt_names pdev → (length name ≤ 22)%nat) →
  length (dt_names pdev) = length (table d0) → (i + n = length (table d0))%nat →
  kernel_ok (dr_kernel d0) → is_err (pd_class pdev) = false →
  0 ≤ total_count d0 → total_count d0 + Z.of_nat (length (table d0)) < 2 ^ 31 →
  probed d0 i d → wp (probe_all pdev i n) (λ ret d', ret = 0 ∧ probed d0 (i + n) d') d.
Proof.
  intros Hnames Hl Hin Hk Hpd Ht0 Ht1. revert i d Hin. induction n as [|n IH]; intros i d Hin Hp.
  - apply wp_ret. split; [done|]. by rewrite Nat.add_0_r.
  - simpl. wp_seq. destruct (lookup_lt_is_Some_2 (dt_names pdev) i ltac:(lia)) as [name Hname].
    destruct (lookup_lt_is_Some_2 (table d) i) as [c0 Hc0]; [rewrite (pb_length _ _ _ Hp); lia|].
    pose proof (pb_total _ _ _ Hp) as Htot.
    eapply wp_mono; [apply (wp_probe_one pdev i name d c0); try done|].
    + by eapply Hnames, list_elem_of_lookup_2.
    + unfold kernel_ok. by rewrite (pb_answers _ _ _ Hp).
    + lia.
    + intros ret d' (-> & Ht & c & Hm & Hcnt). cbn [Z.eqb negb].
      replace (i + S n)%nat with (S i + n)%nat by lia. apply IH; [lia|]. eapply probed_step; try done. lia.
Qed.

(** ** Lemmas: taking the channels down *)

Lemma wp_remove_node i d c :
  table d !! i = Some c → 0 < pc_device c → 0 < total_count d < 2 ^ 31 →
  wp (remove_node i) (λ _ d', d' = set_kernel (dr_kernel d') (set_total (total_count d - 1) d) ∧
    ∀ r, bal r d' = bal r d - node_part (channels d) r i c -
      (if total_count d =? 1 then one r (Class_ (pc_class c)) else 0)) d.
Proof.
  intros Hc Hd Ht. unfold remove_node. wp_seq. eapply wp_channel_at; [exact Hc|].
  rewrite (proj2 (Z.eqb_neq _ _)) by lia. cbn [negb when].
  wp_seq. unfold cdevice_exit. wp_seq. eapply wp_channel_at; [exact Hc|].
  rewrite (proj2 (Z.eqb_neq _ _)) by lia. cbn [negb].
  wp_seq. apply wp_tell. wp_seq. wp_step. simpl.
  destruct (total_count d =? 1) eqn:Et; unfold when, cdev_of.
  - wp_seq. apply wp_tell. wp_seq. wp_step. wp_seq. apply wp_tell. apply wp_tell.
    apply wp_modify. simpl. rewrite swrap_small by lia. split; [done|].
    intros r. unfold bal. simpl. rewrite !balance_snoc. unfold node_part. simpl. clear. lia.
  - wp_seq. apply wp_ret. wp_seq. wp_step. wp_seq. apply wp_tell. apply wp_tell.
    apply wp_modify. simpl. rewrite swrap_small by lia. split; [done|].
    intros r. unfold bal. simpl. rewrite !balance_snoc. unfold node_part. simpl. clear. lia.
Qed.

Lemma wp_remove_chan i d c :
  table d !! i = Some c → 0 < pc_chan c →
  wp (remove_chan i) (λ _ d', d' = set_kernel (dr_kernel d') d ∧
    ∀ r, bal r d' = bal r d - chan_part r i c) d.
Proof.
  intros Hc Hd. unfold remove_chan. wp_seq. eapply wp_channel_at; [exact Hc|].
  rewrite (proj2 (Z.eqb_neq _ _)) by lia. cbn [negb when].
  wp_seq. apply wp_tell. apply wp_tell. split; [done|].
  intros r. unfold bal. simpl. rewrite !balance_snoc. unfold chan_part. simpl. lia.
Qed.

Section Remove.
Variable (d : driver).
Let n : nat := length (table d).
Variable (cls : Z).
Hypothesis (Hready : ∀ j c, table d !! j = Some c → ready cls c).

(** The first [k] nodes are gone; the class goes with the last channel of the
    module. *)
Lemma wp_remove_nodes :
  Z.of_nat n ≤ total_count d < 2 ^ 31 →
  wp (for_ n remove_node) (λ _ d',
    d' = set_kernel (dr_kernel d') (set_total (total_count d - Z.of_nat n) d) ∧
    ∀ r, bal r d' = bal r d - table_sum (λ j c, node_part (channels d) r j c) 0 (table d) -
      (if (total_count d =? Z.of_nat n) && negb (n =? 0)%nat then one r (Class_ cls) else 0)) d.
Proof.
  intros Ht.
  eapply wp_mono; [apply (wp_for (λ k d',
    d' = set_kernel (dr_kernel d') (set_total (total_count d - Z.of_nat k) d) ∧
    ∀ r, bal r d' = bal r d - table_sum (λ j c, node_part (channels d) r j c) 0 (take k (table d)) -
      (if (total_count d =? Z.of_nat k) && negb (k =? 0)%nat then one r (Class_ cls) else 0)))|].
  - intros k d' Hk [Hst Hb]. destruct (lookup_lt_is_Some_2 (table d) k Hk) as [c Hc].
    eapply wp_mono; [apply (wp_remove_node k d' c)|].
    + by rewrite Hst.
    + apply (rd_device _ _ (Hready k c Hc)).
    + rewrite Hst. simpl. lia.
    + intros _ d2 [Hst2 Hb2]. rewrite Hst in Hst2. split.
      * rewrite Hst2. unfold set_kernel, set_total. simpl. f_equal. lia.
      * intros r. rewrite Hb2, Hb, (take_S_r _ k c Hc), table_sum_snoc, length_take_le by lia.
        rewrite (rd_class _ _ (Hready k c Hc)), Nat.add_0_l.
        replace (total_count d') with (total_count d - Z.of_nat k) by (by rewrite Hst).
        replace (channels d') with (channels d) by (by rewrite Hst).
        cbn [Nat.eqb negb]. rewrite andb_true_r.
        rewrite (proj2 (Z.eqb_neq (total_count d) (Z.of_nat k))) by lia. cbn [andb].
        destruct (Z.eqb_spec (total_count d - Z.of_nat k) 1);
          destruct (Z.eqb_spec (total_count d) (Z.of_nat (S k))); lia.
  - split; [destruct d as [? ? t]; unfold set_kernel, set_total; simpl; f_equal; lia|].
    intros r. cbn [Nat.eqb negb]. rewrite andb_false_r. simpl. lia.
  - intros _ d' [Hst Hb]. split; [done|]. intros r. by rewrite Hb, take_ge by done.
Qed.

Lemma wp_remove_chans k0 :
  wp (for_ n remove_chan) (λ _ d',
    d' = set_kernel (dr_kernel d') (set_kernel k0 d) ∧
    ∀ r, bal r d' = balance r (klog k0) - table_sum (chan_part r) 0 (table d)) (set_kernel k0 d).
Proof.
  eapply wp_mono; [apply (wp_for (λ k d', d' = set_kernel (dr_kernel d') (set_kernel k0 d) ∧
    ∀ r, bal r d' = balance r (klog k0) - table_sum (chan_part r) 0 (take k (table d))))|].
  - intros k d' Hk [Hst Hb]. destruct (lookup_lt_is_Some_2 (table d) k Hk) as [c Hc].
    eapply wp_mono; [apply (wp_remove_chan k d' c)|].
    + by rewrite Hst.
    + apply (rd_chan _ _ (Hready k c Hc)).
    + intros _ d2 [Hst2 Hb2]. rewrite Hst in Hst2. split; [exact Hst2|].
      intros r. rewrite Hb2, Hb, (take_S_r _ k c Hc), table_sum_snoc, length_take_le by lia. simpl. lia.
  - split; [by destruct d|]. intros r. unfold bal. simpl. lia.
  - intros _ d' [Hst Hb]. split; [done|]. intros r. by rewrite Hb, take_ge by done.
Qed.

End Remove.

(** ** Lemmas: a whole probe *)

(** A device tree that names its channels; the names fit [cdevice_init]'s
    buffer. *)
Record platform_ok (pdev : platform) : Prop := {
  po_count : dt_count pdev = Z.of_nat (length (dt_names pdev));
  po_some : 0 < dt_count pdev;
  po_names : ∀ name, name ∈ dt_names pdev → (length name ≤ 22)%nat;
  po_class : is_err (pd_class pdev) = false
}.

(** The driver when the channel loop starts. *)
Definition probe_start (pdev : platform) (d d0 : driver) : Prop :=
  table d0 = replicate (length (dt_names pdev)) (pd_uninit pdev) ∧
  channel_count d0 = dt_count pdev ∧ local_class_p d0 = local_class_p d ∧
  total_count d0 = total_count d ∧ ∀ r, bal r d0 = bal r d.

Lemma probe_run pdev d :
  platform_ok pdev → kernel_ok (dr_kernel d) → 0 ≤ total_count d →
  total_count d + dt_count pdev < 2 ^ 31 →
  ∃ d0 d1, dma_proxy_probe pdev d = Done (0, d1) ∧ probe_start pdev d d0 ∧
    probed d0 (length (dt_names pdev)) d1.
Proof.
  intros [Hc Hpos Hn Hpd] Hk Ht0 Ht1.
  assert (wp (dma_proxy_probe pdev) (λ ret d1, ret = 0 ∧ ∃ d0, probe_start pdev d d0 ∧
    probed d0 (length (dt_names pdev)) d1) d) as Hwp.
  { unfold dma_proxy_probe. wp_seq. apply wp_ask. intros rc lp Hok. destruct (Hok Hk) as [_ Hlp].
    cbv beta iota. rewrite (proj2 (Z.eqb_neq lp 0)) by lia. wp_step.
    rewrite (proj2 (Z.leb_gt _ 0)) by lia. wp_seq. apply wp_ask. intros rc2 p2 Hok2.
    destruct (Hok2 Hk) as [_ Hp2]. cbv beta iota. rewrite (proj2 (Z.eqb_neq p2 0)) by lia.
    wp_seq. apply wp_ask. intros rc3 p3 Hok3. destruct (Hok3 Hk) as [-> _]. cbv beta iota.
    rewrite Z.ltb_irrefl. wp_seq. apply wp_ask. intros rc4 p4 Hok4. destruct (Hok4 Hk) as [_ Hp4].
    cbv beta iota. wp_step. rewrite (proj2 (Z.eqb_neq p4 0)) by lia. rewrite Hc, Nat2Z.id.
    match goal with |- wp _ _ ?s => set (d0 := s) end.
    assert (length (table d0) = length (dt_names pdev)) as Hlen by apply length_replicate.
    eapply wp_mono; [apply (wp_probe_all pdev d0 0 (length (dt_names pdev)) d0)|]; try done.
    - change (total_count d + Z.of_nat (length (table d0)) < 2 ^ 31). rewrite Hlen. lia.
    - apply probed_start.
    - intros ret d1 [-> Hp]. split; [done|]. exists d0. split; [|exact Hp].
      split; [done|]. split; [done|]. split; [done|]. split; [done|].
      intros r. unfold bal. simpl. rewrite !balance_snoc. simpl. lia. }
  apply wp_run in Hwp as (ret & d1 & Hr & -> & d0 & Hs & Hp). by exists d0, d1.
Qed.

Lemma remove_run pdev d d0 d1 :
  platform_ok pdev → probe_start pdev d d0 → probed d0 (length (dt_names pdev)) d1 →
  0 ≤ total_count d → total_count d + dt_count pdev < 2 ^ 31 →
  (local_class_p d = 0 ↔ total_count d = 0) →
  ∃ d2, dma_proxy_remove d1 = Done (0, d2) ∧ total_count d2 = total_count d ∧
    local_class_p d2 = local_class_p d1 ∧ ∀ r, bal r d2 = bal r d.
Proof.
  intros [Hc Hpos _ _] (Htab & Hcnt & Hcl & Htot & Hbal) Hp Ht0 Ht1 Hcls.
  assert (length (table d1) = length (dt_names pdev)) as Hlen
    by (by rewrite (pb_length _ _ _ Hp), Htab, length_replicate).
  assert (∀ j c, table d1 !! j = Some c → ready (local_class_p d1) c) as Hready.
  { intros j c Hj. apply (pb_ready _ _ _ Hp j); [|done]. apply lookup_lt_Some in Hj. lia. }
  pose proof (pb_total _ _ _ Hp) as Ht. rewrite Htot in Ht.
  assert (wp dma_proxy_remove (λ ret d2, ret = 0 ∧ total_count d2 = total_count d ∧
    local_class_p d2 = local_class_p d1 ∧ ∀ r, bal r d2 = bal r d) d1) as Hwp.
  { unfold dma_proxy_remove. wp_step. rewrite (pb_count _ _ _ Hp), Hcnt, Hc, Nat2Z.id, <-Hlen.
    wp_seq. eapply wp_mono; [apply (wp_remove_nodes d1 (local_class_p d1) Hready); lia|].
    intros _ d' [Hst Hb]. wp_seq.
    pose proof (wp_remove_chans (set_total (total_count d1 - Z.of_nat (length (table d1))) d1)
      (local_class_p d1) Hready (dr_kernel d')) as Hch.
    rewrite <-Hst in Hch. eapply wp_mono; [exact Hch|]. intros _ d2 [Hst2 Hb2]. apply wp_ret.
    assert (total_count d' = total_count d1 - Z.of_nat (length (table d1)) ∧
      local_class_p d' = local_class_p d1) as [Ht' Hl'] by (by rewrite Hst).
    assert (total_count d2 = total_count d' ∧ local_class_p d2 = local_class_p d') as [Ht2 Hl2] by (by rewrite Hst2).
    split; [done|]. split; [clear -Ht2 Ht' Ht Hlen; lia|]. split; [congruence|].
    intros r. rewrite Hb2. change (balance r (klog (dr_kernel d'))) with (bal r d').
    rewrite Hb, (pb_balance _ _ _ Hp), Hbal, take_ge by (by rewrite Hlen).
    cbn [table set_total]. rewrite table_sum_add, (pb_channels _ _ _ Hp), Hlen, Hcl.
    change (table_sum (λ j c, node_part (channels d0) r j c)) with (table_sum (node_part (channels d0) r)).
    change (table_sum (λ j c, chan_part r j c)) with (table_sum (chan_part r)).
    assert ((local_class_p d =? 0) = (total_count d1 =? Z.of_nat (length (dt_names pdev)))) as ->.
    { apply eq_true_iff_eq. rewrite !Z.eqb_eq, Hcls, Ht. clear. lia. }
    clear. lia. }
  apply wp_run in Hwp as (ret & d2 & Hr & -> & H2). by exists d2.
Qed.

(** ** Lemmas: the register driver *)

Definition bal_ct (r : resource) (c : ctrl) : Z := balance r (klog (ct_kernel c)).
Definition say_ct (e : event) (c : ctrl) : ctrl :=
  ct_set_kernel (mk_kernel (answers (ct_kernel c)) (klog (ct_kernel c) ++ [e])) c.

Lemma wp_ask_ct (e : Z → Z → event) (Q : Z * Z → ctrl → Prop) c :
  (∀ rc p, ((∀ n, (answers (ct_kernel c) n).2 ≠ 0) → p ≠ 0) → Q (rc, p) (say_ct (e rc p) c)) →
  wp (on_ct (ask e)) Q c.
Proof.
  intros HQ. unfold on_ct, ask. unfold wp, zoom.
  destruct (answers (ct_kernel c) (length (klog (ct_kernel c)))) as [rc p] eqn:Ea.
  apply HQ. intros Hn. specialize (Hn (length (klog (ct_kernel c)))). by rewrite Ea in Hn.
Qed.

Lemma bal_ct_say r e c : bal_ct r (say_ct e c) = bal_ct r c + effect r e.
Proof. apply balance_snoc. Qed.
Lemma bal_ct_devid r v c : bal_ct r (ct_set_devid v c) = bal_ct r c.
Proof. done. Qed.
Lemma bal_ct_cdev r v c : bal_ct r (ct_set_cdev v c) = bal_ct r c.
Proof. done. Qed.
Lemma bal_ct_class r v c : bal_ct r (ct_set_class v c) = bal_ct r c.
Proof. done. Qed.
Lemma bal_ct_device r v c : bal_ct r (ct_set_device v c) = bal_ct r c.
Proof. done. Qed.
Lemma bal_ct_regs r v c : bal_ct r (ct_set_regs v c) = bal_ct r c.
Proof. done. Qed.
#[export] Hint Rewrite bal_ct_say bal_ct_devid bal_ct_cdev bal_ct_class bal_ct_device bal_ct_regs : bal.

Lemma wp_tell_ct e (Q : unit → ctrl → Prop) c : Q tt (say_ct e c) → wp (tell_ct e) Q c.
Proof.
  intros HQ. unfold tell_ct, on_ct, tell, ask. unfold wp, zoom, mbind, M_bind.
  by destruct (answers (ct_kernel c) (length (klog (ct_kernel c)))).
Qed.

(** What the register driver holds while it is up. *)
Definition ctrl_part (c : ctrl) (r : resource) : Z :=
  one r (Region (ct_devid c)) + one r (Cdev (Allocated (ct_cdev c))) +
  one r (Class_ (ct_class c)) + one r (Node (ct_class c) (ct_devid c)).

Lemma is_err_nonzero p : is_err p = true → p ≠ 0.
Proof. intros Hp ->. discriminate Hp. Qed.

(** Device numbers are put together from their parts as they were taken apart. *)
Lemma MKDEV_parts dev : 0 ≤ dev → MKDEV (Z.shiftr dev 20) (Z.land dev (Z.ones 20)) = dev.
Proof.
  intros Hd. unfold MKDEV. apply Z.bits_inj'. intros n Hn.
  rewrite Z.lor_spec, Z.shiftl_spec, Z.land_spec by done.
  destruct (Z.ltb_spec n 20).
  - rewrite Z.testbit_neg_r by lia. rewrite Z.ones_spec_low by lia. simpl. apply andb_true_r.
  - rewrite Z.shiftr_spec by lia. rewrite Z.ones_spec_high by lia. rewrite andb_false_r, orb_false_r. f_equal. lia.
Qed.

(** One call or store of the register driver. *)
Ltac ctrl_step :=
  wp_seq;
  lazymatch goal with
  | |- wp (tell_ct _) _ _ => apply wp_tell_ct
  | |- wp get _ _ => apply wp_get
  | |- wp (modify _) _ _ => apply wp_modify
  | |- wp (mret _) _ _ => apply wp_ret
  end; cbv beta.

(** Bringing the device up from a kernel that can allocate a [cdev]. *)
Lemma wp_ctrl_init c :
  (∀ n, (answers (ct_kernel c) n).2 ≠ 0) →
  wp ctrl_cdevice_init (λ ret c',
    (ret = 0 → ct_major c' = Z.shiftr (ct_devid c') 20 ∧ ct_minor c' = Z.land (ct_devid c') (Z.ones 20)) ∧
    ∀ r, bal_ct r c' = bal_ct r c + if ret =? 0 then ctrl_part c' r else 0) c.
Proof.
  intros Hnz. unfold ctrl_cdevice_init. wp_seq. apply wp_ask_ct. intros rc dev _. cbv beta iota.
  destruct (rc =? 0) eqn:Erc; cbn [negb].
  2: { ctrl_step. split; [done|]. intros r. autorewrite with bal. cbn [effect]. by rewrite Erc. }
  ctrl_step. wp_seq. apply wp_ask_ct. intros rc2 p Hp. specialize (Hp Hnz). cbv beta iota. ctrl_step.
  rewrite (proj2 (Z.eqb_neq p 0)) by done. ctrl_step. wp_seq. apply wp_ask_ct. intros rc3 x _. cbv beta iota.
  destruct (rc3 =? 0) eqn:Erc3; cbn [negb]; unfold r_device, r_class.
  2: { do 4 ctrl_step. rewrite Erc3. split; [intros ->; discriminate Erc3|].
       intros r. autorewrite with bal. cbn [effect]. rewrite Erc. cbn. clear. lia. }
  wp_seq. apply wp_ask_ct. intros rc4 cls _. cbv beta iota. ctrl_step.
  destruct (is_err cls) eqn:Ecls.
  { do 4 ctrl_step. pose proof (is_err_nonzero cls Ecls) as Hne. rewrite (proj2 (Z.eqb_neq cls 0)) by done.
    split; [done|]. intros r. autorewrite with bal. cbn [effect]. rewrite Erc, Ecls. cbn. clear. lia. }
  wp_seq. apply wp_ask_ct. intros rc5 node _. cbv beta iota. ctrl_step.
  destruct (is_err node) eqn:En.
  { do 6 ctrl_step. pose proof (is_err_nonzero node En) as Hne. rewrite (proj2 (Z.eqb_neq node 0)) by done.
    split; [done|]. intros r. autorewrite with bal. cbn [effect]. rewrite Erc, Ecls, En. cbn. clear. lia. }
  ctrl_step. split; [done|]. intros r. autorewrite with bal. cbn [effect]. rewrite Erc, Ecls, En.
  unfold ctrl_part. cbn. clear. lia.
Qed.

Lemma wp_ctrl_remove c :
  0 ≤ ct_devid c → ct_major c = Z.shiftr (ct_devid c) 20 → ct_minor c = Z.land (ct_devid c) (Z.ones 20) →
  wp transmit_control_remove (λ ret c', ret = 0 ∧
    ∀ r, bal_ct r c' = bal_ct r c - ctrl_part c r - one r (Class_ (ct_class c))) c.
Proof.
  intros Hd H1 H2. unfold transmit_control_remove, ctrl_cdevice_exit. do 7 ctrl_step. split; [done|].
  intros r. autorewrite with bal. cbn [effect]. rewrite H1, H2, MKDEV_parts by done.
  unfold ctrl_part. clear. lia.
Qed.

(** ** Properties *)

(** C17: On a kernel that answers every call, a probe leaves every channel of the
    device tree ready: its buffers allocated, its character device and DMA
    channel in place, its buffer descriptors at the bus addresses of a fresh
    channel, no transfer counted. *)
Theorem probe_readies_channels pdev d :
  platform_ok pdev → kernel_ok (dr_kernel d) → 0 ≤ total_count d →
  total_count d + dt_count pdev < 2 ^ 31 →
  ∃ d1, dma_proxy_probe pdev d = Done (0, d1) ∧ total_count d1 = total_count d + dt_count pdev ∧
    Z.of_nat (length (table d1)) = dt_count pdev ∧ local_class_p d1 ≠ 0 ∧
    ∀ j c, table d1 !! j = Some c → ready (local_class_p d1) c ∧
      ∀ E (e : E), let fresh := fresh_channel e (pc_phys c) in
        pc_handles c = u64 <$> (dma_handle <$> bdtable fresh) ∧ pc_bdindex c = bdindex fresh ∧
        pc_direction c = direction fresh ∧ pc_count c = wait_transfer_count fresh.
Proof.
  intros Hpo Hk Ht0 Ht1. pose proof Hpo as [Hc Hpos _ _].
  destruct (probe_run pdev d Hpo Hk Ht0 Ht1) as (d0 & d1 & Hr & (Htab & _ & _ & Htot & _) & Hp).
  assert (length (table d1) = length (dt_names pdev)) as Hlen
    by (by rewrite (pb_length _ _ _ Hp), Htab, length_replicate).
  exists d1. split; [done|]. split; [rewrite (pb_total _ _ _ Hp); lia|]. split; [lia|].
  split; [apply (pb_made _ _ _ Hp); lia|]. intros j c Hj.
  destruct (pb_ready _ _ _ Hp j c) as [Hrd Hcnt]; [apply lookup_lt_Some in Hj; lia|done|].
  split; [done|]. intros E e. destruct Hrd as [_ _ _ _ Hh Hd Hb]. split; [|done].
  rewrite Hh. unfold bd_handles, fresh_channel. cbn [bdtable]. by rewrite <-!list_fmap_compose.
Qed.

(** C19: A probe followed by a remove gives everything back: device numbers,
    character devices, device nodes, DMA channels, and the class exactly when
    no other device of the driver is left. *)
Theorem probe_remove_balanced pdev d :
  platform_ok pdev → kernel_ok (dr_kernel d) → 0 ≤ total_count d →
  total_count d + dt_count pdev < 2 ^ 31 → (local_class_p d = 0 ↔ total_count d = 0) →
  ∃ d1 d2, dma_proxy_probe pdev d = Done (0, d1) ∧ dma_proxy_remove d1 = Done (0, d2) ∧
    total_count d2 = total_count d ∧ ∀ r, bal r d2 = bal r d.
Proof.
  intros Hpo Hk Ht0 Ht1 Hcls. destruct (probe_run pdev d Hpo Hk Ht0 Ht1) as (d0 & d1 & Hr & Hs & Hp).
  destruct (remove_run pdev d d0 d1 Hpo Hs Hp Ht0 Ht1 Hcls) as (d2 & Hr2 & Ht & _ & Hb).
  by exists d1, d2.
Qed.

(** The static class pointer outlives its class: when a device is probed
    after the last one was removed, no class is created and every channel's
    node is made in the destroyed one. *)
Theorem reprobe_uses_destroyed_class pdev d :
  platform_ok pdev → kernel_ok (dr_kernel d) → total_count d = 0 → dt_count pdev < 2 ^ 31 →
  local_class_p d ≠ 0 →
  ∃ d1, dma_proxy_probe pdev d = Done (0, d1) ∧
    (∀ cls, bal (Class_ cls) d1 = bal (Class_ cls) d) ∧
    (∀ j c, table d1 !! j = Some c → pc_class c = local_class_p d).
Proof.
  intros Hpo Hk Ht0 Ht1 Hnz. pose proof Hpo as [Hc Hpos _ _].
  destruct (probe_run pdev d Hpo Hk ltac:(lia) ltac:(lia)) as (d0 & d1 & Hr & (Htab & _ & Hcl & _ & Hbal) & Hp).
  assert (length (table d1) = length (dt_names pdev)) as Hlen
    by (by rewrite (pb_length _ _ _ Hp), Htab, length_replicate).
  exists d1. split; [done|]. split.
  - intros cls. rewrite (pb_balance _ _ _ Hp), Hbal, Hcl, (proj2 (Z.eqb_neq _ _)) by done. cbn [andb].
    assert (∀ f i cs, (∀ i c, f i c = 0) → table_sum f i cs = 0) as H0.
    { intros f i cs Hf. revert i. induction cs as [|c cs IH]; intros i; simpl; [done|]. by rewrite Hf, IH. }
    rewrite H0; [lia|]. done.
  - intros j c Hj. destruct (pb_ready _ _ _ Hp j c) as [[_ _ Hcc _ _ _ _] _];
      [apply lookup_lt_Some in Hj; lia|done|].
    rewrite Hcc, <-Hcl. apply (pb_class _ _ _ Hp). left. by rewrite Hcl.
Qed.

(** Creating a channel's character device, whatever the kernel answers: the
    region, the device and its node are all there, or none of them is (also
    when the result is 0 but the node could not be created). *)
Theorem cdevice_init_all_or_nothing pdev i name d c0 :
  table d !! i = Some c0 → (length name ≤ 22)%nat →
  ∃ ret c d', cdevice_init pdev i name d = Done (ret, d') ∧ table d' !! i = Some c ∧
    ∀ r, no_class r →
      bal r d' = bal r d +
        (if (ret =? 0) && negb (is_err (pc_device c)) then node_part (channels d) r i c else 0).
Proof.
  intros Hc Hn. pose proof (wp_cdevice_init pdev i name d c0 Hc Hn) as Hwp.
  apply wp_run in Hwp as (ret & d' & Hr & c & cl & [Hst _ _ _ Hb Hcl _]).
  exists ret, c, d'. split; [done|]. split.
  - eapply touched_lookup; [exact Hst|]. by eapply lookup_lt_Some.
  - intros r Hnc. rewrite Hb, (Hcl r Hnc). lia.
Qed.

(** The register driver's probe, whatever the kernel answers (given that it
    can allocate a [cdev]): 0 with everything held, or an error with nothing
    held. *)
Theorem ctrl_probe_all_or_nothing dev c :
  (∀ n, (answers (ct_kernel c) n).2 ≠ 0) →
  ∃ ret c', transmit_control_probe dev c = Done (ret, c') ∧
    ∀ r, bal_ct r c' = bal_ct r c + if ret =? 0 then ctrl_part c' r else 0.
Proof.
  intros Hnz. assert (wp (transmit_control_probe dev) (λ ret c',
    ∀ r, bal_ct r c' = bal_ct r c + if ret =? 0 then ctrl_part c' r else 0) c) as Hwp.
  { unfold transmit_control_probe. wp_step. wp_seq. apply wp_ask_ct. intros rc regs _. cbv beta iota. wp_step.
    assert (∀ r, bal_ct r (ct_set_regs regs (say_ct (Ioremap regs) (ct_set_device dev c))) = bal_ct r c) as Hb.
    { intros r. unfold bal_ct. simpl. rewrite balance_snoc. simpl. lia. }
    destruct (is_err regs) eqn:Er.
    { apply wp_ret. intros r. rewrite Hb, (proj2 (Z.eqb_neq regs 0)) by (by apply is_err_nonzero). lia. }
    wp_seq. eapply wp_mono; [apply wp_ctrl_init; exact Hnz|]. intros ret c' (_ & Hc').
    destruct (ret =? 0) eqn:Eret; cbn [negb]; apply wp_ret; intros r; rewrite Hc', Hb, ?Eret; done. }
  apply wp_run in Hwp as (ret & c' & Hr & Hb). by exists ret, c'.
Qed.

(** The register driver's remove gives everything back, but its class twice. *)
Theorem ctrl_remove_destroys_class_twice c :
  (∀ n, 0 < (answers (ct_kernel c) n).2) →
  ∀ c1, ctrl_cdevice_init c = Done (0, c1) → 0 ≤ ct_devid c1 →
  ∃ c2, transmit_control_remove c1 = Done (0, c2) ∧
    ∀ r, bal_ct r c2 = bal_ct r c - one r (Class_ (ct_class c1)).
Proof.
  intros Hpos c1 Hr Hd. pose proof (wp_ctrl_init c) as Hi.
  specialize (Hi ltac:(intros n; specialize (Hpos n); lia)). unfold wp in Hi. rewrite Hr in Hi.
  destruct Hi as ([Hmaj Hmin]%(λ H, H eq_refl) & Hb).
  pose proof (wp_ctrl_remove c1 Hd Hmaj Hmin) as Hx.
  apply wp_run in Hx as (ret & c2 & Hr2 & -> & Hb2). exists c2. split; [done|].
  intros r. rewrite Hb2, Hb. simpl. lia.
Qed.

(** ** Concrete runs *)

(** A kernel that answers 0 and a fresh pointer to every call. *)
Definition demo_kernel : kernel := mk_kernel (λ n, (0, 4096 * (1 + Z.of_nat n))) [].
Definition demo_uninit : probe_channel := mk_probe_channel 7 7 7 7 7 [] 7 7 7 7 7.
Definition demo_platform : platform := mk_platform 2 [[116; 120]; [114; 120]] 0 demo_uninit.
Definition demo_driver (cls : Z) : driver := mk_driver demo_kernel cls 0 0 0 [].

Lemma demo_kernel_ok : kernel_ok demo_kernel.
Proof. intros n. simpl. lia. Qed.

Lemma demo_platform_ok : platform_ok demo_platform.
Proof.
  split; [done|done| |done].
  intros name [->|[->|[]%not_elem_of_nil]%elem_of_cons]%elem_of_cons; simpl; lia.
Qed.

Lemma probe_readies_channels_witness :
  ∃ d1, dma_proxy_probe demo_platform (demo_driver 0) = Done (0, d1) ∧ total_count d1 = 2.
Proof.
  destruct (probe_readies_channels demo_platform (demo_driver 0) demo_platform_ok demo_kernel_ok)
    as (d1 & Hr & Ht & _); [simpl; lia|simpl; lia|]. exists d1. split; [exact Hr|exact Ht].
Defined.

Lemma probe_remove_balanced_witness :
  ∃ d1 d2, dma_proxy_probe demo_platform (demo_driver 0) = Done (0, d1) ∧
    dma_proxy_remove d1 = Done (0, d2) ∧ ∀ r, bal r d2 = 0.
Proof.
  destruct (probe_remove_balanced demo_platform (demo_driver 0) demo_platform_ok demo_kernel_ok)
    as (d1 & d2 & H1 & H2 & _ & Hb); [simpl; lia|simpl; lia|done|].
  exists d1, d2. split; [exact H1|]. split; [exact H2|exact Hb].
Defined.

Lemma reprobe_uses_destroyed_class_witness :
  ∃ d1, dma_proxy_probe demo_platform (demo_driver 8192) = Done (0, d1) ∧
    ∀ cls, bal (Class_ cls) d1 = 0.
Proof.
  destruct (reprobe_uses_destroyed_class demo_platform (demo_driver 8192) demo_platform_ok demo_kernel_ok)
    as (d1 & Hr & Hb & _); [done|simpl; lia|done|]. exists d1. split; [exact Hr|exact Hb].
Defined.

Lemma cdevice_init_all_or_nothing_witness :
  ∃ ret d', cdevice_init demo_platform 0 [116; 120]
    (mk_driver demo_kernel 0 0 1 4096 [demo_uninit]) = Done (ret, d').
Proof.
  destruct (cdevice_init_all_or_nothing demo_platform 0 [116; 120]
    (mk_driver demo_kernel 0 0 1 4096 [demo_uninit]) demo_uninit eq_refl ltac:(simpl; lia)) as (ret & c & d' & Hr & _).
  exists ret, d'. exact Hr.
Defined.

(** A node that cannot be created: 0 is returned and nothing is held. *)
Example node_failure_reports_success :
  (λ '(ret, d'), (ret, klog (dr_kernel d'))) <$>
    match cdevice_init demo_platform 0 [116; 120]
      (mk_driver (mk_kernel (λ n, (0, if (n =? 3)%nat then -12 else 8)) []) 0 0 1 4096 [demo_uninit]) with
    | Done r => Some r | Fault _ => None end =
  Some (0, [AllocRegion 0 8; CdevAdd (Embedded 4096 0) 8 0; ClassCreate 8; DeviceCreate 8 8 (-12);
            ClassDestroy 8; CdevDel (Embedded 4096 0); UnregisterRegion 8]).
Proof. reflexivity. Qed.

Definition demo_ctrl : ctrl := mk_ctrl demo_kernel 0 0 0 0 0 0 0.

Lemma ctrl_probe_all_or_nothing_witness :
  ∃ ret c', transmit_control_probe 64 demo_ctrl = Done (ret, c') ∧
    ∀ r, bal_ct r c' = 0 + if ret =? 0 then ctrl_part c' r else 0.
Proof.
  destruct (ctrl_probe_all_or_nothing 64 demo_ctrl) as (ret & c' & Hr & Hb); [simpl; lia|].
  exists ret, c'. split; [exact Hr|exact Hb].
Defined.
