(* ===== verification/AxiCtrl.v ===== *)
(** * AxiCtrl: the register character device

    [src/driver/axi_ctrl/streamio-ctrl-drv.c]: the file operations of
    [/dev/tc], which read and write the 512 32-bit registers of the AXI-Lite
    block.  The I/O memory itself is hardware: its accessors are the class
    [IoMem]; that the registers behave like memory is the class [IoMemLaws],
    used only where a value is read back. *)
From Stdlib Require Import ZArith Lia.
From stdpp Require Import base list numbers option gmap.
From S2P Require Import Prelude.

Definition REG_SIZE : Z := 4.
Definition REG_LENGTH : Z := 512.
Definition PAGE_SIZE : Z := 4096.

Definition EFAULT : Z := 14.
Definition EINVAL : Z := 22.

Definition SEEK_SET : Z := 0.
Definition SEEK_CUR : Z := 1.
Definition SEEK_END : Z := 2.

(** [ioread32] and [iowrite32] at a byte offset from [regs]. *)
Class IoMem (R : Type) := {
  ioread32 : Z → R → Z * R;
  iowrite32 : Z → Z → R → R
}.

(** Registers that behave like memory: reading has no effect and returns the
    last value written to that offset.  This is an assumption on the design in the
    hardware, made for all 512 registers of the block; the README documents 0 to 8
    only.  Theorems about traffic to the registers do not need it. *)
Class IoMemLaws (R : Type) `{IoMem R} (peek : Z → R → Z) : Prop := {
  ioread_peek : ∀ off r, ioread32 off r = (peek off r, r);
  peek_iowrite : ∀ off off' v r,
    peek off (iowrite32 off' v r) = if decide (off = off') then v else peek off r
}.

(** The state one system call works on: the device registers, the file
    position, the private [addr] field of [transmit_ctx] and the kernel buffer
    [kzalloc] returned ([None] for a null pointer). *)
Record tc_state (R : Type) := mk_tc {
  regs : R;
  f_pos : Z;
  tc_addr : Z;
  reg_read_buffer : option (list Z)
}.
Arguments mk_tc {R}.
Arguments regs {R}.
Arguments f_pos {R}.
Arguments tc_addr {R}.
Arguments reg_read_buffer {R}.

Section Ops.
Context {R : Type} `{IoMem R}.
Abbreviation st := (tc_state R).

Definition set_regs (r : R) (s : st) : st := mk_tc r (f_pos s) (tc_addr s) (reg_read_buffer s).
Definition set_f_pos (p : Z) (s : st) : st := mk_tc (regs s) p (tc_addr s) (reg_read_buffer s).
Definition set_tc_addr (a : Z) (s : st) : st := mk_tc (regs s) (f_pos s) a (reg_read_buffer s).
Definition set_kbuf (b : option (list Z)) (s : st) : st := mk_tc (regs s) (f_pos s) (tc_addr s) b.

(** [kzalloc(size)] as the array of the whole words in it; [ok] is false when
    the allocation fails. *)
Definition kzalloc_words (ok : bool) (size : Z) : M st unit :=
  modify (set_kbuf (if ok then Some (replicate (Z.to_nat (size / REG_SIZE)) 0) else None)).

Definition kfree : M st unit := modify (set_kbuf None).

Definition kbuf_set (i : nat) (v : Z) : M st unit :=
  s ← get;
  b ← require NullDeref (reg_read_buffer s);
  if decide (i < length b)%nat then modify (set_kbuf (Some (<[i := v]> b))) else raise OutOfBounds.

Definition kbuf_get (i : nat) : M st Z :=
  s ← get;
  b ← require NullDeref (reg_read_buffer s);
  require OutOfBounds (b !! i).

(** Register accesses; an offset outside the 512 registers is a fault. *)
Definition read_reg (addr : nat) : M st Z :=
  if decide (Z.of_nat addr < REG_LENGTH) then
    s ← get;
    let '(v, r) := ioread32 (Z.of_nat addr * REG_SIZE) (regs s) in
    modify (set_regs r) ;; mret v
  else raise OutOfBounds.

Definition write_reg (addr : nat) (v : Z) : M st unit :=
  if decide (Z.of_nat addr < REG_LENGTH) then
    modify (λ s, set_regs (iowrite32 (Z.of_nat addr * REG_SIZE) v (regs s)) s)
  else raise OutOfBounds.

Definition tc_cdev_open : M st Z :=
  modify (set_tc_addr 0) ;; modify (set_f_pos 0) ;; mret 0.

Definition tc_cdev_release : M st Z := mret 0.

(** [min((size / REG_SIZE), (size_t)REG_LENGTH - tc->addr)] in a 64-bit size_t,
    stored in an unsigned int. *)
Definition transfer_size (size addr : Z) : Z :=
  u32 (Z.min (size / REG_SIZE) (u64 (REG_LENGTH - addr))).

(** [for (; addr < n; addr++) body(addr)]. *)
Definition for_up (addr n : Z) (body : nat → M st unit) : M st unit :=
  for_from (Z.to_nat addr) (Z.to_nat (n - addr)) body.

(** [tc_cdev_read]: the returned words are what [copy_to_user] stored in the
    user's buffer.  The position moved is [file->f_pos]; the function does not
    touch [*offset], and [read(2)] stores [*offset] back when it returns, so a
    process that calls [read(2)] does not see it move. *)
Definition tc_cdev_read (alloc_ok copy_fails : bool) (size : Z) : M st (Z * list Z) :=
  kzalloc_words alloc_ok size ;;
  tc ← get;
  let read_size := transfer_size size (tc_addr tc) in
  let exact_size := u32 (read_size * REG_SIZE) in
  let addr := u32 (Z.quot (f_pos tc) REG_SIZE) in
  for_up addr read_size (λ addr, v ← read_reg addr; kbuf_set addr v) ;;
  s ← get;
  if copy_fails then kfree ;; mret (- EFAULT, [])
  else
    let user_buffer := take (Z.to_nat (exact_size / REG_SIZE)) (default [] (reg_read_buffer s)) in
    modify (λ s, set_f_pos (s64 (f_pos s + exact_size)) s) ;;
    kfree ;;
    mret (exact_size, user_buffer).

(** [tc_cdev_write] of [words] followed by [tail] further bytes. *)
Definition tc_cdev_write (alloc_ok copy_fails : bool) (words : list Z) (tail : Z) : M st Z :=
  let size := REG_SIZE * Z.of_nat (length words) + tail in
  kzalloc_words alloc_ok size ;;
  tc ← get;
  let write_size := transfer_size size (tc_addr tc) in
  let addr := u32 (Z.quot (f_pos tc) REG_SIZE) in
  require NullDeref (reg_read_buffer tc) ;;
  if copy_fails then kfree ;; mret (- EFAULT)
  else
    modify (set_kbuf (Some words)) ;;
    for_up addr write_size (λ addr, v ← kbuf_get addr; write_reg addr v) ;;
    kfree ;;
    modify (λ s, set_f_pos (s64 (f_pos s + u32 (write_size * REG_SIZE))) s) ;;
    mret size.

(** [llseek]; [junk] is the indeterminate value of [newpos] when [whence] is
    none of the three cases. *)
Definition llseek (junk offset whence : Z) : M st Z :=
  tc ← get;
  let newpos :=
    if whence =? SEEK_SET then offset
    else if whence =? SEEK_END then REG_LENGTH
    else if whence =? SEEK_CUR then s64 (tc_addr tc + offset)
    else junk in
  if newpos <? 0 then mret (- EINVAL)
  else modify (set_f_pos newpos) ;; mret newpos.

(** The request [simple_mmap] makes of [remap_pfn_range]: start address, first
    page frame (whatever the page offset of the mapping) and size. *)
Definition simple_mmap (pfn_start vm_start vm_end : Z) : Z * Z * Z :=
  let size := u64 (vm_end - vm_start) in
  let size := if negb (size mod PAGE_SIZE =? 0)
              then u64 (u64 (size + PAGE_SIZE) / PAGE_SIZE * PAGE_SIZE) else size in
  (vm_start, pfn_start, size).

End Ops.

(** ** Loops over registers *)

Section Loops.
Context {R : Type} `{IoMem R}.
Abbreviation st := (tc_state R).
Implicit Types (s : st).

Lemma transfer_size_0 size :
  0 ≤ size < 2 ^ 64 → transfer_size size 0 = Z.min (size / 4) 512.
Proof.
  intros Hs. unfold transfer_size, REG_LENGTH, REG_SIZE.
  rewrite (uwrap_small 64) by lia.
  apply uwrap_small. pose proof (Z.div_pos size 4). lia.
Qed.

Context (peek : Z → R → Z) `{!IoMemLaws R peek}.

(** The value of register [i]. *)
Definition reg (r : R) (i : nat) : Z := peek (Z.of_nat i * REG_SIZE) r.

Lemma reg_write r i j v :
  reg (iowrite32 (Z.of_nat i * REG_SIZE) v r) j = if decide (j = i) then v else reg r j.
Proof.
  unfold reg. rewrite peek_iowrite. unfold REG_SIZE.
  destruct (decide (j = i)) as [->|Hne]; [by rewrite decide_True|].
  by rewrite decide_False by lia.
Qed.

(** The contents of the buffer after the registers from [lo] up to [hi]
    (excluded) were read into a zeroed buffer. *)
Definition read_image (r : R) (lo hi len : nat) : list Z :=
  (λ i, if decide (lo ≤ i < hi)%nat then reg r i else 0) <$> seq 0 len.

Lemma read_image_insert r lo hi len :
  (lo ≤ hi < len)%nat →
  <[hi := reg r hi]> (read_image r lo hi len) = read_image r lo (S hi) len.
Proof.
  intros Hh. apply list_eq. intros k. unfold read_image.
  destruct (decide (k < len)%nat) as [Hk|Hk].
  - destruct (decide (hi = k)) as [->|Hne].
    + rewrite list_lookup_insert_eq by (rewrite length_fmap, length_seq; lia).
      rewrite list_lookup_fmap, lookup_seq_lt by lia. simpl. by rewrite decide_True by lia.
    + rewrite list_lookup_insert_ne by done. rewrite !list_lookup_fmap, lookup_seq_lt by lia. simpl.
      destruct (decide (lo ≤ k < hi)%nat), (decide (lo ≤ k < S hi)%nat); (done || lia).
  - rewrite !lookup_ge_None_2; [done|..]; rewrite ?length_insert, length_fmap, length_seq; lia.
Qed.

Lemma read_image_empty r lo len : read_image r lo lo len = replicate len 0.
Proof.
  apply list_eq. intros k. unfold read_image. destruct (decide (k < len)%nat).
  - rewrite list_lookup_fmap, lookup_seq_lt, lookup_replicate_2 by lia. simpl.
    by rewrite decide_False by lia.
  - rewrite !lookup_ge_None_2; [done|..]; rewrite ?length_fmap, ?length_seq, ?length_replicate; lia.
Qed.

Lemma read_loop s lo n len :
  (n = 0 ∨ lo + n ≤ len)%nat → Z.of_nat (lo + n) ≤ REG_LENGTH ∨ n = 0%nat →
  reg_read_buffer s = Some (replicate len 0) →
  for_from lo n (λ addr, v ← read_reg addr; kbuf_set addr v) s =
    Done (tt, set_kbuf (Some (read_image (regs s) lo (lo + n) len)) s).
Proof.
  intros Hn Hreg Hb.
  assert (wp (for_from lo n (λ addr, v ← read_reg addr; kbuf_set addr v))
    (λ _ s', s' = set_kbuf (Some (read_image (regs s) lo (lo + n) len)) s) s) as Hw.
  { apply (wp_for_from (λ i s', s' = set_kbuf (Some (read_image (regs s) lo i len)) s)).
    - intros i s' Hi ->. unfold wp, read_reg, kbuf_set, mbind, M_bind, get.
      rewrite decide_True by lia. simpl. rewrite (ioread_peek (peek:=peek)). simpl.
      assert (i < length (read_image (regs s) lo i len))%nat
        by (unfold read_image; rewrite length_fmap, length_seq; lia).
      rewrite decide_True by done. unfold modify. simpl. unfold set_kbuf, set_regs. simpl.
      by rewrite <-read_image_insert by lia.
    - rewrite read_image_empty, <-Hb. by destruct s. }
  unfold wp in Hw. destruct (for_from _ _ _ s) as [[[] s']|]; [|done]. by rewrite Hw.
Qed.

(** Registers [lo .. lo + n) take the buffer's words, the others are kept. *)
Lemma write_loop s lo n ws :
  (n = 0 ∨ lo + n ≤ length ws)%nat → Z.of_nat (lo + n) ≤ REG_LENGTH ∨ n = 0%nat →
  reg_read_buffer s = Some ws →
  wp (for_from lo n (λ addr, v ← kbuf_get addr; write_reg addr v))
    (λ _ s', f_pos s' = f_pos s ∧ tc_addr s' = tc_addr s ∧ reg_read_buffer s' = Some ws ∧
       ∀ i, reg (regs s') i = if decide (lo ≤ i < lo + n)%nat then default 0 (ws !! i) else reg (regs s) i) s.
Proof.
  intros Hn Hreg Hb.
  pose (I := λ (k : nat) s', f_pos s' = f_pos s ∧ tc_addr s' = tc_addr s ∧
       reg_read_buffer s' = Some ws ∧
       ∀ i, reg (regs s') i = if decide (lo ≤ i < k)%nat then default 0 (ws !! i) else reg (regs s) i).
  apply (wp_for_from I).
  - intros k s' Hk (Hp & Ha & Hb' & Hr). unfold wp, kbuf_get, write_reg, mbind, M_bind, get.
    rewrite Hb'. simpl. destruct (lookup_lt_is_Some_2 ws k) as [w Hw]; [lia|]. rewrite Hw. simpl.
    rewrite decide_True by lia. simpl. repeat (split; [done|]). intros i.
    cbn [regs set_regs]. rewrite reg_write. destruct (decide (i = k)) as [->|Hne].
    + rewrite decide_True by lia. by rewrite Hw.
    + rewrite Hr. destruct (decide (lo ≤ i < k)%nat), (decide (lo ≤ i < S k)%nat); (done || lia).
  - repeat (split; [done|]). intros i. by rewrite decide_False by lia.
Qed.

End Loops.

(** ** Properties *)

Section Properties.
Context {R : Type} `{IoMem R} (peek : Z → R → Z) `{!IoMemLaws R peek}.
Abbreviation st := (tc_state R).
Implicit Types (s : st).

Lemma position_index p : 0 ≤ p < 2 ^ 34 → u32 (Z.quot p REG_SIZE) = p / 4 ∧ 0 ≤ p / 4.
Proof.
  intros Hp. unfold REG_SIZE. rewrite Z.quot_div_nonneg by lia.
  split; [apply uwrap_small|]; change (2 ^ 34) with 17179869184 in Hp;
    change (2 ^ 32) with 4294967296; (split; [apply Z.div_pos; lia|]) || idtac.
  - apply Z.div_lt_upper_bound; lia.
  - apply Z.div_pos; lia.
Qed.

Lemma read_image_take r lo hi len n :
  (n ≤ len)%nat → (hi = lo + (n - lo))%nat →
  take n (read_image peek r lo hi len) =
    (λ i, if decide (lo ≤ i)%nat then reg peek r i else 0) <$> seq 0 n.
Proof.
  intros Hn ->. apply list_eq. intros i. destruct (decide (i < n)%nat).
  - rewrite lookup_take_lt by done. unfold read_image.
    rewrite !list_lookup_fmap, !lookup_seq_lt by lia. simpl.
    destruct (decide (lo ≤ i)%nat).
    + by rewrite decide_True by lia.
    + by rewrite decide_False by lia.
  - rewrite !lookup_ge_None_2; [done|..]; rewrite ?length_take, ?length_fmap, ?length_seq; lia.
Qed.

Lemma read_run s size p :
  tc_addr s = 0 → f_pos s = p → 0 ≤ p < 2 ^ 34 → 0 ≤ size < 2 ^ 32 →
  let n := Z.to_nat (Z.min (size / 4) 512) in
  tc_cdev_read true false size s =
    Done ((4 * Z.of_nat n,
           (λ i, if decide (Z.to_nat (p / 4) ≤ i)%nat then reg peek (regs s) i else 0) <$> seq 0 n),
          mk_tc (regs s) (p + 4 * Z.of_nat n) 0 None).
Proof.
  intros Ha Hp Hpos Hsz n. destruct (position_index p Hpos) as [Hidx Hidx0].
  assert (0 ≤ size / 4) by (apply Z.div_pos; lia).
  unfold tc_cdev_read, kzalloc_words. eapply bind_done; [done|].
  eapply bind_done; [done|]. simpl. rewrite Ha, Hp, Hidx.
  rewrite transfer_size_0 by lia. change (2 ^ 34) with 17179869184 in Hpos.
  assert (u32 (Z.min (size / 4) 512 * REG_SIZE) = 4 * Z.of_nat n) as ->.
  { unfold REG_SIZE. rewrite uwrap_small by lia. lia. }
  unfold for_up. eapply bind_done.
  { apply (read_loop peek) with (len := Z.to_nat (size / 4)); [lia| |done].
    unfold REG_LENGTH. lia. }
  eapply bind_done; [done|]. cbn [reg_read_buffer set_kbuf default].
  eapply bind_done; [done|]. eapply bind_done; [done|]. unfold mret, M_ret.
  do 2 f_equal.
  - f_equal. replace (Z.to_nat (4 * Z.of_nat n / REG_SIZE)) with n
      by (unfold REG_SIZE; rewrite Z.mul_comm, Z.div_mul by lia; lia).
    simpl. apply read_image_take; lia.
  - unfold set_kbuf, set_f_pos. simpl. rewrite Ha, Hp. f_equal. rewrite (swrap_small 64); lia.
Qed.

(** C37: A read of [size] bytes at position [p] always succeeds (every register
    and buffer access is in range), returns the number of whole words in
    min(size, 2048) bytes and moves the position past them; word [i] of the
    result is register [i] when [i] is at or past the position and 0 before it,
    so only a read from position 0 returns the registers. *)
Theorem tc_cdev_read_functional s size :
  tc_addr s = 0 → 0 ≤ f_pos s < 2 ^ 34 → 0 ≤ size < 2 ^ 32 →
  ∃ n words, n = Z.min (size / 4) 512 ∧
    tc_cdev_read true false size s =
      Done ((4 * n, words), mk_tc (regs s) (f_pos s + 4 * n) 0 None) ∧
    Z.of_nat (length words) = n ∧
    ∀ i, (Z.of_nat i < n) →
      words !! i = Some (if decide (f_pos s / 4 ≤ Z.of_nat i) then reg peek (regs s) i else 0).
Proof.
  intros Ha Hp Hs. pose proof (read_run s size (f_pos s) Ha eq_refl Hp Hs) as Hrun. simpl in Hrun.
  assert (0 ≤ size / 4) by (apply Z.div_pos; lia).
  assert (0 ≤ f_pos s / 4) by (apply Z.div_pos; lia).
  do 2 eexists. split; [reflexivity|]. split; [|split].
  - rewrite Hrun. rewrite Z2Nat.id by lia. reflexivity.
  - rewrite length_fmap, length_seq. lia.
  - intros i Hi. rewrite list_lookup_fmap, lookup_seq_lt by lia. simpl. f_equal.
    destruct (decide (f_pos s / 4 ≤ Z.of_nat i)).
    + by rewrite decide_True by lia.
    + by rewrite decide_False by lia.
Qed.

Lemma write_run s ws tail p :
  tc_addr s = 0 → f_pos s = p → 0 ≤ p < 2 ^ 34 → 0 ≤ tail < 4 → 4 * Z.of_nat (length ws) < 2 ^ 31 →
  let n := Nat.min (length ws) 512 in
  wp (tc_cdev_write true false ws tail)
    (λ r s', r = 4 * Z.of_nat (length ws) + tail ∧ f_pos s' = p + 4 * Z.of_nat n ∧
       tc_addr s' = 0 ∧ reg_read_buffer s' = None ∧
       ∀ i, reg peek (regs s') i =
         if decide (Z.to_nat (p / 4) ≤ i < n)%nat then default 0 (ws !! i) else reg peek (regs s) i) s.
Proof.
  intros Ha Hp Hpos Ht Hl n. destruct (position_index p Hpos) as [Hidx Hidx0].
  change (2 ^ 34) with 17179869184 in Hpos. change (2 ^ 31) with 2147483648 in Hl.
  unfold tc_cdev_write, kzalloc_words. do 3 wp_step. wp_step. simpl.
  rewrite Ha, Hp, Hidx. rewrite transfer_size_0 by (unfold REG_SIZE; lia).
  assert ((REG_SIZE * Z.of_nat (length ws) + tail) / 4 = Z.of_nat (length ws)) as ->.
  { unfold REG_SIZE. rewrite Z.mul_comm, Z.div_add_l by lia. rewrite Z.div_small by lia. lia. }
  apply wp_bind. unfold for_up.
  eapply wp_mono; [apply (write_loop peek) with (ws := ws); [lia|unfold REG_LENGTH; lia|done]|].
  intros [] s' (Hp' & Ha' & Hb' & Hr). unfold kfree. wp_step. wp_step. apply wp_ret.
  simpl in *. split; [done|]. split; [|split; [by rewrite Ha'|split; [done|]]].
  - rewrite Hp', Hp. unfold REG_SIZE. rewrite (uwrap_small 32) by lia.
    rewrite (swrap_small 64) by lia. unfold n. lia.
  - intros i. rewrite Hr.
    destruct (decide (Z.to_nat (p / 4) ≤ i < n)%nat); [rewrite decide_True by lia|rewrite decide_False by lia]; done.
Qed.

(** C38: A write of [words] (and up to three more bytes) at position [p] sets
    registers [p/4] up to min(number of words, 512) from the same indices of
    the user's data and leaves every other register; it reports all bytes
    written whatever was stored. *)
Theorem tc_cdev_write_functional s ws tail :
  tc_addr s = 0 → 0 ≤ f_pos s < 2 ^ 34 → 0 ≤ tail < 4 → 4 * Z.of_nat (length ws) < 2 ^ 31 →
  ∃ s', tc_cdev_write true false ws tail s = Done (4 * Z.of_nat (length ws) + tail, s') ∧
    f_pos s' = f_pos s + 4 * Z.min (Z.of_nat (length ws)) 512 ∧
    ∀ i, reg peek (regs s') i =
      if decide (f_pos s / 4 ≤ Z.of_nat i < Z.min (Z.of_nat (length ws)) 512)
      then default 0 (ws !! i) else reg peek (regs s) i.
Proof.
  intros Ha Hp Ht Hl. pose proof (write_run s ws tail (f_pos s) Ha eq_refl Hp Ht Hl) as Hw.
  apply wp_run in Hw as (r & s' & Hrun & -> & Hp' & _ & _ & Hr).
  assert (0 ≤ f_pos s / 4) by (apply Z.div_pos; lia).
  exists s'. split; [done|]. split; [rewrite Hp'; lia|]. intros i. rewrite Hr.
  destruct (decide (f_pos s / 4 ≤ Z.of_nat i < Z.min (Z.of_nat (length ws)) 512));
    [rewrite decide_True by lia|rewrite decide_False by lia]; done.
Qed.

(** C39: Round trip through the device: opening it, writing up to 512 words,
    seeking to 0 and reading the same number of bytes returns the words. *)
Theorem write_seek_read_roundtrip (junk : Z) (ws : list Z) s :
  (length ws ≤ 512)%nat →
  wp (tc_cdev_open ;; tc_cdev_write true false ws 0 ;; llseek junk 0 SEEK_SET ;;
      tc_cdev_read true false (4 * Z.of_nat (length ws)))
    (λ r _, r = (4 * Z.of_nat (length ws), ws)) s.
Proof.
  intros Hl. apply wp_bind. unfold tc_cdev_open. do 2 wp_step. apply wp_ret. apply wp_bind.
  eapply wp_mono; [apply (write_run _ ws 0 0); simpl; try done; lia|].
  intros r s1 (_ & Hp1 & Ha1 & _ & Hr1). apply wp_bind. unfold llseek. wp_step. simpl.
  wp_step. apply wp_ret.
  eapply wp_done; [apply (read_run _ _ 0); simpl; try done; lia|]. cbv beta.
  rewrite (Z.mul_comm 4 (Z.of_nat (length ws))), Z.div_mul by lia. f_equal; [lia|].
  apply list_eq. intros i. destruct (decide (i < length ws)%nat) as [Hi|Hi].
  - rewrite list_lookup_fmap, lookup_seq_lt by lia. unfold fmap, option_fmap, option_map.
    change (Z.to_nat (0 / 4)) with 0%nat in *. change (0 + i)%nat with i.
    rewrite decide_True by apply Nat.le_0_l.
    change (regs (set_f_pos 0 s1)) with (regs s1). rewrite Hr1, decide_True by lia.
    by destruct (lookup_lt_is_Some_2 ws i Hi) as [w ->].
  - rewrite !lookup_ge_None_2; [done|..]; rewrite ?length_fmap, ?length_seq; lia.
Qed.

(** When the user pages cannot be accessed both calls return -EFAULT, the
    position is unchanged and no register is written. *)
Theorem copy_fault_keeps_state s size ws tail :
  tc_addr s = 0 → 0 ≤ f_pos s < 2 ^ 34 → 0 ≤ size < 2 ^ 32 →
  tc_cdev_read true true size s = Done ((- EFAULT, []), mk_tc (regs s) (f_pos s) 0 None) ∧
  tc_cdev_write true true ws tail s = Done (- EFAULT, mk_tc (regs s) (f_pos s) 0 None).
Proof.
  intros Ha Hp Hs. split.
  - destruct (position_index _ Hp) as [Hidx Hidx0].
    assert (0 ≤ size / 4) by (apply Z.div_pos; lia).
    unfold tc_cdev_read, kzalloc_words. eapply bind_done; [done|].
    eapply bind_done; [done|]. simpl. rewrite Ha, Hidx.
    rewrite transfer_size_0 by lia. unfold for_up. eapply bind_done.
    { apply (read_loop peek) with (len := Z.to_nat (size / 4)); [lia|unfold REG_LENGTH; lia|done]. }
    eapply bind_done; [done|]. eapply bind_done; [done|]. unfold set_kbuf. simpl. by rewrite Ha.
  - unfold tc_cdev_write, kzalloc_words. eapply bind_done; [done|]. eapply bind_done; [done|].
    eapply bind_done; [done|]. eapply bind_done; [done|]. unfold set_kbuf. simpl. by rewrite Ha.
Qed.

(** [llseek]: SEEK_SET takes the offset, SEEK_END goes to 512 whatever the
    offset (a count of registers used as a byte position), SEEK_CUR is relative
    to the private [addr] (always 0) and not to the position; a negative result
    is refused with -EINVAL and leaves the position. *)
Theorem llseek_branches s junk offset whence :
  tc_addr s = 0 → - 2 ^ 63 ≤ offset < 2 ^ 63 → whence ∈ [SEEK_SET; SEEK_CUR; SEEK_END] →
  llseek junk offset whence s =
    (if decide (whence = SEEK_END) then Done (512, set_f_pos 512 s)
     else if decide (offset < 0) then Done (- EINVAL, s)
     else Done (offset, set_f_pos offset s)).
Proof.
  intros Ha Ho Hw. apply list_elem_of_In in Hw.
  unfold llseek, mbind, M_bind, get, SEEK_SET, SEEK_CUR, SEEK_END, REG_LENGTH in *. rewrite Ha.
  rewrite Z.add_0_l, (swrap_small 64) by (change (2 ^ (64 - 1)) with (2 ^ 63); lia).
  destruct Hw as [<-|[<-|[<-|[]]]]; [..|done]; rewrite (decide_False (P := _ = _)) by lia;
    cbn [Z.eqb Pos.eqb]; by destruct (Z.ltb_spec offset 0), (decide (offset < 0)); try lia.
Qed.

(** The size [simple_mmap] maps is the requested one rounded up to whole
    pages, starting at the first page of the registers. *)
Theorem simple_mmap_rounds_up pfn vm_start vm_end :
  0 ≤ vm_start ≤ vm_end → vm_end - vm_start + PAGE_SIZE < 2 ^ 64 →
  ∃ size, simple_mmap pfn vm_start vm_end = (vm_start, pfn, size) ∧
    size mod PAGE_SIZE = 0 ∧ vm_end - vm_start ≤ size < vm_end - vm_start + PAGE_SIZE.
Proof.
  intros Hv Hb. unfold simple_mmap. eexists. split; [reflexivity|].
  set (size := vm_end - vm_start) in *. unfold PAGE_SIZE in *.
  rewrite (uwrap_small 64 size) by lia.
  pose proof (Z.div_mod size 4096 ltac:(lia)). pose proof (Z.mod_pos_bound size 4096 ltac:(lia)).
  destruct (Z.eqb_spec (size mod 4096) 0) as [He|Hn]; simpl; [lia|].
  rewrite (uwrap_small 64 (size + 4096)) by lia.
  replace (size + 4096) with (size + 1 * 4096) by lia. rewrite Z.div_add by lia.
  assert (0 ≤ size / 4096) by (apply Z.div_pos; lia).
  rewrite uwrap_small by lia. rewrite Z.mod_mul by lia. lia.
Qed.

End Properties.

(** ** Registers as memory, for concrete runs *)

#[export] Instance ram_iomem : IoMem (gmap Z Z) := {
  ioread32 := λ off r, (default 0 (r !! off), r);
  iowrite32 := λ off v r, <[off := v]> r
}.

Definition ram_peek (off : Z) (r : gmap Z Z) : Z := default 0 (r !! off).

#[export] Instance ram_laws : IoMemLaws (gmap Z Z) ram_peek.
Proof.
  split; [done|]. intros off off' v r. unfold ram_peek. simpl.
  destruct (decide (off = off')) as [->|Hne]; [by rewrite lookup_insert_eq|].
  by rewrite lookup_insert_ne.
Qed.

Definition demo_tc (p : Z) : tc_state (gmap Z Z) := mk_tc {[0 := 10; 4 := 11; 8 := 12]} p 0 None.

Lemma tc_cdev_read_functional_witness :
  ∃ words, tc_cdev_read true false 14 (demo_tc 4) =
             Done ((12, words), mk_tc (regs (demo_tc 4)) 16 0 None) ∧ words !! 0%nat = Some 0.
Proof.
  destruct (tc_cdev_read_functional ram_peek (demo_tc 4) 14 eq_refl ltac:(simpl; lia) ltac:(lia))
    as (n & words & -> & Hrun & _ & Hw).
  exists words. split; [exact Hrun|]. exact (Hw 0%nat eq_refl).
Defined.

Lemma tc_cdev_write_functional_witness :
  ∃ s', tc_cdev_write true false [7; 8] 1 (demo_tc 4) = Done (9, s') ∧ reg ram_peek (regs s') 1 = 8.
Proof.
  destruct (tc_cdev_write_functional ram_peek (demo_tc 4) [7; 8] 1 eq_refl
    ltac:(simpl; lia) ltac:(lia) ltac:(simpl; lia)) as (s' & Hrun & _ & Hr).
  exists s'. split; [exact Hrun|]. exact (Hr 1%nat).
Defined.

Lemma write_seek_read_roundtrip_witness :
  wp (tc_cdev_open ;; tc_cdev_write true false [7; 8; 9] 0 ;; llseek 0 0 SEEK_SET ;;
      tc_cdev_read true false 12) (λ r _, r = (12, [7; 8; 9])) (demo_tc 40).
Proof. apply (write_seek_read_roundtrip ram_peek 0 [7; 8; 9] (demo_tc 40)). simpl. lia. Defined.

Lemma copy_fault_keeps_state_witness :
  tc_cdev_write true true [7] 0 (demo_tc 4) = Done (- EFAULT, mk_tc (regs (demo_tc 4)) 4 0 None).
Proof.
  destruct (copy_fault_keeps_state ram_peek (demo_tc 4) 8 [7] 0 eq_refl ltac:(simpl; lia) ltac:(lia))
    as [_ Hw]. exact Hw.
Defined.

Lemma llseek_branches_witness : llseek 0 (-3) SEEK_CUR (demo_tc 4) = Done (- EINVAL, demo_tc 4).
Proof.
  pose proof (llseek_branches (demo_tc 4) 0 (-3) SEEK_CUR eq_refl ltac:(lia)
    ltac:(apply list_elem_of_In; simpl; auto)) as Hx. exact Hx.
Defined.

Lemma simple_mmap_rounds_up_witness : ∃ size, simple_mmap 5 4096 6144 = (4096, 5, size) ∧ 2048 ≤ size.
Proof.
  destruct (simple_mmap_rounds_up 5 4096 6144 ltac:(lia) ltac:(unfold PAGE_SIZE; lia))
    as (size & Hm & _ & Hs). exists size. split; [exact Hm|lia].
Defined.
