(* ===== verification/JobQueue.v ===== *)
(** * JobQueue: the job queue and the binary semaphore of the thread pool

    The JOB QUEUE and SYNCHRONISATION parts of
    [src/userspace/io_backend/src/thpool.c]: a singly linked list of heap
    allocated jobs with [front], [rear] and [len], and the binary semaphore
    [has_jobs].  Each function here runs inside the queue's mutex, so it is one
    atomic computation on the queue.  [JobQueueSpec] is what the pool relies
    on; the pointer implementation is its instance. *)
From Stdlib Require Import ZArith Lia.
From stdpp Require Import base list numbers option gmap.
From S2P Require Import Prelude.

(** ** Data *)

Abbreviation ptr := (option positive).

(** [struct job]; the function pointer and its argument are numbers. *)
Record job := mk_job {
  job_prev : ptr;
  job_function : Z;
  job_arg : Z
}.

(** What a job does, whatever its place in the queue. *)
Definition job_work (j : job) : Z * Z := (job_function j, job_arg j).

(** [struct bsem]: the mutex and the condition variable are the atomicity of
    the operations and the guard of [bsem_wait]; the value is [v].  That a waiter
    looks at [v] again after it was posted is the work of [pthread_cond_signal] and
    [pthread_cond_broadcast] in the two post functions, which is taken as given. *)
Record bsem := mk_bsem { bsem_v : Z }.

(** [struct jobqueue] and the heap its jobs live in. *)
Record jobqueue := mk_jq {
  front : ptr;
  rear : ptr;
  has_jobs : bsem;
  len : Z;
  jobs : gmap positive job;
  next_job : positive
}.

Definition set_front (p : ptr) (q : jobqueue) : jobqueue :=
  mk_jq p (rear q) (has_jobs q) (len q) (jobs q) (next_job q).
Definition set_rear (p : ptr) (q : jobqueue) : jobqueue :=
  mk_jq (front q) p (has_jobs q) (len q) (jobs q) (next_job q).
Definition set_has_jobs (b : bsem) (q : jobqueue) : jobqueue :=
  mk_jq (front q) (rear q) b (len q) (jobs q) (next_job q).
Definition set_len (n : Z) (q : jobqueue) : jobqueue :=
  mk_jq (front q) (rear q) (has_jobs q) n (jobs q) (next_job q).
Definition set_jobs (h : gmap positive job) (q : jobqueue) : jobqueue :=
  mk_jq (front q) (rear q) (has_jobs q) (len q) h (next_job q).

Definition load_job (p : ptr) : M jobqueue job :=
  l ← require NullDeref p;
  q ← get;
  require UseAfterFree (jobs q !! l).

Definition store_prev (p prev : ptr) : M jobqueue unit :=
  l ← require NullDeref p;
  j ← load_job p;
  modify (λ q, set_jobs (<[l := mk_job prev (job_function j) (job_arg j)]> (jobs q)) q).

(** [free(p)]: freeing a null pointer does nothing. *)
Definition free_job (p : ptr) : M jobqueue unit :=
  match p with
  | None => mret tt
  | Some l =>
      load_job p ;;
      modify (λ q, set_jobs (delete l (jobs q)) q)
  end.

(** [malloc(sizeof(struct job))] followed by the two stores of
    [thpool_add_work]; [prev] is left indeterminate ([junk]). *)
Definition alloc_job (junk : ptr) (function_p arg_p : Z) : M jobqueue ptr :=
  q ← get;
  modify (λ q, mk_jq (front q) (rear q) (has_jobs q) (len q)
                 (<[next_job q := mk_job junk function_p arg_p]> (jobs q)) (Pos.succ (next_job q))) ;;
  mret (Some (next_job q)).

(** ** Semaphore *)

(** [bsem_init] exits the process when the value is neither 0 nor 1. *)
Definition bsem_init (value : Z) : option bsem :=
  if (value <? 0) || (1 <? value) then None else Some (mk_bsem value).

Definition bsem_reset : M jobqueue unit :=
  match bsem_init 0 with
  | Some b => modify (set_has_jobs b)
  | None => raise Blocked
  end.

Definition bsem_post : M jobqueue unit := modify (set_has_jobs (mk_bsem 1)).

(** The broadcast wakes every waiter; the value posted is the same. *)
Definition bsem_post_all : M jobqueue unit := modify (set_has_jobs (mk_bsem 1)).

(** One pass of [bsem_wait]: it gets past the [while] only when [v] is 1 and
    then takes the value back to 0; otherwise the caller stays blocked. *)
Definition bsem_wait : M jobqueue unit :=
  q ← get;
  if bsem_v (has_jobs q) =? 1 then modify (set_has_jobs (mk_bsem 0)) else raise Blocked.

(** ** Queue operations *)

(** [jobqueue_init]: -1 when the semaphore cannot be allocated. *)
Definition jobqueue_init (alloc_ok : bool) : M jobqueue Z :=
  modify (set_len 0) ;;
  modify (set_front None) ;;
  modify (set_rear None) ;;
  if alloc_ok then
    match bsem_init 0 with
    | Some b => modify (set_has_jobs b) ;; mret 0
    | None => raise Blocked
    end
  else mret (-1).

Definition jobqueue_push (newjob : ptr) : M jobqueue unit :=
  store_prev newjob None ;;
  q ← get;
  (if len q =? 0 then
     modify (set_front newjob) ;;
     modify (set_rear newjob)
   else
     store_prev (rear q) newjob ;;
     modify (set_rear newjob)) ;;
  modify (λ q, set_len (s32 (len q + 1)) q) ;;
  bsem_post.

Definition jobqueue_pull : M jobqueue ptr :=
  q ← get;
  let job_p := front q in
  (if len q =? 0 then mret tt
   else if len q =? 1 then
     modify (set_front None) ;;
     modify (set_rear None) ;;
     modify (set_len 0)
   else
     j ← load_job job_p;
     modify (set_front (job_prev j)) ;;
     modify (λ q, set_len (s32 (len q - 1)) q) ;;
     bsem_post) ;;
  mret job_p.

(** [while (jobqueue_p->len) free(jobqueue_pull(jobqueue_p));] then the reset. *)
Definition jobqueue_clear (fuel : nat) : M jobqueue unit :=
  iterate fuel (λ _ : unit,
    q ← get;
    if len q =? 0 then mret (inr tt)
    else p ← jobqueue_pull; free_job p ;; mret (inl tt)) tt ;;
  modify (set_front None) ;;
  modify (set_rear None) ;;
  bsem_reset ;;
  modify (set_len 0).

(** [jobqueue_destroy] clears the queue and then frees the semaphore. *)
Definition jobqueue_destroy (fuel : nat) : M jobqueue unit := jobqueue_clear fuel.

(** [thpool_add_work]: -1 when the job cannot be allocated. *)
Definition thpool_add_work (alloc_ok : bool) (junk : ptr) (function_p arg_p : Z) : M jobqueue Z :=
  if alloc_ok then
    newjob ← alloc_job junk function_p arg_p;
    jobqueue_push newjob ;;
    mret 0
  else mret (-1).

(** The part of [thread_do] that runs between the two counter updates: pull a
    job, read its fields, run it, free it.  The work pulled, if any, is the
    result. *)
Definition take_job : M jobqueue (option (Z * Z)) :=
  job_p ← jobqueue_pull;
  match job_p with
  | None => mret None
  | Some _ =>
      j ← load_job job_p;
      free_job job_p ;;
      mret (Some (job_work j))
  end.

(** ** The representation of a list of jobs

    [chain h p ls]: following [prev] from [p] visits the locations [ls] and
    ends at null. *)
Fixpoint chain (h : gmap positive job) (p : ptr) (ls : list positive) : Prop :=
  match ls with
  | [] => p = None
  | l :: ls' => p = Some l ∧ ∃ j, h !! l = Some j ∧ chain h (job_prev j) ls'
  end.

(** [queue_rep q ls ws]: the queue holds the jobs at [ls], whose work is [ws],
    oldest first; the heap holds nothing else. *)
Record queue_rep (q : jobqueue) (ls : list positive) (ws : list (Z * Z)) : Prop := {
  qr_len : len q = Z.of_nat (length ls);
  qr_bound : Z.of_nat (length ls) < 2 ^ 31;
  qr_chain : chain (jobs q) (front q) ls;
  qr_rear : rear q = last ls;
  qr_nodup : NoDup ls;
  qr_work : Forall2 (λ l w, job_work <$> (jobs q !! l) = Some w) ls ws;
  qr_dom : dom (jobs q) = list_to_set ls;
  qr_fresh : ∀ l, l ∈ ls → (l < next_job q)%positive
}.

(** What the thread pool needs of a queue with a semaphore. *)
Class JobQueueSpec (Q W : Type) := {
  q_rep : Q → list W → Prop;
  q_sem : Q → Z;
  q_len : Q → Z;
  q_capacity : Z;
  q_add : W → M Q Z;
  q_take : M Q (option W);
  q_wait : M Q unit;
  q_post_all : M Q unit;
  q_len_spec : ∀ q ws, q_rep q ws → q_len q = Z.of_nat (length ws);
  q_add_spec : ∀ q ws w, q_rep q ws → Z.of_nat (length ws) < q_capacity →
    wp (q_add w) (λ r q', r = 0 ∧ q_rep q' (ws ++ [w]) ∧ q_sem q' = 1) q;
  q_take_spec : ∀ q ws, q_rep q ws →
    wp q_take (λ r q', r = head ws ∧ q_rep q' (tail ws) ∧
                       q_sem q' = if decide (tail ws = []) then q_sem q else 1) q;
  q_wait_spec : ∀ q ws, q_rep q ws → q_sem q = 1 →
    wp q_wait (λ _ q', q_rep q' ws ∧ q_sem q' = 0) q;
  q_wait_blocks : ∀ q, q_sem q ≠ 1 → q_wait q = Fault Blocked;
  q_post_spec : ∀ q ws, q_rep q ws → wp q_post_all (λ _ q', q_rep q' ws ∧ q_sem q' = 1) q
}.

(** ** Lemmas on chains *)

Section Chains.
Implicit Types (h : gmap positive job) (ls : list positive).

Lemma chain_frame h h' p ls :
  (∀ l, l ∈ ls → h' !! l = h !! l) → chain h p ls → chain h' p ls.
Proof.
  revert p. induction ls as [|l ls IH]; intros p Hh; simpl; [done|].
  intros (-> & j & Hj & Hc). split; [done|]. exists j. split.
  - rewrite Hh by (by left). done.
  - apply IH; [|done]. intros l' Hl'. apply Hh. by right.
Qed.

Lemma chain_snoc h p ls r l jr jl :
  chain h p (ls ++ [r]) → NoDup (ls ++ [r]) → l ∉ ls ++ [r] →
  h !! r = Some jr → job_prev jl = None →
  chain (<[r := mk_job (Some l) (job_function jr) (job_arg jr)]> (<[l := jl]> h)) p ((ls ++ [r]) ++ [l]).
Proof.
  intros Hc Hnd Hl Hr Hp. revert p Hc.
  induction ls as [|k ls IH]; intros p Hc; simpl in *.
  - destruct Hc as (-> & j & Hj & _). split; [done|].
    assert (l ≠ r) by (intros ->; apply Hl; by left).
    rewrite lookup_insert_eq. eexists. split; [done|]. simpl. split; [done|].
    rewrite lookup_insert_ne, lookup_insert_eq by done. eexists. split; [done|done].
  - destruct Hc as (-> & j & Hj & Hc). split; [done|].
    apply NoDup_cons in Hnd as [Hk Hnd].
    assert (r ≠ k) by (intros ->; apply Hk, elem_of_app; right; by left).
    assert (l ≠ k) by (intros ->; apply Hl; by left).
    rewrite !lookup_insert_ne by done. exists j. split; [done|].
    apply IH; [done| |done]. intros Hin. apply Hl. by right.
Qed.

Lemma Forall2_work_frame h h' ls (ws : list (Z * Z)) :
  (∀ l, l ∈ ls → job_work <$> h' !! l = job_work <$> h !! l) →
  Forall2 (λ l w, job_work <$> (h !! l) = Some w) ls ws →
  Forall2 (λ l w, job_work <$> (h' !! l) = Some w) ls ws.
Proof.
  intros Hh H. induction H as [|l w ls ws Hw _ IH]; constructor.
  - rewrite Hh by (by left). done.
  - apply IH. intros l' Hl'. apply Hh. by right.
Qed.

End Chains.

(** ** The pointer queue implements the list *)

Section Representation.
Implicit Types (q : jobqueue) (ls : list positive) (ws : list (Z * Z)).

Lemma load_run q l j : jobs q !! l = Some j → load_job (Some l) q = Done (j, q).
Proof. intros Hj. unfold load_job, mbind, M_bind, get. simpl. by rewrite Hj. Qed.

Lemma store_prev_run q l j prev :
  jobs q !! l = Some j →
  store_prev (Some l) prev q =
    Done (tt, set_jobs (<[l := mk_job prev (job_function j) (job_arg j)]> (jobs q)) q).
Proof.
  intros Hj. unfold store_prev. eapply bind_done; [done|].
  eapply bind_done; [by apply load_run|]. done.
Qed.

Lemma free_run q l j :
  jobs q !! l = Some j → free_job (Some l) q = Done (tt, set_jobs (delete l (jobs q)) q).
Proof. intros Hj. unfold free_job. eapply bind_done; [by apply load_run|]. done. Qed.

Lemma rep_last q ls r ws :
  queue_rep q (ls ++ [r]) ws → rear q = Some r ∧ ∃ j, jobs q !! r = Some j.
Proof.
  intros [_ _ _ Hr _ _ Hd _]. split; [by rewrite Hr, last_snoc|].
  apply elem_of_dom. rewrite Hd. set_solver.
Qed.

Lemma next_job_fresh q ls ws : queue_rep q ls ws → next_job q ∉ ls.
Proof. intros [_ _ _ _ _ _ _ Hf] Hin. apply Hf in Hin. lia. Qed.

(** Pushing a freshly allocated job. *)
Lemma add_work_rep q ls ws junk f a :
  queue_rep q ls ws → Z.of_nat (length ls) < 2 ^ 31 - 1 →
  wp (thpool_add_work true junk f a)
    (λ r q', r = 0 ∧ queue_rep q' (ls ++ [next_job q]) (ws ++ [(f, a)]) ∧ bsem_v (has_jobs q') = 1) q.
Proof.
  intros Hrep Hlen. pose proof (next_job_fresh q ls ws Hrep) as Hnew.
  set (l := next_job q) in *.
  unfold thpool_add_work, alloc_job. do 3 wp_step. fold l.
  unfold jobqueue_push. wp_seq.
  eapply wp_done; [apply store_prev_run; simpl; apply lookup_insert_eq|].
  unfold set_jobs. cbn [jobs front rear has_jobs len next_job job_function job_arg].
  rewrite insert_insert_eq. wp_step. cbn [len].
  pose proof Hrep as [Hl Hbnd Hc Hr Hnd Hw Hd Hf].
  assert (next_fresh : ∀ k, k ∈ ls ++ [l] → (k < Pos.succ l)%positive).
  { intros k [Hk| ->%list_elem_of_singleton]%elem_of_app; [apply Hf in Hk; fold l in Hk|]; lia. }
  assert (Hdom : dom (jobs q) ∪ {[l]} = list_to_set (ls ++ [l]) :> gset positive)
    by (rewrite Hd, list_to_set_app_L; set_solver).
  assert (Hnd' : NoDup (ls ++ [l])).
  { apply NoDup_app. split; [done|]. split; [|apply NoDup_singleton].
    intros k Hk ->%list_elem_of_singleton. done. }
  destruct ls as [|r ls' _] using rev_ind.
  - (* empty queue *)
    rewrite Hl. simpl. do 3 wp_step. unfold bsem_post. wp_step. apply wp_ret.
    split; [done|]. split; [|done].
    apply Forall2_nil_inv_l in Hw as ->. split; simpl.
    + done.
    + lia.
    + split; [done|]. eexists. split; [apply lookup_insert_eq|done].
    + done.
    + done.
    + constructor; [by rewrite lookup_insert_eq|constructor].
    + rewrite dom_insert_L, Hd. set_solver.
    + done.
  - destruct (rep_last q ls' r ws Hrep) as [Hrear [jr Hjr]].
    assert (l ≠ r) by (intros Heq; apply Hnew; rewrite Heq; set_solver).
    rewrite Hl, length_app. simpl. destruct (Z.eqb_spec (Z.of_nat (length ls' + 1)) 0); [lia|].
    cbn [rear]. rewrite Hrear. wp_seq.
    eapply wp_done; [apply store_prev_run; simpl; rewrite lookup_insert_ne by done; exact Hjr|].
    unfold bsem_post. do 3 wp_step. apply wp_ret. split; [done|]. split; [|done].
    split; simpl.
    + rewrite ?length_app in *. simpl in *. rewrite swrap_small by lia. lia.
    + rewrite ?length_app in *. simpl in *. lia.
    + by apply chain_snoc.
    + by rewrite last_snoc.
    + done.
    + apply Forall2_app.
      * eapply Forall2_work_frame; [|exact Hw]. intros k Hk.
        destruct (decide (r = k)) as [->|Hne]; [by rewrite lookup_insert_eq, Hjr|].
        rewrite !lookup_insert_ne; [done|by intros ->|done].
      * constructor; [|constructor]. by rewrite lookup_insert_ne, lookup_insert_eq.
    + rewrite !dom_insert_L, <-Hdom, Hd, list_to_set_app_L. set_solver.
    + done.
Qed.

(** Pulling: the front job leaves the list, its cell stays until it is freed. *)
Lemma pull_rep q ls ws :
  queue_rep q ls ws →
  wp jobqueue_pull (λ p q',
    match ls, ws with
    | l :: ls', w :: ws' =>
        p = Some l ∧ jobs q' = jobs q ∧ (∃ j, jobs q !! l = Some j ∧ job_work j = w) ∧
        queue_rep (set_jobs (delete l (jobs q')) q') ls' ws' ∧
        bsem_v (has_jobs q') = if decide (ws' = []) then bsem_v (has_jobs q) else 1
    | [], [] => p = None ∧ q' = q
    | _, _ => False
    end) q.
Proof.
  intros [Hl Hbnd Hc Hr Hnd Hw Hd Hf]. unfold jobqueue_pull. wp_step. rewrite Hl.
  destruct Hw as [|l w ls' ws' Hw Hw']; simpl in Hc, Hnd, Hd.
  { simpl. wp_step. apply wp_ret. by rewrite Hc. }
  destruct Hc as (Hfr & j & Hj & Hc). rewrite Hfr, Hj in *. injection Hw as Hw.
  apply NoDup_cons in Hnd as [Hnin Hnd].
  assert (Hframe : ∀ k, k ∈ ls' → delete l (jobs q) !! k = jobs q !! k).
  { intros k Hk. rewrite lookup_delete_ne; [done|]. by intros ->. }
  assert (Hc' : chain (delete l (jobs q)) (job_prev j) ls') by (by eapply chain_frame).
  assert (Hw2 : Forall2 (λ k w, job_work <$> delete l (jobs q) !! k = Some w) ls' ws').
  { eapply Forall2_work_frame; [|exact Hw']. intros k Hk. by rewrite Hframe. }
  assert (Hd2 : dom (delete l (jobs q)) = list_to_set ls').
  { rewrite dom_delete_L, Hd. set_solver. }
  destruct ls' as [|k ls''].
  - apply Forall2_nil_inv_l in Hw' as ->. simpl. do 3 wp_step. apply wp_ret.
    split; [done|]. split; [done|]. split; [by eexists|]. split; [|done].
    split; simpl; try done; first [lia | constructor | by rewrite Hd2 | intros k Hk; by inversion Hk].
  - rewrite (proj2 (Z.eqb_neq _ 0)) by (simpl; lia). rewrite (proj2 (Z.eqb_neq _ 1)) by (simpl; lia).
    wp_seq. eapply wp_done; [by apply load_run|]. do 2 wp_step. unfold bsem_post. wp_step.
    apply wp_ret. split; [done|]. split; [done|]. split; [by eexists|]. split.
    + simpl in Hbnd. split; simpl; try done.
      * rewrite Hl. simpl. rewrite swrap_small by lia. lia.
      * lia.
      * intros k' Hk'. apply Hf. by right.
    + inversion Hw'; subst. by rewrite decide_False.
Qed.

Lemma take_job_rep q ls ws :
  queue_rep q ls ws →
  wp take_job (λ r q', r = head ws ∧ queue_rep q' (tail ls) (tail ws) ∧
    bsem_v (has_jobs q') = if decide (tail ws = []) then bsem_v (has_jobs q) else 1) q.
Proof.
  intros Hrep. unfold take_job. wp_seq. eapply wp_mono; [by apply pull_rep|]. intros p q' Hp.
  pose proof (qr_work _ _ _ Hrep) as Hw. destruct Hw as [|l w ls' ws' _ _].
  - destruct Hp as [-> ->]. by apply wp_ret.
  - destruct Hp as (-> & Hjobs & (j & Hj & Hw) & Hrep' & Hv). rewrite <-Hjobs in Hj. cbv beta.
    wp_seq. eapply wp_done; [by apply load_run|].
    wp_seq. eapply wp_done; [by eapply free_run|]. apply wp_ret. simpl. by rewrite Hw.
Qed.

(** Clearing frees every job and ends after one pass per job. *)
Lemma clear_rep q ls ws fuel :
  queue_rep q ls ws → (length ls < fuel)%nat →
  wp (jobqueue_clear fuel) (λ _ q', queue_rep q' [] [] ∧ bsem_v (has_jobs q') = 0 ∧ jobs q' = ∅) q.
Proof.
  intros Hrep Hfuel. unfold jobqueue_clear. wp_seq.
  apply (wp_iterate (λ _ q', ∃ ls ws, queue_rep q' ls ws) (λ _ q', Z.to_nat (len q'))).
  - clear. intros [] q (ls & ws & Hrep). wp_step.
    destruct (Z.eqb_spec (len q) 0) as [Hz|Hz].
    + apply wp_ret. pose proof Hrep as [Hl _ _ _ _ _ Hd _]. rewrite Hz in Hl.
      destruct ls; [|simpl in Hl; lia]. unfold bsem_reset. simpl. do 4 wp_step.
      split; simpl; [|by split; [|apply dom_empty_inv_L; rewrite Hd]].
      split; simpl; try done;
        first [lia | by apply (qr_work _ _ _ Hrep) | constructor | intros l Hin; by inversion Hin].
    + wp_seq. eapply wp_mono; [by apply pull_rep|]. intros p q' Hp.
      pose proof (qr_work _ _ _ Hrep) as Hw. destruct Hw as [|l w ls' ws' _ _].
      { by destruct (Hz (qr_len _ _ _ Hrep)). }
      destruct Hp as (-> & Hjobs & (j & Hj & _) & Hrep' & _). rewrite <-Hjobs in Hj. cbv beta.
      wp_seq. eapply wp_done; [by eapply free_run|]. apply wp_ret. split; [by eauto|].
      rewrite (qr_len _ _ _ Hrep), (qr_len _ _ _ Hrep'). simpl. lia.
  - by eauto.
  - rewrite (qr_len _ _ _ Hrep). lia.
Qed.

End Representation.

(** The pointer queue is an implementation of [JobQueueSpec]. *)
#[export] Program Instance pointer_queue : JobQueueSpec jobqueue (Z * Z) := {
  q_rep := λ q ws, ∃ ls, queue_rep q ls ws;
  q_sem := λ q, bsem_v (has_jobs q);
  q_len := len;
  q_capacity := 2 ^ 31 - 1;
  q_add := λ w, thpool_add_work true None (fst w) (snd w);
  q_take := take_job;
  q_wait := bsem_wait;
  q_post_all := bsem_post_all
}.
Next Obligation.
  intros q ws [ls Hrep]. simpl. rewrite (qr_len _ _ _ Hrep).
  by rewrite (Forall2_length _ _ _ (qr_work _ _ _ Hrep)).
Qed.
Next Obligation.
  intros q ws [f a] [ls Hrep] Hlen. simpl.
  rewrite <-(Forall2_length _ _ _ (qr_work _ _ _ Hrep)) in Hlen.
  eapply wp_mono; [by apply (add_work_rep q ls ws)|]. intros r q' (-> & Hrep' & Hv). eauto.
Qed.
Next Obligation.
  intros q ws [ls Hrep]. eapply wp_mono; [by apply take_job_rep|].
  intros r q' (-> & Hrep' & Hv). eauto.
Qed.
Next Obligation.
  intros q ws [ls Hrep] Hv. simpl in Hv. unfold bsem_wait. wp_step. rewrite Hv. simpl.
  apply wp_modify. split; [|done]. exists ls. by destruct Hrep; split.
Qed.
Next Obligation.
  intros q Hv. simpl in *. unfold bsem_wait, mbind, M_bind, get.
  by destruct (Z.eqb_spec (bsem_v (has_jobs q)) 1).
Qed.
Next Obligation.
  intros q ws [ls Hrep]. apply wp_modify. split; [|done]. exists ls. by destruct Hrep; split.
Qed.

(** ** Runs of operations against the list specification *)

Inductive queue_op := OpAdd (w : Z * Z) | OpTake | OpPostAll.

(** The answers of a run: what each take returned. *)
Fixpoint run_ops (ops : list queue_op) : M jobqueue (list (option (Z * Z))) :=
  match ops with
  | [] => mret []
  | OpAdd w :: ops' => thpool_add_work true None (fst w) (snd w) ;; run_ops ops'
  | OpTake :: ops' => r ← take_job; rs ← run_ops ops'; mret (r :: rs)
  | OpPostAll :: ops' => bsem_post_all ;; run_ops ops'
  end.

(** The same run on a first-in first-out list. *)
Fixpoint spec_ops (ops : list queue_op) (ws : list (Z * Z)) : list (option (Z * Z)) * list (Z * Z) :=
  match ops with
  | [] => ([], ws)
  | OpAdd w :: ops' => spec_ops ops' (ws ++ [w])
  | OpTake :: ops' => let '(rs, ws') := spec_ops ops' (tail ws) in (head ws :: rs, ws')
  | OpPostAll :: ops' => spec_ops ops' ws
  end.

(** The empty queue [jobqueue_init] makes of fresh memory. *)
Definition empty_queue : jobqueue := mk_jq None None (mk_bsem 0) 0 ∅ 1.

Lemma empty_queue_rep : queue_rep empty_queue [] [].
Proof. split; simpl; try done; [apply NoDup_nil_2|intros l Hl; by inversion Hl]. Qed.

(** C23: Refinement: any sequence of pushes and pulls on the linked queue, from
    a queue that holds [ws], returns without fault (no null or dangling job
    pointer is followed), answers as the first-in first-out list does and ends
    in a queue that holds the list's contents, as long as fewer than 2^31 jobs
    are in play. *)
Theorem queue_refines_fifo ops q ls ws :
  queue_rep q ls ws → Z.of_nat (length ws + length ops) < 2 ^ 31 →
  ∃ q' ls', run_ops ops q = Done (fst (spec_ops ops ws), q') ∧ queue_rep q' ls' (snd (spec_ops ops ws)).
Proof.
  revert q ls ws. induction ops as [|op ops IH]; intros q ls ws Hrep Hlen; [by eauto|].
  pose proof (Forall2_length _ _ _ (qr_work _ _ _ Hrep)) as Hll. simpl in Hlen.
  destruct op as [[f a]| |]; simpl.
  - destruct (wp_run _ _ _ (add_work_rep q ls ws None f a Hrep ltac:(lia))) as (r & q1 & Hrun & _ & Hrep1 & _).
    destruct (IH q1 _ _ Hrep1) as (q' & ls' & Hrun' & Hrep'); [rewrite length_app; simpl; lia|].
    exists q', ls'. split; [|done]. by eapply bind_done.
  - destruct (wp_run _ _ _ (take_job_rep q ls ws Hrep)) as (r & q1 & Hrun & -> & Hrep1 & _).
    destruct (IH q1 _ _ Hrep1) as (q' & ls' & Hrun' & Hrep'); [destruct ws; simpl in *; lia|].
    destruct (spec_ops ops (tail ws)) as [rs ws'].
    exists q', ls'. split; [|done]. eapply bind_done; [done|]. by eapply bind_done.
  - destruct (IH (set_has_jobs (mk_bsem 1) q) ls ws) as (q' & ls' & Hrun' & Hrep');
      [by destruct Hrep; split|lia|]. eauto.
Qed.

(** [jobqueue_clear] ends after one pass per queued job, frees every job
    (the heap is empty afterwards) and leaves the empty queue with the
    semaphore at 0. *)
Theorem clear_frees_all q ls ws fuel :
  queue_rep q ls ws → (length ws < fuel)%nat →
  ∃ q', jobqueue_clear fuel q = Done (tt, q') ∧ jobs q' = ∅ ∧ queue_rep q' [] [] ∧ bsem_v (has_jobs q') = 0.
Proof.
  intros Hrep Hf. rewrite <-(Forall2_length _ _ _ (qr_work _ _ _ Hrep)) in Hf.
  destruct (wp_run _ _ _ (clear_rep q ls ws fuel Hrep Hf)) as ([] & q' & Hrun & H1 & H2 & H3). eauto.
Qed.

Lemma queue_refines_fifo_witness :
  ∃ q', run_ops [OpAdd (1, 10); OpAdd (2, 20); OpTake; OpAdd (3, 30); OpTake; OpTake; OpTake] empty_queue
        = Done ([Some (1, 10); Some (2, 20); Some (3, 30); None], q').
Proof.
  destruct (queue_refines_fifo [OpAdd (1, 10); OpAdd (2, 20); OpTake; OpAdd (3, 30); OpTake; OpTake; OpTake]
    empty_queue [] [] empty_queue_rep ltac:(simpl; lia)) as (q' & ls' & Hrun & _). exists q'. exact Hrun.
Defined.

Lemma clear_frees_all_witness : ∃ q', jobqueue_clear 1 empty_queue = Done (tt, q') ∧ jobs q' = ∅.
Proof.
  destruct (clear_frees_all empty_queue [] [] 1 empty_queue_rep ltac:(simpl; lia)) as (q' & Hrun & Hj & _).
  exists q'. split; [exact Hrun|exact Hj].
Defined.
