(* ===== verification/ThreadPool.v ===== *)
(** * ThreadPool: the worker threads and the pool's life cycle

    The THREADPOOL and THREAD parts of
    [src/userspace/io_backend/src/thpool.c], as a transition system: one
    program counter per worker, one for the thread that calls [thpool_wait]
    and [thpool_destroy], and the shared counters.  A critical section of
    [thcount_lock] is one step, except [thpool_wait]'s check, which holds the
    lock over two reads, and a worker's last one, whose unlock is a step of its
    own: [thpool_destroy] reads the counter without the lock.  The queue is any
    implementation of [JobQueueSpec]. *)
From Stdlib Require Import ZArith Lia.
From stdpp Require Import base list numbers option gmap.
From S2P Require Import Prelude JobQueue.

(** ** State *)

(** Where a worker is inside [thread_do]. *)
Inductive worker (W : Type) :=
| WStart          (* created; has not yet counted itself alive *)
| WTop            (* at the test of [while (threads_keepalive)] *)
| WWait           (* in [bsem_wait] *)
| WWoken          (* past [bsem_wait], at [if (threads_keepalive)] *)
| WClaim          (* about to count itself working *)
| WMarked         (* counted working, about to pull *)
| WRun (w : W)    (* pulled a job, running it *)
| WUnmark         (* about to stop counting itself working *)
| WExit           (* left the loop, about to stop counting itself alive *)
| WLeave          (* stopped counting itself alive, about to unlock [thcount_lock] *)
| WDead.          (* returned *)
Arguments WStart {W}.
Arguments WTop {W}.
Arguments WWait {W}.
Arguments WWoken {W}.
Arguments WClaim {W}.
Arguments WMarked {W}.
Arguments WRun {W} w.
Arguments WUnmark {W}.
Arguments WExit {W}.
Arguments WLeave {W}.
Arguments WDead {W}.

(** Where the controlling thread is.  [MChecked] carries the jobs that had been
    added when it read a zero length, [MReturned] those of the wait that
    returned; both are ghost. *)
Inductive controller (W : Type) :=
| MInit                       (* in [thpool_init], waiting for the workers *)
| MIdle                       (* outside the pool's functions *)
| MLocked                     (* in [thpool_wait], holding [thcount_lock], at the test *)
| MChecked (added : list W)   (* read [len == 0], about to read the working count *)
| MSleep                      (* in [pthread_cond_wait], not signalled *)
| MWoken                      (* woken, about to take the lock again *)
| MReturned (added : list W)  (* [thpool_wait] returned *)
| MDestroy                    (* in [thpool_destroy], waiting for the workers *)
| MFreed.                     (* [thpool_destroy] freed the pool *)
Arguments MInit {W}.
Arguments MIdle {W}.
Arguments MLocked {W}.
Arguments MChecked {W} added.
Arguments MSleep {W}.
Arguments MWoken {W}.
Arguments MReturned {W} added.
Arguments MDestroy {W}.
Arguments MFreed {W}.

Section Pool.
Context {Q W : Type} `{JobQueueSpec Q W}.

(** The shared part of [struct thpool_] and the global [threads_keepalive];
    [leaving] says that a worker holds [thcount_lock] behind its last decrement;
    [added] and [finished] record the jobs pushed and the jobs run. *)
Record shared := mk_shared {
  threads_keepalive : bool;
  num_threads_alive : Z;
  num_threads_working : Z;
  leaving : bool;
  pool_queue : Q;
  main : controller W;
  added : list W;
  finished : list W
}.

Definition set_keepalive b (s : shared) : shared :=
  mk_shared b (num_threads_alive s) (num_threads_working s) (leaving s) (pool_queue s) (main s) (added s) (finished s).
Definition set_alive n (s : shared) : shared :=
  mk_shared (threads_keepalive s) n (num_threads_working s) (leaving s) (pool_queue s) (main s) (added s) (finished s).
Definition set_working n (s : shared) : shared :=
  mk_shared (threads_keepalive s) (num_threads_alive s) n (leaving s) (pool_queue s) (main s) (added s) (finished s).
Definition set_leaving b (s : shared) : shared :=
  mk_shared (threads_keepalive s) (num_threads_alive s) (num_threads_working s) b (pool_queue s) (main s) (added s) (finished s).
Definition set_queue q (s : shared) : shared :=
  mk_shared (threads_keepalive s) (num_threads_alive s) (num_threads_working s) (leaving s) q (main s) (added s) (finished s).
Definition set_main m (s : shared) : shared :=
  mk_shared (threads_keepalive s) (num_threads_alive s) (num_threads_working s) (leaving s) (pool_queue s) m (added s) (finished s).
Definition set_added l (s : shared) : shared :=
  mk_shared (threads_keepalive s) (num_threads_alive s) (num_threads_working s) (leaving s) (pool_queue s) (main s) l (finished s).
Definition set_finished l (s : shared) : shared :=
  mk_shared (threads_keepalive s) (num_threads_alive s) (num_threads_working s) (leaving s) (pool_queue s) (main s) (added s) l.

(** [thcount_lock] is held across steps by [thpool_wait]'s check and by a worker
    that leaves. *)
Definition outside_check (s : shared) : Prop :=
  match main s with
  | MLocked | MChecked _ => False
  | _ => True
  end.

Definition lock_free (s : shared) : Prop := outside_check s ∧ leaving s = false.

(** [pthread_cond_signal(&threads_all_idle)]. *)
Definition signal_idle (s : shared) : shared :=
  match main s with
  | MSleep => set_main MWoken s
  | _ => s
  end.

(** ** Steps of a worker: [thread_do] *)
Inductive worker_step : shared → worker W → shared → worker W → Prop :=
| w_start s : lock_free s →
    worker_step s WStart (set_alive (num_threads_alive s + 1) s) WTop
| w_loop s :
    worker_step s WTop s (if threads_keepalive s then WWait else WExit)
| w_wait s q' : q_wait (pool_queue s) = Done (tt, q') →
    worker_step s WWait (set_queue q' s) WWoken
| w_check s :
    worker_step s WWoken s (if threads_keepalive s then WClaim else WTop)
| w_claim s : lock_free s →
    worker_step s WClaim (set_working (num_threads_working s + 1) s) WMarked
| w_take s r q' : q_take (pool_queue s) = Done (r, q') →
    worker_step s WMarked (set_queue q' s)
      (match r with Some w => WRun w | None => WUnmark end)
| w_run s w :
    worker_step s (WRun w) (set_finished (finished s ++ [w]) s) WUnmark
| w_unmark s : lock_free s →
    let s' := set_working (num_threads_working s - 1) s in
    worker_step s WUnmark (if num_threads_working s' =? 0 then signal_idle s' else s') WTop
| w_exit s : lock_free s →
    worker_step s WExit (set_leaving true (set_alive (num_threads_alive s - 1) s)) WLeave
| w_unlock s :
    worker_step s WLeave (set_leaving false s) WDead.

(** ** Steps of the other threads *)

(** [thpool_add_work], by any thread between [thpool_init] and
    [thpool_destroy], while the int that counts the queued jobs has room. *)
Inductive add_step : shared → shared → Prop :=
| a_add s w q' : main s ≠ MInit → main s ≠ MDestroy → main s ≠ MFreed →
    q_len (pool_queue s) < q_capacity →
    q_add w (pool_queue s) = Done (0, q') →
    add_step s (set_added (added s ++ [w]) (set_queue q' s)).

(** [thpool_init]'s final loop, [thpool_wait] and [thpool_destroy]. *)
Inductive main_step (nthreads : Z) : shared → shared → Prop :=
| m_ready s : main s = MInit → num_threads_alive s = nthreads →
    main_step nthreads s (set_main MIdle s)
| m_lock s : main s = MIdle → leaving s = false → main_step nthreads s (set_main MLocked s)
| m_len_zero s : main s = MLocked → q_len (pool_queue s) = 0 →
    main_step nthreads s (set_main (MChecked (added s)) s)
| m_len_nonzero s : main s = MLocked → q_len (pool_queue s) ≠ 0 →
    main_step nthreads s (set_main MSleep s)
| m_working_zero s l : main s = MChecked l → num_threads_working s = 0 →
    main_step nthreads s (set_main (MReturned l) s)
| m_working_nonzero s l : main s = MChecked l → num_threads_working s ≠ 0 →
    main_step nthreads s (set_main MSleep s)
| m_spurious s : main s = MSleep → main_step nthreads s (set_main MWoken s)
| m_relock s : main s = MWoken → leaving s = false → main_step nthreads s (set_main MLocked s)
| m_return s l : main s = MReturned l → main_step nthreads s (set_main MIdle s)
| m_destroy s : main s = MIdle →
    main_step nthreads s (set_main MDestroy (set_keepalive false s))
| m_post_all s q' : main s = MDestroy → num_threads_alive s ≠ 0 →
    q_post_all (pool_queue s) = Done (tt, q') →
    main_step nthreads s (set_queue q' s)
| m_free s : main s = MDestroy → num_threads_alive s = 0 →
    main_step nthreads s (set_main MFreed s).

Record pool := mk_pool { sh : shared; workers : list (worker W) }.

Inductive pool_step (nthreads : Z) : pool → pool → Prop :=
| p_worker s s' w w' l1 l2 : worker_step s w s' w' →
    pool_step nthreads (mk_pool s (l1 ++ w :: l2)) (mk_pool s' (l1 ++ w' :: l2))
| p_add s s' l : add_step s s' → pool_step nthreads (mk_pool s l) (mk_pool s' l)
| p_main s s' l : main_step nthreads s s' → pool_step nthreads (mk_pool s l) (mk_pool s' l).

(** [thpool_init(num_threads)] after it created the threads; a negative count
    is taken as zero. *)
Definition pool_init (num_threads : Z) (q : Q) : pool :=
  let num_threads := if num_threads <? 0 then 0 else num_threads in
  mk_pool (mk_shared true 0 0 false q MInit [] []) (replicate (Z.to_nat num_threads) WStart).

Definition init_states (num_threads : Z) (p : pool) : Prop :=
  ∃ q, q_rep q [] ∧ p = pool_init num_threads q.

Definition pool_reachable (num_threads : Z) : pool → Prop :=
  reachable (init_states num_threads)
    (pool_step (if num_threads <? 0 then 0 else num_threads)).

(** [thpool_num_threads_working]. *)
Definition thpool_num_threads_working (p : pool) : Z := num_threads_working (sh p).

(** ** The invariant *)

(** The jobs being run. *)
Definition running (ws : list (worker W)) : list W :=
  omap (λ w, match w with WRun x => Some x | _ => None end) ws.

(** Between the two updates of [num_threads_working]. *)
Definition is_working (w : worker W) : Z :=
  match w with WMarked | WRun _ | WUnmark => 1 | _ => 0 end.

(** Between the two updates of [num_threads_alive]. *)
Definition is_alive (w : worker W) : Z :=
  match w with WStart | WLeave | WDead => 0 | _ => 1 end.

(** Behind the last update of [num_threads_alive], holding the lock. *)
Definition is_leaving (w : worker W) : Z := match w with WLeave => 1 | _ => 0 end.

(** Past [bsem_wait] and not yet past the pull: it will look at the queue. *)
Definition will_pull (w : worker W) : Prop :=
  match w with WWoken | WClaim | WMarked => True | _ => False end.

(** Not past the loop of [thread_do]. *)
Definition in_loop (w : worker W) : Prop :=
  match w with WExit | WLeave | WDead => False | _ => True end.

Definition total (f : worker W → Z) (ws : list (worker W)) : Z :=
  foldr (λ w n, f w + n) 0 ws.

Definition main_inv (s : shared) (ws : list (worker W)) (js : list W) : Prop :=
  match main s with
  | MSleep => js ≠ [] ∨ num_threads_working s ≠ 0
  | MChecked l => l ⊆+ finished s ++ running ws
  | MReturned l => l ⊆+ finished s
  | MFreed => num_threads_alive s = 0
  | _ => True
  end.

Record pool_inv (n : Z) (p : pool) (js : list W) : Prop := {
  pi_queue : q_rep (pool_queue (sh p)) js;
  pi_jobs : added (sh p) ≡ₚ finished (sh p) ++ running (workers p) ++ js;
  pi_wakeup : threads_keepalive (sh p) = true → js ≠ [] →
    q_sem (pool_queue (sh p)) = 1 ∨ Exists will_pull (workers p);
  pi_main : main_inv (sh p) (workers p) js;
  pi_working : num_threads_working (sh p) = total is_working (workers p);
  pi_alive : num_threads_alive (sh p) = total is_alive (workers p);
  pi_size : Z.of_nat (length (workers p)) = n;
  pi_started : main (sh p) ≠ MInit → WStart ∉ workers p;
  pi_leaving : total is_leaving (workers p) = if leaving (sh p) then 1 else 0;
  pi_live : threads_keepalive (sh p) = true → Forall in_loop (workers p);
  pi_keepalive : threads_keepalive (sh p) = true ∨ main (sh p) = MDestroy ∨ main (sh p) = MFreed
}.

End Pool.

Section Invariant.
Context {Q W : Type} `{JobQueueSpec Q W}.
Abbreviation shared := (@shared Q W).
Abbreviation pool := (@pool Q W).
Implicit Types (s : shared) (p : pool) (l : list (worker W)).

Lemma total_app (f : worker W → Z) l1 l2 : total f (l1 ++ l2) = total f l1 + total f l2.
Proof. induction l1 as [|w l1 IH]; simpl; [done|]. unfold total in *. simpl. lia. Qed.

Lemma total_nonneg (f : worker W → Z) l : (∀ w, 0 ≤ f w) → 0 ≤ total f l.
Proof. intros Hf. induction l as [|w l IH]; simpl; [done|]. specialize (Hf w). unfold total in *. simpl. lia. Qed.

Lemma total_replace (f : worker W → Z) l1 w w' l2 :
  total f (l1 ++ w' :: l2) = total f (l1 ++ w :: l2) + f w' - f w.
Proof. rewrite !total_app. unfold total. simpl. lia. Qed.

Lemma is_working_range w : 0 ≤ is_working (W := W) w ≤ 1.
Proof. destruct w; simpl; lia. Qed.

Lemma is_alive_range w : 0 ≤ is_alive (W := W) w ≤ 1.
Proof. destruct w; simpl; lia. Qed.

Lemma total_alive_full l : total is_alive l = Z.of_nat (length l) → WStart ∉ l.
Proof.
  assert (Hle : ∀ l, total (W := W) is_alive l ≤ Z.of_nat (length l)).
  { induction l0 as [|w l0 IH]; simpl; [done|]. pose proof (is_alive_range w). unfold total in *. simpl. lia. }
  induction l as [|w l IH]; intros Ht Hin; [by inversion Hin|].
  specialize (Hle l). pose proof (is_alive_range w). unfold total in *. simpl in *.
  apply elem_of_cons in Hin as [<-|Hin]; [simpl in Ht; lia|]. apply IH; [lia|done].
Qed.

Lemma is_leaving_range w : 0 ≤ is_leaving (W := W) w ≤ 1.
Proof. destruct w; simpl; lia. Qed.

Lemma total_alive_zero l : total is_alive l = 0 → WStart ∉ l → Forall (λ w, w = WLeave ∨ w = WDead) l.
Proof.
  induction l as [|w l IH]; intros Ht Hs; constructor.
  - pose proof (total_nonneg is_alive l (λ w, proj1 (is_alive_range w))).
    unfold total in *. simpl in Ht. destruct w; simpl in Ht; try lia; [|by left|by right].
    exfalso. apply Hs. by left.
  - pose proof (is_alive_range w). apply IH; [|set_solver].
    pose proof (total_nonneg is_alive l (λ w, proj1 (is_alive_range w))).
    unfold total in *. simpl in Ht. lia.
Qed.

Lemma working_pos l1 w l2 : is_working w = 1 → total is_working (l1 ++ w :: l2) ≠ 0.
Proof.
  intros Hw. rewrite total_app. unfold total at 2. simpl. rewrite Hw.
  pose proof (total_nonneg is_working l1 (λ w, proj1 (is_working_range w))).
  pose proof (total_nonneg is_working l2 (λ w, proj1 (is_working_range w))). unfold total in *. lia.
Qed.

Lemma running_replace l1 w w' l2 :
  running [w] = running [w'] → running (l1 ++ w' :: l2) = running (l1 ++ w :: l2).
Proof.
  intros He. unfold running. rewrite !omap_app. f_equal.
  change (w' :: l2) with ([w'] ++ l2). change (w :: l2) with ([w] ++ l2).
  rewrite !omap_app. by f_equal.
Qed.

Lemma running_mid l1 w l2 : running (l1 ++ w :: l2) ≡ₚ running [w] ++ running (l1 ++ l2).
Proof.
  unfold running. change (w :: l2) with ([w] ++ l2). rewrite !omap_app.
  by rewrite Permutation_app_swap_app.
Qed.

Lemma running_none l : total is_working l = 0 → running l = [].
Proof.
  induction l as [|w l IH]; intros Ht; [done|].
  pose proof (total_nonneg is_working l (λ w, proj1 (is_working_range w))).
  unfold total in *. simpl in Ht. pose proof (is_working_range w).
  destruct w; simpl in *; try (apply IH; lia); lia.
Qed.

Lemma in_loop_replace l1 w w' l2 : Forall (in_loop (W := W)) (l1 ++ w :: l2) → in_loop w' → Forall in_loop (l1 ++ w' :: l2).
Proof. rewrite !Forall_app, !Forall_cons. tauto. Qed.

Lemma leaving_pos l1 l2 : 0 < total (W := W) is_leaving (l1 ++ WLeave :: l2).
Proof.
  rewrite total_app. unfold total at 2. simpl.
  pose proof (total_nonneg is_leaving l1 (λ w, proj1 (is_leaving_range w))).
  pose proof (total_nonneg is_leaving l2 (λ w, proj1 (is_leaving_range w))). unfold total in *. lia.
Qed.

Lemma not_in_replace l1 w w' l2 (x : worker W) :
  x ∉ l1 ++ w :: l2 → x ≠ w' → x ∉ l1 ++ w' :: l2.
Proof. set_solver. Qed.

Lemma exists_replace (P : worker W → Prop) l1 w w' l2 :
  (P w → P w') → Exists P (l1 ++ w :: l2) → Exists P (l1 ++ w' :: l2).
Proof. rewrite !Exists_app, !Exists_cons. tauto. Qed.

Lemma exists_mid (P : worker W → Prop) l1 w l2 : P w → Exists P (l1 ++ w :: l2).
Proof. rewrite Exists_app, Exists_cons. tauto. Qed.

End Invariant.

(** ** The invariant is preserved *)

Ltac pool_simpl :=
  cbn [sh workers threads_keepalive num_threads_alive num_threads_working pool_queue main added
       finished leaving set_leaving is_leaving in_loop set_queue set_finished set_working set_alive set_main set_added set_keepalive
       is_working is_alive] in *.

Section Preservation.
Context {Q W : Type} `{JobQueueSpec Q W}.
Abbreviation shared := (@shared Q W).
Abbreviation pool := (@pool Q W).
Implicit Types (s : shared) (p : pool).

(** A worker that changes its program counter only. *)
Lemma inv_move n s l1 w w' l2 js :
  running [w] = running [w'] → is_working w = is_working w' → is_alive w = is_alive w' → is_leaving w = is_leaving w' →
  w' ≠ WStart → (will_pull w → threads_keepalive s = true → will_pull w') →
  (threads_keepalive s = true → in_loop w') →
  pool_inv n (mk_pool s (l1 ++ w :: l2)) js → pool_inv n (mk_pool s (l1 ++ w' :: l2)) js.
Proof.
  intros Hr Hw Ha Hlv Hs Hp Hl [Iq Ij Iw Im Iwk Ial Isz Ist Ile Ilv Ik]. pool_simpl. split; pool_simpl.
  - done.
  - by rewrite (running_replace l1 w w' l2 Hr).
  - intros Hk Hjs. destruct (Iw Hk Hjs) as [?|He]; [by left|right].
    eapply exists_replace; [|done]. intros. by apply Hp.
  - unfold main_inv in *. by rewrite (running_replace l1 w w' l2 Hr).
  - rewrite (total_replace _ l1 w w'). lia.
  - rewrite (total_replace _ l1 w w'). lia.
  - by rewrite length_app in *.
  - intros Hm. apply (not_in_replace l1 w); [by apply Ist|congruence].
  - rewrite (total_replace _ l1 w w'). lia.
  - intros Hk. eapply in_loop_replace; [by apply Ilv|by apply Hl].
  - done.
Qed.

(** A worker passing a section of [thcount_lock] that changes the counters. *)
Lemma inv_count n s s' l1 w w' l2 js :
  lock_free s →
  running [w] = running [w'] → w' ≠ WStart →
  (will_pull w → will_pull w') →
  (threads_keepalive s = true → in_loop w') → is_leaving w = is_leaving w' → leaving s' = leaving s →
  pool_queue s' = pool_queue s → added s' = added s → finished s' = finished s →
  threads_keepalive s' = threads_keepalive s →
  num_threads_working s' = num_threads_working s + is_working w' - is_working w →
  num_threads_alive s' = num_threads_alive s + is_alive w' - is_alive w →
  (main s' = main s ∨ (main s = MSleep ∧ main s' = MWoken)) →
  (main s' = MSleep → num_threads_working s' ≠ 0 ∨ is_working w = is_working w') →
  (main s' = MFreed → is_alive w = is_alive w') →
  pool_inv n (mk_pool s (l1 ++ w :: l2)) js → pool_inv n (mk_pool s' (l1 ++ w' :: l2)) js.
Proof.
  intros Hlf Hr Hs Hp Hl Hlv Elv Eq Ea Ef Ek Ew El Em Hsl Hfr [Iq Ij Iw Im Iwk Ial Isz Ist Ile Ilv Ik]. pool_simpl.
  assert (main s' = MInit ↔ main s = MInit) as Hinit by (destruct Em as [->|[-> ->]]; done).
  split; pool_simpl.
  - by rewrite Eq.
  - by rewrite Ea, Ef, (running_replace l1 w w' l2 Hr).
  - rewrite Ek, Eq. intros Hk Hjs. destruct (Iw Hk Hjs) as [?|He]; [by left|right].
    by eapply exists_replace.
  - unfold main_inv in *. rewrite Ef. destruct Em as [Em|[Hm Em]]; rewrite Em; [|done].
    destruct Hlf as [Hlf _]. unfold outside_check in Hlf. destruct (main s) eqn:Hm; try done.
    + destruct (Hsl ltac:(congruence)) as [?|He]; [by right|].
      destruct Im as [?|?]; [by left|right]. rewrite Ew, He. lia.
    + rewrite El, Hfr by congruence. lia.
  - rewrite Ew, Iwk, (total_replace _ l1 w w'). lia.
  - rewrite El, Ial, (total_replace _ l1 w w'). lia.
  - by rewrite length_app in *.
  - intros Hm. apply (not_in_replace l1 w); [apply Ist; intros Hx; by apply Hm, Hinit|congruence].
  - rewrite Elv, (total_replace _ l1 w w'). lia.
  - rewrite Ek. intros Hk. eapply in_loop_replace; [by apply Ilv|by apply Hl].
  - rewrite Ek. destruct Em as [->|[Hm ->]]; [done|]. rewrite Hm in Ik. destruct Ik as [?|[?|?]]; [by left|done|done].
Qed.

Lemma main_signal s : main (signal_idle s) = match main s with MSleep => MWoken | m => m end.
Proof. unfold signal_idle. by destruct (main s) eqn:E. Qed.

Lemma signal_fields s :
  pool_queue (signal_idle s) = pool_queue s ∧ added (signal_idle s) = added s ∧
  finished (signal_idle s) = finished s ∧ threads_keepalive (signal_idle s) = threads_keepalive s ∧
  num_threads_working (signal_idle s) = num_threads_working s ∧
  num_threads_alive (signal_idle s) = num_threads_alive s ∧ leaving (signal_idle s) = leaving s.
Proof. unfold signal_idle. by destruct (main s). Qed.

Lemma inv_unmark n s l1 l2 js :
  lock_free s → pool_inv n (mk_pool s (l1 ++ WUnmark :: l2)) js →
  let s1 := set_working (num_threads_working s - 1) s in
  pool_inv n (mk_pool (if num_threads_working s1 =? 0 then signal_idle s1 else s1) (l1 ++ WTop :: l2)) js.
Proof.
  intros Hlf HI s1. destruct (Z.eqb_spec (num_threads_working s1) 0) as [Hz|Hz].
  - destruct (signal_fields s1) as (F1 & F2 & F3 & F4 & F5 & F6 & F7).
    apply (inv_count n s _ l1 WUnmark WTop); try done; rewrite ?F5, ?F6, ?main_signal.
    + unfold s1. pool_simpl. lia.
    + unfold s1. pool_simpl. lia.
    + unfold s1. pool_simpl. destruct (main s); auto.
    + by destruct (main s1).
  - apply (inv_count n s _ l1 WUnmark WTop); try done; unfold s1 in *; pool_simpl; [lia|lia|by left|by left].
Qed.

Lemma inv_take n s l1 l2 js r q' :
  q_take (pool_queue s) = Done (r, q') →
  pool_inv n (mk_pool s (l1 ++ WMarked :: l2)) js →
  pool_inv n (mk_pool (set_queue q' s)
    (l1 ++ match r with Some w => WRun w | None => WUnmark end :: l2)) (tail js).
Proof.
  intros Ht [Iq Ij Iw Im Iwk Ial Isz Ist Ile Ilv Ik]. pool_simpl.
  pose proof (q_take_spec _ _ Iq) as Hspec. unfold wp in Hspec. rewrite Ht in Hspec.
  destruct Hspec as (-> & Hrep & Hsem).
  set (w' := match head js with Some w => WRun w | None => WUnmark end).
  assert (Hrun : running (l1 ++ WMarked :: l2) ++ js ≡ₚ running (l1 ++ w' :: l2) ++ tail js).
  { rewrite !running_mid. subst w'. destruct js as [|j js]; simpl; [done|]. solve_Permutation. }
  assert (is_working w' = 1 ∧ is_alive w' = 1 ∧ w' ≠ WStart) as (Hw1 & Ha1 & Hs1)
    by (unfold w'; by destruct (head js)).
  split; pool_simpl.
  - done.
  - by rewrite Ij, Hrun.
  - intros _ Hjs. left. rewrite Hsem. by rewrite decide_False.
  - unfold main_inv in *. pool_simpl. destruct (main s) eqn:Hm; try done.
    + etrans; [exact Im|]. apply submseteq_app; [done|]. rewrite !running_mid.
      apply submseteq_app; [apply submseteq_nil_l|done].
    + right. rewrite Iwk. by apply working_pos.
  - rewrite (total_replace _ l1 WMarked w'), Hw1. pool_simpl. lia.
  - rewrite (total_replace _ l1 WMarked w'), Ha1. pool_simpl. lia.
  - by rewrite length_app in *.
  - intros Hm. apply (not_in_replace l1 WMarked); [by apply Ist|congruence].
  - rewrite (total_replace _ l1 WMarked w'). unfold w'. destruct (head js); pool_simpl; lia.
  - intros Hk. eapply in_loop_replace; [by apply Ilv|]. unfold w'. by destruct (head js).
  - done.
Qed.

Lemma inv_run n s l1 l2 w js :
  pool_inv n (mk_pool s (l1 ++ WRun w :: l2)) js →
  pool_inv n (mk_pool (set_finished (finished s ++ [w]) s) (l1 ++ WUnmark :: l2)) js.
Proof.
  intros [Iq Ij Iw Im Iwk Ial Isz Ist Ile Ilv Ik]. pool_simpl.
  assert (Hfin : finished s ++ running (l1 ++ WRun w :: l2) ≡ₚ
                 (finished s ++ [w]) ++ running (l1 ++ WUnmark :: l2)).
  { rewrite !running_mid. simpl. solve_Permutation. }
  split; pool_simpl.
  - done.
  - rewrite Ij, !app_assoc. by rewrite Hfin.
  - intros Hk Hjs. destruct (Iw Hk Hjs) as [?|He]; [by left|right].
    eapply exists_replace; [|done]. done.
  - unfold main_inv in *. pool_simpl. destruct (main s); try done.
    + by rewrite <-Hfin.
    + etrans; [exact Im|]. by apply submseteq_inserts_r.
  - rewrite (total_replace _ l1 (WRun w) WUnmark). pool_simpl. lia.
  - rewrite (total_replace _ l1 (WRun w) WUnmark). pool_simpl. lia.
  - by rewrite length_app in *.
  - intros Hm. apply (not_in_replace l1 (WRun w)); [by apply Ist|congruence].
  - rewrite (total_replace _ l1 (WRun w) WUnmark). pool_simpl. lia.
  - intros Hk. eapply in_loop_replace; [by apply Ilv|done].
  - done.
Qed.

(** A worker's last section of [thcount_lock], in two steps. *)
Lemma inv_exit n s l1 l2 js :
  lock_free s → pool_inv n (mk_pool s (l1 ++ WExit :: l2)) js →
  pool_inv n (mk_pool (set_leaving true (set_alive (num_threads_alive s - 1) s)) (l1 ++ WLeave :: l2)) js.
Proof.
  intros [Hlf Hfr] [Iq Ij Iw Im Iwk Ial Isz Ist Ile Ilv Ik]. pool_simpl. split; pool_simpl.
  - done.
  - by rewrite (running_replace l1 WExit WLeave l2 eq_refl).
  - intros Hk. specialize (Ilv Hk). apply Forall_app in Ilv as [_ [[] _]%Forall_cons].
  - unfold main_inv in *. pool_simpl. unfold outside_check in Hlf. destruct (main s); try done.
    exfalso. rewrite Im, total_app in Ial. unfold total in Ial. simpl in Ial.
    pose proof (total_nonneg is_alive l1 (λ w, proj1 (is_alive_range w))).
    pose proof (total_nonneg is_alive l2 (λ w, proj1 (is_alive_range w))). unfold total in *. lia.
  - rewrite (total_replace _ l1 WExit WLeave). pool_simpl. lia.
  - rewrite (total_replace _ l1 WExit WLeave). pool_simpl. lia.
  - by rewrite length_app in *.
  - intros Hm. apply (not_in_replace l1 WExit); [by apply Ist|done].
  - rewrite (total_replace _ l1 WExit WLeave), Ile, Hfr. done.
  - intros Hk. specialize (Ilv Hk). apply Forall_app in Ilv as [_ [[] _]%Forall_cons].
  - done.
Qed.

Lemma inv_unlock n s l1 l2 js :
  pool_inv n (mk_pool s (l1 ++ WLeave :: l2)) js →
  pool_inv n (mk_pool (set_leaving false s) (l1 ++ WDead :: l2)) js.
Proof.
  intros [Iq Ij Iw Im Iwk Ial Isz Ist Ile Ilv Ik]. pool_simpl. split; pool_simpl.
  - done.
  - by rewrite (running_replace l1 WLeave WDead l2 eq_refl).
  - intros Hk. specialize (Ilv Hk). apply Forall_app in Ilv as [_ [[] _]%Forall_cons].
  - unfold main_inv in *. pool_simpl. by rewrite (running_replace l1 WLeave WDead l2 eq_refl).
  - rewrite (total_replace _ l1 WLeave WDead). pool_simpl. lia.
  - rewrite (total_replace _ l1 WLeave WDead). pool_simpl. lia.
  - by rewrite length_app in *.
  - intros Hm. apply (not_in_replace l1 WLeave); [by apply Ist|done].
  - pose proof (leaving_pos l1 l2). rewrite (total_replace _ l1 WLeave WDead). pool_simpl.
    destruct (leaving s); lia.
  - intros Hk. specialize (Ilv Hk). apply Forall_app in Ilv as [_ [[] _]%Forall_cons].
  - done.
Qed.

Lemma inv_wait n s l1 l2 js q' :
  q_wait (pool_queue s) = Done (tt, q') →
  pool_inv n (mk_pool s (l1 ++ WWait :: l2)) js →
  pool_inv n (mk_pool (set_queue q' s) (l1 ++ WWoken :: l2)) js.
Proof.
  intros Hw HI. apply (inv_move n s l1 WWait WWoken) in HI; [|done..].
  destruct HI as [Iq Ij Iw Im Iwk Ial Isz Ist Ile Ilv Ik]. pool_simpl.
  assert (q_sem (pool_queue s) = 1) as Hsem.
  { destruct (decide (q_sem (pool_queue s) = 1)); [done|].
    rewrite q_wait_blocks in Hw by done. done. }
  pose proof (q_wait_spec _ _ Iq Hsem) as Hspec. unfold wp in Hspec. rewrite Hw in Hspec.
  split; pool_simpl; try done; [apply Hspec|]. intros _ _. right. by apply exists_mid.
Qed.

End Preservation.

Section Reachable.
Context {Q W : Type} `{JobQueueSpec Q W}.
Abbreviation shared := (@shared Q W).
Abbreviation pool := (@pool Q W).
Implicit Types (s : shared) (p : pool).

Lemma inv_worker n s s' l1 w w' l2 js :
  worker_step s w s' w' → pool_inv n (mk_pool s (l1 ++ w :: l2)) js →
  ∃ js', pool_inv n (mk_pool s' (l1 ++ w' :: l2)) js'.
Proof.
  intros Hs HI. destruct Hs as [s Hlf|s|s q' Hw|s|s Hlf|s r q' Ht|s w|s Hlf|s Hlf|s].
  - exists js. apply (inv_count n s _ l1 WStart); pool_simpl; try done; [lia|lia|by left|auto|].
    intros Hm. pose proof (pi_started _ _ _ HI) as Hst. pool_simpl.
    destruct Hst; [by rewrite Hm|]. set_solver.
  - exists js. eapply inv_move; [..|exact HI]; by destruct (threads_keepalive s).
  - exists js. by apply inv_wait.
  - exists js. eapply inv_move; [..|exact HI]; by destruct (threads_keepalive s).
  - exists js. apply (inv_count n s _ l1 WClaim); pool_simpl; try done; [lia|lia|by left|].
    intros _. left. pose proof (pi_working _ _ _ HI) as Hwk. pool_simpl.
    pose proof (total_nonneg is_working (l1 ++ WClaim :: l2) (λ w, proj1 (is_working_range w))). lia.
  - exists (tail js). by apply inv_take.
  - exists js. by apply inv_run.
  - exists js. by apply inv_unmark.
  - exists js. by apply inv_exit.
  - exists js. by apply inv_unlock.
Qed.

Lemma inv_add n s s' l js :
  add_step s s' → pool_inv n (mk_pool s l) js → ∃ js', pool_inv n (mk_pool s' l) js'.
Proof.
  intros [s0 w q' Hm0 Hm1 Hm2 Hcap Ha] [Iq Ij Iw Im Iwk Ial Isz Ist Ile Ilv Ik]. pool_simpl.
  rewrite (q_len_spec _ _ Iq) in Hcap.
  pose proof (q_add_spec _ _ w Iq Hcap) as Hspec. unfold wp in Hspec. rewrite Ha in Hspec.
  destruct Hspec as (_ & Hrep & Hsem).
  exists (js ++ [w]). split; pool_simpl; try done.
  - rewrite Ij. by rewrite !app_assoc.
  - intros _ _. by left.
  - unfold main_inv in *. pool_simpl. destruct (main s0); try done. left. by destruct js.
Qed.

Lemma inv_main n s s' l js :
  main_step n s s' → pool_inv n (mk_pool s l) js → pool_inv n (mk_pool s' l) js.
Proof.
  intros Hs [Iq Ij Iw Im Iwk Ial Isz Ist Ile Ilv Ik]. pool_simpl.
  destruct Hs as [s Hm Hn|s Hm Hf|s Hm Hl|s Hm Hl|s ls Hm Hw|s ls Hm Hw|s Hm|s Hm Hf|s ls Hm|s Hm|s q' Hm Ha Hp|s Hm Ha];
    rewrite ?Hm in *; unfold main_inv in *; rewrite ?Hm in *; pool_simpl.
  all: try (split; pool_simpl; unfold main_inv; pool_simpl; try done; try (intros _; by apply Ist);
            try (destruct Ik as [?|[?|?]]; [by left|done|done])).
  - intros _. apply total_alive_full. by rewrite <-Ial, Hn, Isz.
  - rewrite (q_len_spec _ _ Iq) in Hl. destruct js; [|simpl in Hl; lia].
    rewrite Ij. by rewrite app_nil_r.
  - left. intros ->. by rewrite (q_len_spec _ _ Iq) in Hl.
  - by rewrite running_none, app_nil_r in Im by congruence.
  - by right.
  - by right; left.
  - pose proof (q_post_spec _ _ Iq) as Hspec. unfold wp in Hspec. rewrite Hp in Hspec. apply Hspec.
  - intros _ _. left. pose proof (q_post_spec _ _ Iq) as Hspec. unfold wp in Hspec.
    rewrite Hp in Hspec. apply Hspec.
  - by rewrite Hm.
  - right; by left.
  - by right; right.
Qed.

Lemma inv_init num p : init_states num p →
  pool_inv (if num <? 0 then 0 else num) p [].
Proof.
  intros (q & Hq & ->). unfold pool_init. cbv zeta. set (n := if num <? 0 then 0 else num).
  assert (0 ≤ n) by (unfold n; destruct (Z.ltb_spec num 0); lia).
  assert (Hrep : ∀ k, running (W := W) (replicate k WStart) = []).
  { induction k as [|k IH]; [done|]. exact IH. }
  assert (Htot : ∀ f k, f WStart = 0 → total (W := W) f (replicate k WStart) = 0).
  { intros f k Hf. induction k as [|k IH]; [done|]. unfold total in *. simpl. lia. }
  split; pool_simpl.
  - done.
  - by rewrite Hrep.
  - done.
  - done.
  - by rewrite Htot.
  - by rewrite Htot.
  - rewrite length_replicate. lia.
  - done.
  - by rewrite Htot.
  - intros _. by apply Forall_replicate.
  - by left.
Qed.

Lemma reachable_inv num p :
  pool_reachable num p → ∃ js, pool_inv (if num <? 0 then 0 else num) p js.
Proof.
  apply (reachable_invariant _ _ (λ p, ∃ js, pool_inv (if num <? 0 then 0 else num) p js)).
  - intros p0 Hp. exists []. by apply inv_init.
  - intros p1 p2 [js HI] Hs. destruct Hs as [s s' w w' l1 l2 Hs|s s' l Hs|s s' l Hs].
    + by eapply inv_worker.
    + by eapply inv_add.
    + exists js. by eapply inv_main.
Qed.

(** While the pool is kept alive no worker is behind its last decrement. *)
Lemma alive_unlocked n p js : pool_inv n p js → threads_keepalive (sh p) = true → leaving (sh p) = false.
Proof.
  intros HI Hk. pose proof (pi_live _ _ _ HI Hk) as Hl. pose proof (pi_leaving _ _ _ HI) as Ht.
  destruct (leaving (sh p)); [|done]. exfalso.
  assert (total is_leaving (workers p) = 0); [|lia]. clear Ht.
  induction Hl as [|w l Hw _ IH]; [done|]. unfold total in *. simpl. destruct w; simpl; try lia; done.
Qed.

(** When [thpool_wait] has returned the jobs it saw are finished. *)
Lemma wait_barrier num p l : pool_reachable num p → main (sh p) = MReturned l → l ⊆+ finished (sh p).
Proof.
  intros (js & HI)%reachable_inv Hm. pose proof (pi_main _ _ _ HI) as Hmi.
  unfold main_inv in Hmi. by rewrite Hm in Hmi.
Qed.

(** No job is lost and none is duplicated. *)
Lemma jobs_conserved num p :
  pool_reachable num p →
  ∃ js, q_rep (pool_queue (sh p)) js ∧ added (sh p) ≡ₚ finished (sh p) ++ running (workers p) ++ js.
Proof. intros (js & HI)%reachable_inv. exists js. split; apply HI. Qed.

(** After [thpool_destroy] every worker has returned or is at its last unlock. *)
Lemma freed_dead num p :
  pool_reachable num p → main (sh p) = MFreed → Forall (λ w, w = WLeave ∨ w = WDead) (workers p).
Proof.
  intros (js & HI)%reachable_inv Hm. destruct HI as [_ _ _ Im _ Ial _ Ist _ _ _].
  unfold main_inv in Im. rewrite Hm in Im. rewrite Im in Ial.
  apply total_alive_zero; [done|]. apply Ist. by rewrite Hm.
Qed.

(** One worker at most is at its last unlock. *)
Lemma one_leaving num p : pool_reachable num p → total is_leaving (workers p) ≤ 1.
Proof. intros (js & HI)%reachable_inv. rewrite (pi_leaving _ _ _ HI). by destruct (leaving (sh p)). Qed.

End Reachable.

(** ** Properties *)

Section Properties.
Context {Q W : Type} `{JobQueueSpec Q W}.
Abbreviation shared := (@shared Q W).
Abbreviation pool := (@pool Q W).
Implicit Types (s : shared) (p : pool).

(** C26: No job is lost and none runs twice: in every reachable state the jobs
    added are, as a multiset, those finished, those being run and those the
    queue holds. *)
Theorem jobs_exactly_once num p :
  pool_reachable num p →
  ∃ js, q_rep (pool_queue (sh p)) js ∧
        added (sh p) ≡ₚ finished (sh p) ++ running (workers p) ++ js.
Proof. apply jobs_conserved. Qed.

(** C28: [thpool_wait] is a barrier: when it has returned, every job that had
    been added when it read the empty queue is finished, whatever workers and
    other adders did in between. *)
Theorem wait_returns_after_jobs num p l :
  pool_reachable num p → main (sh p) = MReturned l → l ⊆+ finished (sh p).
Proof. apply wait_barrier. Qed.

Lemma worker_can_step s w :
  lock_free s → w ≠ WDead → (w = WWait → ∃ q', q_wait (pool_queue s) = Done (tt, q')) →
  (w = WMarked → ∃ r q', q_take (pool_queue s) = Done (r, q')) →
  ∃ s' w', worker_step s w s' w'.
Proof.
  intros Hlf Hd Hw Hm. destruct w; try (by (do 2 eexists; constructor)); try done.
  - destruct (Hw eq_refl) as [q' Hq]. do 2 eexists. by constructor.
  - destruct (Hm eq_refl) as (r & q' & Hq). do 2 eexists. by econstructor.
Qed.

(** C29: No wake-up is lost: while the pool is alive and the controller is not
    inside its check, a queued job never waits for a thread that cannot move
    (some worker can take a step); and a controller asleep in [thpool_wait]
    sleeps only while a job is queued or counted as being worked on, so that a
    signal is still to come. *)
Theorem no_lost_wakeup num p js :
  pool_reachable num p → q_rep (pool_queue (sh p)) js → (0 < num) →
  (threads_keepalive (sh p) = true → outside_check (sh p) → q_len (pool_queue (sh p)) ≠ 0 →
   ∃ l1 w l2 s' w', workers p = l1 ++ w :: l2 ∧ worker_step (sh p) w s' w') ∧
  (main (sh p) = MSleep → q_len (pool_queue (sh p)) ≠ 0 ∨ num_threads_working (sh p) ≠ 0).
Proof.
  intros (js' & HI)%reachable_inv _ Hn. rewrite (proj2 (Z.ltb_ge num 0)) in HI by lia.
  pose proof HI as [Iq Ij Iw Im Iwk Ial Isz Ist Ile Ilv Ik]. rewrite (q_len_spec _ _ Iq). split.
  - intros Hk Hoc Hl. assert (js' ≠ []) as Hjs by (by intros ->).
    assert (lock_free (sh p)) as Hlf by (split; [done|]; by eapply alive_unlocked).
    assert (Htake : ∃ r q', q_take (pool_queue (sh p)) = Done (r, q')).
    { destruct (wp_run _ _ _ (q_take_spec _ _ Iq)) as (r & q' & Hrun & _). eauto. }
    destruct (Iw Hk Hjs) as [Hsem|He].
    + destruct (workers p) as [|w l] eqn:Hws; [simpl in Isz; lia|].
      destruct (worker_can_step (sh p) w Hlf) as (s' & w' & Hst).
      * intros ->. specialize (Ilv Hk). by apply Forall_cons in Ilv as [[] _].
      * intros _. destruct (wp_run _ _ _ (q_wait_spec _ _ Iq Hsem)) as ([] & q' & Hrun & _). eauto.
      * done.
      * exists [], w, l, s', w'. done.
    + apply Exists_exists in He as (w & Hin & Hw).
      apply list_elem_of_split in Hin as (l1 & l2 & ->).
      destruct (worker_can_step (sh p) w Hlf) as (s' & w' & Hst); try done; [by intros ->|by intros ->|].
      exists l1, w, l2, s', w'. done.
  - intros Hm. unfold main_inv in Im. rewrite Hm in Im.
    destruct Im as [Hjs|?]; [left|by right]. destruct js'; [done|]. simpl. lia.
Qed.

Lemma total_le (f g : worker W → Z) l : (∀ w, f w ≤ g w) → total f l ≤ total g l.
Proof. intros Hle. induction l as [|w l IH]; simpl; [done|]. specialize (Hle w). unfold total in *. simpl. lia. Qed.

(** The two counters are exact and ordered: 0 <= working <= alive <= the
    number of threads, working is the number of threads between their two
    updates of it and so is alive; [thpool_num_threads_working] reports it. *)
Theorem counters_exact num p :
  pool_reachable num p →
  num_threads_working (sh p) = total is_working (workers p) ∧
  num_threads_alive (sh p) = total is_alive (workers p) ∧
  0 ≤ thpool_num_threads_working p ≤ num_threads_alive (sh p) ∧
  num_threads_alive (sh p) ≤ Z.of_nat (length (workers p)).
Proof.
  intros (js & HI)%reachable_inv. destruct HI as [_ _ _ _ Iwk Ial _ _ _ _ _].
  unfold thpool_num_threads_working. rewrite Iwk, Ial. split; [done|]. split; [done|].
  split; [split|].
  - apply total_nonneg. intros w. apply is_working_range.
  - apply total_le. by intros [].
  - clear. induction (workers p) as [|w l IH]; [done|]. pose proof (is_alive_range w).
    unfold total in *. simpl. lia.
Qed.

(** C31: [thpool_destroy] frees the pool when no thread counts itself alive:
    every worker has then returned from [thread_do] or is at its very last
    action, the unlock of [thcount_lock], at most one of them, and that unlock
    is the only step a worker can still take.  The counter is read without the
    lock, so that last unlock can come after the free: the witness reaches it. *)
Theorem destroy_races_last_unlock num p :
  pool_reachable num p → main (sh p) = MFreed →
  Forall (λ w, w = WLeave ∨ w = WDead) (workers p) ∧ total is_leaving (workers p) ≤ 1 ∧
  (∀ s' w w', w ∈ workers p → worker_step (sh p) w s' w' →
     w = WLeave ∧ w' = WDead ∧ s' = set_leaving false (sh p)).
Proof.
  intros Hr Hm. pose proof (freed_dead num p Hr Hm) as Hdead.
  split; [done|]. split; [by eapply one_leaving|]. intros s' w w' Hin Hst.
  destruct (proj1 (Forall_forall _ _) Hdead w Hin) as [->| ->]; by inversion Hst.
Qed.

End Properties.

(** ** A concrete run: one worker, one job, [thpool_wait], [thpool_destroy] *)

Ltac worker_moves :=
  eapply star_step; [eapply (p_worker _ _ _ _ _ [] []); econstructor; first [split; [exact I|reflexivity]|vm_compute; reflexivity]|];
  cbn.
Ltac main_moves := eapply star_step; [eapply p_main|].

Definition demo_pool : pool (Q := jobqueue) (W := Z * Z) := pool_init 1 empty_queue.

Lemma demo_init : init_states 1 demo_pool.
Proof. exists empty_queue. split; [exists []; exact empty_queue_rep|reflexivity]. Qed.

Lemma demo_run :
  ∃ p, pool_reachable 1 p ∧ main (sh p) = MReturned [(7, 70)] ∧ q_rep (pool_queue (sh p)) [].
Proof.
  eexists. split; [|split].
  - exists demo_pool. split; [exact demo_init|]. unfold demo_pool, pool_init. cbn.
    worker_moves. main_moves; [apply m_ready; reflexivity|].
    eapply star_step; [apply p_add; apply (a_add _ (7, 70)); [discriminate..|vm_compute; reflexivity|vm_compute; reflexivity]|].
    do 8 worker_moves.
    main_moves; [by apply m_lock|].
    main_moves; [apply m_len_zero; reflexivity|].
    main_moves; [eapply m_working_zero; reflexivity|]. apply star_refl.
  - reflexivity.
  - exists []. split; cbn; try done; [apply NoDup_nil_2|]. intros l Hl. by inversion Hl.
Qed.

Lemma demo_run_race :
  ∃ p, pool_reachable 1 p ∧ main (sh p) = MFreed (W := Z * Z) ∧ workers p = [WLeave].
Proof.
  eexists. split; [|split].
  - exists demo_pool. split; [exact demo_init|]. unfold demo_pool, pool_init. cbn.
    worker_moves. main_moves; [apply m_ready; reflexivity|].
    worker_moves. main_moves; [apply m_destroy; reflexivity|].
    main_moves; [eapply m_post_all; [reflexivity|discriminate|vm_compute; reflexivity]|].
    do 4 worker_moves.
    main_moves; [apply m_free; reflexivity|]. apply star_refl.
  - reflexivity.
  - reflexivity.
Qed.

Lemma jobs_exactly_once_witness :
  ∃ p js, q_rep (pool_queue (sh p)) js ∧ added (sh p) ≡ₚ finished (sh p) ++ running (workers p) ++ js
          ∧ main (sh p) = MReturned [(7, 70)].
Proof.
  destruct demo_run as (p & Hr & Hm & _). destruct (jobs_exactly_once 1 p Hr) as (js & Hq & Hp).
  exists p, js. split; [exact Hq|]. split; [exact Hp|exact Hm].
Defined.

Lemma wait_returns_after_jobs_witness :
  ∃ p : pool (Q := jobqueue), pool_reachable 1 p ∧ [(7, 70)] ⊆+ finished (sh p).
Proof.
  destruct demo_run as (p & Hr & Hm & _). exists p. split; [exact Hr|].
  exact (wait_returns_after_jobs 1 p _ Hr Hm).
Defined.

Lemma no_lost_wakeup_witness :
  ∃ p : pool (Q := jobqueue), pool_reachable 1 p ∧
    (main (sh p) = MSleep → q_len (pool_queue (sh p)) ≠ 0 ∨ num_threads_working (sh p) ≠ 0).
Proof.
  destruct demo_run as (p & Hr & _ & Hq). exists p. split; [exact Hr|].
  exact (proj2 (no_lost_wakeup 1 p [] Hr Hq ltac:(lia))).
Defined.

Lemma counters_exact_witness :
  ∃ p : pool (Q := jobqueue), pool_reachable 1 p ∧ num_threads_alive (sh p) = total is_alive (workers p).
Proof.
  destruct demo_run as (p & Hr & _ & _). exists p. split; [exact Hr|].
  exact (proj1 (proj2 (counters_exact 1 p Hr))).
Defined.

(** The pool is freed while the worker still has its unlock to do. *)
Lemma destroy_races_last_unlock_witness :
  ∃ p : pool (Q := jobqueue), pool_reachable 1 p ∧ main (sh p) = MFreed ∧ workers p = [WLeave] ∧
    (∀ s' w', worker_step (sh p) WLeave s' w' → w' = WDead) ∧
    worker_step (sh p) WLeave (set_leaving false (sh p)) WDead.
Proof.
  destruct demo_run_race as (p & Hr & Hm & Hw). exists p. split; [exact Hr|]. split; [exact Hm|].
  split; [exact Hw|]. split; [|constructor].
  intros s' w' Hs. refine (proj1 (proj2 (proj2 (proj2 (destroy_races_last_unlock 1 p Hr Hm)) s' WLeave w' _ Hs))).
  rewrite Hw. by left.
Defined.
