(* ===== verification/Socket.v ===== *)
(** * Socket: connected stream sockets and the wire formats

    The socket calls the network code makes, on one connected TCP socket, and
    the layouts of [src/lib/include/bbio/bbio_backend_net.h] with the padding
    the compiler inserts.  A socket holds the bytes the peer ever sends, cut
    into segments that one call does not read across (so a call may return
    fewer bytes than it asked for; every run of a real connection is the run of
    some segmentation), what a call returns once they are exhausted, and the
    bytes sent so far.

    SIGPIPE is not modelled: a send on a broken connection returns -1.  The code
    sends without MSG_NOSIGNAL and installs no handler, so this is the first error
    after a reset (ECONNRESET, no signal), or a process in which SIGPIPE is
    ignored; with the default action a later send on the connection ends the
    process. *)
From Stdlib Require Import ZArith Lia.
From stdpp Require Import base list numbers option.
From S2P Require Import Prelude.

(** ** Sockets *)

Record socket := mk_socket {
  rx : list (list Z);        (* segments the peer sends, not yet received *)
  rx_end : Z;                (* receive's answer after the last byte: 0 or -1 *)
  tx : list Z;               (* bytes sent *)
  sends_left : option nat    (* sends before the connection breaks, if it does *)
}.

Definition set_rx (segs : list (list Z)) (s : socket) : socket :=
  mk_socket segs (rx_end s) (tx s) (sends_left s).
Definition set_tx (bs : list Z) (n : option nat) (s : socket) : socket :=
  mk_socket (rx s) (rx_end s) bs n.

(** What a receive of up to [len] bytes delivers, and the segments it leaves. *)
Fixpoint next_piece (len : nat) (segs : list (list Z)) : option (list Z * list (list Z)) :=
  match segs with
  | [] => None
  | [] :: segs' => next_piece len segs'
  | seg :: segs' =>
      Some (take len seg, if (length seg <=? len)%nat then segs' else drop len seg :: segs')
  end.

(** [recv(fd, buf, len, 0)] and [read]: the return value and the bytes stored. *)
Definition recv (len : nat) : M socket (Z * list Z) := λ s,
  if (len =? 0)%nat then Done ((0, []), s)
  else match next_piece len (rx s) with
       | None => Done ((rx_end s, []), s)
       | Some (bs, segs) => Done ((Z.of_nat (length bs), bs), set_rx segs s)
       end.

(** [recv] with [MSG_PEEK] leaves the bytes in the socket. *)
Definition recv_peek (len : nat) : M socket (Z * list Z) := λ s,
  match recv len s with
  | Done (r, _) => Done (r, s)
  | Fault f => Fault f
  end.

(** [send(fd, buf, len, flags)] on a blocking socket. *)
Definition send (bs : list Z) : M socket Z := λ s,
  match sends_left s with
  | Some O => Done (-1, s)
  | Some (S n) => Done (Z.of_nat (length bs), set_tx (tx s ++ bs) (Some n) s)
  | None => Done (Z.of_nat (length bs), set_tx (tx s ++ bs) None s)
  end.

(** [writev(fd, iov, n)]: one call for the concatenation. *)
Definition writev (iov : list (list Z)) : M socket Z := send (concat iov).

(** What an automatic variable of [n] bytes holds before it is written. *)
Class Stack := {
  garbage : nat → list Z;
  garbage_length : ∀ n, length (garbage n) = n;
  garbage_bytes : ∀ n, Forall is_byte (garbage n)
}.

#[export] Instance zero_stack : Stack.
Proof.
  refine {| garbage := λ n, replicate n 0 |}.
  - intros n. apply length_replicate.
  - intros n. apply Forall_replicate. unfold is_byte. lia.
Defined.

(** [recv(fd, &x, sizeof x, 0)] where [x] holds [old]: a short or failed receive
    leaves the rest of [x] as it was. *)
Definition recv_into (old : list Z) : M socket (Z * list Z) :=
  '(r, bs) ← recv (length old);
  mret (r, bs ++ drop (length bs) old).

(** ** bbio_backend_net.h *)

Definition HANDSHAKE_HEADER : Z := 0x114514.

(** [enum cmd_channel_type]. *)
Definition MAPPED_CHANNEL : Z := 0.
Definition STREAM_CHANNEL : Z := 1.

(** [enum cmd_call_type]. *)
Inductive cmd_call_type :=
| CALL_OPEN
| CALL_CLOSE
| CALL_WRITE
| CALL_READ
| CALL_WRITE_BURST
| CALL_READ_BURST
| CALL_WRITE_STREAM
| CALL_READ_STREAM
| CALL_SYNC_STREAM.

Definition call_code (c : cmd_call_type) : Z :=
  match c with
  | CALL_OPEN => 0
  | CALL_CLOSE => 1
  | CALL_WRITE => 2
  | CALL_READ => 3
  | CALL_WRITE_BURST => 4
  | CALL_READ_BURST => 5
  | CALL_WRITE_STREAM => 6
  | CALL_READ_STREAM => 7
  | CALL_SYNC_STREAM => 8
  end.

Definition FRAME_OP_OPEN : Z := 0.
Definition FRAME_OP_CLOS : Z := 1.
Definition FRAME_OP_WRIT : Z := 2.
Definition FRAME_OP_READ : Z := 3.
Definition FRAME_DEV_CTX : Z := Z.shiftl 0 4.
Definition FRAME_DEV_MAPPED : Z := Z.shiftl 1 4.
Definition FRAME_DEV_STREAM : Z := Z.shiftl 2 4.

Record handshake_msg := mk_handshake { hs_head : Z; hs_type : Z }.
Record frame_top := mk_frame_top { hs : Z; op : Z }.
Record frame_ctx_top := mk_frame_ctx { prefix : frame_top; ctx_id : Z }.

(** The [FRAME...] initialisers. *)
Definition FRAME (op : Z) : frame_top := mk_frame_top HANDSHAKE_HEADER op.
Definition FRAME_OPEN_CTX : frame_top := FRAME (Z.lor FRAME_OP_OPEN FRAME_DEV_CTX).
Definition FRAME_CLOSE_CTX : frame_top := FRAME (Z.lor FRAME_OP_CLOS FRAME_DEV_CTX).
Definition FRAME_WITH_CTX (f : frame_top) (id : Z) : frame_ctx_top := mk_frame_ctx f id.

(** ** Memory images: little endian, three bytes of padding after the byte
    field of the eight-byte headers. *)

Definition sizeof_frame_top : nat := 8.
Definition sizeof_frame_ctx_top : nat := 12.

Definition frame_top_bytes (pad : list Z) (f : frame_top) : list Z :=
  le_bytes 4 (hs f) ++ [op f] ++ take 3 pad.
Definition frame_ctx_bytes (pad : list Z) (f : frame_ctx_top) : list Z :=
  frame_top_bytes pad (prefix f) ++ le_bytes 4 (ctx_id f).
Definition handshake_bytes (pad : list Z) (h : handshake_msg) : list Z :=
  le_bytes 4 (hs_head h) ++ [hs_type h] ++ take 3 pad.

Definition frame_top_of (bs : list Z) : frame_top :=
  mk_frame_top (le_val (take 4 bs)) (nth 4 bs 0).
Definition frame_ctx_of (bs : list Z) : frame_ctx_top :=
  mk_frame_ctx (frame_top_of (take 8 bs)) (le_val (take 4 (drop 8 bs))).

(** A field of an enumeration or machine type holds values of its width. *)
Definition frame_top_ok (f : frame_top) : Prop := 0 ≤ hs f < 2 ^ 32 ∧ 0 ≤ op f < 256.
Definition frame_ctx_ok (f : frame_ctx_top) : Prop :=
  frame_top_ok (prefix f) ∧ 0 ≤ ctx_id f < 2 ^ 32.

(** ** Lemmas *)

(** Segments carry at least one byte each. *)
Abbreviation solid := (Forall (λ seg : list Z, seg ≠ [])).

Lemma solid_nil segs : solid segs → concat segs = [] → segs = [].
Proof. intros [|seg segs' Hs _]; [done|]. simpl. intros [? _]%app_eq_nil. done. Qed.

Lemma next_piece_solid len segs tail :
  (0 < len)%nat → solid segs → segs ≠ [] →
  ∃ n segs', (0 < n)%nat ∧ (n ≤ len)%nat ∧ (n ≤ length (concat segs))%nat ∧ solid segs' ∧
    concat segs' = drop n (concat segs) ∧
    next_piece len (segs ++ tail) = Some (take n (concat segs), segs' ++ tail).
Proof.
  intros Hl Hs Hne. destruct Hs as [|seg segs Hseg Hs]; [done|].
  assert (0 < length seg)%nat by (destruct seg; simpl; [done|lia]).
  exists (Nat.min len (length seg)).
  assert (next_piece len ((seg :: segs) ++ tail) =
    Some (take len seg, if (length seg <=? len)%nat then segs ++ tail else drop len seg :: segs ++ tail))
    as -> by (by destruct seg).
  simpl. rewrite length_app, take_app_le by lia. rewrite drop_app_le by lia.
  destruct (Nat.leb_spec (length seg) len).
  - exists segs. rewrite Nat.min_r by lia. rewrite take_ge, (take_ge seg (length seg)), drop_ge by lia.
    repeat split; try done; lia.
  - exists (drop len seg :: segs). rewrite Nat.min_l by lia. repeat split; try done; try lia.
    constructor; [|done]. intros Hd. apply (f_equal length) in Hd. rewrite length_drop in Hd. simpl in Hd. lia.
Qed.

(** A receive of a positive length while segments are left. *)
Lemma recv_some len segs tail s :
  (0 < len)%nat → solid segs → segs ≠ [] → rx s = segs ++ tail →
  ∃ n segs', (0 < n)%nat ∧ (n ≤ len)%nat ∧ (n ≤ length (concat segs))%nat ∧ solid segs' ∧
    concat segs' = drop n (concat segs) ∧
    recv len s = Done ((Z.of_nat n, take n (concat segs)), set_rx (segs' ++ tail) s).
Proof.
  intros Hl Hs Hne Hr.
  destruct (next_piece_solid len segs tail Hl Hs Hne) as (n & segs' & ? & ? & Hle & ? & ? & Hp).
  exists n, segs'. repeat (split; [done|]). unfold recv.
  destruct (Nat.eqb_spec len 0); [lia|]. rewrite Hr, Hp.
  by rewrite length_take, Nat.min_l by lia.
Qed.

Lemma recv_end len s : (0 < len)%nat → rx s = [] → recv len s = Done ((rx_end s, []), s).
Proof. intros Hl Hr. unfold recv. destruct (Nat.eqb_spec len 0); [lia|]. by rewrite Hr. Qed.

(** The segments left once the first [n] bytes of a segment were received. *)
Definition rest_of (bs : list Z) (segs : list (list Z)) : list (list Z) :=
  match bs with [] => segs | _ => bs :: segs end.

(** Bytes that arrive in one segment are received in one call. *)
Lemma recv_whole bs more segs s :
  rx s = (bs ++ more) :: segs → (0 < length bs)%nat →
  recv (length bs) s = Done ((Z.of_nat (length bs), bs), set_rx (rest_of more segs) s).
Proof.
  intros Hr Hl. unfold recv. destruct (Nat.eqb_spec (length bs) 0); [lia|]. rewrite Hr.
  assert (next_piece (length bs) ((bs ++ more) :: segs) = Some (bs, rest_of more segs)) as ->.
  { destruct (bs ++ more) eqn:Eb; [by destruct bs|]. cbn [next_piece].
    rewrite <-Eb, length_app.
    rewrite take_app_length, drop_app_length. f_equal. f_equal.
    destruct more; simpl; [rewrite Nat.add_0_r, Nat.leb_refl; done|].
    by rewrite leb_correct_conv by lia. }
  done.
Qed.

Lemma recv_into_whole old bs more segs s :
  rx s = (bs ++ more) :: segs → length old = length bs → (0 < length bs)%nat →
  recv_into old s = Done ((Z.of_nat (length bs), bs), set_rx (rest_of more segs) s).
Proof.
  intros Hr Hl Hp. unfold recv_into. rewrite Hl.
  eapply bind_done; [by apply recv_whole|]. simpl.
  rewrite drop_ge by lia. by rewrite app_nil_r.
Qed.

Lemma recv_into_end old s :
  rx s = [] → (0 < length old)%nat → recv_into old s = Done ((rx_end s, old), s).
Proof.
  intros Hr Hp. unfold recv_into. eapply bind_done; [by apply recv_end|]. done.
Qed.

Lemma send_ok bs s :
  sends_left s = None → send bs s = Done (Z.of_nat (length bs), set_tx (tx s ++ bs) None s).
Proof. unfold send. by intros ->. Qed.

Lemma frame_top_roundtrip pad f :
  frame_top_ok f → length pad = 3%nat →
  length (frame_top_bytes pad f) = sizeof_frame_top ∧ frame_top_of (frame_top_bytes pad f) = f.
Proof.
  intros [Hh Ho] Hp. unfold frame_top_bytes, frame_top_of. split.
  - rewrite !length_app, length_le_bytes, length_take, Hp. done.
  - rewrite take_app_length' by (by rewrite length_le_bytes).
    rewrite le_val_bytes by exact Hh. destruct f as [h o]. simpl. done.
Qed.

Lemma frame_ctx_roundtrip pad f :
  frame_ctx_ok f → length pad = 3%nat →
  length (frame_ctx_bytes pad f) = sizeof_frame_ctx_top ∧ frame_ctx_of (frame_ctx_bytes pad f) = f.
Proof.
  intros [Hf Hi] Hp. destruct (frame_top_roundtrip pad (prefix f) Hf Hp) as [Hl Ht].
  unfold frame_ctx_bytes, frame_ctx_of. split.
  - by rewrite length_app, Hl, length_le_bytes.
  - rewrite take_app_length' by (by rewrite Hl). rewrite drop_app_length' by (by rewrite Hl).
    rewrite Ht, take_ge by (rewrite length_le_bytes; lia).
    rewrite le_val_bytes by exact Hi. by destruct f.
Qed.

#[export] Hint Rewrite send_ok using assumption : wp.

(** ** Segmentations that split no field

    [carries segs fs]: the segments hold the non-empty fields [fs] one after the
    other and no field is spread over two segments. *)
Inductive carries : list (list Z) → list (list Z) → Prop :=
| carries_nil : carries [] []
| carries_whole f segs fs : f ≠ [] → carries segs fs → carries (f :: segs) (f :: fs)
| carries_merge f seg segs fs :
    f ≠ [] → carries (seg :: segs) fs → carries ((f ++ seg) :: segs) (f :: fs).

Lemma carries_concat segs fs : carries segs fs → concat segs = concat fs.
Proof.
  induction 1 as [|f segs fs _ _ IH|f seg segs fs _ _ IH]; simpl in *; [done| |].
  - by rewrite IH.
  - by rewrite <-app_assoc, IH.
Qed.

Lemma carries_refl fs : Forall (λ f : list Z, f ≠ []) fs → carries fs fs.
Proof. induction 1; by constructor. Qed.

Lemma carries_head seg segs fs : carries (seg :: segs) fs → seg ≠ [].
Proof. inversion 1; subst; [done|]. by intros [? _]%app_eq_nil. Qed.

Lemma carries_cons_inv segs f fs :
  carries segs (f :: fs) →
  f ≠ [] ∧ ∃ more segs0, segs = (f ++ more) :: segs0 ∧ carries (rest_of more segs0) fs.
Proof.
  inversion 1 as [|? segs0 ? Hf Hc|? seg segs0 ? Hf Hc]; subst; (split; [done|]).
  - exists [], segs0. by rewrite app_nil_r.
  - exists seg, segs0. split; [done|]. apply carries_head in Hc as Hs. by destruct seg.
Qed.

(** An unsplit field is received by one call. *)
Lemma recv_field old f fs segs s :
  carries segs (f :: fs) → rx s = segs → length old = length f →
  ∃ segs', carries segs' fs ∧
    recv_into old s = Done ((Z.of_nat (length f), f), set_rx segs' s).
Proof.
  intros (Hf & more & segs0 & -> & Hc)%carries_cons_inv Hrx Hl.
  exists (rest_of more segs0). split; [done|]. eapply recv_into_whole; [done|done|].
  destruct f; simpl; [done|lia].
Qed.
