(* ===== verification/NetClient.v ===== *)
(** * NetClient: the network backend of the client library

    [src/lib/bbio/src/bbio_backend_net.c]: register access and streaming over
    a connected socket, and the opening and closing of remote devices.  The
    macros [io_net_call_...] are the functions of the same names. *)
From Stdlib Require Import ZArith Lia.
From stdpp Require Import base list numbers option gmap.
From S2P Require Import Prelude Socket.

(** ** Mapped devices *)

Section Mapped.
Context `{Stack}.

Definition io_net_call_start (type : cmd_call_type) : M socket unit :=
  send [u8 (call_code type)] ;; mret tt.

Definition io_net_call_param (value : list Z) : M socket unit :=
  send value ;; mret tt.

Definition io_net_call_return_value (old : list Z) : M socket (list Z) :=
  '(_, ret) ← recv_into old;
  mret ret.

(** [io_net_call_create], which nothing calls, shifts the call's number as the
    headers of the read stream do. *)
Definition io_net_call_create (type : cmd_call_type) : M socket Z :=
  send [u8 (Z.lor (Z.shiftl (call_code type) 1) 0)].

Definition io_write_net (addr value : Z) : M socket unit :=
  io_net_call_start CALL_WRITE ;;
  io_net_call_param (le_bytes 4 addr) ;;
  io_net_call_param (le_bytes 4 value).

Definition io_read_net (addr : Z) : M socket Z :=
  io_net_call_start CALL_READ ;;
  io_net_call_param (le_bytes 4 addr) ;;
  value ← io_net_call_return_value (garbage 4);
  mret (le_val value).

End Mapped.

(** ** Stream devices *)

(** A stream device of the network backend: its socket ([fd]), the fields of
    [struct net_device_state], and the memory the caller's [data] points to. *)
Record net_stream := mk_net_stream {
  ns_fd : socket;
  handshaked : Z;
  remain_recv_size : Z;
  data : list Z
}.

Definition set_ns_fd (s : socket) (d : net_stream) : net_stream :=
  mk_net_stream s (handshaked d) (remain_recv_size d) (data d).
Definition set_handshaked (h : Z) (d : net_stream) : net_stream :=
  mk_net_stream (ns_fd d) h (remain_recv_size d) (data d).
Definition set_remain (n : Z) (d : net_stream) : net_stream :=
  mk_net_stream (ns_fd d) (handshaked d) n (data d).
Definition set_data (l : list Z) (d : net_stream) : net_stream :=
  mk_net_stream (ns_fd d) (handshaked d) (remain_recv_size d) l.

Definition on_fd {A} (m : M socket A) : M net_stream A := zoom ns_fd set_ns_fd m.

(** Storing received bytes at an offset of the caller's memory. *)
Definition store_data (off : Z) (bs : list Z) : M net_stream unit := λ d,
  if (0 <=? off) && (off + Z.of_nat (length bs) <=? Z.of_nat (length (data d)))
  then Done (tt, set_data (overwrite (Z.to_nat off) bs (data d)) d)
  else Fault OutOfBounds.

Section Stream.
Context `{Stack}.

Definition io_write_stream_net (src : list Z) (size : Z) : M net_stream Z :=
  d ← get;
  when (handshaked d =? 0)
    (on_fd (io_net_call_start CALL_WRITE_STREAM) ;; modify (set_handshaked 1)) ;;
  if Z.of_nat (length src) <? size then raise OutOfBounds
  else
    on_fd (writev [[u8 (call_code CALL_WRITE_STREAM)]; le_bytes 4 size;
                   take (Z.to_nat size) src]) ;;
    mret size.

(** The first use of a stream for reading. *)
Definition start_reading : M net_stream unit :=
  d ← get;
  when (handshaked d =? 0)
    (on_fd (io_net_call_start CALL_READ_STREAM) ;;
     modify (set_handshaked 1) ;;
     modify (set_remain 0)).

Definition READ_HEADER : Z := Z.shiftl (call_code CALL_READ_STREAM) 1.

(** [while (remain_size > 0) { n = recv(...); remain_size -= n; data += n; }]:
    [n] is unsigned, so a failed receive adds one to [remain_size]. *)
Definition basic_body (v : Z * Z) : M net_stream ((Z * Z) + unit) :=
  let '(remain_size, off) := v in
  if 0 <? remain_size then
    '(r, bs) ← on_fd (recv (Z.to_nat remain_size));
    store_data off bs ;;
    let n := u32 r in
    mret (inl (s32 (remain_size - n), off + n))
  else mret (inr tt).

Definition io_read_stream_net_basic (fuel : nat) (size : Z) : M net_stream Z :=
  start_reading ;;
  '(_, start_cmd) ← on_fd (recv_into [u8 (-1)]);
  recv_size ←
    (if nth 0 start_cmd 0 =? READ_HEADER then
       '(_, v) ← on_fd (recv_into (le_bytes 4 0));
       mret (le_val v)
     else mret 0);
  iterate fuel basic_body (s32 recv_size, 0) ;;
  mret recv_size.

(** [while (size > 0) { n = recv(...); if (n <= 0) break; ... }]: [n] is unsigned,
    so only an orderly end of the stream leaves the loop early. *)
Definition net_body (v : Z * Z) : M net_stream ((Z * Z) + Z) :=
  let '(size, buffer_ptr) := v in
  if 0 <? size then
    '(r, bs) ← on_fd (recv (Z.to_nat size));
    store_data buffer_ptr bs ;;
    let n := u32 r in
    if n <=? 0 then mret (inr size)
    else
      modify (λ d, set_remain (u32 (remain_recv_size d - n)) d) ;;
      mret (inl (u32 (size - n), u32 (buffer_ptr + n)))
  else mret (inr size).

Definition io_read_stream_net (fuel : nat) (size : Z) : M net_stream Z :=
  start_reading ;;
  d ← get;
  when (remain_recv_size d =? 0)
    ('(_, start_cmd) ← on_fd (recv_into [u8 (-1)]);
     when (nth 0 start_cmd 0 =? READ_HEADER)
       ('(_, v) ← on_fd (recv_into (le_bytes 4 0));
        let recv_size := le_val v in
        if size <? recv_size then modify (set_remain recv_size)
        else modify (set_remain size))) ;;
  d ← get;
  let size := if remain_recv_size d <? size then remain_recv_size d else size in
  iterate fuel net_body (size, 0).

Definition io_sync_stream_deivce_net : M net_stream unit :=
  d ← get;
  when (negb (remain_recv_size d =? 0)) (modify (set_handshaked 0)).

End Stream.

(** ** Opening and closing remote devices

    The process as the opening functions see it: the connected sockets by
    descriptor, the outcome of the connects to come ([None] is a refusal), the
    descriptors [setsockopt] was called on, and the number of live heap
    blocks. *)
Record net_world := mk_net_world {
  no_sockets : bool;                (* socket() fails *)
  peers : list (option socket);
  socks : gmap Z socket;
  next_fd : Z;
  sockopts : list Z;
  blocks : Z
}.

Definition set_peers (l : list (option socket)) (w : net_world) : net_world :=
  mk_net_world (no_sockets w) l (socks w) (next_fd w) (sockopts w) (blocks w).
Definition set_socks (m : gmap Z socket) (w : net_world) : net_world :=
  mk_net_world (no_sockets w) (peers w) m (next_fd w) (sockopts w) (blocks w).
Definition set_next_fd (n : Z) (w : net_world) : net_world :=
  mk_net_world (no_sockets w) (peers w) (socks w) n (sockopts w) (blocks w).
Definition set_sockopts (l : list Z) (w : net_world) : net_world :=
  mk_net_world (no_sockets w) (peers w) (socks w) (next_fd w) l (blocks w).
Definition set_blocks (n : Z) (w : net_world) : net_world :=
  mk_net_world (no_sockets w) (peers w) (socks w) (next_fd w) (sockopts w) n.

Definition unconnected : socket := mk_socket [] (-1) [] (Some O).

Definition sys_socket : M net_world Z := λ w,
  if no_sockets w then Done (-1, w)
  else Done (next_fd w, set_next_fd (next_fd w + 1) (set_socks (<[next_fd w := unconnected]> (socks w)) w)).

Definition sys_connect (fd : Z) : M net_world Z := λ w,
  match peers w with
  | Some s :: l => Done (0, set_peers l (set_socks (<[fd := s]> (socks w)) w))
  | None :: l => Done (-1, set_peers l w)
  | [] => Done (-1, w)
  end.

Definition sys_close (fd : Z) : M net_world unit := modify (λ w, set_socks (delete fd (socks w)) w).
Definition setsockopt (fd : Z) : M net_world unit := modify (λ w, set_sockopts (sockopts w ++ [fd]) w).
Definition malloc : M net_world unit := modify (λ w, set_blocks (blocks w + 1) w).
Definition free : M net_world unit := modify (λ w, set_blocks (blocks w - 1) w).

(** A call on the connection behind a descriptor. *)
Definition on_sock {A} (fd : Z) (m : M socket A) : M net_world A := λ w,
  match socks w !! fd with
  | None => Fault UseAfterFree
  | Some s => match m s with
              | Done (a, s') => Done (a, set_socks (<[fd := s']> (socks w)) w)
              | Fault f => Fault f
              end
  end.

(** [io_mapped_device] and [io_stream_device] as this backend fills them. *)
Record net_device := mk_net_device { nd_fd : Z; nd_path : list Z }.

Section Open.
Context `{Stack}.

Definition io_handshake (sockfd type : Z) : M net_world Z :=
  on_sock sockfd (send (handshake_bytes (garbage 3) (mk_handshake HANDSHAKE_HEADER (u8 type)))) ;;
  '(n, ack) ← on_sock sockfd (recv_into (le_bytes 4 0));
  if (n <=? 0) || negb (le_val ack =? HANDSHAKE_HEADER) then mret (-1) else mret 0.

Definition io_open_remote_device (sockfd : Z) (dev_path : list Z) (size : Z) : M net_world Z :=
  on_sock sockfd (send (le_bytes 4 (u32 (Z.of_nat (length dev_path))))) ;;
  on_sock sockfd (send dev_path) ;;
  on_sock sockfd (send (le_bytes 8 size)) ;;
  '(n, v) ← on_sock sockfd (recv_into (garbage 4));
  let fd := s32 (le_val v) in
  if (n <=? 0) || (fd <=? 0) then mret (-1) else mret fd.

Definition io_open_mapped_net (file_path : list Z) (size : Z) : M net_world (option net_device) :=
  sockfd ← sys_socket;
  if sockfd <? 0 then mret None else
  ret ← sys_connect sockfd;
  if ret <? 0 then mret None else
  hs ← io_handshake sockfd MAPPED_CHANNEL;
  if negb (hs =? 0) then mret None else
  remotefd ← io_open_remote_device sockfd file_path size;
  if remotefd <? 1 then mret None else
  setsockopt remotefd ;;
  setsockopt remotefd ;;
  malloc ;;
  mret (Some (mk_net_device sockfd file_path)).

Definition io_close_mapped_net (device : option net_device) : M net_world Z :=
  match device with
  | None => mret 0
  | Some d => sys_close (nd_fd d) ;; free ;; mret 0
  end.

(** The stream device also carries a [net_device_state] and its buffer. *)
Definition io_open_stream_net (file_path : list Z) : M net_world (option net_device) :=
  sockfd ← sys_socket;
  if sockfd <? 0 then mret None else
  ret ← sys_connect sockfd;
  if ret <? 0 then mret None else
  hs ← io_handshake sockfd STREAM_CHANNEL;
  if negb (hs =? 0) then mret None else
  remotefd ← io_open_remote_device sockfd file_path 0;
  setsockopt remotefd ;;
  if remotefd <? 1 then mret None else
  malloc ;; malloc ;; malloc ;;
  mret (Some (mk_net_device sockfd file_path)).

Definition io_close_stream_net (device : option net_device) : M net_world Z :=
  match device with
  | None => mret 0
  | Some d => sys_close (nd_fd d) ;; free ;; free ;; free ;; mret 0
  end.

(** What [io_open_stream_net] puts behind [ch.private]. *)
Definition fresh_net_stream (s : socket) (mem : list Z) : net_stream := mk_net_stream s 0 0 mem.

(** [io_create_net_context]: the fields of the context it assigns are the
    device table and four of the backend's functions; [post_context_close] and
    [sockfd] are left as [malloc] returned them, which the model writes as
    [None]. *)
Record io_net_context := mk_net_context {
  nc_devices : list (option Z);
  nc_post_context_close : option Z;
  nc_sockfd : option Z
}.

Definition io_create_net_context (resolves : bool) : M net_world (option io_net_context) :=
  malloc ;;
  if negb resolves then mret None else
  sockfd ← sys_socket;
  if sockfd <? 0 then mret None else
  ret ← sys_connect sockfd;
  if ret <? 0 then mret None else
  ret ← on_sock sockfd (send (frame_top_bytes (garbage 3) FRAME_OPEN_CTX));
  if ret <? 0 then mret None else
  '(ret, _) ← on_sock sockfd (recv_into (garbage sizeof_frame_ctx_top));
  if ret <? 0 then mret None else
  malloc ;;
  mret (Some (mk_net_context [None] None None)).

End Open.

(** ** Lemmas *)

Section Lemmas.
Context `{Stack}.
Implicit Types (d : net_stream).

Lemma on_fd_run {A} (m : M socket A) d a s :
  m (ns_fd d) = Done (a, s) → on_fd m d = Done (a, set_ns_fd s d).
Proof. apply zoom_done. Qed.

Lemma store_data_run off bs d :
  (off + length bs ≤ length (data d))%nat →
  store_data (Z.of_nat off) bs d = Done (tt, set_data (overwrite off bs (data d)) d).
Proof.
  intros Hl. unfold store_data. rewrite (proj2 (Z.leb_le _ _)) by lia.
  rewrite (proj2 (Z.leb_le _ _)) by lia. by rewrite Nat2Z.id.
Qed.

(** The stream after [p] was received into the caller's memory at [off]. *)
Definition received (off : nat) (p : list Z) (segs : list (list Z)) d : net_stream :=
  set_data (overwrite off p (data d)) (set_ns_fd (set_rx segs (ns_fd d)) d).

(** One receive of a loop over a stream that still holds segments. *)
Lemma recv_step (want off : nat) segs tail d :
  rx (ns_fd d) = segs ++ tail → solid segs → segs ≠ [] → (0 < want)%nat →
  (off + want ≤ length (data d))%nat →
  ∃ n segs', (0 < n)%nat ∧ (n ≤ want)%nat ∧ (n ≤ length (concat segs))%nat ∧ solid segs' ∧
    concat segs' = drop n (concat segs) ∧
    on_fd (recv want) d =
      Done ((Z.of_nat n, take n (concat segs)), set_ns_fd (set_rx (segs' ++ tail) (ns_fd d)) d) ∧
    store_data (Z.of_nat off) (take n (concat segs)) (set_ns_fd (set_rx (segs' ++ tail) (ns_fd d)) d) =
      Done (tt, received off (take n (concat segs)) (segs' ++ tail) d).
Proof.
  intros Hrx Hs Hne Hw Hl.
  destruct (recv_some want segs tail (ns_fd d) Hw Hs Hne Hrx) as (n & segs' & ? & ? & ? & ? & ? & Hr).
  exists n, segs'. repeat (split; [done|]). split; [by apply on_fd_run|].
  rewrite store_data_run; [done|]. rewrite length_take. simpl. lia.
Qed.

Lemma received_twice off a b segs1 segs2 d :
  (off + length a + length b ≤ length (data d))%nat →
  received (off + length a) b segs2 (received off a segs1 d) = received off (a ++ b) segs2 d.
Proof. intros Hl. unfold received. simpl. by rewrite overwrite_extend. Qed.

Lemma received_nil off d : received off [] (rx (ns_fd d)) d = d.
Proof. unfold received. rewrite overwrite_nil. by destruct d as [[] ? ? ?]. Qed.

(** One round of the loop of [io_read_stream_net_basic]. *)
Lemma basic_round (remain off : nat) segs tail d :
  rx (ns_fd d) = segs ++ tail → solid segs → segs ≠ [] → (0 < remain)%nat →
  (off + remain ≤ length (data d))%nat → Z.of_nat remain < 2 ^ 31 →
  ∃ n segs', (0 < n)%nat ∧ (n ≤ remain)%nat ∧ (n ≤ length (concat segs))%nat ∧ solid segs' ∧
    concat segs' = drop n (concat segs) ∧
    basic_body (Z.of_nat remain, Z.of_nat off) d =
      Done (inl (Z.of_nat (remain - n), Z.of_nat (off + n)),
            received off (take n (concat segs)) (segs' ++ tail) d).
Proof.
  intros Hrx Hs Hne Hr Hl Hb. change (2 ^ 31) with 2147483648 in Hb.
  destruct (recv_step remain off segs tail d Hrx Hs Hne Hr Hl)
    as (n & segs' & ? & ? & ? & ? & ? & Hrecv & Hst).
  exists n, segs'. repeat (split; [done|]).
  unfold basic_body. rewrite (proj2 (Z.ltb_lt _ _)) by lia. rewrite Nat2Z.id.
  eapply bind_done; [exact Hrecv|]. eapply bind_done; [exact Hst|].
  rewrite (uwrap_small 32), (swrap_small 32) by lia.
  by rewrite Nat2Z.inj_sub, Nat2Z.inj_add by lia.
Qed.

Lemma basic_loop fuel segs tail off d :
  (length (concat segs) < fuel)%nat → rx (ns_fd d) = segs ++ tail → solid segs →
  (off + length (concat segs) ≤ length (data d))%nat → Z.of_nat (length (concat segs)) < 2 ^ 31 →
  iterate fuel basic_body (Z.of_nat (length (concat segs)), Z.of_nat off) d =
    Done (tt, received off (concat segs) tail d).
Proof.
  revert segs off d. induction fuel as [|fuel IH]; intros segs off d Hf Hrx Hs Hl Hb; [lia|].
  rewrite iterate_unfold. destruct (decide (segs = [])) as [->|Hne].
  - simpl in Hrx |- *. rewrite <-Hrx, received_nil. done.
  - assert (0 < length (concat segs))%nat.
    { destruct (concat segs) eqn:Ec; [by apply solid_nil in Ec|simpl; lia]. }
    destruct (basic_round (length (concat segs)) off segs tail d)
      as (n & segs' & ? & ? & ? & ? & Hc & Hrun); try done.
    eapply bind_done; [exact Hrun|]. cbv beta iota.
    assert (length (concat segs) - n = length (concat segs'))%nat as -> by (rewrite Hc, length_drop; lia).
    assert (length (take n (concat segs)) = n) as Hn by (rewrite length_take; lia).
    assert (length (concat segs') = length (concat segs) - n)%nat by (by rewrite Hc, length_drop).
    rewrite IH; [|lia|done|done|simpl; rewrite length_overwrite; lia|lia].
    rewrite <-Hn at 1. rewrite received_twice by lia. by rewrite Hc, take_drop.
Qed.

(** A stream that ends inside a packet: [remain_size] stays positive and the
    receive answers 0 for ever. *)
Lemma basic_loop_ended fuel segs remain off d :
  rx (ns_fd d) = segs → solid segs → rx_end (ns_fd d) = 0 →
  (length (concat segs) < remain)%nat → Z.of_nat remain < 2 ^ 31 →
  (off + remain ≤ length (data d))%nat →
  iterate fuel basic_body (Z.of_nat remain, Z.of_nat off) d = Fault OutOfFuel.
Proof.
  revert segs remain off d. induction fuel as [|fuel IH]; intros segs remain off d Hrx Hs He Hl Hb Hd; [done|].
  rewrite iterate_unfold. destruct (decide (segs = [])) as [->|Hne].
  - assert (basic_body (Z.of_nat remain, Z.of_nat off) d = Done (inl (Z.of_nat remain, Z.of_nat off), d)) as Hrun.
    { change (2 ^ 31) with 2147483648 in Hb. simpl in Hl.
      unfold basic_body. rewrite (proj2 (Z.ltb_lt _ _)) by lia. rewrite Nat2Z.id.
      eapply bind_done; [apply on_fd_run, recv_end; [lia|done]|].
      eapply bind_done; [apply store_data_run; simpl; lia|].
      rewrite He. change (u32 0) with 0. rewrite (swrap_small 32) by lia.
      simpl. rewrite overwrite_nil, Z.sub_0_r, Z.add_0_r. by destruct d as [[] ? ? ?]. }
    eapply bind_done; [exact Hrun|]. by apply (IH []).
  - destruct (basic_round remain off segs [] d)
      as (n & segs' & ? & ? & ? & ? & Hc & Hrun); try done; [by rewrite app_nil_r|lia|].
    assert (length (concat segs') = length (concat segs) - n)%nat by (by rewrite Hc, length_drop).
    eapply bind_done; [exact Hrun|]. apply (IH segs'); simpl; rewrite ?app_nil_r; try done; try lia.
    rewrite length_overwrite; rewrite ?length_take; lia.
Qed.

End Lemmas.

(** ** Lemmas: descriptors *)

Section OpenLemmas.
Context `{Stack}.
Implicit Types (w : net_world) (s : socket).

Lemma on_sock_run {A} fd (m : M socket A) w s a s' :
  socks w !! fd = Some s → m s = Done (a, s') →
  on_sock fd m w = Done (a, set_socks (<[fd := s']> (socks w)) w).
Proof. unfold on_sock. by intros -> ->. Qed.

Definition open_at (fd : Z) w : Prop := is_Some (socks w !! fd).

Lemma open_insert fd fd' s w : open_at fd w → open_at fd (set_socks (<[fd' := s]> (socks w)) w).
Proof. intros Ho. unfold open_at. simpl. apply lookup_insert_is_Some'. by right. Qed.

Lemma on_sock_open {A} fd fd' (m : M socket A) : preserves (open_at fd) (on_sock fd' m).
Proof.
  intros w a w' Ho Hr. unfold on_sock in Hr. destruct (socks w !! fd'); [|done].
  destruct (m s) as [[a' s']|]; [|done]. injection Hr as _ <-. by apply open_insert.
Qed.

Lemma connect_open fd fd' : preserves (open_at fd) (sys_connect fd').
Proof.
  intros w a w' Ho Hr. unfold sys_connect in Hr.
  destruct (peers w) as [|[s|] l]; injection Hr as _ <-; try done. by apply (open_insert fd fd' s w).
Qed.

Lemma setsockopt_open fd fd' : preserves (open_at fd) (setsockopt fd').
Proof. by apply preserves_modify. Qed.

Lemma malloc_open fd : preserves (open_at fd) malloc.
Proof. by apply preserves_modify. Qed.

#[local] Hint Resolve on_sock_open connect_open setsockopt_open malloc_open : preserves.

Lemma handshake_open fd sockfd type : preserves (open_at fd) (io_handshake sockfd type).
Proof. unfold io_handshake. auto 10 with preserves. Qed.

Lemma remote_open fd sockfd path size :
  preserves (open_at fd) (io_open_remote_device sockfd path size).
Proof. unfold io_open_remote_device. auto 12 with preserves. Qed.

#[local] Hint Resolve handshake_open remote_open : preserves.

(** Whatever follows a successful [socket()] leaves the new descriptor open when
    it only connects, talks, sets options and allocates. *)
Lemma socket_then_open {A} (k : Z → M net_world A) w a w' :
  no_sockets w = false → 0 ≤ next_fd w →
  (∀ fd, preserves (open_at (next_fd w)) (k fd)) →
  (sockfd ← sys_socket; k sockfd) w = Done (a, w') → open_at (next_fd w) w'.
Proof.
  intros Hn Hp Hk (fd & w1 & Hr & Hr')%bind_inv. unfold sys_socket in Hr. rewrite Hn in Hr.
  injection Hr as <- <-. eapply Hk; [|exact Hr']. unfold open_at. simpl. by rewrite lookup_insert_eq.
Qed.

(** The connection after both replies arrived. *)
Definition opened (s : socket) (sent : list Z) (segs : list (list Z)) : socket :=
  mk_socket segs (rx_end s) (tx s ++ sent) None.

Lemma handshake_run sockfd type w s segs :
  socks w !! sockfd = Some s → sends_left s = None → rx s = le_bytes 4 HANDSHAKE_HEADER :: segs →
  io_handshake sockfd type w =
    Done (0, set_socks (<[sockfd := opened s (handshake_bytes (garbage 3)
                (mk_handshake HANDSHAKE_HEADER (u8 type))) segs]> (socks w)) w).
Proof.
  intros Hs Hn Hrx. unfold io_handshake.
  eapply bind_done; [eapply on_sock_run; [done|by apply send_ok]|].
  eapply bind_done.
  { eapply on_sock_run; [apply lookup_insert_eq|].
    eapply (recv_into_whole _ (le_bytes 4 HANDSHAKE_HEADER) []); simpl; [by rewrite Hrx|done|lia]. }
  unfold mret, M_ret. do 2 f_equal. unfold set_socks, opened. simpl. by rewrite insert_insert_eq.
Qed.

Definition request_bytes (path : list Z) (size : Z) : list Z :=
  le_bytes 4 (u32 (Z.of_nat (length path))) ++ path ++ le_bytes 8 size.

Lemma remote_run sockfd path size w s fd segs :
  socks w !! sockfd = Some s → sends_left s = None → rx s = le_bytes 4 fd :: segs →
  0 < fd < 2 ^ 31 →
  io_open_remote_device sockfd path size w =
    Done (fd, set_socks (<[sockfd := opened s (request_bytes path size) segs]> (socks w)) w).
Proof.
  intros Hs Hn Hrx Hfd. change (2 ^ 31) with 2147483648 in Hfd. unfold io_open_remote_device.
  eapply bind_done; [eapply on_sock_run; [done|by apply send_ok]|].
  eapply bind_done; [eapply on_sock_run; [apply lookup_insert_eq|by apply send_ok]|].
  eapply bind_done; [eapply on_sock_run; [apply lookup_insert_eq|by apply send_ok]|].
  eapply bind_done.
  { eapply on_sock_run; [apply lookup_insert_eq|].
    eapply (recv_into_whole _ (le_bytes 4 fd) []);
      [simpl; by rewrite Hrx|by rewrite garbage_length, length_le_bytes
      |rewrite length_le_bytes; lia]. }
  cbv beta iota. rewrite le_val_bytes by (simpl; lia). rewrite (swrap_small 32) by lia.
  rewrite length_le_bytes. rewrite (proj2 (Z.leb_gt fd 0)) by lia.
  unfold mret, M_ret. cbn. do 2 f_equal. unfold set_socks, opened, request_bytes. cbn.
  rewrite !insert_insert_eq. by rewrite <-!app_assoc.
Qed.

End OpenLemmas.

(** ** Lemmas: the packet header *)

Section Headers.
Context `{Stack}.
Implicit Types (d : net_stream).

Definition packet_header (n : Z) : list Z := [READ_HEADER] ++ le_bytes 4 n.

(** The stream once reading has started. *)
Definition started d : net_stream :=
  if handshaked d =? 0
  then mk_net_stream (set_tx (tx (ns_fd d) ++ [7]) None (ns_fd d)) 1 0 (data d)
  else d.

Lemma start_reading_run d :
  sends_left (ns_fd d) = None → start_reading d = Done (tt, started d).
Proof.
  intros Hn. unfold start_reading, started. unfold get at 1. cbv [mbind M_bind]. cbv beta iota.
  destruct (handshaked d =? 0); [|done]. simpl.
  unfold on_fd, zoom, io_net_call_start. cbv [mbind M_bind]. rewrite send_ok by done. done.
Qed.

Lemma started_rx d : rx (ns_fd (started d)) = rx (ns_fd d) ∧ rx_end (ns_fd (started d)) = rx_end (ns_fd d)
  ∧ data (started d) = data d.
Proof. unfold started. by destruct (handshaked d =? 0). Qed.

Lemma started_handshaked d : handshaked (started d) ≠ 0.
Proof. unfold started. destruct (Z.eqb_spec (handshaked d) 0); done. Qed.

(** Receiving the start byte and the length of a packet. *)
Lemma net_header_run n more segs d :
  0 ≤ n < 2 ^ 32 → rx (ns_fd d) = (packet_header n ++ more) :: segs →
  ∃ d1,
    on_fd (recv_into [u8 (-1)]) d = Done ((1, [READ_HEADER]), d1) ∧
    on_fd (recv_into (le_bytes 4 0)) d1 =
      Done ((4, le_bytes 4 n), set_ns_fd (set_rx (rest_of more segs) (ns_fd d)) d).
Proof.
  intros Hn Hrx. eexists. split.
  - apply on_fd_run. apply (recv_into_whole _ [READ_HEADER] (le_bytes 4 n ++ more) segs); [|done|simpl; lia].
    by rewrite Hrx.
  - unfold on_fd, zoom. cbn [ns_fd set_ns_fd].
    rewrite (recv_into_whole _ (le_bytes 4 n) more segs); [done|done|by rewrite !length_le_bytes|].
    rewrite length_le_bytes. lia.
Qed.

Lemma rest_of_solid more segs : solid segs → solid (rest_of more segs).
Proof. destruct more; [done|]. simpl. by constructor. Qed.

Lemma rest_of_app more segs tail : rest_of more (segs ++ tail) = rest_of more segs ++ tail.
Proof. by destruct more. Qed.

Lemma concat_rest_of more segs : concat (rest_of more segs) = more ++ concat segs.
Proof. by destruct more. Qed.

(** The part of [io_read_stream_net_basic] up to its loop. *)
Lemma basic_prefix fuel size n more segs d :
  0 ≤ n < 2 ^ 32 → sends_left (ns_fd d) = None →
  rx (ns_fd d) = (packet_header n ++ more) :: segs →
  io_read_stream_net_basic fuel size d =
    (iterate fuel basic_body (s32 n, 0) ;; mret n)
      (set_ns_fd (set_rx (rest_of more segs) (ns_fd (started d))) (started d)).
Proof.
  intros Hn Hs Hrx. destruct (started_rx d) as (Hr1 & _ & _).
  destruct (net_header_run n more segs (started d)) as (d1 & H1 & H2); [done|by rewrite Hr1|].
  unfold io_read_stream_net_basic.
  eapply bind_done; [by apply start_reading_run|].
  eapply bind_done; [exact H1|]. cbv beta iota. cbn [nth].
  rewrite Z.eqb_refl. eapply bind_done.
  { eapply bind_done; [exact H2|]. cbv beta iota. rewrite le_val_bytes by (simpl; lia). done. }
  done.
Qed.

(** A whole blocked read. *)
Lemma basic_read_run fuel size more segs tail d :
  let p := more ++ concat segs in
  sends_left (ns_fd d) = None → solid segs → Z.of_nat (length p) < 2 ^ 31 →
  rx (ns_fd d) = (packet_header (Z.of_nat (length p)) ++ more) :: segs ++ tail →
  (length p ≤ length (data d))%nat → (length p < fuel)%nat →
  io_read_stream_net_basic fuel size d = Done (Z.of_nat (length p), received 0 p tail (started d)).
Proof.
  intros p Hs Hsol Hb Hrx Hl Hf. change (2 ^ 31) with 2147483648 in Hb.
  destruct (started_rx d) as (_ & _ & Hd).
  rewrite (basic_prefix fuel size (Z.of_nat (length p)) more (segs ++ tail) d) by (done || lia).
  rewrite (swrap_small 32) by lia. rewrite rest_of_app.
  assert (p = concat (rest_of more segs)) as Hp by (by rewrite concat_rest_of).
  eapply bind_done.
  { rewrite Hp. apply (basic_loop fuel (rest_of more segs) tail 0); rewrite <-?Hp; simpl; try done.
    - by apply rest_of_solid.
    - by rewrite Hd. }
  rewrite <-Hp. by destruct (started d) as [[] ? ? ?].
Qed.

(** A stream write of data that is there. *)
Lemma stream_write_run src size d :
  sends_left (ns_fd d) = None → size ≤ Z.of_nat (length src) →
  io_write_stream_net src size d = Done (size, mk_net_stream
      (set_tx (tx (ns_fd d) ++ (if handshaked d =? 0 then [6] else []) ++
               [6] ++ le_bytes 4 size ++ take (Z.to_nat size) src) None (ns_fd d))
      (if handshaked d =? 0 then 1 else handshaked d) (remain_recv_size d) (data d)).
Proof.
  intros Hs Hz. unfold io_write_stream_net. eapply bind_done; [done|].
  set (d1 := mk_net_stream (set_tx (tx (ns_fd d) ++ (if handshaked d =? 0 then [6] else [])) None (ns_fd d))
               (if handshaked d =? 0 then 1 else handshaked d) (remain_recv_size d) (data d)).
  eapply (bind_done _ _ _ tt d1).
  { unfold d1. destruct (handshaked d =? 0); simpl.
    - eapply bind_done.
      { apply on_fd_run. unfold io_net_call_start. eapply bind_done; [by apply send_ok|reflexivity]. }
      reflexivity.
    - rewrite app_nil_r. destruct d as [[] ? ? ?]. simpl in *. by rewrite Hs. }
  rewrite (proj2 (Z.ltb_ge _ _)) by lia.
  eapply bind_done; [apply on_fd_run; by apply send_ok|].
  unfold d1. simpl. rewrite app_nil_r. by rewrite <-app_assoc.
Qed.

(** The loop of [io_read_stream_net]: it takes [m] bytes of the stream whatever
    their segments. *)
Lemma net_loop fuel m segs off d :
  (m < fuel)%nat → rx (ns_fd d) = segs → solid segs → (m ≤ length (concat segs))%nat →
  (off + m ≤ length (data d))%nat → Z.of_nat (off + m) < 2 ^ 32 →
  0 ≤ remain_recv_size d - Z.of_nat m → remain_recv_size d < 2 ^ 32 →
  ∃ segs', concat segs' = drop m (concat segs) ∧ solid segs' ∧
    iterate fuel net_body (Z.of_nat m, Z.of_nat off) d =
      Done (0, set_remain (remain_recv_size d - Z.of_nat m)
                 (received off (take m (concat segs)) segs' d)).
Proof.
  revert m segs off d. induction fuel as [|fuel IH]; intros m segs off d Hf Hrx Hs Hm Hl Hb Hr Hr2; [lia|].
  rewrite iterate_unfold. destruct m as [|m].
  - exists segs. split; [done|]. split; [done|]. rewrite take_0. rewrite <-Hrx at 1.
    rewrite received_nil, Z.sub_0_r. by destruct d.
  - set (k := S m) in *. assert (segs ≠ []) as Hne by (intros ->; simpl in Hm; lia).
    destruct (recv_step k off segs [] d) as (n & segs' & ? & ? & ? & ? & Hc & Hrecv & Hst);
      [by rewrite app_nil_r|done|done|lia|done|]. rewrite app_nil_r in *.
    set (d1 := received off (take n (concat segs)) segs' d) in *.
    assert (length (take n (concat segs)) = n) as Hn by (rewrite length_take; lia).
    assert (length (concat segs') = length (concat segs) - n)%nat by (by rewrite Hc, length_drop).
    destruct (IH (k - n)%nat segs' (off + n)%nat (set_remain (remain_recv_size d - Z.of_nat n) d1))
      as (segs2 & Hc2 & Hs2 & Hrun); try done; try lia.
    { simpl. rewrite length_overwrite; rewrite ?Hn; lia. }
    { simpl. lia. }
    { simpl. lia. }
    exists segs2. split; [rewrite Hc2, Hc, drop_drop; f_equal; lia|]. split; [done|].
    eapply bind_done.
    { unfold net_body. rewrite (proj2 (Z.ltb_lt _ _)) by lia. rewrite Nat2Z.id.
      eapply bind_done; [exact Hrecv|]. eapply bind_done; [exact Hst|]. fold d1.
      rewrite (uwrap_small 32 (Z.of_nat n)) by lia. rewrite (proj2 (Z.leb_gt _ _)) by lia.
      eapply bind_done; [done|]. done. }
    change (remain_recv_size d1) with (remain_recv_size d).
    cbv beta iota. rewrite !(uwrap_small 32) by lia.
    rewrite <-Nat2Z.inj_sub, <-Nat2Z.inj_add by lia. rewrite Hrun. do 2 f_equal.
    unfold received, d1. simpl. unfold set_remain, set_data. simpl.
    rewrite <-Hn at 3. rewrite overwrite_extend by (rewrite ?length_take; lia).
    f_equal; [lia|]. f_equal. rewrite Hc.
    rewrite take_take_drop. f_equal. lia.
Qed.

End Headers.

(** ** Properties *)

Section Properties.
Context `{Stack}.
Implicit Types (d : net_stream) (w : net_world).

(** A blocked stream read of a packet whose header arrived whole returns the
    length the header announces, stores exactly the packet's bytes at the start
    of the caller's memory however the payload was cut into segments, leaves the
    rest of that memory and of the stream alone, and asks the server to start
    once. *)
Theorem read_stream_basic_packet d fuel size more segs tail :
  let p := more ++ concat segs in
  sends_left (ns_fd d) = None → solid segs → Z.of_nat (length p) < 2 ^ 31 →
  rx (ns_fd d) = (packet_header (Z.of_nat (length p)) ++ more) :: segs ++ tail →
  (length p ≤ length (data d))%nat → (length p < fuel)%nat →
  ∃ d', io_read_stream_net_basic fuel size d = Done (Z.of_nat (length p), d') ∧
    take (length p) (data d') = p ∧ drop (length p) (data d') = drop (length p) (data d) ∧
    rx (ns_fd d') = tail ∧ handshaked d' ≠ 0 ∧
    tx (ns_fd d') = tx (ns_fd d) ++ (if handshaked d =? 0 then [7] else []).
Proof.
  intros p Hs Hsol Hb Hrx Hl Hf. destruct (started_rx d) as (_ & _ & Hd).
  exists (received 0 p tail (started d)). split; [by apply basic_read_run|].
  simpl. rewrite Hd. split; [apply take_overwrite|]. split.
  { unfold overwrite. simpl. by rewrite drop_app_length. }
  split; [done|]. split; [apply started_handshaked|].
  unfold started. destruct (handshaked d =? 0); simpl; by rewrite ?app_nil_r.
Qed.

(** The blocked stream read never looks at the size of the caller's memory: a
    packet that is longer than it overruns the memory. *)
Theorem read_stream_basic_overruns d fuel size p tail :
  sends_left (ns_fd d) = None → Z.of_nat (length p) < 2 ^ 31 →
  rx (ns_fd d) = (packet_header (Z.of_nat (length p)) ++ p) :: tail →
  (length (data d) < length p)%nat → (0 < fuel)%nat →
  io_read_stream_net_basic fuel size d = Fault OutOfBounds.
Proof.
  intros Hs Hb Hrx Hl Hf. change (2 ^ 31) with 2147483648 in Hb.
  destruct (started_rx d) as (_ & _ & Hd).
  rewrite (basic_prefix fuel size (Z.of_nat (length p)) p tail d) by (done || lia).
  rewrite (swrap_small 32) by lia. destruct fuel as [|fuel]; [lia|].
  apply bind_fault. rewrite iterate_unfold. apply bind_fault.
  unfold basic_body. rewrite (proj2 (Z.ltb_lt _ _)) by lia. rewrite Nat2Z.id.
  eapply bind_done.
  { apply on_fd_run. apply (recv_whole p [] tail); [|lia].
    simpl. rewrite app_nil_r. destruct p; [simpl in *; lia|done]. }
  apply bind_fault. unfold store_data. simpl. rewrite Hd.
  by rewrite (proj2 (Z.leb_gt _ _)) by lia.
Qed.

(** When the server closes the connection inside a packet the blocked read
    does not return, whatever the number of rounds. *)
Theorem read_stream_basic_hangs d fuel size n more segs :
  sends_left (ns_fd d) = None → rx_end (ns_fd d) = 0 → solid segs →
  rx (ns_fd d) = (packet_header n ++ more) :: segs →
  Z.of_nat (length (more ++ concat segs)) < n < 2 ^ 31 → n ≤ Z.of_nat (length (data d)) →
  io_read_stream_net_basic fuel size d = Fault OutOfFuel.
Proof.
  intros Hs He Hsol Hrx Hn Hl. change (2 ^ 31) with 2147483648 in Hn.
  destruct (started_rx d) as (_ & He' & Hd).
  rewrite (basic_prefix fuel size n more segs d) by (done || lia).
  rewrite (swrap_small 32) by lia. apply bind_fault.
  rewrite <-(Z2Nat.id n) by lia.
  apply (basic_loop_ended fuel (rest_of more segs) (Z.to_nat n) 0); simpl; try lia.
  - done.
  - by apply rest_of_solid.
  - rewrite concat_rest_of. lia.
  - rewrite Hd. lia.
Qed.

(** The unused reader [io_read_stream_net] takes [size] bytes of the stream
    after a header, whatever length below that the header announces (so the
    bytes of the next packet's header can be among them); it returns 0, not
    the count, and remembers what it thinks is left of the packet. *)
Theorem read_stream_net_takes_size d fuel size n more segs :
  let p := more ++ concat segs in
  sends_left (ns_fd d) = None → solid segs → 0 ≤ n < 2 ^ 32 → Z.of_nat size < 2 ^ 32 →
  remain_recv_size (started d) = 0 →
  rx (ns_fd d) = (packet_header n ++ more) :: segs →
  (size ≤ length p)%nat → (size ≤ length (data d))%nat → (size < fuel)%nat →
  ∃ d', io_read_stream_net fuel (Z.of_nat size) d = Done (0, d') ∧
    take size (data d') = take size p ∧ concat (rx (ns_fd d')) = drop size p ∧
    remain_recv_size d' = Z.max n (Z.of_nat size) - Z.of_nat size.
Proof.
  intros p Hs Hsol Hn Hsz Hrem Hrx Hp Hl Hf.
  change (2 ^ 32) with 4294967296 in Hn, Hsz. destruct (started_rx d) as (Hr1 & _ & Hd).
  destruct (net_header_run n more segs (started d)) as (d1 & H1 & H2); [done|by rewrite Hr1|].
  set (d2 := set_ns_fd _ _) in H2.
  set (d3 := set_remain (Z.max n (Z.of_nat size)) d2).
  destruct (net_loop fuel size (rest_of more segs) 0 d3) as (segs' & Hc & Hsol' & Hrun);
    try done; simpl; try lia.
  { by apply rest_of_solid. }
  { by rewrite concat_rest_of. }
  { by rewrite Hd. }
  exists (set_remain (remain_recv_size d3 - Z.of_nat size) (received 0 (take size p) segs' d3)).
  split; [|split; [|split]].
  - unfold io_read_stream_net. eapply bind_done; [by apply start_reading_run|].
    eapply bind_done; [done|]. rewrite Hrem. simpl.
    eapply (bind_done _ _ _ tt d3).
    { eapply bind_done; [exact H1|]. cbv beta iota. cbn [nth]. rewrite Z.eqb_refl. simpl.
      eapply bind_done; [exact H2|]. cbv beta iota. rewrite le_val_bytes by (simpl; lia).
      unfold modify, d3. destruct (Z.ltb_spec (Z.of_nat size) n);
        [rewrite Z.max_l by lia|rewrite Z.max_r by lia]; done. }
    eapply bind_done; [done|]. simpl.
    rewrite (proj2 (Z.ltb_ge _ _)) by lia. rewrite concat_rest_of in Hrun. exact Hrun.
  - simpl. rewrite Hd.
    transitivity (take (length (take size p)) (overwrite 0 (take size p) (data d))).
    + f_equal. rewrite length_take. lia.
    + apply take_overwrite.
  - simpl. by rewrite Hc, concat_rest_of.
  - done.
Qed.

(** A stream write puts one frame on the wire, preceded at the first write by
    the byte that starts the stream at the server, and reports all bytes
    written; data shorter than the size it is called with is read past its
    end. *)
Theorem write_stream_net_frames d src size :
  sends_left (ns_fd d) = None → 0 ≤ size < 2 ^ 32 →
  io_write_stream_net src size d =
    if Z.of_nat (length src) <? size then Fault OutOfBounds
    else Done (size, mk_net_stream
      (set_tx (tx (ns_fd d) ++ (if handshaked d =? 0 then [6] else []) ++
               [6] ++ le_bytes 4 size ++ take (Z.to_nat size) src) None (ns_fd d))
      (if handshaked d =? 0 then 1 else handshaked d) (remain_recv_size d) (data d)).
Proof.
  intros Hs Hz. destruct (Z.ltb_spec (Z.of_nat (length src)) size) as [Hlt|Hge]; [|by apply stream_write_run].
  unfold io_write_stream_net. eapply bind_done; [done|].
  destruct (handshaked d =? 0); simpl.
  - eapply bind_done; [|by rewrite (proj2 (Z.ltb_lt _ _)) by lia].
    eapply bind_done; [|reflexivity].
    apply on_fd_run. unfold io_net_call_start. eapply bind_done; [by apply send_ok|reflexivity].
  - eapply bind_done; [reflexivity|]. by rewrite (proj2 (Z.ltb_lt _ _)) by lia.
Qed.

(** Opening a remote register device against a server that answers the
    handshake and reports a descriptor succeeds with the new connection, over
    which exactly the handshake and the open request were sent, but sets the
    socket options on the server's descriptor number, not on the connection;
    closing the device gives back the descriptor and the memory. *)
Theorem open_mapped_net_close w path size s l fd segs :
  no_sockets w = false → 0 ≤ next_fd w → socks w !! next_fd w = None →
  peers w = Some s :: l → sends_left s = None → 0 < fd < 2 ^ 31 →
  rx s = le_bytes 4 HANDSHAKE_HEADER :: le_bytes 4 fd :: segs →
  ∃ w1 w2, let dev := Some (mk_net_device (next_fd w) path) in
    io_open_mapped_net path size w = Done (dev, w1) ∧
    socks w1 !! next_fd w = Some (opened s (handshake_bytes (garbage 3)
      (mk_handshake HANDSHAKE_HEADER MAPPED_CHANNEL) ++ request_bytes path size) segs) ∧
    sockopts w1 = sockopts w ++ [fd; fd] ∧
    io_close_mapped_net dev w1 = Done (0, w2) ∧ socks w2 = socks w ∧ blocks w2 = blocks w.
Proof.
  intros Hn Hp Hfresh Hpe Hs Hfd Hrx.
  set (conn := opened s (handshake_bytes (garbage 3) (mk_handshake HANDSHAKE_HEADER MAPPED_CHANNEL)
                         ++ request_bytes path size) segs).
  set (w1 := mk_net_world (no_sockets w) l (<[next_fd w := conn]> (socks w)) (next_fd w + 1)
               ((sockopts w ++ [fd]) ++ [fd]) (blocks w + 1)).
  exists w1. eexists. split; [|split; [|split; [|split; [|split]]]].
  - unfold io_open_mapped_net.
    eapply bind_done; [unfold sys_socket; by rewrite Hn|].
    rewrite (proj2 (Z.ltb_ge _ _)) by lia.
    eapply bind_done; [unfold sys_connect; cbn; by rewrite Hpe|]. simpl.
    eapply bind_done; [eapply handshake_run; [apply lookup_insert_eq|done|done]|]. simpl.
    eapply bind_done; [eapply remote_run; [apply lookup_insert_eq|done|done|done]|].
    rewrite (proj2 (Z.ltb_ge fd 1)) by lia.
    unfold mbind, M_bind, setsockopt, malloc, modify. unfold mret, M_ret. do 2 f_equal.
    unfold w1, set_blocks, set_sockopts, set_socks, set_peers, set_next_fd, conn, opened. cbn.
    rewrite !insert_insert_eq. by rewrite <-!app_assoc.
  - unfold w1. simpl. apply lookup_insert_eq.
  - unfold w1. simpl. by rewrite <-app_assoc.
  - unfold io_close_mapped_net, sys_close, free. cbv [mbind M_bind modify]. cbn. reflexivity.
  - cbn. by rewrite delete_insert_id.
  - cbn. lia.
Qed.

(** Whatever the server does, an open of a remote device that fails after its
    socket was created leaves the socket open, and its number is lost. *)
Theorem failed_open_net_leaks w w' path size :
  no_sockets w = false → 0 ≤ next_fd w →
  io_open_mapped_net path size w = Done (None, w') ∨ io_open_stream_net path w = Done (None, w') →
  is_Some (socks w' !! next_fd w).
Proof.
  intros Hn Hp [Hr|Hr]; eapply socket_then_open in Hr; try done; intros fd;
    auto 30 using on_sock_open, connect_open, setsockopt_open, malloc_open, handshake_open, remote_open
      with preserves.
Qed.

(** Creating a network context never records the socket it connects: every
    context it returns has an unassigned socket number and an unassigned
    [post_context_close], and the connection stays open; the failing paths
    after [socket()] also leave the socket open, and every failing path leaves
    the context's memory allocated. *)
Theorem create_net_context_loses_socket w resolves r w' :
  no_sockets w = false → 0 ≤ next_fd w →
  io_create_net_context resolves w = Done (r, w') →
  (resolves = true → is_Some (socks w' !! next_fd w)) ∧
  match r with
  | None => blocks w' = blocks w + 1
  | Some ctx => nc_sockfd ctx = None ∧ nc_post_context_close ctx = None ∧ blocks w' = blocks w + 2
  end.
Proof.
  intros Hn Hp ([] & w1 & Hm & Hr)%bind_inv. injection Hm as <-.
  destruct resolves; [|by injection Hr as <- <-]. simpl in Hr.
  split.
  { intros _. change (next_fd w) with (next_fd (set_blocks (blocks w + 1) w)).
    eapply socket_then_open; [| | |exact Hr]; [done|done|]. intros fd. cbv beta.
    auto 30 using on_sock_open, connect_open, malloc_open with preserves. }
  assert (∀ A fd (m : M socket A), preserves (λ w1, blocks w1 = blocks w + 1) (on_sock fd m)) as Hos.
  { intros A fd m u a u' Hu Hx. unfold on_sock in Hx. destruct (socks u !! fd); [|done].
    destruct (m s) as [[? ?]|]; [|done]. by injection Hx as _ <-. }
  assert (∀ fd, preserves (λ w1, blocks w1 = blocks w + 1) (sys_connect fd)) as Hco.
  { intros fd u a u' Hu Hx. unfold sys_connect in Hx. by destruct (peers u) as [|[]]; injection Hx as _ <-. }
  apply bind_inv in Hr as (fd & w2 & Hso & Hr). unfold sys_socket in Hso. simpl in Hso. rewrite Hn in Hso.
  injection Hso as <- <-. rewrite (proj2 (Z.ltb_ge _ _)) in Hr by lia.
  apply bind_inv in Hr as (c & w3 & Hc & Hr). apply Hco in Hc; [|done].
  destruct (c <? 0); [by injection Hr as <- <-|].
  apply bind_inv in Hr as (c2 & w4 & Hc2 & Hr). apply Hos in Hc2; [|done].
  destruct (c2 <? 0); [by injection Hr as <- <-|].
  apply bind_inv in Hr as ([c3 bs] & w5 & Hc3 & Hr). apply Hos in Hc3; [|done].
  destruct (c3 <? 0); injection Hr as <- <-; [done|]. simpl. repeat split; lia.
Qed.

End Properties.

(** ** Concrete runs *)

Definition demo_stream (segs : list (list Z)) : net_stream :=
  fresh_net_stream (mk_socket segs 0 [] None) (replicate 8 0).

(** A packet of five bytes: two arrive with the header, then one, then two. *)
Definition demo_packet : list (list Z) := [packet_header 5 ++ [1; 2]; [3]; [4; 5]].

Lemma demo_solid : solid [[3]; [4; 5]].
Proof. by repeat constructor. Qed.

Lemma read_stream_basic_packet_witness :
  ∃ d', io_read_stream_net_basic 6 8 (demo_stream (demo_packet ++ [[9]])) = Done (5, d') ∧
    take 5 (data d') = [1; 2; 3; 4; 5].
Proof.
  destruct (read_stream_basic_packet (demo_stream (demo_packet ++ [[9]])) 6 8 [1; 2] [[3]; [4; 5]] [[9]]
    eq_refl demo_solid ltac:(vm_compute; reflexivity) eq_refl ltac:(simpl; lia) ltac:(simpl; lia))
    as (d' & Hr & Ht & _).
  exists d'. split; [exact Hr|exact Ht].
Defined.

Lemma read_stream_basic_overruns_witness :
  io_read_stream_net_basic 6 8
    (demo_stream [packet_header 9 ++ [1; 2; 3; 4; 5; 6; 7; 8; 9]]) = Fault OutOfBounds.
Proof.
  apply (read_stream_basic_overruns _ 6 8 [1; 2; 3; 4; 5; 6; 7; 8; 9] []);
    [reflexivity|vm_compute; reflexivity|reflexivity|simpl; lia|lia].
Defined.

Lemma read_stream_basic_hangs_witness :
  io_read_stream_net_basic 1000 8 (demo_stream [packet_header 6 ++ [1; 2]; [3]; [4; 5]]) = Fault OutOfFuel.
Proof.
  apply (read_stream_basic_hangs _ 1000 8 6 [1; 2] [[3]; [4; 5]]);
    [reflexivity|reflexivity|exact demo_solid|reflexivity|simpl; lia|simpl; lia].
Defined.

Lemma read_stream_net_takes_size_witness :
  ∃ d', io_read_stream_net 9 (Z.of_nat 4) (demo_stream demo_packet) = Done (0, d') ∧
    take 4 (data d') = [1; 2; 3; 4] ∧ remain_recv_size d' = 1.
Proof.
  destruct (read_stream_net_takes_size (demo_stream demo_packet) 9 4 5 [1; 2] [[3]; [4; 5]]
    eq_refl demo_solid ltac:(lia) ltac:(lia) eq_refl eq_refl ltac:(simpl; lia) ltac:(simpl; lia)
    ltac:(lia)) as (d' & Hr & Ht & _ & Hm).
  exists d'. split; [exact Hr|]. split; [exact Ht|exact Hm].
Defined.

Lemma write_stream_net_frames_witness :
  ∃ d', io_write_stream_net [1; 2; 3] 2 (demo_stream []) = Done (2, d') ∧
    tx (ns_fd d') = [6; 6; 2; 0; 0; 0; 1; 2].
Proof.
  eexists. split; [rewrite (write_stream_net_frames (demo_stream []) [1; 2; 3] 2 eq_refl ltac:(lia)); reflexivity|].
  reflexivity.
Defined.

(** A process about to connect to a server that sends [replies]. *)
Definition demo_net (replies : list (list Z)) : net_world :=
  mk_net_world false [Some (mk_socket replies 0 [] None)] ∅ 3 [] 0.

Lemma open_mapped_net_close_witness :
  ∃ w1 w2,
    io_open_mapped_net [47; 100] 512 (demo_net [le_bytes 4 HANDSHAKE_HEADER; le_bytes 4 7]) =
      Done (Some (mk_net_device 3 [47; 100]), w1) ∧
    sockopts w1 = [7; 7] ∧
    io_close_mapped_net (Some (mk_net_device 3 [47; 100])) w1 = Done (0, w2) ∧ socks w2 = ∅.
Proof.
  destruct (open_mapped_net_close (demo_net [le_bytes 4 HANDSHAKE_HEADER; le_bytes 4 7]) [47; 100] 512
    (mk_socket [le_bytes 4 HANDSHAKE_HEADER; le_bytes 4 7] 0 [] None) [] 7 []
    eq_refl ltac:(simpl; lia) eq_refl eq_refl eq_refl ltac:(lia) eq_refl) as (w1 & w2 & H1 & _ & H2 & H3 & H4 & _).
  exists w1, w2. repeat split; [exact H1|exact H2|exact H3|exact H4].
Defined.

(** The server answers the handshake with another number. *)
Definition demo_refused : net_world := demo_net [le_bytes 4 1].

Lemma failed_open_net_leaks_witness :
  ∃ w', io_open_stream_net [47; 100] demo_refused = Done (None, w') ∧ is_Some (socks w' !! 3).
Proof.
  eexists. assert (io_open_stream_net [47; 100] demo_refused = Done (None, _)) as Hr by reflexivity.
  split; [exact Hr|].
  apply (failed_open_net_leaks demo_refused _ [47; 100] 0 eq_refl ltac:(simpl; lia) (or_intror Hr)).
Defined.

Lemma create_net_context_loses_socket_witness :
  ∃ ctx w', io_create_net_context true (demo_net [replicate 12 0]) = Done (Some ctx, w') ∧
    is_Some (socks w' !! 3) ∧ nc_sockfd ctx = None.
Proof.
  do 2 eexists. assert (io_create_net_context true (demo_net [replicate 12 0]) = Done (Some _, _)) as Hr
    by reflexivity.
  split; [exact Hr|].
  destruct (create_net_context_loses_socket (demo_net [replicate 12 0]) true _ _ eq_refl ltac:(simpl; lia) Hr) as [Ho [Hs _]].
  split; [by apply Ho|exact Hs].
Defined.
