(* ===== verification/Devices.v ===== *)
(** * Devices: what the code above a device relies on

    The dispatch functions of [src/lib/bbio/src/bbio_core.c] call through the
    function pointers of a device, so the code above them (the commands of the
    I/O server, the applications) is written against two interfaces: a mapped
    device with word registers and a stream device with a ring of transfer
    buffers.  The classes below are these interfaces; the laws are what a
    device promises while no transfer times out. *)
From Stdlib Require Import ZArith Lia.
From stdpp Require Import base list numbers option.
From S2P Require Import Prelude DmaChannel.

(** [io_write_mapped_device(d, addr, value)], [io_read_mapped_device(d, addr)]. *)
Class MappedDevice (D : Type) := {
  io_write_mapped_device : Z → Z → M D unit;
  io_read_mapped_device : Z → M D Z
}.

(** A channel buffer is known by its number; [fill_buffer] and [buffer_bytes]
    are stores to and loads from the data in its mapped memory, and [fill_struct]
    is a store through the pointer to its [struct channel_buffer], which goes on
    to the fields behind the data. *)
Class StreamDevice (D : Type) := {
  io_stream_get_buffer : M D (option nat);
  fill_buffer : nat → Z → list Z → M D unit;
  fill_struct : nat → Z → list Z → M D unit;
  buffer_bytes : nat → nat → M D (list Z);
  io_write_stream_device : nat → Z → M D unit;
  io_read_stream_device : nat → Z → M D unit;
  io_sync_stream_device : M D unit
}.

(** A block fills a channel buffer. *)
Definition is_block (bs : list Z) : Prop := Z.of_nat (length bs) = BUFFER_SIZE.

(** A device that writes a stream out.  [idle log d]: no buffer is held and the
    blocks of [log] were handed to the hardware; [holds log b bs d]: the caller
    holds buffer [b], whose memory is [bs]. *)
Class StreamSink (D : Type) `{StreamDevice D} := {
  idle : list (list Z) → D → Prop;
  holds : list (list Z) → nat → list Z → D → Prop;
  sink_get : ∀ log d, idle log d →
    ∃ b bs d', io_stream_get_buffer d = Done (Some b, d') ∧ holds log b bs d' ∧
               is_block bs;
  sink_fill : ∀ log b bs off x d, holds log b bs d → Forall is_byte x →
    (off + length x ≤ length bs)%nat →
    ∃ d', fill_buffer b (Z.of_nat off) x d = Done (tt, d') ∧ holds log b (overwrite off x bs) d';
  sink_bound : ∀ log b bs off x d, holds log b bs d → (off ≤ length bs)%nat →
    (length bs < off + length x)%nat →
    fill_buffer b (Z.of_nat off) x d = Fault OutOfBounds;
  sink_write : ∀ log b bs n d, holds log b bs d → is_block bs → 0 ≤ n ≤ BUFFER_SIZE →
    ∃ d', io_write_stream_device b n d = Done (tt, d') ∧ idle (log ++ [take (Z.to_nat n) bs]) d'
}.

(** A device that reads a stream in: the next buffer it hands out holds the next
    block of [blocks]. *)
Class StreamSource (D : Type) `{StreamDevice D} := {
  delivers : list (list Z) → D → Prop;
  source_round : ∀ blk blocks d, delivers (blk :: blocks) d → is_block blk →
    ∃ b d1 d2,
      io_stream_get_buffer d = Done (Some b, d1) ∧
      io_sync_stream_device d1 = Done (tt, d2) ∧
      (∀ n, Z.of_nat n ≤ BUFFER_SIZE → buffer_bytes b n d2 = Done (take n blk, d2)) ∧
      ∀ x, is_block x → ∃ d3 d4,
        fill_buffer b 0 x d2 = Done (tt, d3) ∧
        io_read_stream_device b BUFFER_SIZE d3 = Done (tt, d4) ∧ delivers blocks d4
}.

(** A sink whose buffers are structs in memory: a store that stays in the struct
    changes the data of the buffer as far as it reaches. *)
Class StructSink (D : Type) `{StreamSink D} : Prop := {
  sink_struct : ∀ log b bs off x d, holds log b bs d → is_block bs → Forall is_byte x →
    (off ≤ length bs)%nat → Z.of_nat (off + length x) ≤ sizeof_channel_buffer →
    ∃ d', fill_struct b (Z.of_nat off) x d = Done (tt, d') ∧
      holds log b (overwrite off (take (length bs - off) x) bs) d'
}.

(** The heap of a process: [malloc] of a block that the program never frees. *)
Class ProcessHeap (W : Type) := heap_malloc : M W unit.

(** Handing over a whole buffer. *)
Lemma sink_write_block {D} `{StreamSink D} log b bs d :
  holds log b bs d → is_block bs →
  ∃ d', io_write_stream_device b BUFFER_SIZE d = Done (tt, d') ∧ idle (log ++ [bs]) d'.
Proof.
  intros Hh Hb. destruct (sink_write log b bs BUFFER_SIZE d Hh Hb) as (d' & Hw & Hi).
  { unfold BUFFER_SIZE. lia. }
  exists d'. split; [done|]. rewrite take_ge in Hi; [done|]. unfold is_block in Hb. lia.
Qed.

(** ** A device in memory

    Registers in a map and one transfer buffer: the theorems' witnesses run on
    it. *)
Record mem_device := mk_mem_device {
  md_regs : list Z;              (* the registers *)
  md_buffer : list Z;            (* the buffer's memory *)
  md_written : list (list Z);    (* blocks handed to the hardware *)
  md_incoming : list (list Z)    (* blocks the hardware will deliver *)
}.

#[export] Instance mem_mapped : MappedDevice mem_device := {
  io_write_mapped_device := λ a v d,
    Done (tt, mk_mem_device (<[Z.to_nat a := v]> (md_regs d)) (md_buffer d) (md_written d) (md_incoming d));
  io_read_mapped_device := λ a d, Done (default (2 ^ 32 - 1) (md_regs d !! Z.to_nat a), d)
}.

#[export] Instance mem_stream : StreamDevice mem_device := {
  io_stream_get_buffer := λ d, Done (Some 0%nat, d);
  fill_buffer := λ b off x d,
    if (0 <=? off) && (off + Z.of_nat (length x) <=? Z.of_nat (length (md_buffer d)))
    then Done (tt, mk_mem_device (md_regs d) (overwrite (Z.to_nat off) x (md_buffer d))
                     (md_written d) (md_incoming d))
    else Fault OutOfBounds;
  fill_struct := λ b off x d,
    if (0 <=? off) && (off <=? Z.of_nat (length (md_buffer d))) &&
       (off + Z.of_nat (length x) <=? sizeof_channel_buffer)
    then Done (tt, mk_mem_device (md_regs d)
                     (overwrite (Z.to_nat off) (take (length (md_buffer d) - Z.to_nat off) x) (md_buffer d))
                     (md_written d) (md_incoming d))
    else Fault OutOfBounds;
  buffer_bytes := λ b n d, Done (take n (md_buffer d), d);
  io_write_stream_device := λ b n d,
    Done (tt, mk_mem_device (md_regs d) (md_buffer d)
                (md_written d ++ [take (Z.to_nat n) (md_buffer d)]) (md_incoming d));
  io_read_stream_device := λ b n d, Done (tt, d);
  io_sync_stream_device := λ d,
    Done (tt, match md_incoming d with
              | blk :: rest => mk_mem_device (md_regs d) blk (md_written d) rest
              | [] => d
              end)
}.

#[export, refine] Instance mem_sink : StreamSink mem_device := {
  idle := λ log d, md_written d = log ∧ is_block (md_buffer d);
  holds := λ log b bs d, md_written d = log ∧ md_buffer d = bs
}.
Proof.
  - intros log d [Hl Hb]. by exists 0%nat, (md_buffer d), d.
  - intros log b bs off x d [Hl <-] _ Hle. simpl.
    rewrite (proj2 (Z.leb_le 0 _)), (proj2 (Z.leb_le _ _)), Nat2Z.id by lia. by eexists.
  - intros log b bs off x d [Hl <-] _ Hlt. simpl.
    by rewrite (proj2 (Z.leb_le 0 _)), (proj2 (Z.leb_gt _ _)) by lia.
  - intros log b bs n d [<- <-] Hb Hn. eexists. split; [done|]. by split.
Defined.

#[export] Instance mem_struct_sink : StructSink mem_device.
Proof.
  split. intros log b bs off x d [Hl <-] _ _ Hoff Hle. cbn [fill_struct mem_stream].
  rewrite (proj2 (Z.leb_le 0 _)), (proj2 (Z.leb_le _ (Z.of_nat (length _)))), (proj2 (Z.leb_le _ sizeof_channel_buffer)), Nat2Z.id by lia.
  eexists. split; [reflexivity|]. by split.
Qed.

#[export, refine] Instance mem_source : StreamSource mem_device := {
  delivers := λ blocks d, md_incoming d = blocks
}.
Proof.
  intros blk blocks d Hd Hb.
  eexists 0%nat, d, (mk_mem_device (md_regs d) blk (md_written d) blocks). split; [done|].
  split; [simpl; by rewrite Hd|]. split; [done|].
  intros x Hx. simpl. unfold is_block in Hx, Hb.
  rewrite (proj2 (Z.leb_le _ _)) by lia. by do 2 eexists.
Defined.
