(* ===== verification/BackendCall.v ===== *)
(** * BackendCall: the command handlers of the I/O server

    [src/userspace/io_backend/src/io_backend_call.c]: register commands and the
    two endless streaming loops, between the socket of one client and a device
    seen through the interfaces of [Devices].  The counters the monitor thread
    prints are kept; the printing is not. *)
From Stdlib Require Import ZArith Lia.
From stdpp Require Import base list numbers option.
From S2P Require Import Prelude Socket DmaChannel Devices.

(** One client's connection and the device opened for it. *)
Record session (D : Type) := mk_session { conn : socket; dev : D }.
Arguments mk_session {D}.
Arguments conn {D}.
Arguments dev {D}.

Definition on_conn {D A} (m : M socket A) : M (session D) A :=
  zoom conn (λ s se, mk_session s (dev se)) m.
Definition on_dev {D A} (m : M D A) : M (session D) A :=
  zoom dev (λ d se, mk_session (conn se) d) m.

(** ** Register commands *)

Section Mapped.
Context `{Stack} {D : Type} `{MappedDevice D}.

Definition client_cmd_write : M (session D) unit :=
  '(_, addr) ← on_conn (recv_into (garbage 4));
  '(_, value) ← on_conn (recv_into (garbage 4));
  on_dev (io_write_mapped_device (le_val addr) (le_val value)).

Definition client_cmd_read : M (session D) unit :=
  '(_, addr) ← on_conn (recv_into (garbage 4));
  ret ← on_dev (io_read_mapped_device (le_val addr));
  on_conn (send (le_bytes 4 ret)) ;;
  mret tt.

Definition client_mapped_cmd_handle : M (session D) Z :=
  '(n, cmd) ← on_conn (recv_into (garbage 1));
  when (0 <? n)
    (let c := nth 0 cmd 0 in
     if c =? call_code CALL_WRITE then client_cmd_write
     else if c =? call_code CALL_READ then client_cmd_read
     else mret tt) ;;
  mret n.

(** [while (!stop && client_mapped_cmd_handle(device, sockfd));] with the global
    [stop] clear: the loop of [client_mapped_channel]. *)
Definition mapped_cmd_loop (fuel : nat) : M (session D) unit :=
  iterate fuel (λ _ : unit,
    n ← client_mapped_cmd_handle;
    mret (if n =? 0 then inr tt else inl tt)) tt.

End Mapped.

(** ** Streaming commands *)

Section Stream.
Context `{Stack} {D : Type} `{StreamDevice D}.

(** [MAX_SAMPLES * sizeof(iq_buffer)]. *)
Definition stream_size : Z := BUFFER_SIZE / 4 * 4.

(** [client_cmd_write_stream]: one transfer with a reply.  Every piece is stored
    at the start of the buffer. *)
Definition piece_body (b : option nat) (size : Z) (got : Z) : M (session D) (Z + Z) :=
  if got <? size then
    b ← require NullDeref b;
    '(r, bs) ← on_conn (recv (Z.to_nat size));
    on_dev (fill_buffer b 0 bs) ;;
    let n := u32 r in
    mret (if n <=? 0 then inr got else inl (u32 (got + n)))
  else mret (inr got).

Definition client_cmd_write_stream (fuel : nat) : M (session D) unit :=
  b ← on_dev io_stream_get_buffer;
  '(_, v) ← on_conn (recv_into (le_bytes 4 stream_size));
  let size := le_val v in
  got ← iterate fuel (piece_body b size) 0;
  b ← require NullDeref b;
  on_dev (io_write_stream_device b size) ;;
  on_conn (send (le_bytes 4 got)) ;;
  mret tt.

(** The variables of [client_cmd_write_stream_inf]: [start_cmd] and [recv_size]
    keep their bytes when a receive fails. *)
Record write_vars := mk_write_vars {
  start_cmd : list Z;
  recv_size : Z;
  buffer_ptr : Z;
  ch_buffer : option nat;
  stream_n : Z;
  accu_size : Z
}.

(** [while (recv_size > 0) { ... }].  [n] is unsigned: only an orderly end of
    the stream ([n] = 0) leaves the loop, a failed receive counts as 2^32 - 1
    bytes. *)
Definition fill_body (v : write_vars) : M (session D) (write_vars + write_vars) :=
  if 0 <? recv_size v then
    b ← require NullDeref (ch_buffer v);
    '(r, bs) ← on_conn (recv (Z.to_nat (recv_size v)));
    on_dev (fill_buffer b (buffer_ptr v) bs) ;;
    let n := u32 r in
    if n <=? 0 then mret (inr v)
    else
      let size := u32 (recv_size v - n) in
      let ptr := u32 (buffer_ptr v + n) in
      let accu := u64 (accu_size v + n) in
      if stream_size <=? ptr then
        on_dev (io_write_stream_device b stream_size) ;;
        b' ← on_dev io_stream_get_buffer;
        mret (inl (mk_write_vars (start_cmd v) size 0 b' (u32 (stream_n v + 1)) accu))
      else
        mret (inl (mk_write_vars (start_cmd v) size ptr (ch_buffer v) (stream_n v) accu))
  else mret (inr v).

(** One round of the outer [while (1)]; [inner] bounds the rounds of the inner
    loop. *)
Definition packet_body (inner : nat) (v : write_vars) : M (session D) (write_vars + write_vars) :=
  '(_, cmd) ← on_conn (recv_into (start_cmd v));
  let v := mk_write_vars cmd (recv_size v) (buffer_ptr v) (ch_buffer v) (stream_n v) (accu_size v) in
  v ← (if nth 0 cmd 0 =? call_code CALL_WRITE_STREAM then
         '(_, size) ← on_conn (recv_into (le_bytes 4 (recv_size v)));
         iterate inner fill_body
           (mk_write_vars cmd (le_val size) (buffer_ptr v) (ch_buffer v) (stream_n v) (accu_size v))
       else mret v);
  r ← on_conn (send [1]);
  mret (if r =? -1 then inr v else inl v).

Definition client_cmd_write_stream_inf (fuel inner : nat) : M (session D) Z :=
  b ← on_dev io_stream_get_buffer;
  iterate fuel (packet_body inner) (mk_write_vars (garbage 1) 0 0 b 0 0) ;;
  mret 0.

(** One round of [client_cmd_read_stream_inf]: the next buffer is sent, painted
    and queued for the hardware to fill. *)
Definition send_size : Z := 1024 * 2 * 4.
Definition read_stream_size : Z := 32 * 1024 * 4.

(** The [writev] of a packet.  Of a NULL buffer only the address is formed; the
    kernel then finds the third segment outside the address space, and the call
    fails with EFAULT and sends nothing. *)
Definition writev_packet (b : option nat) : M (session D) Z :=
  match b with
  | None => mret (-1)
  | Some b =>
      bytes ← on_dev (buffer_bytes b (Z.to_nat send_size));
      on_conn (writev [[Z.shiftl (call_code CALL_READ_STREAM) 1]; le_bytes 4 send_size; bytes])
  end.

Definition send_body (v : Z * Z) : M (session D) ((Z * Z) + unit) :=
  let '(accu, sn) := v in
  b ← on_dev io_stream_get_buffer;
  on_dev io_sync_stream_device ;;
  n ← writev_packet b;
  if n <=? 0 then mret (inr tt)
  else
    b ← require NullDeref b;
    on_dev (fill_buffer b 0 (replicate (Z.to_nat read_stream_size) (u8 (-1)))) ;;
    on_dev (io_read_stream_device b read_stream_size) ;;
    mret (inl (u64 (accu + n), u32 (sn + 1))).

Definition client_cmd_read_stream_inf (fuel : nat) : M (session D) Z :=
  iterate fuel send_body (0, 0) ;;
  mret 0.

(** [client_stream_cmd_handle]: both commands return 0, so the loop ends after
    one round. *)
Definition stream_cmd_body (fuel inner : nat) : M (session D) (unit + Z) :=
  '(n, cmd) ← on_conn (recv_into (garbage 1));
  next_action ←
    (if 0 <? n then
       let c := nth 0 cmd 0 in
       if c =? call_code CALL_WRITE_STREAM then client_cmd_write_stream_inf fuel inner
       else if c =? call_code CALL_READ_STREAM then client_cmd_read_stream_inf fuel
       else mret 0
     else mret 0);
  on_dev io_sync_stream_device ;;
  mret (if next_action =? 0 then inr n else inl tt).

Definition client_stream_cmd_handle (fuel inner : nat) : M (session D) Z :=
  iterate 1 (λ _ : unit, stream_cmd_body fuel inner) tt.

End Stream.

(** ** Register commands as operations of a device *)

Inductive reg_op :=
| RegWrite (addr value : Z)
| RegRead (addr : Z).

Definition reg_op_ok (o : reg_op) : Prop :=
  match o with
  | RegWrite a v => 0 ≤ a < 2 ^ 32 ∧ 0 ≤ v < 2 ^ 32
  | RegRead a => 0 ≤ a < 2 ^ 32
  end.

(** The fields a command occupies on the wire. *)
Definition op_fields (o : reg_op) : list (list Z) :=
  match o with
  | RegWrite a v => [[2]; le_bytes 4 a; le_bytes 4 v]
  | RegRead a => [[3]; le_bytes 4 a]
  end.

Section Local.
Context {D : Type} `{MappedDevice D}.

(** The operations run on the device itself; the result lists the values read. *)
Fixpoint local_ops (ops : list reg_op) : M D (list Z) :=
  match ops with
  | [] => mret []
  | RegWrite a v :: ops' => io_write_mapped_device a v ;; local_ops ops'
  | RegRead a :: ops' =>
      r ← io_read_mapped_device a;
      rs ← local_ops ops';
      mret (r :: rs)
  end.

End Local.

Lemma on_conn_run {D A} (m : M socket A) (se : session D) a s :
  m (conn se) = Done (a, s) → on_conn m se = Done (a, mk_session s (dev se)).
Proof. intros Hm. unfold on_conn, zoom. by rewrite Hm. Qed.

Lemma on_dev_run {D A} (m : M D A) (se : session D) a d :
  m (dev se) = Done (a, d) → on_dev m se = Done (a, mk_session (conn se) d).
Proof. intros Hm. unfold on_dev, zoom. by rewrite Hm. Qed.

Section MappedLemmas.
Context `{Stack} {D : Type} `{MappedDevice D}.
Implicit Types (se : session D) (s : socket) (d : D).

(** The server executes the command at the head of its stream on the device. *)
Lemma handle_write a v fs segs s d d' :
  0 ≤ a < 2 ^ 32 → 0 ≤ v < 2 ^ 32 → carries segs (op_fields (RegWrite a v) ++ fs) → rx s = segs →
  io_write_mapped_device a v d = Done (tt, d') →
  ∃ segs', carries segs' fs ∧
    client_mapped_cmd_handle (mk_session s d) = Done (1, mk_session (set_rx segs' s) d').
Proof.
  intros Ha Hv Hc Hrx Hd.
  destruct (recv_field (garbage 1) _ _ _ s Hc Hrx) as (s1 & Hc1 & H1); [by rewrite garbage_length|].
  destruct (recv_field (garbage 4) _ _ _ (set_rx s1 s) Hc1 eq_refl) as (s2 & Hc2 & H2);
    [by rewrite garbage_length, length_le_bytes|].
  destruct (recv_field (garbage 4) _ _ _ (set_rx s2 (set_rx s1 s)) Hc2 eq_refl) as (s3 & Hc3 & H3);
    [by rewrite garbage_length, length_le_bytes|].
  exists s3. split; [done|]. unfold client_mapped_cmd_handle.
  eapply bind_done; [apply on_conn_run; exact H1|]. cbv beta iota. simpl.
  eapply bind_done; [|done]. unfold client_cmd_write.
  eapply bind_done; [apply on_conn_run; exact H2|].
  eapply bind_done; [apply on_conn_run; exact H3|].
  cbv beta iota. rewrite !le_val_bytes by (simpl; lia). by apply on_dev_run.
Qed.

Lemma handle_read a r fs segs s d d' :
  0 ≤ a < 2 ^ 32 → carries segs (op_fields (RegRead a) ++ fs) → rx s = segs → sends_left s = None →
  io_read_mapped_device a d = Done (r, d') →
  ∃ segs', carries segs' fs ∧
    client_mapped_cmd_handle (mk_session s d) =
      Done (1, mk_session (set_tx (tx s ++ le_bytes 4 r) None (set_rx segs' s)) d').
Proof.
  intros Ha Hc Hrx Hs Hd.
  destruct (recv_field (garbage 1) _ _ _ s Hc Hrx) as (s1 & Hc1 & H1); [by rewrite garbage_length|].
  destruct (recv_field (garbage 4) _ _ _ (set_rx s1 s) Hc1 eq_refl) as (s2 & Hc2 & H2);
    [by rewrite garbage_length, length_le_bytes|].
  exists s2. split; [done|]. unfold client_mapped_cmd_handle.
  eapply bind_done; [apply on_conn_run; exact H1|]. cbv beta iota. simpl.
  eapply bind_done; [|done]. unfold client_cmd_read.
  eapply bind_done; [apply on_conn_run; exact H2|].
  cbv beta iota. rewrite !le_val_bytes by (simpl; lia).
  eapply bind_done; [by apply on_dev_run|].
  eapply bind_done; [apply on_conn_run; by apply send_ok|]. done.
Qed.

Lemma loop_step fuel n se se' :
  client_mapped_cmd_handle se = Done (n, se') →
  mapped_cmd_loop (S fuel) se = if n =? 0 then Done (tt, se') else mapped_cmd_loop fuel se'.
Proof.
  intros Hh. unfold mapped_cmd_loop. rewrite iterate_unfold.
  erewrite bind_done; [|eapply bind_done; [exact Hh|reflexivity]|reflexivity].
  by destruct (n =? 0).
Qed.

(** At the end of the stream the handler does nothing. *)
Lemma handle_end s d :
  rx s = [] → rx_end s ≤ 0 → client_mapped_cmd_handle (mk_session s d) = Done (rx_end s, mk_session s d).
Proof.
  intros Hrx He. unfold client_mapped_cmd_handle.
  eapply bind_done; [apply on_conn_run, recv_into_end; [done|rewrite garbage_length; lia]|].
  cbv beta iota. simpl. by rewrite (proj2 (Z.ltb_ge _ _)) by lia.
Qed.

(** The loop of the server over a stream that carries a list of operations. *)
Lemma loop_ops ops fuel segs s d rs d' :
  Forall reg_op_ok ops → local_ops ops d = Done (rs, d') →
  carries segs (concat (op_fields <$> ops)) → rx s = segs → rx_end s = 0 → sends_left s = None →
  (length ops < fuel)%nat →
  mapped_cmd_loop fuel (mk_session s d) =
    Done (tt, mk_session (mk_socket [] 0 (tx s ++ concat (le_bytes 4 <$> rs)) None) d').
Proof.
  revert fuel segs s d rs. induction ops as [|o ops IH];
    intros fuel segs s d rs Hok Hl Hc Hrx He Hs Hf; (destruct fuel as [|fuel]; [simpl in Hf; lia|]).
  - injection Hl as <- <-. inversion Hc; subst.
    erewrite loop_step by (apply handle_end; [done|lia]). rewrite He. simpl.
    rewrite app_nil_r. destruct s. simpl in *. by subst.
  - apply Forall_cons_1 in Hok as [Ho Hok]. destruct o as [a v|a].
    + apply bind_inv in Hl as ([] & d1 & Hw & Hl). destruct Ho as [Ha Hv].
      destruct (handle_write a v (concat (op_fields <$> ops)) segs s d d1) as (segs' & Hc' & Hh); try done.
      erewrite loop_step by exact Hh. simpl.
      apply (IH fuel segs' (set_rx segs' s) d1 rs); try done. simpl in Hf. lia.
    + apply bind_inv in Hl as (r & d1 & Hr & Hl). apply bind_inv in Hl as (rs' & d2 & Hl & [= <- <-]).
      destruct (handle_read a r (concat (op_fields <$> ops)) segs s d d1) as (segs' & Hc' & Hh); try done.
      erewrite loop_step by exact Hh. simpl.
      rewrite (IH fuel segs' (set_tx (tx s ++ le_bytes 4 r) None (set_rx segs' s)) d1 rs'); try done;
        [|simpl in Hf; lia]. simpl. by rewrite <-app_assoc.
Qed.

End MappedLemmas.

(** ** Streams as lists of packets *)

(** What the server has done with the bytes received so far: the blocks handed to
    the hardware and the bytes of the block being filled. *)
Definition absorb (st : list (list Z) * list Z) (p : list Z) : list (list Z) * list Z :=
  let '(log, cur) := st in
  if Z.of_nat (length cur + length p) =? BUFFER_SIZE then (log ++ [cur ++ p], []) else (log, cur ++ p).

(** No packet crosses the end of a block. *)
Fixpoint aligned (filled : nat) (ps : list (list Z)) : Prop :=
  match ps with
  | [] => True
  | p :: ps' =>
      Z.of_nat (filled + length p) ≤ BUFFER_SIZE ∧
      aligned (if Z.of_nat (filled + length p) =? BUFFER_SIZE then 0 else filled + length p) ps'
  end.

(** A packet on the wire: its header unsplit, its payload cut anywhere. *)
Definition packet_segs (p : list Z) (segs : list (list Z)) : Prop :=
  ∃ more psegs, solid psegs ∧ p = more ++ concat psegs ∧
    (segs = ([6] ++ le_bytes 4 (Z.of_nat (length p)) ++ more) :: psegs ∨
     segs = [6] :: (le_bytes 4 (Z.of_nat (length p)) ++ more) :: psegs).

Lemma BUFFER_SIZE_val : BUFFER_SIZE = 131072.
Proof. done. Qed.

Lemma stream_size_val : stream_size = BUFFER_SIZE.
Proof. done. Qed.

Lemma absorb_concat st p :
  concat (fst (absorb st p)) ++ snd (absorb st p) = (concat (fst st) ++ snd st) ++ p.
Proof.
  destruct st as [log cur]. simpl. destruct (_ =? _); simpl; [|by rewrite <-app_assoc].
  rewrite concat_app. simpl. by rewrite !app_nil_r, <-app_assoc.
Qed.

Lemma absorb_blocks st p :
  Forall is_block (fst st) →
  Forall is_block (fst (absorb st p)).
Proof.
  destruct st as [log cur]. simpl. destruct (Z.eqb_spec (Z.of_nat (length cur + length p)) BUFFER_SIZE); [|done].
  intros Hl. apply Forall_app. split; [done|]. constructor; [|done].
  unfold is_block. by rewrite length_app.
Qed.

Lemma foldl_absorb ps st :
  Forall is_block (fst st) →
  concat (fst (foldl absorb st ps)) ++ snd (foldl absorb st ps) = (concat (fst st) ++ snd st) ++ concat ps
  ∧ Forall is_block (fst (foldl absorb st ps)).
Proof.
  revert st. induction ps as [|p ps IH]; intros st Hl; simpl; [by rewrite app_nil_r|].
  destruct (IH (absorb st p) (absorb_blocks st p Hl)) as [-> ?]. split; [|done].
  by rewrite absorb_concat, <-app_assoc.
Qed.

Section StreamLemmas.
Context `{Stack} {D : Type} `{StreamSink D}.
Implicit Types (se : session D) (s : socket) (d : D) (v : write_vars).

(** The device holds buffer [b], whose first bytes are [cur]. *)
Definition filling (log : list (list Z)) (cur : list Z) v d : Prop :=
  ∃ b bs, ch_buffer v = Some b ∧ holds log b bs d ∧ is_block bs ∧
    take (length cur) bs = cur ∧ buffer_ptr v = Z.of_nat (length cur) ∧
    Z.of_nat (length cur) < BUFFER_SIZE.

(** One round of the inner loop. *)
Lemma fill_round log cur v s d segs tail :
  filling log cur v d → rx s = segs ++ tail → solid segs → segs ≠ [] → Forall is_byte (concat segs) →
  recv_size v = Z.of_nat (length (concat segs)) →
  Z.of_nat (length cur + length (concat segs)) ≤ BUFFER_SIZE →
  ∃ n segs' v' d', (0 < n)%nat ∧ (n ≤ length (concat segs))%nat ∧ solid segs' ∧
    concat segs' = drop n (concat segs) ∧
    fill_body v (mk_session s d) = Done (inl v', mk_session (set_rx (segs' ++ tail) s) d') ∧
    start_cmd v' = start_cmd v ∧ recv_size v' = Z.of_nat (length (concat segs')) ∧
    let st := absorb (log, cur) (take n (concat segs)) in filling (fst st) (snd st) v' d'.
Proof.
  intros (b & bs & Hb & Hh & Hlb & Ht & Hp & Hc) Hrx Hs Hne Hby Hz Hl.
  unfold is_block in Hlb. rewrite BUFFER_SIZE_val in *.
  assert (0 < length (concat segs))%nat as Hpos.
  { destruct (concat segs) eqn:Ec; [by apply solid_nil in Ec|simpl; lia]. }
  destruct (recv_some (length (concat segs)) segs tail s Hpos Hs Hne Hrx)
    as (n & segs' & Hn & Hn1 & Hn2 & Hs' & Hcc & Hr).
  set (x := take n (concat segs)) in *.
  assert (length x = n) as Hx by (unfold x; rewrite length_take; lia).
  destruct (sink_fill log b bs (length cur) x d Hh) as (d1 & Hf & Hh1); [by apply Forall_take|lia|].
  assert (is_block (overwrite (length cur) x bs)) as Hlo
    by (unfold is_block; rewrite length_overwrite, BUFFER_SIZE_val; lia).
  assert (take (length (cur ++ x)) (overwrite (length cur) x bs) = cur ++ x) as Hto.
  { unfold overwrite. rewrite Ht, app_assoc. apply take_app_length. }
  assert (length (concat segs') = length (concat segs) - n)%nat as Hls by (by rewrite Hcc, length_drop).
  assert (fill_body v (mk_session s d) =
    (if stream_size <=? Z.of_nat (length cur + n) then
       on_dev (io_write_stream_device b stream_size) ;;
       b' ← on_dev io_stream_get_buffer;
       mret (inl (mk_write_vars (start_cmd v) (Z.of_nat (length (concat segs'))) 0 b'
                    (u32 (stream_n v + 1)) (u64 (accu_size v + Z.of_nat n))))
     else mret (inl (mk_write_vars (start_cmd v) (Z.of_nat (length (concat segs'))) (Z.of_nat (length cur + n))
                    (ch_buffer v) (stream_n v) (u64 (accu_size v + Z.of_nat n)))))
      (mk_session (set_rx (segs' ++ tail) s) d1)) as Hbody.
  { unfold fill_body. rewrite Hz, (proj2 (Z.ltb_lt _ _)) by lia. rewrite Hb.
    eapply bind_done; [done|]. rewrite Nat2Z.id.
    eapply bind_done; [by apply on_conn_run|]. cbv beta iota. rewrite Hp.
    eapply bind_done; [by apply on_dev_run|].
    rewrite (uwrap_small 32 (Z.of_nat n)) by lia. rewrite (proj2 (Z.leb_gt _ _)) by lia.
    rewrite !(uwrap_small 32) by lia. rewrite <-Nat2Z.inj_add, <-Nat2Z.inj_sub by lia. rewrite Hls.
    destruct (stream_size <=? _); done. }
  rewrite stream_size_val, BUFFER_SIZE_val in Hbody. exists n, segs'.
  unfold absorb. fold x. rewrite Hx, BUFFER_SIZE_val.
  destruct (Z.eqb_spec (Z.of_nat (length cur + n)) 131072) as [Hfull|Hfull].
  - rewrite (proj2 (Z.leb_le _ _)) in Hbody by lia.
    assert (overwrite (length cur) x bs = cur ++ x) as Hbs.
    { transitivity (take (length (cur ++ x)) (overwrite (length cur) x bs)); [symmetry; apply take_ge|done].
      unfold is_block in Hlo. rewrite BUFFER_SIZE_val in Hlo. rewrite length_app. lia. }
    destruct (sink_write_block log b (overwrite (length cur) x bs) d1 Hh1 Hlo) as (d2 & Hw & Hi).
    destruct (sink_get _ d2 Hi) as (b' & bs' & d3 & Hg & Hh3 & Hl3).
    do 2 eexists. do 4 (split; [done|]). split.
    { rewrite Hbody. eapply bind_done; [by apply on_dev_run|].
      eapply bind_done; [by apply on_dev_run|]. done. }
    do 2 (split; [done|]). exists b', bs'. rewrite Hbs in Hh3. simpl. rewrite BUFFER_SIZE_val. repeat split; try done; lia.
  - rewrite (proj2 (Z.leb_gt _ _)) in Hbody by lia.
    do 2 eexists. do 4 (split; [done|]). split; [exact Hbody|].
    do 2 (split; [done|]). exists b, (overwrite (length cur) x bs).
    simpl. rewrite Hto, !length_app, Hx, BUFFER_SIZE_val. repeat split; try done; lia.
Qed.

(** The inner loop takes in the payload of one packet. *)
Lemma fill_loop fuel log cur v s d segs tail :
  filling log cur v d → rx s = segs ++ tail → solid segs → Forall is_byte (concat segs) →
  recv_size v = Z.of_nat (length (concat segs)) →
  Z.of_nat (length cur + length (concat segs)) ≤ BUFFER_SIZE →
  (length (concat segs) < fuel)%nat →
  ∃ v' d', iterate fuel fill_body v (mk_session s d) = Done (v', mk_session (set_rx tail s) d') ∧
    start_cmd v' = start_cmd v ∧ recv_size v' = 0 ∧
    let st := absorb (log, cur) (concat segs) in filling (fst st) (snd st) v' d'.
Proof.
  revert log cur v s d segs. induction fuel as [|fuel IH];
    intros log cur v s d segs Hfill Hrx Hs Hby Hz Hl Hf; [lia|].
  rewrite iterate_unfold. destruct (decide (segs = [])) as [->|Hne].
  - exists v, d. simpl in *. assert (set_rx tail s = s) as -> by (destruct s; simpl in *; by subst).
    split; [|split; [done|split; [done|]]].
    + eapply bind_done; [unfold fill_body; by rewrite Hz|done].
    + rewrite Nat.add_0_r, app_nil_r.
      destruct Hfill as (? & ? & ? & ? & ? & ? & ? & Hc).
      destruct (Z.eqb_spec (Z.of_nat (length cur)) BUFFER_SIZE); [lia|]. by do 2 eexists.
  - destruct (fill_round log cur v s d segs tail) as (n & segs' & v1 & d1 & Hn & Hn2 & Hs' & Hcc & Hb & Hst & Hz' & Hfill'); try done.
    assert (length (concat segs') = length (concat segs) - n)%nat as Hls by (by rewrite Hcc, length_drop).
    set (x := take n (concat segs)) in *.
    assert (length x = n) as Hx by (unfold x; rewrite length_take; lia).
    destruct (decide (length (concat segs') = 0%nat)) as [Hzero|Hzero].
    + (* the payload is complete *)
      assert (segs' = []) as -> by (apply solid_nil; [done|by apply nil_length_inv]).
      assert (x = concat segs) as Hxx by (unfold x; apply take_ge; simpl in Hls; lia).
      exists v1, d1. split; [|split; [done|split; [done|by rewrite <-Hxx]]].
      eapply bind_done; [exact Hb|]. cbv beta iota. destruct fuel as [|fuel]; [lia|].
      rewrite iterate_unfold. eapply bind_done; [unfold fill_body; by rewrite Hz'|done].
    + destruct (IH (absorb (log, cur) x).1 (absorb (log, cur) x).2 v1 (set_rx (segs' ++ tail) s) d1 segs')
        as (v2 & d2 & Hr & Hst2 & Hz2 & Hfill2); try done; try lia.
      { rewrite Hcc. by apply Forall_drop. }
      { unfold absorb. destruct (Z.eqb_spec (Z.of_nat (length cur + length x)) BUFFER_SIZE); simpl; [lia|].
        rewrite length_app. lia. }
      exists v2, d2. split; [|split; [by rewrite Hst2|split; [done|]]].
      * eapply bind_done; [exact Hb|]. exact Hr.
      * assert (absorb (log, cur) (concat segs) = absorb (absorb (log, cur) x) (concat segs')) as ->;
          [|by rewrite <-surjective_pairing in Hfill2].
        assert (concat segs = x ++ concat segs') as -> by (unfold x; by rewrite Hcc, take_drop).
        unfold absorb at 3. destruct (Z.eqb_spec (Z.of_nat (length cur + length x)) BUFFER_SIZE); [lia|].
        unfold absorb. rewrite !length_app, Nat.add_assoc, app_assoc. done.
Qed.

(** Receiving the two header fields of a packet, in one segment or two. *)
Lemma wire_header_run p segs tail old size s :
  packet_segs p segs → rx s = segs ++ tail → length old = 1%nat →
  ∃ psegs s1, solid psegs ∧ concat psegs = p ∧
    recv_into old s = Done ((1, [6]), s1) ∧
    recv_into (le_bytes 4 size) s1 =
      Done ((4, le_bytes 4 (Z.of_nat (length p))), set_rx (psegs ++ tail) s).
Proof.
  intros (more & psegs & Hs & -> & [-> | ->]) Hrx Hold; exists (rest_of more psegs).
  all: set (n := Z.of_nat (length (more ++ concat psegs))) in *.
  - eexists. split; [by destruct more; [done|constructor]|]. split; [by destruct more|]. split.
    + eapply (recv_into_whole _ [6] (le_bytes 4 n ++ more)); [by rewrite Hrx|done|simpl; lia].
    + rewrite (recv_into_whole _ (le_bytes 4 n) more (psegs ++ tail));
        [|by destruct more|by rewrite !length_le_bytes|rewrite length_le_bytes; lia].
      by destruct more.
  - eexists. split; [by destruct more; [done|constructor]|]. split; [by destruct more|]. split.
    + eapply (recv_into_whole _ [6] []); [by rewrite Hrx|done|simpl; lia].
    + rewrite (recv_into_whole _ (le_bytes 4 n) more (psegs ++ tail));
        [|done|by rewrite !length_le_bytes|rewrite length_le_bytes; lia].
      by destruct more.
Qed.

(** The outer loop takes in one packet and acknowledges it with the byte 1. *)
Lemma packet_round inner log cur v s d p segs tail k :
  filling log cur v d → packet_segs p segs → rx s = segs ++ tail → length (start_cmd v) = 1%nat →
  sends_left s = Some (S k) → Forall is_byte p → Z.of_nat (length cur + length p) ≤ BUFFER_SIZE →
  BUFFER_SIZE < Z.of_nat inner →
  ∃ v' d', packet_body inner v (mk_session s d) =
      Done (inl v', mk_session (set_tx (tx s ++ [1]) (Some k) (set_rx tail s)) d') ∧
    start_cmd v' = [6] ∧ recv_size v' = 0 ∧
    let st := absorb (log, cur) p in filling (fst st) (snd st) v' d'.
Proof.
  intros Hfill Hp Hrx Hlen Hs Hby Hl Hin.
  destruct (wire_header_run p segs tail (start_cmd v) (recv_size v) s Hp Hrx Hlen)
    as (psegs & s1 & Hsol & <- & Hcmd & Hsize).
  pose proof BUFFER_SIZE_val as HB.
  set (v1 := mk_write_vars [6] (Z.of_nat (length (concat psegs))) (buffer_ptr v) (ch_buffer v)
               (stream_n v) (accu_size v)).
  destruct (fill_loop inner log cur v1 (set_rx (psegs ++ tail) s) d psegs tail)
    as (v2 & d2 & Hr & Hst & Hz & Hfill2); try done; [lia|].
  exists v2, d2. split; [|done]. unfold packet_body.
  eapply bind_done; [apply on_conn_run; exact Hcmd|]. cbv beta iota. cbn [nth start_cmd recv_size].
  eapply bind_done.
  { eapply bind_done; [apply on_conn_run; exact Hsize|]. cbv beta iota.
    rewrite le_val_bytes by (simpl; lia). exact Hr. }
  eapply bind_done; [apply on_conn_run; simpl; unfold send; simpl; rewrite Hs; reflexivity|]. done.
Qed.

(** After the stream ended every round only tries to send. *)
Lemma ended_round inner v s d :
  rx s = [] → length (start_cmd v) = 1%nat → recv_size v = 0 → (0 < inner)%nat →
  packet_body inner v (mk_session s d) =
    match send [1] s with
    | Done (r, s') => Done (if r =? -1 then inr v else inl v, mk_session s' d)
    | Fault f => Fault f
    end.
Proof.
  intros Hrx Hlen Hz Hin. unfold packet_body.
  assert (∀ old, (0 < length old)%nat → on_conn (recv_into old) (mk_session s d) =
    Done ((rx_end s, old), mk_session s d)) as Hend.
  { intros old Hold. by apply on_conn_run, recv_into_end. }
  assert (mk_write_vars (start_cmd v) (recv_size v) (buffer_ptr v) (ch_buffer v) (stream_n v)
    (accu_size v) = v) as Hv by (by destruct v).
  eapply bind_done; [apply Hend; lia|]. cbv beta iota. rewrite Hv. destruct inner as [|inner]; [lia|].
  eapply (bind_done _ _ _ v (mk_session s d)).
  { destruct (_ =? _); [|done].
    eapply bind_done; [apply Hend; rewrite length_le_bytes; lia|]. cbv beta iota.
    rewrite Hz. change (le_val (le_bytes 4 0)) with 0. rewrite <-Hz at 1. rewrite Hv.
    rewrite iterate_unfold. eapply bind_done; [unfold fill_body; by rewrite Hz|done]. }
  unfold send. destruct (sends_left s) as [[|k]|] eqn:Es.
  - eapply bind_done; [apply on_conn_run; unfold send; simpl; by rewrite Es|]. done.
  - eapply bind_done; [apply on_conn_run; unfold send; simpl; by rewrite Es|]. done.
  - eapply bind_done; [apply on_conn_run; unfold send; simpl; by rewrite Es|]. done.
Qed.

Lemma ended_loop k fuel inner v s d :
  rx s = [] → length (start_cmd v) = 1%nat → recv_size v = 0 → (0 < inner)%nat →
  sends_left s = Some k → (k < fuel)%nat →
  ∃ s', iterate fuel (packet_body inner) v (mk_session s d) = Done (v, mk_session s' d).
Proof.
  revert fuel s. induction k as [|k IH]; intros fuel s Hrx Hl Hz Hi Hs Hf;
    (destruct fuel as [|fuel]; [lia|]); rewrite iterate_unfold.
  - eexists. eapply bind_done; [rewrite ended_round by done; unfold send; rewrite Hs; reflexivity|]. done.
  - destruct (IH fuel (set_tx (tx s ++ [1]) (Some k) s)) as [s' Hr]; try done; [lia|].
    exists s'. eapply bind_done; [rewrite ended_round by done; unfold send; rewrite Hs; reflexivity|].
    exact Hr.
Qed.

(** The loop over a list of packets, up to the end of the stream and the broken
    connection behind it. *)
Lemma packets_loop ps fuel inner log cur v s d segss k :
  filling log cur v d → Forall2 packet_segs ps segss → Forall (Forall is_byte) ps → rx s = concat segss →
  length (start_cmd v) = 1%nat → recv_size v = 0 → aligned (length cur) ps →
  sends_left s = Some k → (length ps ≤ k)%nat → (k < fuel)%nat → BUFFER_SIZE < Z.of_nat inner →
  ∃ v' s' d', iterate fuel (packet_body inner) v (mk_session s d) = Done (v', mk_session s' d') ∧
    let st := foldl absorb (log, cur) ps in filling (fst st) (snd st) v' d'.
Proof.
  intros Hfill Hps. revert fuel log cur v s d k Hfill.
  induction Hps as [|p segs ps segss Hp _ IH]; intros fuel log cur v s d k Hfill Hby Hrx Hl Hz Ha Hs Hk Hf Hin.
  - destruct (ended_loop k fuel inner v s d) as [s' Hr]; try done; [pose proof BUFFER_SIZE_val; lia|].
    by exists v, s', d.
  - destruct fuel as [|fuel]; [lia|]. destruct k as [|k]; [simpl in Hk; lia|].
    simpl in Ha. destruct Ha as [Hle Ha]. apply Forall_cons_1 in Hby as [Hbp Hby].
    destruct (packet_round inner log cur v s d p segs (concat segss) k)
      as (v1 & d1 & Hr & Hst & Hz1 & Hfill1); try done.
    destruct (IH fuel (absorb (log, cur) p).1 (absorb (log, cur) p).2 v1
      (set_tx (tx s ++ [1]) (Some k) (set_rx (concat segss) s)) d1 k) as (v2 & s2 & d2 & Hr2 & Hfill2); try done.
    + by rewrite Hst.
    + unfold absorb. destruct (_ =? BUFFER_SIZE); simpl; [done|]. by rewrite length_app.
    + simpl in Hk. lia.
    + lia.
    + rewrite <-surjective_pairing in Hfill2. exists v2, s2, d2. split; [|done].
      rewrite iterate_unfold. eapply bind_done; [exact Hr|]. exact Hr2.
Qed.

End StreamLemmas.

(** ** The loop that sends a stream *)

Definition stream_packet (blk : list Z) : list Z := take (Z.to_nat send_size) blk.

(** The bytes of a packet of the read stream. *)
Definition packet_bytes (p : list Z) : list Z :=
  [Z.shiftl (call_code CALL_READ_STREAM) 1] ++ le_bytes 4 send_size ++ p.

#[global] Arguments stream_packet : simpl never.
#[global] Arguments packet_bytes : simpl never.

Lemma stream_packet_length blk : is_block blk → Z.of_nat (length (stream_packet blk)) = send_size.
Proof.
  intros Hblk. unfold is_block in Hblk. rewrite BUFFER_SIZE_val in Hblk.
  unfold stream_packet. rewrite length_take. change send_size with 8192. lia.
Qed.

Section SendLemmas.
Context `{Stack} {D : Type} `{StreamSource D}.
Implicit Types (s : socket) (d : D).

Lemma send_round blk blocks d s v :
  delivers (blk :: blocks) d → is_block blk →
  match send (packet_bytes (stream_packet blk)) s with
  | Done (r, s') =>
      if r <=? 0 then ∃ d', send_body v (mk_session s d) = Done (inr tt, mk_session s' d')
      else ∃ v' d', send_body v (mk_session s d) = Done (inl v', mk_session s' d') ∧ delivers blocks d'
  | Fault _ => False
  end.
Proof.
  intros Hd Hb. destruct v as [accu sn].
  destruct (source_round blk blocks d Hd Hb) as (b & d1 & d2 & Hg & Hsy & Hby & Hre).
  destruct (Hre (replicate (Z.to_nat read_stream_size) (u8 (-1)))) as (d3 & d4 & Hf & Hr & Hd4).
  { unfold is_block. rewrite length_replicate, Z2Nat.id; [done|]. vm_compute. congruence. }
  assert (∀ r s', send (packet_bytes (stream_packet blk)) s = Done (r, s') →
    send_body (accu, sn) (mk_session s d) =
      (if r <=? 0 then Done (inr tt, mk_session s' d2)
       else Done (inl (u64 (accu + r), u32 (sn + 1)), mk_session s' d4))) as Hrun.
  { intros r s' Hs. unfold send_body.
    eapply bind_done; [by apply on_dev_run|].
    eapply bind_done; [by apply on_dev_run|].
    eapply bind_done.
    { eapply bind_done; [apply on_dev_run, Hby; rewrite Z2Nat.id; vm_compute; congruence|].
      apply on_conn_run. unfold writev. rewrite <-Hs. unfold packet_bytes, stream_packet.
      simpl. by rewrite app_nil_r. }
    destruct (r <=? 0); [done|]. eapply bind_done; [done|].
    eapply bind_done; [by apply on_dev_run|].
    eapply bind_done; [by apply on_dev_run|]. done. }
  destruct (send _ s) as [[r s']|f] eqn:Es.
  - rewrite (Hrun r s') by done. destruct (r <=? 0); eauto.
  - unfold send in Es. by destruct (sends_left s) as [[]|].
Qed.

(** [k] packets are sent before the connection breaks, and the loop ends. *)
Lemma send_loop k fuel blocks d s v :
  delivers blocks d → Forall is_block blocks → (k < length blocks)%nat →
  sends_left s = Some k → (k < fuel)%nat →
  ∃ s' d', iterate fuel send_body v (mk_session s d) = Done (tt, mk_session s' d') ∧
    tx s' = tx s ++ concat ((packet_bytes ∘ stream_packet) <$> take k blocks).
Proof.
  revert fuel blocks d s v. induction k as [|k IH]; intros fuel blocks d s v Hd Hb Hl Hs Hf;
    (destruct fuel as [|fuel]; [lia|]); (destruct blocks as [|blk blocks]; [simpl in Hl; lia|]);
    rewrite iterate_unfold; apply Forall_cons_1 in Hb as [Hblk Hb];
    pose proof (send_round blk blocks d s v Hd Hblk) as Hround; unfold send in Hround; rewrite Hs in Hround.
  - simpl in Hround. destruct Hround as [d' Hr]. exists s, d'.
    split; [eapply bind_done; [exact Hr|done]|]. by rewrite take_0, app_nil_r.
  - rewrite (proj2 (Z.leb_gt _ _)) in Hround by (unfold packet_bytes; simpl; lia).
    destruct Hround as (v' & d' & Hr & Hd').
    destruct (IH fuel blocks d' (set_tx (tx s ++ packet_bytes (stream_packet blk)) (Some k) s) v')
      as (s2 & d2 & Hr2 & Ht2); try done; [simpl in Hl; lia|lia|].
    exists s2, d2. split; [eapply bind_done; [exact Hr|exact Hr2]|].
    rewrite Ht2. simpl. by rewrite <-app_assoc.
Qed.

End SendLemmas.

(** ** Properties *)

Section Properties.
Context `{Stack}.

(** When the client's connection fails instead of ending, the server's loop
    over register commands never returns: the error is taken for a command. *)
Theorem mapped_loop_spins {D} `{MappedDevice D} (fuel : nat) (s : socket) (d : D) :
  rx s = [] → rx_end s = -1 → mapped_cmd_loop fuel (mk_session s d) = Fault OutOfFuel.
Proof.
  intros Hrx He. unfold mapped_cmd_loop.
  apply (iterate_diverges (λ _ se, se = mk_session s d)); [|done].
  intros [] se ->. exists tt, (mk_session s d). split; [|done].
  eapply bind_done; [apply handle_end; [done|lia]|]. by rewrite He.
Qed.

(** A packet that crosses the end of a block and arrives at once overruns the
    transfer buffer: only the number of bytes already in the buffer is compared
    with its size, after the fact. *)
Theorem straddling_packet_overruns {D} `{StreamSink D} inner log cur v (d : D) s p :
  filling log cur v d → rx s = [[6] ++ le_bytes 4 (Z.of_nat (length p)) ++ p] →
  length (start_cmd v) = 1%nat → Z.of_nat (length p) < 2 ^ 32 →
  BUFFER_SIZE < Z.of_nat (length cur + length p) → (0 < inner)%nat →
  packet_body inner v (mk_session s d) = Fault OutOfBounds.
Proof.
  intros (b & bs & Hb & Hh & Hlb & Ht & Hp & Hc) Hrx Hl Hlp Hover Hin.
  unfold is_block in Hlb.
  assert (0 < length p)%nat as Hpos by lia.
  unfold packet_body. eapply bind_done.
  { apply on_conn_run. by apply (recv_into_whole _ [6] (le_bytes 4 (Z.of_nat (length p)) ++ p) []); [|done|simpl; lia]. }
  cbv beta iota. cbn [nth start_cmd recv_size buffer_ptr ch_buffer stream_n accu_size].
  apply bind_fault. eapply bind_done.
  { apply on_conn_run. eapply (recv_into_whole _ (le_bytes 4 (Z.of_nat (length p))) p []);
      [done|by rewrite !length_le_bytes|rewrite length_le_bytes; lia]. }
  cbv beta iota. rewrite le_val_bytes by (simpl; lia). destruct inner as [|inner]; [lia|].
  rewrite iterate_unfold. apply bind_fault. unfold fill_body. cbn [ch_buffer recv_size buffer_ptr].
  rewrite (proj2 (Z.ltb_lt _ _)) by lia. rewrite Hb. eapply bind_done; [done|].
  rewrite Nat2Z.id. eapply bind_done.
  { apply on_conn_run. apply (recv_whole p [] []); [|done]. simpl. rewrite app_nil_r. destruct p; [simpl in Hpos; lia|done]. }
  cbv beta iota. apply bind_fault. rewrite Hp. unfold on_dev, zoom.
  rewrite (sink_bound log b bs) by (done || lia). done.
Qed.

(** A failed receive inside a packet is not noticed: it is counted as
    2^32 - 1 received bytes, so at the start of a block the buffer is handed to
    the hardware although nothing arrived, and the loop goes on. *)
Theorem failed_receive_sends_block {D} `{StreamSink D} log v (d : D) s :
  filling log [] v d → rx s = [] → rx_end s = -1 → 0 < recv_size v < 2 ^ 32 - 1 →
  ∃ v' d' bs, fill_body v (mk_session s d) = Done (inl v', mk_session s d') ∧
    filling (log ++ [bs]) [] v' d' ∧ recv_size v' = recv_size v + 1.
Proof.
  intros (b & bs & Hb & Hh & Hlb & _ & Hp & _) Hrx He Hz.
  change (2 ^ 32) with 4294967296 in Hz. simpl in Hp.
  destruct (sink_fill log b bs 0 [] d Hh) as (d1 & Hf & Hh1); [done|simpl; lia|]. rewrite overwrite_nil in Hh1.
  destruct (sink_write_block log b bs d1 Hh1 Hlb) as (d2 & Hw & Hi).
  destruct (sink_get _ d2 Hi) as (b' & bs' & d3 & Hg & Hh3 & Hl3).
  exists (mk_write_vars (start_cmd v) (recv_size v + 1) 0 (Some b') (u32 (stream_n v + 1))
            (u64 (accu_size v + 4294967295))), d3, bs.
  split; [|split; [exists b', bs'; by repeat split|done]].
  unfold fill_body. rewrite (proj2 (Z.ltb_lt _ _)) by lia. rewrite Hb. eapply bind_done; [done|].
  eapply bind_done; [apply on_conn_run, recv_end; [lia|done]|]. cbv beta iota. rewrite Hp.
  eapply bind_done; [by apply on_dev_run|]. cbn [conn]. rewrite He. change (u32 (-1)) with 4294967295.
  change (4294967295 <=? 0) with false. cbv iota.
  change (stream_size <=? u32 (0 + 4294967295)) with true. cbv iota.
  eapply bind_done; [by apply on_dev_run|]. eapply bind_done; [by apply on_dev_run|].
  assert (u32 (recv_size v - 4294967295) = recv_size v + 1) as ->; [|done].
  unfold uwrap. rewrite <-(Z.mod_add _ 1) by done. rewrite Z.mod_small; lia.
Qed.

End Properties.

(** ** Concrete runs *)

Definition demo_device : mem_device := mk_mem_device [10; 20; 30] (replicate (Z.to_nat BUFFER_SIZE) 0) [] [].
Definition demo_vars (size : Z) : write_vars := mk_write_vars [6] size 0 (Some 0%nat) 0 0.

Lemma demo_block : is_block (replicate (Z.to_nat BUFFER_SIZE) 0).
Proof. unfold is_block. rewrite length_replicate, Z2Nat.id; [done|]. vm_compute. congruence. Qed.

Lemma demo_filling size : filling [] [] (demo_vars size) demo_device.
Proof.
  exists 0%nat, (replicate (Z.to_nat BUFFER_SIZE) 0).
  split; [reflexivity|]. split; [split; reflexivity|]. split; [exact demo_block|].
  split; [reflexivity|]. split; reflexivity.
Qed.

Lemma mapped_loop_spins_witness :
  mapped_cmd_loop 1000 (mk_session (mk_socket [] (-1) [] None) demo_device) = Fault OutOfFuel.
Proof. apply mapped_loop_spins; reflexivity. Defined.

Lemma straddling_packet_overruns_witness :
  ∃ p, packet_body 1 (demo_vars 0)
    (mk_session (mk_socket [[6] ++ le_bytes 4 (Z.of_nat (length p)) ++ p] 0 [] None) demo_device)
    = Fault OutOfBounds.
Proof.
  exists (replicate (Z.to_nat (BUFFER_SIZE + 1)) 5).
  assert (Z.of_nat (length (replicate (Z.to_nat (BUFFER_SIZE + 1)) 5)) = 131073) as Hl
    by (rewrite length_replicate, Z2Nat.id; [reflexivity|vm_compute; congruence]).
  apply (straddling_packet_overruns 1 [] [] (demo_vars 0) demo_device _
    (replicate (Z.to_nat (BUFFER_SIZE + 1)) 5)); [apply demo_filling|reflexivity|reflexivity| | |lia].
  - rewrite Hl. reflexivity.
  - rewrite Nat.add_0_l, Hl. reflexivity.
Defined.

Lemma failed_receive_sends_block_witness :
  ∃ v' d' bs, fill_body (demo_vars 5) (mk_session (mk_socket [] (-1) [] None) demo_device) =
    Done (inl v', mk_session (mk_socket [] (-1) [] None) d') ∧ filling [bs] [] v' d'.
Proof.
  destruct (failed_receive_sends_block [] (demo_vars 5) demo_device (mk_socket [] (-1) [] None)
    (demo_filling 5) eq_refl eq_refl ltac:(simpl; lia)) as (v' & d' & bs & Hr & Hf & _).
  exists v', d', bs. split; [exact Hr|exact Hf].
Defined.
