(* ===== verification/Monitor.v ===== *)
(** * Monitor: the thread that prints a stream's rate

    [client_write_stream_monitor] of
    [src/userspace/io_backend/src/io_backend_call.c] runs next to
    [client_cmd_write_stream_inf] (modelled in [BackendCall]) and reads the
    [stream_status] in that function's frame.  The two are a transition system:
    the command counts bytes and issued buffers, sets [stop], joins the monitor
    and returns; the monitor tests, loads, sleeps and prints. *)
From Stdlib Require Import ZArith Lia.
From stdpp Require Import base list numbers option.
From S2P Require Import Prelude Socket NetClient DmaChannel Devices BackendCall.

(** ** The shared status *)

(** [struct stream_status]; the socket is not used. *)
Record stream_status := mk_status { ss_stream_n : Z; ss_stop : bool; ss_accu_size : Z }.

Definition set_stop (st : stream_status) : stream_status := mk_status (ss_stream_n st) true (ss_accu_size st).

(** What happens to it while the command runs: a receive brought [n] bytes, a
    receive failed, one more buffer was issued.  The answer of [recv] is stored in
    an unsigned 32-bit number before it is tested and added, so that a failed
    receive, -1, is counted as 2^32 - 1 bytes. *)
Inductive count_event := Received (n : Z) | Failed | Issued.

Definition count_step (e : count_event) (st : stream_status) : stream_status :=
  match e with
  | Received n => mk_status (ss_stream_n st) (ss_stop st) (u64 (ss_accu_size st + u32 n))
  | Failed => mk_status (ss_stream_n st) (ss_stop st) (u64 (ss_accu_size st + u32 (-1)))
  | Issued => mk_status (u32 (ss_stream_n st + 1)) (ss_stop st) (ss_accu_size st)
  end.

(** A receive asks for at most [recv_size] bytes, an unsigned 32-bit number. *)
Definition event_ok (e : count_event) : Prop :=
  match e with Received n => 0 < n < 2 ^ 32 | _ => True end.

(** What an event adds to the bytes that came, and to the receives that failed. *)
Definition received (e : count_event) : Z := match e with Received n => n | _ => 0 end.
Definition failed (e : count_event) : Z := match e with Failed => 1 | _ => 0 end.

(** ** The monitor *)

(** ["-\\|/"]: four characters without a terminator. *)
Definition indicate : list Z := [45; 92; 124; 47].

(** Where the thread is, with [i] and [last_size].  The arguments of [fprintf] are
    loaded one after the other. *)
Inductive monitor :=
| MEnter
| MTest (i : Z)
| MLoad (i : Z)
| MSleep (i last_size : Z)
| MNumber (i last_size : Z)
| MPrint (i last_size stream_n : Z)
| MEnded.

(** One printed line: the character, the number of buffers, and the bytes the
    speed is computed from. *)
Record line := mk_line { ln_char : Z; ln_stream_n : Z; ln_delta : Z }.

(** [i] is an int; [%] rounds towards zero. *)
Definition indicator (i : Z) : option Z :=
  let k := Z.rem i 4 in if k <? 0 then None else indicate !! Z.to_nat k.

(** One step; [None] is a status whose frame is gone. *)
Definition client_write_stream_monitor (s : option stream_status) (m : monitor) : outcome (monitor * list line) :=
  match m with
  | MEnter => Done (MTest 0, [])
  | MTest i =>
      match s with
      | Some st => Done (if ss_stop st then MEnded else MLoad i, [])
      | None => Fault UseAfterFree
      end
  | MLoad i =>
      match s with
      | Some st => Done (MSleep i (ss_accu_size st), [])
      | None => Fault UseAfterFree
      end
  | MSleep i last_size => Done (MNumber i last_size, [])
  | MNumber i last_size =>
      match s with
      | Some st => Done (MPrint i last_size (ss_stream_n st), [])
      | None => Fault UseAfterFree
      end
  | MPrint i last_size n =>
      match s with
      | Some st =>
          match indicator i with
          | Some c => Done (MTest (s32 (i + 1)), [mk_line c n (u64 (ss_accu_size st - last_size))])
          | None => Fault OutOfBounds
          end
      | None => Fault UseAfterFree
      end
  | MEnded => Done (MEnded, [])
  end.

(** ** The command and its monitor *)

(** The command runs, waits in [pthread_join], or has returned. *)
Inductive command := CRun | CJoin | CReturned.

#[export] Instance command_eq_dec : EqDecision command.
Proof. solve_decision. Defined.

(** [ms_monitor] is [None] when the thread could not be created; [ms_total] counts
    the bytes that came and [ms_failed] the receives that failed, in no fixed
    width; [ms_fault] is what stopped the process. *)
Record monitored := mk_monitored {
  ms_status : option stream_status;
  ms_command : command;
  ms_monitor : option monitor;
  ms_lines : list line;
  ms_total : Z;
  ms_failed : Z;
  ms_fault : option fault
}.

(** The result of [pthread_create] is not looked at: without a thread
    [pthread_join] gets a variable nothing was stored to. *)
Inductive monitored_step : monitored → monitored → Prop :=
| ms_count st e m ls t k : event_ok e →
    monitored_step (mk_monitored (Some st) CRun m ls t k None)
      (mk_monitored (Some (count_step e st)) CRun m ls (t + received e) (k + failed e) None)
| ms_set_stop st m ls t k :
    monitored_step (mk_monitored (Some st) CRun m ls t k None) (mk_monitored (Some (set_stop st)) CJoin m ls t k None)
| ms_join s ls t k :
    monitored_step (mk_monitored s CJoin (Some MEnded) ls t k None) (mk_monitored None CReturned (Some MEnded) ls t k None)
| ms_join_none s ls t k :
    monitored_step (mk_monitored s CJoin None ls t k None) (mk_monitored s CJoin None ls t k (Some WildPointer))
| ms_monitor_step s c m ls t k m' l : client_write_stream_monitor s m = Done (m', l) →
    monitored_step (mk_monitored s c (Some m) ls t k None) (mk_monitored s c (Some m') (ls ++ l) t k None)
| ms_monitor_fault s c m ls t k f : client_write_stream_monitor s m = Fault f →
    monitored_step (mk_monitored s c (Some m) ls t k None) (mk_monitored s c (Some m) ls t k (Some f)).

(** The command has just called [pthread_create]. *)
Definition monitored_init (created : bool) : monitored :=
  mk_monitored (Some (mk_status 0 false 0)) CRun (if created then Some MEnter else None) [] 0 0 None.

(** ** Lemmas: the command's loop is such counting *)

(** [recv] answers with the number of bytes it delivers, with 0 at the end of the
    stream and with -1 when it fails; what comes are bytes. *)
Definition socket_ok (s : socket) : Prop :=
  (rx_end s = 0 ∨ rx_end s = -1) ∧ Forall (Forall is_byte) (rx s).

Definition to_come (s : socket) : Z := Z.of_nat (length (concat (rx s))).

Lemma next_piece_account len segs bs segs' :
  next_piece len segs = Some (bs, segs') → Forall (Forall is_byte) segs →
  (length bs ≤ len)%nat ∧ Forall is_byte bs ∧ Forall (Forall is_byte) segs' ∧
  length (concat segs) = (length bs + length (concat segs'))%nat.
Proof.
  induction segs as [|[|x seg] segs IH]; cbn [next_piece]; [done| |].
  { intros Hp Hb. apply IH; [exact Hp|]. by inversion Hb. }
  intros [= <- <-] Hb. apply Forall_cons_1 in Hb as [Hx Hb]. cbn [concat]. rewrite length_app.
  split; [rewrite length_take; lia|]. split; [by apply Forall_take|].
  change (match len with O => false | S m' => (length seg <=? m')%nat end) with (length (x :: seg) <=? len)%nat.
  destruct (Nat.leb_spec (length (x :: seg)) len) as [Hle|Hgt].
  - split; [done|]. rewrite take_ge by done. done.
  - split; [constructor; [by apply Forall_drop|done]|]. cbn [concat].
    rewrite length_app, length_take, length_drop. lia.
Qed.

Lemma recv_account len s r bs s' :
  recv len s = Done ((r, bs), s') → socket_ok s →
  socket_ok s' ∧ Forall is_byte bs ∧ (length bs ≤ len)%nat ∧ to_come s = Z.of_nat (length bs) + to_come s' ∧
  (r = Z.of_nat (length bs) ∨ bs = [] ∧ r = -1).
Proof.
  unfold recv, to_come. intros Hr [He Hb]. destruct (len =? 0)%nat.
  { injection Hr as <- <- <-. do 2 (split; [done|]). split; [simpl; lia|]. split; [done|by left]. }
  destruct (next_piece len (rx s)) as [[bs0 segs]|] eqn:Hp; injection Hr as <- <- <-.
  - destruct (next_piece_account _ _ _ _ Hp Hb) as (Hl & Hbs & Hsegs & Hc). cbn [rx set_rx].
    split; [by split|]. split; [done|]. split; [done|]. split; [lia|by left].
  - do 2 (split; [done|]). split; [simpl; lia|]. split; [done|]. destruct He as [->| ->]; [by left|by right].
Qed.

Lemma recv_into_account old s r bs s' :
  recv_into old s = Done ((r, bs), s') → Forall is_byte old → socket_ok s →
  socket_ok s' ∧ Forall is_byte bs ∧ length bs = length old ∧ to_come s' ≤ to_come s.
Proof.
  unfold recv_into. intros ([r0 bs0] & s1 & Hr & Hb)%bind_inv Hold Hok. injection Hb as <- <- <-.
  destruct (recv_account _ _ _ _ _ Hr Hok) as (Hok' & Hbs & Hl & Hc & _).
  split; [done|]. split; [apply Forall_app; split; [done|by apply Forall_drop]|].
  split; [rewrite length_app, length_drop; lia|lia].
Qed.

Section Counts.
Context {D : Type} `{StreamDevice D} `{Stack}.
Implicit Types (v : write_vars) (s : session D).

Definition counts v : stream_status := mk_status (stream_n v) false (accu_size v).

Lemma on_conn_inv {A} (m : M socket A) s a s' :
  on_conn m s = Done (a, s') → ∃ c, m (conn s) = Done (a, c) ∧ conn s' = c.
Proof. unfold on_conn, zoom. destruct (m (conn s)) as [[a' c]|f]; [|done]. intros [= <- <-]. by eexists. Qed.

Lemma on_dev_inv {A} (m : M D A) s a s' : on_dev m s = Done (a, s') → conn s' = conn s.
Proof. unfold on_dev, zoom. destruct (m (dev s)) as [[a' d]|f]; [|done]. by intros [= <- <-]. Qed.

(** From [v] and [s] to [v'] and [s'] the status changed by counting, and the bytes
    counted as received came over the connection. *)
Definition counted_to v s v' s' : Prop :=
  socket_ok (conn s') ∧ (recv_size v' < 2 ^ 32) ∧
  ∃ es, Forall event_ok es ∧ counts v' = foldl (λ st e, count_step e st) (counts v) es ∧
    foldr (λ e n, received e + n) 0 es + to_come (conn s') ≤ to_come (conn s).

Lemma counted_trans v s v1 s1 v' s' : counted_to v s v1 s1 → counted_to v1 s1 v' s' → counted_to v s v' s'.
Proof.
  intros (_ & _ & es1 & Ho1 & Hc1 & Hl1) (Hok & Hsz & es2 & Ho2 & Hc2 & Hl2). split; [done|]. split; [done|].
  exists (es1 ++ es2). split; [by apply Forall_app|]. split; [by rewrite foldl_app, <-Hc1|].
  assert (foldr (λ e n, received e + n) 0 (es1 ++ es2) =
    foldr (λ e n, received e + n) 0 es1 + foldr (λ e n, received e + n) 0 es2) as ->; [|lia].
  clear. induction es1 as [|e es1 IH]; simpl; lia.
Qed.

Lemma fill_body_counts v v' s s' r :
  fill_body v s = Done (r, s') → socket_ok (conn s) → recv_size v < 2 ^ 32 → r = inl v' ∨ r = inr v' →
  counted_to v s v' s'.
Proof.
  unfold fill_body. intros Hb Hok Hsz Hr.
  assert (∀ s1, socket_ok (conn s1) → to_come (conn s1) ≤ to_come (conn s) → counted_to v s v s1) as Hsame
    by (intros s1 Hok1 Hle; split; [done|]; split; [done|]; exists []; by split).
  destruct (Z.ltb_spec 0 (recv_size v)) as [Hpos|Hneg].
  2:{ injection Hb as <- <-. destruct Hr as [Hr|Hr]; [done|]. injection Hr as <-. by apply Hsame. }
  apply bind_inv in Hb as (b & s1 & Hq & Hb).
  assert (s1 = s) as -> by (unfold require in Hq; destruct (ch_buffer v); [by injection Hq|done]).
  apply bind_inv in Hb as ([n bs] & s2 & Hrecv & Hb). apply on_conn_inv in Hrecv as (c & Hrecv & Hc2).
  destruct (recv_account _ _ _ _ _ Hrecv Hok) as (Hok2 & _ & Hlen & Hcome & Hn). rewrite <-Hc2 in *.
  apply bind_inv in Hb as ([] & s3 & Hfill & Hb). apply on_dev_inv in Hfill. rewrite <-Hfill in *.
  destruct (Z.leb_spec (u32 n) 0) as [Hz|Hz].
  { injection Hb as <- <-. destruct Hr as [Hr|Hr]; [done|]. injection Hr as <-. apply Hsame; [done|lia]. }
  set (e := if bool_decide (n = -1) then Failed else Received n).
  assert (event_ok e ∧ received e + to_come (conn s3) ≤ to_come (conn s) ∧
    count_step e (counts v) = mk_status (stream_n v) false (u64 (accu_size v + u32 n))) as (He & Hle & Hst).
  { unfold e. case_bool_decide as Hm; [subst n; split; [done|]; split; [simpl; lia|done]|].
    destruct Hn as [Hn|[_ Hn]]; [|done]. assert (0 < n) by (destruct (decide (n = 0)) as [->|]; [done|lia]).
    split; [simpl; lia|]. split; [simpl; lia|done]. }
  assert (∀ x, u32 x < 2 ^ 32) as Hw by (intros x; apply (uwrap_range 32); lia).
  destruct (stream_size <=? _).
  - apply bind_inv in Hb as ([] & s4 & Hwr & Hb). apply on_dev_inv in Hwr.
    apply bind_inv in Hb as (b' & s5 & Hg & Hb). apply on_dev_inv in Hg.
    injection Hb as <- <-. destruct Hr as [Hr|Hr]; [|done]. injection Hr as <-.
    rewrite <-Hwr, <-Hg in Hle. rewrite <-Hwr, <-Hg in Hok2. split; [done|]. split; [apply Hw|].
    exists [e; Issued]. split; [by repeat constructor|]. cbn [foldl foldr]. rewrite Hst. split; [done|simpl; lia].
  - injection Hb as <- <-. destruct Hr as [Hr|Hr]; [|done]. injection Hr as <-. split; [done|]. split; [apply Hw|].
    exists [e]. split; [by repeat constructor|]. cbn [foldl foldr]. rewrite Hst. split; [done|lia].
Qed.

Lemma fill_loop_counts inner v v' s s' :
  iterate inner fill_body v s = Done (v', s') → socket_ok (conn s) → recv_size v < 2 ^ 32 → counted_to v s v' s'.
Proof.
  revert v s. induction inner as [|inner IH]; intros v s; [done|]. rewrite iterate_unfold.
  intros (r & s1 & Hb & Hr)%bind_inv Hok Hsz. destruct r as [v1|v1].
  - pose proof (fill_body_counts v v1 s s1 _ Hb Hok Hsz (or_introl eq_refl)) as Hc.
    eapply counted_trans; [exact Hc|]. destruct Hc as (Hok1 & Hsz1 & _). by apply IH.
  - injection Hr as <- <-. by apply (fill_body_counts v v1 s s1 _ Hb Hok Hsz), or_intror.
Qed.

Lemma packet_body_counts inner v v' s s' r :
  packet_body inner v s = Done (r, s') → Forall is_byte (start_cmd v) → socket_ok (conn s) → recv_size v < 2 ^ 32 →
  r = inl v' ∨ r = inr v' → counted_to v s v' s'.
Proof.
  unfold packet_body. intros ([n cmd] & s1 & Hcmd & Hb)%bind_inv Hby Hok Hsz Hr.
  apply on_conn_inv in Hcmd as (c1 & Hcmd & Hc1). destruct (recv_into_account _ _ _ _ _ Hcmd Hby Hok) as (Hok1 & _ & _ & Hle1).
  rewrite <-Hc1 in *. apply bind_inv in Hb as (v1 & s2 & Hv & Hb). apply bind_inv in Hb as (x & s3 & Hsend & Hb).
  assert (v' = v1 ∧ s' = s3) as [-> ->] by (injection Hb as <- <-; destruct (x =? -1); destruct Hr as [Hr|Hr]; split; congruence).
  apply on_conn_inv in Hsend as (c3 & Hsend & Hc3).
  assert (rx c3 = rx (conn s2) ∧ rx_end c3 = rx_end (conn s2)) as [Hrx3 Hend3]
    by (unfold send in Hsend; destruct (sends_left _) as [[|k]|]; by injection Hsend as _ <-).
  assert (∀ w, counted_to v s w s2 → counted_to v s w s3) as Hsent.
  { intros w (Ho & Hz & es & H1 & H2 & H3). unfold counted_to, socket_ok, to_come in *.
    rewrite Hc3, Hrx3, Hend3. split; [done|]. split; [done|]. by exists es. }
  apply Hsent. destruct (nth 0 cmd 0 =? call_code CALL_WRITE_STREAM).
  - apply bind_inv in Hv as ([y size] & s4 & Hsize & Hv). apply on_conn_inv in Hsize as (c4 & Hsize & Hc4).
    destruct (recv_into_account _ _ _ _ _ Hsize (le_bytes_bytes _ _) Hok1) as (Hok4 & Hbs & Hl & Hle4). rewrite <-Hc4 in *.
    rewrite length_le_bytes in Hl.
    apply fill_loop_counts in Hv; [|done|pose proof (le_val_range size Hbs) as Hlv; rewrite Hl in Hlv; cbn [recv_size]; lia].
    destruct Hv as (Ho & Hz & es & H1 & H2 & H3). split; [done|]. split; [done|]. exists es.
    split; [done|]. split; [exact H2|lia].
  - injection Hv as <- <-. split; [done|]. split; [done|]. exists []. split; [done|]. split; [done|simpl; lia].
Qed.

End Counts.

(** ** Lemmas: the invariant *)

Definition deltas (ls : list line) : Z := foldr (λ l n, ln_delta l + n) 0 ls.

Lemma deltas_snoc ls l : deltas (ls ++ [l]) = deltas ls + ln_delta l.
Proof. induction ls as [|l0 ls IH]; simpl; lia. Qed.

(** The counter of the lines is the monitor's [i], an int. *)
Definition place_ok (ls : list line) (m : monitor) : Prop :=
  match m with
  | MEnter => ls = []
  | MTest i | MLoad i | MSleep i _ | MNumber i _ | MPrint i _ _ => i = s32 (Z.of_nat (length ls))
  | MEnded => True
  end.

(** What the monitor knows of the bytes received: it has printed no more than had
    come when it last looked, and never looked at a later count than the present. *)
Definition bytes_ok (ls : list line) (t : Z) (m : monitor) : Prop :=
  match m with
  | MSleep _ last | MNumber _ last | MPrint _ last _ => 0 ≤ deltas ls ≤ last ∧ last ≤ t
  | _ => 0 ≤ deltas ls ≤ t
  end.

(** The bytes counted: those that came, and 2^32 - 1 for every failed receive. *)
Definition counted (t k : Z) : Z := t + k * (2 ^ 32 - 1).

Record monitored_inv (x : monitored) : Prop := {
  mi_total : 0 ≤ counted (ms_total x) (ms_failed x);
  mi_status : ∀ st, ms_status x = Some st → ss_accu_size st = u64 (counted (ms_total x) (ms_failed x));
  mi_alive : ms_command x ≠ CReturned → is_Some (ms_status x);
  mi_monitor : ∃ m, ms_monitor x = Some m ∧ (ms_command x = CReturned → m = MEnded) ∧
    place_ok (ms_lines x) m ∧
    (counted (ms_total x) (ms_failed x) < 2 ^ 64 → bytes_ok (ms_lines x) (counted (ms_total x) (ms_failed x)) m);
  mi_fault : ms_fault x = None ∨ 2 ^ 31 ≤ Z.of_nat (length (ms_lines x));
  mi_lines : ∀ k l, ms_lines x !! k = Some l → Z.of_nat k < 2 ^ 31 →
    Some (ln_char l) = indicate !! (k mod 4)%nat
}.

Lemma s32_succ n : s32 (s32 n + 1) = s32 (n + 1).
Proof.
  unfold swrap. replace ((n + 2 ^ (32 - 1)) mod 2 ^ 32 - 2 ^ (32 - 1) + 1 + 2 ^ (32 - 1))
    with ((n + 2 ^ (32 - 1)) mod 2 ^ 32 + 1) by lia.
  rewrite Z.add_mod_idemp_l by done. do 2 f_equal. lia.
Qed.

(** The character of line [n]. *)
Lemma indicator_line n : Z.of_nat n < 2 ^ 31 → indicator (s32 (Z.of_nat n)) = indicate !! (n mod 4)%nat ∧ is_Some (indicate !! (n mod 4)%nat).
Proof.
  intros Hn. rewrite swrap_small by (simpl; lia). unfold indicator.
  rewrite Z.rem_mod_nonneg by lia. rewrite (proj2 (Z.ltb_ge _ _)) by (apply Z.mod_pos_bound; lia).
  rewrite Z2Nat.inj_mod by lia. rewrite Nat2Z.id. split; [done|].
  apply lookup_lt_is_Some. apply Nat.mod_upper_bound. done.
Qed.

Lemma count_step_total st e t k :
  event_ok e → ss_accu_size st = u64 (counted t k) →
  counted t k ≤ counted (t + received e) (k + failed e) ∧
  ss_accu_size (count_step e st) = u64 (counted (t + received e) (k + failed e)).
Proof.
  unfold counted. intros He Ha. destruct e as [n| |]; cbn [event_ok received failed count_step ss_accu_size] in *.
  - split; [lia|]. rewrite (uwrap_small 32) by lia. rewrite Ha. unfold uwrap. rewrite Z.add_mod_idemp_l by done. f_equal. lia.
  - split; [lia|]. change (u32 (-1)) with (2 ^ 32 - 1). rewrite Ha. unfold uwrap. rewrite Z.add_mod_idemp_l by done. f_equal. lia.
  - split; [lia|]. rewrite Ha. f_equal. lia.
Qed.

(** A step of the monitor keeps what it knows. *)
Lemma monitor_step_ok st m m' l ls t :
  ss_accu_size st = u64 t → 0 ≤ t → place_ok ls m → (t < 2 ^ 64 → bytes_ok ls t m) →
  client_write_stream_monitor (Some st) m = Done (m', l) →
  place_ok (ls ++ l) m' ∧ (t < 2 ^ 64 → bytes_ok (ls ++ l) t m') ∧
  (l = [] ∨ ∃ d, l = [d] ∧ (Z.of_nat (length ls) < 2 ^ 31 → Some (ln_char d) = indicate !! (length ls mod 4)%nat)).
Proof.
  intros Ha Ht Hp Hb. destruct m as [|i|i|i last|i last|i last n|]; simpl in *.
  - intros [= <- <-]. subst ls. split; [done|]. split; [intros _; simpl; lia|by left].
  - intros [= <- <-]. rewrite app_nil_r. split; [by destruct (ss_stop st)|]. split; [by destruct (ss_stop st)|by left].
  - intros [= <- <-]. rewrite app_nil_r. split; [done|]. split; [|by left]. intros Hlt. specialize (Hb Hlt).
    simpl. rewrite Ha, uwrap_small by lia. lia.
  - intros [= <- <-]. rewrite app_nil_r. split; [done|]. split; [done|by left].
  - intros [= <- <-]. rewrite app_nil_r. split; [done|]. split; [done|by left].
  - destruct (indicator i) as [c|] eqn:Hc; [|done]. intros [= <- <-]. split; [|split].
    + simpl. rewrite Hp, s32_succ, length_app. f_equal. simpl. lia.
    + intros Hlt. specialize (Hb Hlt). simpl. rewrite deltas_snoc. cbn [ln_delta].
      rewrite Ha, (uwrap_small 64 t), uwrap_small by lia. lia.
    + right. eexists. split; [done|]. intros Hn. cbn [ln_char]. rewrite <-Hc, Hp. by apply indicator_line.
  - intros [= <- <-]. rewrite app_nil_r. split; [done|]. split; [done|by left].
Qed.

Lemma monitor_step_fault st m ls f :
  place_ok ls m → client_write_stream_monitor (Some st) m = Fault f → 2 ^ 31 ≤ Z.of_nat (length ls).
Proof.
  destruct m as [|i|i|i last|i last|i last n|]; simpl; try done. intros Hp.
  destruct (indicator i) as [c|] eqn:Hc; [done|]. intros _. destruct (decide (Z.of_nat (length ls) < 2 ^ 31)) as [Hlt|]; [|lia].
  destruct (indicator_line _ Hlt) as [Hi [c Hs]]. rewrite Hp, Hi, Hs in Hc. done.
Qed.

Lemma monitored_init_inv : monitored_inv (monitored_init true).
Proof.
  split; unfold counted; simpl.
  - lia.
  - by intros st [= <-].
  - by eexists.
  - exists MEnter. split; [done|]. split; [done|]. split; [done|]. intros _. simpl. lia.
  - by left.
  - done.
Qed.

Lemma monitored_step_inv x x' : monitored_inv x → monitored_step x x' → monitored_inv x'.
Proof.
  intros [Ht Hst Hal (m0 & Hm0 & Hret & Hp & Hb) Hf Hl] Hs.
  destruct Hs as [st e m ls t k Hc|st m ls t k|s ls t k|s ls t k|s c m ls t k m' l Hc|s c m ls t k f Hc];
    cbn [ms_status ms_command ms_monitor ms_lines ms_total ms_failed ms_fault] in *.
  - destruct (count_step_total st e t k Hc (Hst st eq_refl)) as [Hle Ha].
    split; cbn [ms_status ms_command ms_monitor ms_lines ms_total ms_failed ms_fault]; [lia|by intros ? [= <-]|by eexists| |by left|done].
    exists m0. split; [done|]. split; [done|]. split; [done|].
    revert Hle. generalize (counted (t + received e) (k + failed e)). intros t' Hle Hlt.
    specialize (Hb (Z.le_lt_trans _ _ _ Hle Hlt)). destruct m0; simpl in *; lia.
  - split; cbn [ms_status ms_command ms_monitor ms_lines ms_total ms_failed ms_fault]; [done|intros ? [= <-]; by apply (Hst st)|by eexists| |by left|done]. exists m0. split; [done|]. by split.
  - injection Hm0 as <-. split; cbn [ms_status ms_command ms_monitor ms_lines ms_total ms_failed ms_fault]; [done|done|done| |by left|done]. exists MEnded. done.
  - done.
  - injection Hm0 as <-. destruct (decide (c = CReturned)) as [->|Hne].
    { rewrite (Hret eq_refl) in Hc. simpl in Hc. injection Hc as <- <-. rewrite app_nil_r. specialize (Hret eq_refl). subst m.
      split; cbn [ms_status ms_command ms_monitor ms_lines ms_total ms_failed ms_fault]; [done|done|done| |by left|done]. by exists MEnded. }
    destruct (Hal Hne) as [st ->].
    destruct (monitor_step_ok st m m' l ls (counted t k) (Hst st eq_refl) Ht Hp Hb Hc) as (Hp' & Hb' & Hline).
    split; cbn [ms_status ms_command ms_monitor ms_lines ms_total ms_failed ms_fault]; [done|done|done| |by left|].
    + exists m'. split; [done|]. split; [|by split]. intros Heq. done.
    + intros n d Hk Hlt. destruct Hline as [->|(d' & -> & Hd')]; [rewrite app_nil_r in Hk; by eapply Hl|].
      apply lookup_app_Some in Hk as [Hk|[Hge Hk]]; [by eapply Hl|].
      apply list_lookup_singleton_Some in Hk as [Hk ->]. assert (n = length ls) as -> by lia. by apply Hd'.
  - injection Hm0 as <-. destruct (decide (c = CReturned)) as [->|Hne]; [by rewrite (Hret eq_refl) in Hc|].
    destruct (Hal Hne) as [st ->]. split; cbn [ms_status ms_command ms_monitor ms_lines ms_total ms_failed ms_fault]; [done|done|done| |right; by eapply monitor_step_fault|done].
    exists m. done.
Qed.

Lemma monitored_reachable x :
  reachable (λ y, y = monitored_init true) monitored_step x → monitored_inv x.
Proof. apply reachable_invariant; [intros ? ->; apply monitored_init_inv|apply monitored_step_inv]. Qed.

(** Once [stop] is set the monitor ends within six of its steps. *)
Fixpoint monitor_run (n : nat) (s : option stream_status) (m : monitor) : outcome monitor :=
  match n with
  | O => Done m
  | S n' =>
      match client_write_stream_monitor s m with
      | Done (m', _) => monitor_run n' s m'
      | Fault f => Fault f
      end
  end.

(** ** Properties *)

(** C40: The monitor of a stream is safe in every state that it and the command it
    watches can reach together: it never touches the status after the command has
    returned, and nothing else stops the process before it has printed 2^31 lines;
    line k shows character k mod 4 of the indicator; once the command waits for it,
    it ends.  The bytes its lines account for are never more than were counted
    (fewer than 2^64), and counted are the bytes that came and 2^32 - 1 for every
    receive that failed: as long as none failed, never more than came. *)
Theorem monitor_safe x :
  reachable (λ y, y = monitored_init true) monitored_step x →
  Z.of_nat (length (ms_lines x)) < 2 ^ 31 →
  ms_fault x = None ∧
  (∀ k l, ms_lines x !! k = Some l → Some (ln_char l) = indicate !! (k mod 4)%nat) ∧
  (ms_total x + ms_failed x * (2 ^ 32 - 1) < 2 ^ 64 →
   deltas (ms_lines x) ≤ ms_total x + ms_failed x * (2 ^ 32 - 1)) ∧
  (ms_failed x = 0 → ms_total x < 2 ^ 64 → deltas (ms_lines x) ≤ ms_total x) ∧
  (ms_command x = CReturned → ms_monitor x = Some MEnded) ∧
  ∀ st m, ms_status x = Some st → ss_stop st = true → ms_monitor x = Some m →
    monitor_run 6 (Some st) m = Done MEnded.
Proof.
  intros Hr Hlen. destruct (monitored_reachable x Hr) as [Ht Hst Hal (m0 & Hm0 & Hret & Hp & Hb) Hf Hl].
  assert (counted (ms_total x) (ms_failed x) < 2 ^ 64 → deltas (ms_lines x) ≤ counted (ms_total x) (ms_failed x)) as Hd.
  { intros Hlt. specialize (Hb Hlt). destruct m0; simpl in Hb; lia. }
  split; [destruct Hf; [done|lia]|]. split; [|split; [exact Hd|split; [|split]]].
  - intros k l Hk. apply (Hl k l Hk). apply lookup_lt_Some in Hk. lia.
  - intros Hz Hlt. unfold counted in Hd. rewrite Hz in Hd. lia.
  - intros Hc. by rewrite (Hret Hc) in Hm0.
  - intros st m _ Hstop Hm. rewrite Hm in Hm0. injection Hm0 as <-.
    destruct (indicator_line _ Hlen) as [Hi [c Hs]].
    destruct m as [|i|i|i last|i last|i last n|]; simpl in Hp; rewrite ?Hp; cbn [monitor_run client_write_stream_monitor];
      rewrite ?Hstop, ?Hi, ?Hs; cbn [monitor_run client_write_stream_monitor]; rewrite ?Hstop; reflexivity.
Qed.

(** Without a thread the command ends in [pthread_join] on a variable nothing was
    stored to. *)
Theorem unmonitored_join :
  reachable (λ y, y = monitored_init false) monitored_step
    (mk_monitored (Some (mk_status 0 true 0)) CJoin None [] 0 0 (Some WildPointer)).
Proof.
  exists (monitored_init false). split; [done|]. eapply star_step; [apply ms_set_stop|].
  apply star_one, ms_join_none.
Qed.

(** A failed receive alone makes the monitor print 4294967295 bytes, of none that
    came. *)
Theorem failed_receive_overcounts :
  ∃ x, reachable (λ y, y = monitored_init true) monitored_step x ∧
    ms_total x = 0 ∧ ms_failed x = 1 ∧ deltas (ms_lines x) = 4294967295.
Proof.
  exists (mk_monitored (Some (mk_status 0 false 4294967295)) CRun (Some (MTest 1)) [mk_line 45 0 4294967295] 0 1 None).
  split; [|done]. exists (monitored_init true). split; [done|].
  eapply star_step; [by eapply (ms_monitor_step _ _ MEnter)|].
  eapply star_step; [by eapply (ms_monitor_step _ _ (MTest 0))|].
  eapply star_step; [by eapply (ms_monitor_step _ _ (MLoad 0))|].
  eapply star_step; [by apply (ms_count _ Failed)|].
  eapply star_step; [by eapply (ms_monitor_step _ _ (MSleep 0 0))|].
  eapply star_step; [by eapply (ms_monitor_step _ _ (MNumber 0 0))|].
  apply star_one.
  exact (ms_monitor_step (Some (mk_status 0 false 4294967295)) CRun (MPrint 0 0 0) [] 0 1 (MTest 1) [mk_line 45 0 4294967295] eq_refl).
Qed.

Lemma monitor_safe_witness :
  let x := mk_monitored (Some (mk_status 0 false 8192)) CRun (Some (MTest 1)) [mk_line 45 0 8192] 8192 0 None in
  ms_fault x = None ∧ deltas (ms_lines x) ≤ ms_total x.
Proof.
  intros x. destruct (monitor_safe x) as (Hf & _ & _ & Hd & _).
  - exists (monitored_init true). split; [done|].
    eapply star_step; [by eapply (ms_monitor_step _ _ MEnter)|].
    eapply star_step; [by eapply (ms_monitor_step _ _ (MTest 0))|].
    eapply star_step; [by eapply (ms_monitor_step _ _ (MLoad 0))|].
    eapply star_step; [apply (ms_count _ (Received 8192)); simpl; lia|].
    eapply star_step; [by eapply (ms_monitor_step _ _ (MSleep 0 0))|].
    eapply star_step; [by eapply (ms_monitor_step _ _ (MNumber 0 0))|].
    apply star_one.
    exact (ms_monitor_step (Some (mk_status 0 false 8192)) CRun (MPrint 0 0 0) [] 8192 0 (MTest 1) [mk_line 45 0 8192] eq_refl).
  - reflexivity.
  - split; [exact Hf|]. by apply Hd.
Defined.
