(* ===== verification/RawCalls.v ===== *)
(** * RawCalls: commands on raw descriptors and addresses

    The commands of [src/userspace/io_backend/src/io_backend_call.c] that name
    descriptors and addresses of the server's process ([client_cmd_open],
    [client_cmd_mmap], [client_cmd_ioctl] and the two bursts), and their local
    counterparts in [src/lib/bbio/src/bbio_backend_local.c].  No dispatcher calls
    them any more; the code is kept, and so is its model.  The system calls are
    the class [RawOs]. *)
From Stdlib Require Import ZArith Lia.
From stdpp Require Import base list numbers option gmap.
From S2P Require Import Prelude Socket DmaChannel Devices BackendCall.

(** ** The process and its system calls *)

(** [raw_mmap fd len] answers an address and the bytes now visible there;
    [raw_ioctl fd request payload] also what it leaves in [payload]. *)
Class RawOs (O : Type) := {
  raw_open : list Z → Z → O → Z * O;
  raw_close : Z → O → Z * O;
  raw_mmap : Z → Z → O → Z * list Z * O;
  raw_ioctl : Z → Z → Z → O → Z * Z * O
}.

(** [pr_mem] are the mapped bytes of the address space. *)
Record process (O : Type) := mk_process { pr_mem : gmap Z Z; pr_os : O }.
Arguments mk_process {O}.
Arguments pr_mem {O}.
Arguments pr_os {O}.

(** The [n] bytes at [addr], if all are mapped. *)
Fixpoint peek (addr : Z) (n : nat) (m : gmap Z Z) : option (list Z) :=
  match n with
  | O => Some []
  | S n' => b ← m !! addr; bs ← peek (addr + 1) n' m; Some (b :: bs)
  end.

Fixpoint poke (addr : Z) (bs : list Z) (m : gmap Z Z) : gmap Z Z :=
  match bs with
  | [] => m
  | b :: bs' => poke (addr + 1) bs' (<[addr := b]> m)
  end.

(** A string ends at its first zero byte; reading past a heap block is a fault. *)
Fixpoint c_string (bs : list Z) : option (list Z) :=
  match bs with
  | [] => None
  | b :: bs' => if b =? 0 then Some [] else (λ s, b :: s) <$> c_string bs'
  end.

Section Calls.
Context `{Stack} {O : Type} `{RawOs O}.
Abbreviation sess := (session (process O)).

Definition sys {A} (f : O → A * O) : M (process O) A :=
  λ p, let '(a, o) := f (pr_os p) in Done (a, mk_process (pr_mem p) o).

Definition sys_mmap (fd len : Z) : M (process O) Z := λ p,
  let '(addr, bs, o) := raw_mmap fd len (pr_os p) in Done (addr, mk_process (poke addr bs (pr_mem p)) o).

(** [recv(sockfd, addr, len, 0)] and [send(sockfd, addr, len, 0)] on an address:
    the kernel answers -1 when it is not mapped. *)
Definition recv_at (addr : Z) (len : nat) : M sess Z :=
  p ← on_dev get;
  match peek addr len (pr_mem p) with
  | None => mret (-1)
  | Some _ =>
      '(r, bs) ← on_conn (recv len);
      on_dev (modify (λ p, mk_process (poke addr bs (pr_mem p)) (pr_os p))) ;;
      mret r
  end.

Definition send_at (addr : Z) (len : nat) : M sess Z :=
  p ← on_dev get;
  match peek addr len (pr_mem p) with
  | None => mret (-1)
  | Some bs => on_conn (send bs)
  end.

(** The block [file_path] points to is never freed. *)
Definition client_cmd_open : M sess unit :=
  '(_, len) ← on_conn (recv_into (garbage 1));
  let file_path_len := le_val len in
  when (0 <? file_path_len)
    ('(_, file_path) ← on_conn (recv_into (garbage (Z.to_nat file_path_len)));
     '(_, flag) ← on_conn (recv_into (garbage 4));
     path ← require OutOfBounds (c_string file_path);
     local_fd ← on_dev (sys (raw_open path (s32 (le_val flag))));
     on_conn (send (le_bytes 4 local_fd)) ;;
     mret tt).

Definition client_cmd_mmap : M sess unit :=
  '(_, fd) ← on_conn (recv_into (garbage 4));
  '(_, len) ← on_conn (recv_into (garbage 8));
  ptr ← on_dev (sys_mmap (s32 (le_val fd)) (le_val len));
  on_conn (send (le_bytes 8 ptr)) ;;
  mret tt.

Definition client_cmd_ioctl : M sess unit :=
  '(_, fd) ← on_conn (recv_into (garbage 4));
  '(_, request) ← on_conn (recv_into (garbage 8));
  '(_, payload) ← on_conn (recv_into (garbage 4));
  '(ret, _) ← on_dev (sys (raw_ioctl (s32 (le_val fd)) (le_val request) (s32 (le_val payload))));
  on_conn (send (le_bytes 4 ret)) ;;
  mret tt.

(** [while (total_size > 0)]: [addr] does not move, and [recv_size] is the last
    answer. *)
Definition burst_body (addr : Z) (v : Z * Z) : M sess ((Z * Z) + Z) :=
  let '(total_size, recv_size) := v in
  if 0 <? total_size then
    r ← recv_at addr (Z.to_nat total_size);
    mret (inl (total_size - r, r))
  else mret (inr recv_size).

Definition client_cmd_write_burst (fuel : nat) : M sess unit :=
  '(_, addr) ← on_conn (recv_into (garbage 8));
  '(_, size) ← on_conn (recv_into (garbage 4));
  recv_size ← iterate fuel (burst_body (le_val addr)) (s32 (le_val size), 0);
  on_conn (send (le_bytes 4 recv_size)) ;;
  mret tt.

Definition client_cmd_read_burst : M sess unit :=
  '(_, addr) ← on_conn (recv_into (garbage 8));
  '(_, size) ← on_conn (recv_into (garbage 4));
  send_at (le_val addr) (Z.to_nat (le_val size)) ;;
  mret tt.

(** ** The local backend's pass-through functions *)

Definition io_open_local (file : list Z) (flag : Z) : M (process O) Z := sys (raw_open file flag).
Definition io_close_local (fd : Z) : M (process O) Z := sys (raw_close fd).
Definition io_mmap_local (fd len : Z) : M (process O) Z := sys_mmap fd len.
Definition io_ioctl_local (fd request payload : Z) : M (process O) (Z * Z) := sys (raw_ioctl fd request payload).

(** [memcpy(to, from, size)] with the size as a 16-bit result; a byte that is not
    mapped is a fault. *)
Definition memcpy (to from : Z) (n : nat) : M (process O) unit := λ p,
  match peek from n (pr_mem p), peek to n (pr_mem p) with
  | Some bs, Some _ => Done (tt, mk_process (poke to bs (pr_mem p)) (pr_os p))
  | _, _ => Fault WildPointer
  end.

Definition io_write_busrt_local (addr data size : Z) : M (process O) Z :=
  memcpy addr data (Z.to_nat size) ;; mret (u16 size).
Definition io_read_busrt_local (addr data size : Z) : M (process O) Z :=
  memcpy data addr (Z.to_nat size) ;; mret (u16 size).

End Calls.

(** ** The control thread of a read stream *)

(** [client_read_stream_control], which nothing starts: it waits for the end of
    the connection and notes whether a synchronisation was asked for.  The result
    are [ctrl->s.stop] and [ctrl->sync]. *)
Definition control_body (v : list Z * Z) : M socket ((list Z * Z) + (Z * Z)) :=
  let '(cmd, sync) := v in
  '(n, cmd) ← recv_into cmd;
  if n <=? 0 then mret (inr (1, sync))
  else mret (inl (cmd, if nth 0 cmd 0 =? Z.shiftl (call_code CALL_SYNC_STREAM) 1 then 1 else sync)).

Definition client_read_stream_control (fuel : nat) : M socket (Z * Z) :=
  iterate fuel control_body ([0], 0).

(** ** Lemmas: memory *)

Lemma poke_other addr bs m k :
  k < addr ∨ addr + Z.of_nat (length bs) ≤ k → poke addr bs m !! k = m !! k.
Proof.
  revert addr m. induction bs as [|b bs IH]; intros addr m Hk; [done|]. cbn [poke length] in *.
  rewrite IH by lia. rewrite lookup_insert_ne; [done|lia].
Qed.

Lemma peek_poke addr bs m : peek addr (length bs) (poke addr bs m) = Some bs.
Proof.
  revert addr m. induction bs as [|b bs IH]; intros addr m; [done|]. cbn [length peek poke].
  rewrite poke_other by lia. rewrite lookup_insert_eq. cbn. by rewrite IH.
Qed.

Lemma length_peek addr n m bs : peek addr n m = Some bs → length bs = n.
Proof.
  revert addr bs. induction n as [|n IH]; intros addr bs; cbn [peek]; [by intros [= <-]|].
  destruct (m !! addr) as [b|]; [|done]. cbn. destruct (peek (addr + 1) n m) as [bs'|] eqn:E; [|done].
  intros [= <-]. simpl. f_equal. by eapply IH.
Qed.

(** Storing keeps what is mapped mapped. *)
Lemma peek_stays addr n m a bs : is_Some (peek addr n m) → is_Some (peek addr n (poke a bs m)).
Proof.
  assert (∀ k, is_Some (m !! k) → is_Some (poke a bs m !! k)) as Hstay.
  { revert a m. induction bs as [|b bs IH]; intros a m k Hk; [done|]. cbn [poke]. apply IH.
    destruct (decide (k = a)) as [->|Hne]; [by rewrite lookup_insert_eq|by rewrite lookup_insert_ne]. }
  revert addr. induction n as [|n IH]; intros addr; [done|]. cbn [peek].
  intros [x Hx]. destruct (m !! addr) as [b|] eqn:Eb; [|done]. cbn in Hx.
  destruct (peek (addr + 1) n m) as [bs'|] eqn:E; [|done].
  destruct (Hstay addr) as [b' Hb']; [by rewrite Eb|]. destruct (IH (addr + 1)) as [bs2 Hbs2]; [by rewrite E|].
  exists (b' :: bs2). by rewrite Hb', Hbs2.
Qed.

(** A range inside a mapped range is mapped. *)
Lemma peek_le addr n k m : (k ≤ n)%nat → is_Some (peek addr n m) → is_Some (peek addr k m).
Proof.
  revert addr k. induction n as [|n IH]; intros addr k Hk [x Hx]; [by replace k with 0%nat by lia|].
  destruct k as [|k]; [done|]. cbn [peek] in *. destruct (m !! addr) as [b|]; [|done]. cbn in *.
  destruct (peek (addr + 1) n m) as [bs|] eqn:E; [|done].
  destruct (IH (addr + 1) k) as [bs2 Hbs2]; [lia|by rewrite E|]. exists (b :: bs2). by rewrite Hbs2.
Qed.

(** ** Lemmas: receiving into memory *)

Section Lemmas.
Context `{Stack} {O : Type} `{RawOs O}.
Abbreviation sess := (session (process O)).
Implicit Types (s : socket) (p : process O).

Lemma on_conn_done {A} (m : M socket A) s p a s' :
  m s = Done (a, s') → on_conn m (mk_session s p) = Done (a, mk_session s' p).
Proof. intros Hm. unfold on_conn, zoom. cbn [conn dev]. by rewrite Hm. Qed.

Lemma on_dev_done {A} (m : M (process O) A) s p a p' :
  m p = Done (a, p') → on_dev m (mk_session s p) = Done (a, mk_session s p').
Proof. intros Hm. unfold on_dev, zoom. cbn [conn dev]. by rewrite Hm. Qed.

(** A field of a request. *)
Lemma field_run f fs segs s p :
  carries segs (f :: fs) → rx s = segs →
  ∃ s', on_conn (recv_into (garbage (length f))) (mk_session s p) =
          Done ((Z.of_nat (length f), f), mk_session s' p) ∧
    carries (rx s') fs ∧ tx s' = tx s ∧ sends_left s' = sends_left s ∧ rx_end s' = rx_end s.
Proof.
  intros Hc Hrx. destruct (recv_field (garbage (length f)) f fs segs s Hc Hrx (garbage_length _)) as (segs' & Hc' & Hr).
  exists (set_rx segs' s). split; [by apply on_conn_done|]. done.
Qed.

(** One piece that arrives whole is stored at the address. *)
Lemma recv_at_run addr n bs more segs s p :
  is_Some (peek addr n (pr_mem p)) → rx s = (bs ++ more) :: segs →
  (0 < length bs)%nat → length bs = n ∨ (length bs < n)%nat ∧ more = [] →
  recv_at addr n (mk_session s p) =
    Done (Z.of_nat (length bs),
          mk_session (set_rx (rest_of more segs) s) (mk_process (poke addr bs (pr_mem p)) (pr_os p))).
Proof.
  intros [x Hx] Hrx Hb Hn. unfold recv_at. eapply bind_done; [by apply on_dev_done|]. cbv beta.
  rewrite Hx. eapply bind_done.
  { apply on_conn_done. destruct Hn as [<-|[Hlt ->]]; [by apply recv_whole|].
    unfold recv. rewrite (proj2 (Nat.eqb_neq n 0)) by lia. rewrite Hrx, app_nil_r.
    destruct bs as [|b bs]; [simpl in Hb; lia|]. cbn [next_piece].
    rewrite take_ge, (proj2 (Nat.leb_le _ _)) by lia. reflexivity. }
  eapply bind_done; [by apply on_dev_done|]. done.
Qed.

Lemma send_run bs s p :
  sends_left s = None →
  on_conn (send bs) (mk_session s p) = Done (Z.of_nat (length bs), mk_session (set_tx (tx s ++ bs) None s) p).
Proof. intros Hs. by apply on_conn_done, send_ok. Qed.

(** The head of a burst: an address and a size. *)
Lemma burst_head addr size fs s p :
  carries (rx s) (le_bytes 8 addr :: le_bytes 4 size :: fs) →
  ∃ s1 s2, on_conn (recv_into (garbage 8)) (mk_session s p) = Done ((8, le_bytes 8 addr), mk_session s1 p) ∧
    on_conn (recv_into (garbage 4)) (mk_session s1 p) = Done ((4, le_bytes 4 size), mk_session s2 p) ∧
    carries (rx s2) fs ∧ tx s2 = tx s ∧ sends_left s2 = sends_left s ∧ rx_end s2 = rx_end s.
Proof.
  intros Hc. destruct (field_run _ _ _ s p Hc eq_refl) as (s1 & H1 & Hc1 & Ht1 & Hs1 & He1).
  destruct (field_run _ _ _ s1 p Hc1 eq_refl) as (s2 & H2 & Hc2 & Ht2 & Hs2 & He2).
  rewrite length_le_bytes in H1, H2. exists s1, s2. split; [exact H1|]. split; [exact H2|].
  split; [exact Hc2|]. split; [congruence|]. split; congruence.
Qed.

Lemma head_whole addr size more segs s p :
  more ≠ [] → rx s = (le_bytes 8 addr ++ le_bytes 4 size ++ more) :: segs →
  ∃ s1, on_conn (recv_into (garbage 8)) (mk_session s p) = Done ((8, le_bytes 8 addr), mk_session s1 p) ∧
    on_conn (recv_into (garbage 4)) (mk_session s1 p) =
      Done ((4, le_bytes 4 size), mk_session (set_rx (more :: segs) s) p).
Proof.
  intros Hne Hrx. pose proof (length_le_bytes 8 addr) as H8. pose proof (length_le_bytes 4 size) as H4.
  revert Hrx H8 H4. generalize (le_bytes 8 addr) (le_bytes 4 size). intros a8 s4 Hrx H8 H4.
  exists (set_rx ((s4 ++ more) :: segs) s). split; apply on_conn_done.
  - rewrite (recv_into_whole (garbage 8) a8 (s4 ++ more) segs s) by (rewrite ?garbage_length; done || lia).
    rewrite H8. destruct s4; [done|]. done.
  - rewrite (recv_into_whole (garbage 4) s4 more segs) by (rewrite ?garbage_length; done || lia).
    rewrite H4. by destruct more.
Qed.

(** A burst whose bytes arrive in one piece. *)
Lemma write_burst_run fuel addr bs fs s p :
  carries (rx s) (le_bytes 8 addr :: le_bytes 4 (Z.of_nat (length bs)) :: bs :: fs) → sends_left s = None →
  0 ≤ addr < 2 ^ 64 → Z.of_nat (length bs) < 2 ^ 31 → is_Some (peek addr (length bs) (pr_mem p)) → (1 < fuel)%nat →
  ∃ s', client_cmd_write_burst fuel (mk_session s p) =
      Done (tt, mk_session s' (mk_process (poke addr bs (pr_mem p)) (pr_os p))) ∧
    tx s' = tx s ++ le_bytes 4 (Z.of_nat (length bs)) ∧ carries (rx s') fs ∧ sends_left s' = None.
Proof.
  intros Hc Hsl Ha Hlen Hmap Hf. destruct (burst_head _ _ _ s p Hc) as (s1 & s2 & H1 & H2 & Hc2 & Ht2 & Hs2 & _).
  apply carries_cons_inv in Hc2 as (Hne & more & segs & Hrx & Hc3).
  assert (0 < length bs)%nat as Hpos by (destruct bs; simpl; [done|lia]).
  destruct fuel as [|[|fuel]]; [lia|lia|].
  exists (set_tx (tx s2 ++ le_bytes 4 (Z.of_nat (length bs))) None (set_rx (rest_of more segs) s2)).
  split; [|split; [cbn; by rewrite Ht2|by split]].
  - unfold client_cmd_write_burst. eapply bind_done; [exact H1|]. cbv beta iota.
    eapply bind_done; [exact H2|]. cbv beta iota.
    rewrite !le_val_bytes by (simpl; lia). rewrite (swrap_small 32) by lia. rewrite iterate_unfold.
    eapply bind_done.
    { eapply bind_done.
      { unfold burst_body at 1. rewrite (proj2 (Z.ltb_lt _ _)) by lia. rewrite Nat2Z.id.
        eapply bind_done; [eapply (recv_at_run addr (length bs) bs more segs); [done|done|lia|by left]|]. reflexivity. }
      cbv beta iota. rewrite iterate_unfold. eapply bind_done;
        [unfold burst_body; rewrite (proj2 (Z.ltb_ge _ _)) by lia; reflexivity|reflexivity]. }
    cbv beta. eapply bind_done; [apply send_run; cbn; congruence|]. reflexivity.
Qed.

Lemma read_burst_run addr bs fs s p :
  carries (rx s) (le_bytes 8 addr :: le_bytes 4 (Z.of_nat (length bs)) :: fs) → sends_left s = None →
  0 ≤ addr < 2 ^ 64 → Z.of_nat (length bs) < 2 ^ 32 → peek addr (length bs) (pr_mem p) = Some bs →
  ∃ s', client_cmd_read_burst (mk_session s p) = Done (tt, mk_session s' p) ∧ tx s' = tx s ++ bs ∧
    carries (rx s') fs.
Proof.
  intros Hc Hsl Ha Hlen Hp. destruct (burst_head _ _ _ s p Hc) as (s1 & s2 & H1 & H2 & Hc2 & Ht2 & Hs2 & _).
  exists (set_tx (tx s2 ++ bs) None s2). split; [|split; [cbn; by rewrite Ht2|exact Hc2]].
  - unfold client_cmd_read_burst. eapply bind_done; [exact H1|]. cbv beta iota.
    eapply bind_done; [exact H2|]. cbv beta iota. rewrite !le_val_bytes by (simpl; lia). rewrite Nat2Z.id.
    assert (send_at addr (length bs) (mk_session s2 p) =
      Done (Z.of_nat (length bs), mk_session (set_tx (tx s2 ++ bs) None s2) p)) as Hsend.
    { unfold send_at. eapply bind_done; [by apply on_dev_done|]. cbv beta.
      rewrite Hp. apply send_run. congruence. }
    eapply bind_done; [exact Hsend|reflexivity].
Qed.

End Lemmas.

(** ** Properties *)

Section Properties.
Context `{Stack} {O : Type} `{RawOs O}.
Implicit Types (s : socket) (p : process O).

(** What a burst writes a burst reads back: bytes that arrive in one piece,
    behind their address and length in any segmentation that splits no field,
    are stored at that address of the server's memory, their number is answered,
    and a read of the same range answers the bytes.  Nothing but their being
    mapped is asked of the address. *)
Theorem burst_roundtrip fuel addr bs s p :
  let head := [le_bytes 8 addr; le_bytes 4 (Z.of_nat (length bs))] in
  carries (rx s) (head ++ [bs] ++ head) → sends_left s = None → 0 ≤ addr < 2 ^ 64 →
  Z.of_nat (length bs) < 2 ^ 31 → is_Some (peek addr (length bs) (pr_mem p)) → (1 < fuel)%nat →
  ∃ s' p', (client_cmd_write_burst fuel ;; client_cmd_read_burst) (mk_session s p) = Done (tt, mk_session s' p') ∧
    tx s' = tx s ++ le_bytes 4 (Z.of_nat (length bs)) ++ bs ∧ rx s' = [] ∧
    ∀ k, k < addr ∨ addr + Z.of_nat (length bs) ≤ k → pr_mem p' !! k = pr_mem p !! k.
Proof.
  intros head Hc Hs Ha Hl Hm Hf.
  destruct (write_burst_run fuel addr bs head s p Hc Hs Ha Hl Hm Hf) as (s1 & H1 & Ht1 & Hc1 & Hs1).
  destruct (read_burst_run addr bs [] s1 (mk_process (poke addr bs (pr_mem p)) (pr_os p)) Hc1 Hs1 Ha) as (s2 & H2 & Ht2 & Hc2);
    [lia|apply peek_poke|].
  do 2 eexists. split; [eapply bind_done; [exact H1|exact H2]|]. split; [by rewrite Ht2, Ht1, app_assoc|].
  split; [by inversion Hc2|]. intros k Hk. by apply poke_other.
Qed.

(** Bytes that arrive in two pieces are lost: the second piece is stored over the
    first, and only its length is answered. *)
Theorem split_burst_overwrites fuel addr a b s p :
  a ≠ [] → b ≠ [] → sends_left s = None → 0 ≤ addr < 2 ^ 64 → Z.of_nat (length a + length b) < 2 ^ 31 →
  rx s = [le_bytes 8 addr ++ le_bytes 4 (Z.of_nat (length a + length b)) ++ a; b] →
  is_Some (peek addr (length a + length b) (pr_mem p)) → (2 < fuel)%nat →
  ∃ s', client_cmd_write_burst fuel (mk_session s p) =
      Done (tt, mk_session s' (mk_process (poke addr b (poke addr a (pr_mem p))) (pr_os p))) ∧
    tx s' = tx s ++ le_bytes 4 (Z.of_nat (length b)).
Proof.
  intros Hna Hnb Hsl Haddr Hlen Hrx Hm Hf.
  assert (0 < length a)%nat as Ha by (destruct a; simpl; [done|lia]).
  assert (0 < length b)%nat as Hb by (destruct b; simpl; [done|lia]).
  destruct (head_whole addr (Z.of_nat (length a + length b)) a [b] s p Hna Hrx) as (s1 & H1 & H2).
  destruct fuel as [|[|[|fuel]]]; [lia|lia|lia|].
  eexists. split.
  - unfold client_cmd_write_burst. eapply bind_done; [exact H1|]. cbv beta iota.
    eapply bind_done; [exact H2|]. cbv beta iota.
    rewrite !le_val_bytes by (simpl; lia). rewrite (swrap_small 32) by lia.
    eapply bind_done.
    { rewrite iterate_unfold. eapply bind_done.
      { unfold burst_body at 1. rewrite (proj2 (Z.ltb_lt _ _)) by lia. rewrite Nat2Z.id.
        eapply bind_done; [eapply (recv_at_run addr _ a [] [b]); [done|by rewrite app_nil_r|done|right; split; [lia|done]]|].
        reflexivity. }
      cbv beta iota. rewrite iterate_unfold. eapply bind_done.
      { unfold burst_body at 1. rewrite (proj2 (Z.ltb_lt _ _)) by lia.
        replace (Z.to_nat (Z.of_nat (length a + length b) - Z.of_nat (length a))) with (length b) by lia.
        eapply bind_done; [eapply (recv_at_run addr _ b [] []); [|by rewrite app_nil_r|done|by left]|reflexivity].
        apply peek_stays. eapply peek_le; [|exact Hm]. lia. }
      cbv beta iota. rewrite iterate_unfold. eapply bind_done;
        [unfold burst_body; rewrite (proj2 (Z.ltb_ge _ _)) by lia; reflexivity|reflexivity]. }
    cbv beta. eapply bind_done; [apply send_run; exact Hsl|]. reflexivity.
  - reflexivity.
Qed.

(** When the client goes away before its bytes came the command never returns. *)
Theorem ended_burst_spins fuel addr size s p :
  0 < size < 2 ^ 31 → 0 ≤ addr < 2 ^ 64 → rx_end s = 0 → is_Some (peek addr (Z.to_nat size) (pr_mem p)) →
  carries (rx s) [le_bytes 8 addr; le_bytes 4 size] →
  client_cmd_write_burst fuel (mk_session s p) = Fault OutOfFuel.
Proof.
  intros Hsz Ha He [x Hx] Hc. destruct (burst_head addr size [] s p Hc) as (s1 & s2 & H1 & H2 & Hc2 & _ & _ & He2).
  unfold client_cmd_write_burst. eapply bind_done; [exact H1|]. cbv beta iota.
  eapply bind_done; [exact H2|]. cbv beta iota. rewrite !le_val_bytes by (simpl; lia). rewrite (swrap_small 32) by lia.
  apply bind_fault. apply (iterate_diverges (λ v se, fst v = size ∧ se = mk_session s2 p)); [|done].
  intros [t r] se [Ht ->]. cbn [fst] in Ht. subst t.
  assert (rx s2 = []) as Hrx by (by inversion Hc2).
  exists (size - 0, 0), (mk_session s2 p). split; [|split; [cbn; lia|done]].
  unfold burst_body. rewrite (proj2 (Z.ltb_lt _ _)) by lia. unfold recv_at.
  assert (recv (Z.to_nat size) s2 = Done ((0, []), s2)) as Hr.
  { rewrite recv_end by (done || lia). by rewrite He2, He. }
  eapply bind_done; [|reflexivity].
  eapply bind_done; [by apply on_dev_done|]. cbv beta. rewrite Hx. eapply bind_done; [apply on_conn_done, Hr|]. cbv beta iota.
  eapply bind_done; [by apply on_dev_done|]. cbv beta. destruct p. done.
Qed.

(** Opening a file by name: the descriptor is answered; a name without its zero
    byte is read past its block; for an empty name nothing is answered. *)
Theorem open_command path flag s p :
  (length path < 256)%nat → - 2 ^ 31 ≤ flag < 2 ^ 31 → sends_left s = None →
  carries (rx s) ([Z.of_nat (length path)] :: match path with [] => [] | _ => [path; le_bytes 4 (u32 flag)] end) →
  match path, c_string path with
  | [], _ => ∃ s', client_cmd_open (mk_session s p) = Done (tt, mk_session s' p) ∧ tx s' = tx s
  | _, Some name =>
      ∃ s', let '(fd, o) := raw_open name flag (pr_os p) in
        client_cmd_open (mk_session s p) = Done (tt, mk_session s' (mk_process (pr_mem p) o)) ∧
        tx s' = tx s ++ le_bytes 4 fd
  | _, None => client_cmd_open (mk_session s p) = Fault OutOfBounds
  end.
Proof.
  intros Hlen Hflag Hs Hc.
  destruct (field_run _ _ _ s p Hc eq_refl) as (s1 & H1 & Hc1 & Ht1 & Hs1 & _). simpl in H1.
  assert (le_val [Z.of_nat (length path)] = Z.of_nat (length path)) as Hv.
  { cbn [le_val]. unfold le_val. lia. }
  assert (∀ r, (if 0 <? Z.of_nat (length path) then
      ('(_, file_path) ← on_conn (recv_into (garbage (length path)));
       '(_, flag) ← on_conn (recv_into (garbage 4));
       path ← require OutOfBounds (c_string file_path);
       local_fd ← on_dev (sys (raw_open path (s32 (le_val flag))));
       on_conn (send (le_bytes 4 local_fd)) ;; mret tt) else mret tt) (mk_session s1 p) = r →
    client_cmd_open (mk_session s p) = r) as Hopen.
  { intros r Hr. unfold client_cmd_open. eapply bind_done; [exact H1|]. cbv beta iota zeta. rewrite Hv, Nat2Z.id. exact Hr. }
  destruct path as [|x path'] eqn:Ep; [exists s1; split; [apply Hopen; reflexivity|done]|]. rewrite <-Ep in *.
  destruct (field_run _ _ _ s1 p Hc1 eq_refl) as (s2 & H2 & Hc2 & Ht2 & Hs2 & _).
  destruct (field_run _ _ _ s2 p Hc2 eq_refl) as (s3 & H3 & Hc3 & Ht3 & Hs3 & _). rewrite length_le_bytes in H3.
  assert ((0 <? Z.of_nat (length path)) = true) as Hpos by (apply Z.ltb_lt; rewrite Ep; simpl; lia).
  rewrite Hpos in Hopen.
  assert (s32 (le_val (le_bytes 4 (u32 flag))) = flag) as Hfl.
  { rewrite le_val_bytes by (apply uwrap_range; lia). unfold swrap, uwrap.
    rewrite Z.add_mod_idemp_l, Z.mod_small by lia. lia. }
  destruct (c_string path) as [name|] eqn:En.
  - destruct (raw_open name flag (pr_os p)) as [fd o] eqn:Eo. eexists. split.
    + apply Hopen. eapply bind_done; [exact H2|]. cbv beta iota. eapply bind_done; [exact H3|]. cbv beta iota.
      rewrite En. eapply bind_done; [reflexivity|]. rewrite Hfl.
      eapply bind_done; [apply on_dev_done; unfold sys; rewrite Eo; reflexivity|].
      eapply bind_done; [apply send_run; congruence|]. reflexivity.
    + cbn. congruence.
  - apply Hopen. eapply bind_done; [exact H2|]. cbv beta iota. eapply bind_done; [exact H3|]. cbv beta iota.
    by rewrite En.
Qed.

(** A local burst copies the bytes, and answers their number modulo 2^16. *)
Theorem local_burst_copies addr data size p :
  0 ≤ size → is_Some (peek addr (Z.to_nat size) (pr_mem p)) → is_Some (peek data (Z.to_nat size) (pr_mem p)) →
  ∃ p', io_write_busrt_local addr data size p = Done (size mod 2 ^ 16, p') ∧
    peek addr (Z.to_nat size) (pr_mem p') = peek data (Z.to_nat size) (pr_mem p).
Proof.
  intros Hsz [x Hx] [bs Hbs]. eexists. split.
  - unfold io_write_busrt_local. eapply bind_done; [|reflexivity]. unfold memcpy. rewrite Hbs, Hx. reflexivity.
  - cbn [pr_mem]. rewrite <-(length_peek _ _ _ _ Hbs) at 1. by rewrite peek_poke, Hbs.
Qed.

End Properties.

(** ** The control thread *)

Lemma control_loop fuel segs sync cmd s :
  length cmd = 1%nat → solid segs → rx s = segs → rx_end s ≤ 0 → (length (concat segs) < fuel)%nat →
  ∃ s', iterate fuel control_body (cmd, sync) s =
    Done ((1, if existsb (λ b, b =? 16) (concat segs) then 1 else sync), s').
Proof.
  revert segs sync cmd s. induction fuel as [|fuel IH]; intros segs sync cmd s Hcmd Hs Hrx He Hf; [lia|].
  rewrite iterate_unfold. destruct (decide (segs = [])) as [->|Hne].
  - exists s. assert (control_body (cmd, sync) s = Done (inr (1, sync), s)) as Hr; [|by eapply bind_done].
    unfold control_body. eapply bind_done; [apply recv_into_end; [done|lia]|]. cbv beta iota.
    by rewrite (proj2 (Z.leb_le _ _)).
  - destruct (recv_some 1 segs [] s) as (n & segs' & Hn0 & Hn1 & Hnl & Hs' & Hc' & Hr);
      [lia|done|done|by rewrite app_nil_r|]. replace n with 1%nat in * by lia.
    destruct (concat segs) as [|x bs] eqn:Ec; [simpl in Hnl; lia|]. cbn [take drop length] in *. rewrite drop_0 in Hc'. rewrite take_0 in Hr.
    destruct (IH segs' (if x =? 16 then 1 else sync) [x] (set_rx (segs' ++ []) s)) as (s' & Hr');
      [done|done|cbn; by rewrite app_nil_r|done|rewrite Hc'; lia|].
    exists s'.
    eapply (bind_done _ _ _ (inl ([x], if x =? 16 then 1 else sync)) (set_rx (segs' ++ []) s)).
    { unfold control_body. eapply bind_done.
      - unfold recv_into. rewrite Hcmd. eapply bind_done; [exact Hr|]. cbv beta iota. cbn [length].
        rewrite drop_ge by lia. reflexivity.
      - cbv beta iota. rewrite (proj2 (Z.leb_gt _ _)) by lia. reflexivity. }
    cbv beta iota. rewrite Hr', Hc'. cbn [existsb]. destruct (x =? 16); [|done]. by destruct (existsb _ bs).
Qed.

(** The control thread ends when the connection does, and then [sync] tells
    whether a synchronisation byte came. *)
Theorem read_stream_control_ends fuel s :
  solid (rx s) → rx_end s ≤ 0 → (length (concat (rx s)) < fuel)%nat →
  ∃ s', client_read_stream_control fuel s =
    Done ((1, if existsb (λ b, b =? 16) (concat (rx s)) then 1 else 0), s').
Proof. intros Hs He Hf. by apply (control_loop fuel (rx s) 0 [0] s). Qed.

(** ** Concrete runs *)

(** Every call answers its first argument. *)
#[export] Instance echo_os : RawOs unit := {
  raw_open := λ path flag o, (Z.of_nat (length path), o);
  raw_close := λ fd o, (0, o);
  raw_mmap := λ fd len o, (4096, replicate (Z.to_nat len) 0, o);
  raw_ioctl := λ fd request payload o, (0, payload, o)
}.

Definition demo_process : process unit := mk_process (poke 4096 [0; 0; 0; 0] ∅) tt.

Lemma burst_roundtrip_witness :
  ∃ s' p', (client_cmd_write_burst 2 ;; client_cmd_read_burst)
      (mk_session (mk_socket [le_bytes 8 4096; le_bytes 4 3; [7; 8; 9]; le_bytes 8 4096; le_bytes 4 3] 0 [] None) demo_process) =
    Done (tt, mk_session s' p') ∧ tx s' = le_bytes 4 3 ++ [7; 8; 9].
Proof.
  destruct (burst_roundtrip 2 4096 [7; 8; 9]
    (mk_socket [le_bytes 8 4096; le_bytes 4 3; [7; 8; 9]; le_bytes 8 4096; le_bytes 4 3] 0 [] None) demo_process)
    as (s' & p' & Hr & Ht & _).
  - apply carries_refl. by repeat constructor.
  - reflexivity.
  - lia.
  - simpl. lia.
  - vm_compute. by eexists.
  - lia.
  - exists s', p'. split; [exact Hr|exact Ht].
Defined.
