(* ===== verification/Remote.v ===== *)
(** * Remote: a remote device behaves like the device

    The client library's network backend ([NetClient]) talking to the server's
    command handlers ([BackendCall]).  Each theorem runs the client against a
    socket on which the server's answers arrive, and the server against a
    socket on which the client's requests arrive, and shows that the two runs
    fit: what one side sends is what the other receives, and together they
    have the effect of the operations on the device itself. *)
From Stdlib Require Import ZArith Lia.
From stdpp Require Import base list numbers option.
From S2P Require Import Prelude Socket NetClient DmaChannel Devices BackendCall.

(** ** Client programs *)

Section Programs.
Context `{Stack}.

(** A client that runs register operations through the network backend. *)
Fixpoint client_ops (ops : list reg_op) : M socket (list Z) :=
  match ops with
  | [] => mret []
  | RegWrite a v :: ops' => io_write_net a v ;; client_ops ops'
  | RegRead a :: ops' =>
      r ← io_read_net a;
      rs ← client_ops ops';
      mret (r :: rs)
  end.

(** A client that writes packets to a stream. *)
Fixpoint client_writes (ps : list (list Z)) : M net_stream unit :=
  match ps with
  | [] => mret tt
  | p :: ps' => io_write_stream_net p (Z.of_nat (length p)) ;; client_writes ps'
  end.

(** A client that reads [k] packets, each into the same memory. *)
Fixpoint client_reads (k fuel : nat) : M net_stream (list (list Z)) :=
  match k with
  | O => mret []
  | S k' =>
      n ← io_read_stream_net_basic fuel send_size;
      d ← get;
      ps ← client_reads k' fuel;
      mret (take (Z.to_nat n) (data d) :: ps)
  end.

End Programs.

(** ** Lemmas *)

Section Lemmas.
Context `{Stack}.
Implicit Types (s : socket) (d : net_stream).

Lemma io_write_net_run a v s :
  sends_left s = None →
  io_write_net a v s = Done (tt, set_tx (tx s ++ concat (op_fields (RegWrite a v))) None s).
Proof.
  intros Hs. unfold io_write_net, io_net_call_start, io_net_call_param.
  eapply bind_done; [eapply bind_done; [by apply send_ok|reflexivity]|].
  eapply bind_done; [eapply bind_done; [by apply send_ok|reflexivity]|].
  eapply bind_done; [by apply send_ok|]. cbn [op_fields concat].
  rewrite app_nil_r, !app_assoc. done.
Qed.

Lemma io_read_net_run a r fs segs s :
  sends_left s = None → 0 ≤ r < 2 ^ 32 → carries segs (le_bytes 4 r :: fs) → rx s = segs →
  ∃ segs', carries segs' fs ∧
    io_read_net a s =
      Done (r, set_rx segs' (set_tx (tx s ++ concat (op_fields (RegRead a))) None s)).
Proof.
  intros Hs Hr Hc Hrx.
  destruct (recv_field (garbage 4) (le_bytes 4 r) fs segs
              (set_tx (tx s ++ concat (op_fields (RegRead a))) None s)) as (segs' & Hc' & Hrun);
    [done|done|by rewrite garbage_length, length_le_bytes|].
  exists segs'. split; [done|]. unfold io_read_net, io_net_call_start, io_net_call_param.
  assert ((tx s ++ [u8 (call_code CALL_READ)]) ++ le_bytes 4 a = tx s ++ concat (op_fields (RegRead a))) as Hq
    by (cbn [op_fields concat]; rewrite app_nil_r, app_assoc; done).
  eapply bind_done; [eapply bind_done; [by apply send_ok|reflexivity]|].
  eapply bind_done; [eapply bind_done; [by apply send_ok|reflexivity]|].
  eapply bind_done.
  { unfold io_net_call_return_value. eapply bind_done.
    { cbn [tx set_tx]. rewrite Hq. exact Hrun. }
    reflexivity. }
  by rewrite le_val_bytes by (simpl; lia).
Qed.

Lemma op_bytes_cons o ops :
  concat (concat (op_fields <$> o :: ops)) = concat (op_fields o) ++ concat (concat (op_fields <$> ops)).
Proof. rewrite fmap_cons. cbn [concat]. by rewrite concat_app. Qed.

Lemma client_ops_run {D} `{MappedDevice D} ops (dv dv' : D) rs segs s :
  local_ops ops dv = Done (rs, dv') → Forall (λ r, 0 ≤ r < 2 ^ 32) rs →
  carries segs (le_bytes 4 <$> rs) → rx s = segs → sends_left s = None →
  client_ops ops s =
    Done (rs, mk_socket [] (rx_end s) (tx s ++ concat (concat (op_fields <$> ops))) None).
Proof.
  revert dv rs segs s. induction ops as [|o ops IH]; intros dv rs segs s Hl Hr Hc Hrx Hs.
  - injection Hl as <- _. inversion Hc; subst. simpl. rewrite app_nil_r. destruct s. simpl in *. by subst.
  - destruct o as [a v|a].
    + apply bind_inv in Hl as ([] & d1 & _ & Hl). simpl client_ops.
      eapply bind_done; [by apply io_write_net_run|].
      rewrite (IH d1 rs segs (set_tx (tx s ++ concat (op_fields (RegWrite a v))) None s)) by done.
      rewrite op_bytes_cons, app_assoc. done.
    + apply bind_inv in Hl as (r & d1 & _ & Hl). apply bind_inv in Hl as (rs' & d2 & Hl & [= <- <-]).
      apply Forall_cons_1 in Hr as [Hr0 Hr]. simpl client_ops.
      destruct (io_read_net_run a r _ segs s Hs Hr0 Hc Hrx) as (segs' & Hc' & Hrun).
      eapply bind_done; [exact Hrun|].
      eapply bind_done; [by apply (IH d1 rs' segs')|].
      rewrite op_bytes_cons, app_assoc. done.
Qed.

Definition write_bytes (p : list Z) : list Z := [6] ++ le_bytes 4 (Z.of_nat (length p)) ++ p.

Lemma packet_segs_bytes p segs : packet_segs p segs → concat segs = write_bytes p.
Proof.
  intros (more & psegs & _ & -> & [-> | ->]); unfold write_bytes; cbn [concat];
    by rewrite <-!app_assoc.
Qed.

Lemma client_writes_run ps d :
  sends_left (ns_fd d) = None → handshaked d = 1 →
  client_writes ps d = Done (tt, set_ns_fd (set_tx (tx (ns_fd d) ++ concat (write_bytes <$> ps)) None (ns_fd d)) d).
Proof.
  revert d. induction ps as [|p ps IH]; intros d Hs Hh; simpl client_writes.
  - unfold mret, M_ret. do 2 f_equal. simpl. rewrite app_nil_r. destruct d as [[] ? ? ?]. simpl in *. by subst.
  - eapply bind_done; [apply stream_write_run; [done|lia]|]. rewrite Nat2Z.id, take_ge by lia.
    rewrite Hh. cbn [Z.eqb app]. rewrite IH by done. unfold set_ns_fd. cbn [ns_fd handshaked remain_recv_size data tx set_tx]. rewrite Hh.
    rewrite fmap_cons. cbn [concat]. by rewrite <-app_assoc.
Qed.

Lemma client_writes_first p ps s mem :
  sends_left s = None →
  client_writes (p :: ps) (fresh_net_stream s mem) =
    Done (tt, mk_net_stream (set_tx (tx s ++ [6] ++ concat (write_bytes <$> p :: ps)) None s) 1 0 mem).
Proof.
  intros Hs. simpl client_writes. eapply bind_done; [apply stream_write_run; [done|lia]|].
  rewrite Nat2Z.id, take_ge by lia. rewrite client_writes_run by done.
  unfold set_ns_fd, fresh_net_stream. cbn [ns_fd handshaked remain_recv_size data tx set_tx].
  rewrite fmap_cons. cbn [concat Z.eqb]. by rewrite <-!app_assoc.
Qed.

(** The segments of one packet of the read stream. *)
Definition read_packet_segs (p : list Z) (segs : list (list Z)) : Prop :=
  ∃ more psegs, solid psegs ∧ p = more ++ concat psegs ∧
    segs = (packet_header (Z.of_nat (length p)) ++ more) :: psegs.

Lemma read_packet_bytes p segs :
  Z.of_nat (length p) = send_size → read_packet_segs p segs → concat segs = packet_bytes p.
Proof.
  intros Hl (more & psegs & _ & Hp & ->). rewrite Hl. unfold packet_bytes. rewrite Hp.
  cbn [concat]. unfold packet_header, READ_HEADER. by rewrite <-!app_assoc.
Qed.

Lemma client_reads_run ps segss fuel d :
  Forall2 read_packet_segs ps segss → rx (ns_fd d) = concat segss → sends_left (ns_fd d) = None →
  Forall (λ p, Z.of_nat (length p) = send_size) ps →
  send_size ≤ Z.of_nat (length (data d)) → send_size < Z.of_nat fuel →
  ∃ d', client_reads (length ps) fuel d = Done (ps, d') ∧
    tx (ns_fd d') = tx (ns_fd d) ++ (if handshaked d =? 0 then match ps with [] => [] | _ => [7] end else []).
Proof.
  intros Hps. revert d. induction Hps as [|p segs ps segss Hp _ IH]; intros d Hrx Hs Hl Hd Hf.
  - exists d. split; [done|]. destruct (_ =? 0); by rewrite app_nil_r.
  - apply Forall_cons_1 in Hl as [Hlp Hl]. change send_size with 8192 in *.
    destruct Hp as (more & psegs & Hsol & -> & ->).
    destruct (started_rx d) as (_ & _ & Hd1).
    set (p := more ++ concat psegs) in *.
    set (d1 := received 0 p (concat segss) (started d)).
    assert (sends_left (ns_fd (started d)) = None) as Hs1 by (unfold started; by destruct (_ =? 0)).
    destruct (IH d1) as (d2 & Hr2 & Ht2); try done.
    { unfold d1. simpl. rewrite Hd1, length_overwrite; lia. }
    exists d2. split.
    + simpl length. simpl client_reads.
      eapply bind_done; [apply (basic_read_run fuel send_size more psegs (concat segss)); try done; fold p; try lia|].
      fold p d1. eapply bind_done; [done|]. eapply bind_done; [exact Hr2|].
      rewrite Nat2Z.id. unfold d1. simpl. by rewrite take_overwrite.
    + rewrite Ht2. unfold d1. simpl. pose proof (started_handshaked d) as Hh.
      rewrite (proj2 (Z.eqb_neq _ _)) by done. rewrite app_nil_r.
      unfold started. destruct (handshaked d =? 0); simpl; by rewrite ?app_nil_r.
Qed.

(** The server's side of a written stream: first the loop, on any socket, then
    with the command that starts it. *)
Lemma serve_stream {D} `{StreamSink D} ps segss k fuel inner (dv : D) s :
  idle [] dv → Forall2 packet_segs ps segss → Forall (Forall is_byte) ps → aligned 0 ps →
  (length ps ≤ k)%nat → (k < fuel)%nat → BUFFER_SIZE < Z.of_nat inner →
  rx s = concat segss → sends_left s = Some k →
  ∃ server dv' log cur b bs,
    client_cmd_write_stream_inf fuel inner (mk_session s dv) = Done (0, mk_session server dv') ∧
    holds log b bs dv' ∧ take (length cur) bs = cur ∧
    Forall is_block log ∧ Z.of_nat (length cur) < BUFFER_SIZE ∧ concat log ++ cur = concat ps.
Proof.
  intros Hidle Hps Hby Ha Hk Hf Hin Hrx Hs.
  destruct (sink_get [] dv Hidle) as (b & bs & d1 & Hg & Hh & Hb).
  set (v := mk_write_vars (garbage 1) 0 0 (Some b) 0 0).
  assert (filling [] [] v d1) as Hfill.
  { exists b, bs. split; [done|]. split; [done|]. split; [done|]. split; [done|]. split; [done|].
    simpl. rewrite BUFFER_SIZE_val. lia. }
  destruct (packets_loop ps fuel inner [] [] v s d1 segss k)
    as (v2 & s2 & d2 & Hr & Hfill2); try done; [apply (garbage_length 1)|].
  destruct (foldl_absorb ps ([], [])) as [Hcat Hblocks]; [constructor|].
  destruct (foldl absorb ([], []) ps) as [log cur] eqn:Efold.
  destruct Hfill2 as (b2 & bs2 & _ & Hh2 & _ & Ht2 & _ & Hlt).
  exists s2, d2, log, cur, b2, bs2. split; [|do 4 (split; [done|]); exact Hcat].
  unfold client_cmd_write_stream_inf. eapply bind_done; [by apply on_dev_run|].
  eapply bind_done; [exact Hr|]. done.
Qed.

Lemma serve_writes {D} `{StreamSink D} ps segss k fuel inner (dv : D) :
  idle [] dv → Forall2 packet_segs ps segss → Forall (Forall is_byte) ps → aligned 0 ps →
  (length ps ≤ k)%nat → (k < fuel)%nat → BUFFER_SIZE < Z.of_nat inner →
  ∃ server dv' log cur b bs,
    (_ ← on_conn (recv_into (garbage 1)); client_cmd_write_stream_inf fuel inner)
      (mk_session (mk_socket ([6] :: concat segss) 0 [] (Some k)) dv) = Done (0, mk_session server dv') ∧
    holds log b bs dv' ∧ take (length cur) bs = cur ∧
    Forall is_block log ∧ Z.of_nat (length cur) < BUFFER_SIZE ∧ concat log ++ cur = concat ps.
Proof.
  intros Hidle Hps Hby Ha Hk Hf Hin.
  destruct (serve_stream ps segss k fuel inner dv (mk_socket (concat segss) 0 [] (Some k)))
    as (s2 & d2 & log & cur & b & bs & Hr & Hrest); try done.
  exists s2, d2, log, cur, b, bs. split; [|exact Hrest]. eapply bind_done; [|exact Hr].
  apply on_conn_run. apply (recv_into_whole _ [6] [] (concat segss)); [done|by rewrite garbage_length|simpl; lia].
Qed.

Lemma wire_bytes ps segss : Forall2 packet_segs ps segss → concat (write_bytes <$> ps) = concat (concat segss).
Proof.
  induction 1 as [|q segs qs segss Hq _ IH]; [done|].
  rewrite fmap_cons. cbn [concat]. by rewrite concat_app, IH, (packet_segs_bytes q segs).
Qed.

(** What the server sends of a device's blocks, a client reads. *)
Lemma serve_reads {D} `{StreamSource D} blocks segss k fuel cfuel mem (dv : D) :
  delivers blocks dv → Forall is_block blocks → (k < length blocks)%nat → (k < fuel)%nat →
  let ps := stream_packet <$> take k blocks in
  Forall2 read_packet_segs ps segss → send_size ≤ Z.of_nat (length mem) → send_size < Z.of_nat cfuel →
  ∃ client server dv',
    client_cmd_read_stream_inf fuel (mk_session (mk_socket [] 0 [] (Some k)) dv) =
      Done (0, mk_session server dv') ∧
    tx server = concat (concat segss) ∧
    client_reads k cfuel (fresh_net_stream (mk_socket (concat segss) 0 [] None) mem) = Done (ps, client).
Proof.
  intros Hd Hb Hk Hf ps Hps Hmem Hcf.
  destruct (send_loop k fuel blocks dv (mk_socket [] 0 [] (Some k)) (0, 0)) as (s' & d' & Hr & Ht); try done.
  assert (Forall (λ p, Z.of_nat (length p) = send_size) ps) as Hlen.
  { unfold ps. apply Forall_fmap. pose proof (Forall_take _ k _ Hb) as Ht0. clear -Ht0. induction Ht0 as [|blk l Hblk _ IH]; constructor; [|done].
    by apply stream_packet_length. }
  destruct (client_reads_run ps segss cfuel (fresh_net_stream (mk_socket (concat segss) 0 [] None) mem))
    as (c & Hc & _); try done.
  exists c, s', d'. split; [|split].
  - unfold client_cmd_read_stream_inf. eapply bind_done; [exact Hr|]. done.
  - rewrite Ht. cbn [tx app]. clear -Hps Hlen. unfold ps in *. rewrite list_fmap_compose.
    induction Hps as [|p segs l segss Hp _ IH]; [done|]. apply Forall_cons_1 in Hlen as [Hl Hlen].
    rewrite fmap_cons. cbn [concat]. by rewrite concat_app, (read_packet_bytes p segs), IH.
  - assert (length ps = k) as Hlk by (unfold ps; rewrite length_fmap, length_take; lia).
    by rewrite <-Hlk.
Qed.

End Lemmas.

(** ** Properties *)

Section Properties.
Context `{Stack}.

(** C11: Register operations through the network refine the operations on the
    device: whenever a list of operations succeeds on the device itself, the
    server's loop, fed with the client's requests in any segmentation that
    splits no field, ends in the same device state and answers with the values
    read; the client, fed with these answers, returns the same values and sends
    exactly these requests. *)
Theorem remote_registers_refine {D} `{MappedDevice D} ops (dv dv' : D) rs reqs reps :
  Forall reg_op_ok ops → local_ops ops dv = Done (rs, dv') → Forall (λ r, 0 ≤ r < 2 ^ 32) rs →
  carries reqs (concat (op_fields <$> ops)) → carries reps (le_bytes 4 <$> rs) →
  ∃ client server,
    client_ops ops (mk_socket reps 0 [] None) = Done (rs, client) ∧
    mapped_cmd_loop (S (length ops)) (mk_session (mk_socket reqs 0 [] None) dv) =
      Done (tt, mk_session server dv') ∧
    tx client = concat reqs ∧ tx server = concat reps ∧ rx client = [] ∧ rx server = [].
Proof.
  intros Hok Hl Hr Hq Hp. do 2 eexists. split.
  { by eapply client_ops_run. }
  split. { by eapply loop_ops; try done; lia. }
  simpl. by rewrite <-(carries_concat _ _ Hq), <-(carries_concat _ _ Hp).
Qed.

(** C20: Written streams arrive: for packets that cross no block end, in any
    segmentation of their payloads, the server hands the hardware blocks of
    exactly 128 KiB that together with the bytes still in the transfer buffer
    are the concatenation of the packets; it acknowledges until the connection
    breaks and returns, and the bytes it consumed are those the client's
    writes sent. *)
Theorem remote_write_stream_delivers {D} `{StreamSink D} p ps segss k fuel inner mem (dv : D) :
  idle [] dv → Forall2 packet_segs (p :: ps) segss → Forall (Forall is_byte) (p :: ps) → aligned 0 (p :: ps) →
  (length (p :: ps) ≤ k)%nat → (k < fuel)%nat → BUFFER_SIZE < Z.of_nat inner →
  let wire := [6] :: concat segss in
  ∃ client server dv' log cur b bs,
    client_writes (p :: ps) (fresh_net_stream (mk_socket [] 0 [] None) mem) = Done (tt, client) ∧
    tx (ns_fd client) = concat wire ∧
    (_ ← on_conn (recv_into (garbage 1)); client_cmd_write_stream_inf fuel inner)
      (mk_session (mk_socket wire 0 [] (Some k)) dv) = Done (0, mk_session server dv') ∧
    holds log b bs dv' ∧ take (length cur) bs = cur ∧
    Forall is_block log ∧ Z.of_nat (length cur) < BUFFER_SIZE ∧ concat log ++ cur = concat (p :: ps).
Proof.
  intros Hidle Hps Hby Ha Hk Hf Hin wire.
  destruct (serve_writes (p :: ps) segss k fuel inner dv) as (server & dv' & log & cur & b & bs & Hr & Hrest);
    try done.
  do 2 eexists. exists dv', log, cur, b, bs. split; [by apply client_writes_first|].
  split; [|split; [exact Hr|exact Hrest]].
  unfold wire. cbn [ns_fd tx set_tx app concat]. f_equal. exact (wire_bytes (p :: ps) segss Hps).
Qed.

(** Read streams arrive: the server's endless loop sends the first 8 KiB of
    each block the device delivers until the connection breaks, and then
    returns; a client reading from these bytes, in any segmentation of the
    payloads, gets exactly these packets in order. *)
Theorem remote_read_stream_delivers {D} `{StreamSource D} blocks segss k fuel cfuel mem (dv : D) :
  delivers blocks dv → Forall is_block blocks → (k < length blocks)%nat → (k < fuel)%nat →
  let ps := stream_packet <$> take k blocks in
  Forall2 read_packet_segs ps segss → send_size ≤ Z.of_nat (length mem) → send_size < Z.of_nat cfuel →
  ∃ client server dv',
    client_cmd_read_stream_inf fuel (mk_session (mk_socket [] 0 [] (Some k)) dv) =
      Done (0, mk_session server dv') ∧
    tx server = concat (concat segss) ∧
    client_reads k cfuel (fresh_net_stream (mk_socket (concat segss) 0 [] None) mem) = Done (ps, client).
Proof.
  intros Hd Hb Hk Hf ps. exact (serve_reads blocks segss k fuel cfuel mem dv Hd Hb Hk Hf).
Qed.

End Properties.

(** ** Concrete runs *)

Lemma remote_registers_refine_witness :
  ∃ client server dv',
    client_ops [RegWrite 1 7; RegRead 1; RegRead 0]
      (mk_socket [le_bytes 4 7 ++ le_bytes 4 10] 0 [] None) = Done ([7; 10], client) ∧
    mapped_cmd_loop 4 (mk_session (mk_socket
      [[2]; le_bytes 4 1 ++ le_bytes 4 7; [3] ++ le_bytes 4 1 ++ [3]; le_bytes 4 0] 0 [] None) demo_device) =
      Done (tt, mk_session server dv') ∧ tx server = le_bytes 4 7 ++ le_bytes 4 10.
Proof.
  destruct (remote_registers_refine [RegWrite 1 7; RegRead 1; RegRead 0] demo_device
    (mk_mem_device [10; 7; 30] (md_buffer demo_device) [] []) [7; 10]
    [[2]; le_bytes 4 1 ++ le_bytes 4 7; [3] ++ le_bytes 4 1 ++ [3]; le_bytes 4 0]
    [le_bytes 4 7 ++ le_bytes 4 10]) as (c & s & H1 & H2 & _ & H4 & _).
  - repeat constructor; lia.
  - reflexivity.
  - repeat constructor; lia.
  - repeat (apply carries_nil || (apply carries_whole; [done|]) || (apply carries_merge; [done|])).
  - apply carries_merge; [done|]. apply carries_whole; [done|]. apply carries_nil.
  - exists c, s, (mk_mem_device [10; 7; 30] (md_buffer demo_device) [] []).
    split; [exact H1|]. split; [exact H2|exact H4].
Defined.

Lemma remote_write_stream_delivers_witness :
  ∃ server dv', (_ ← on_conn (recv_into (garbage 1)); client_cmd_write_stream_inf 4 (Z.to_nat (BUFFER_SIZE + 1)))
      (mk_session (mk_socket ([6] :: [[6] ++ le_bytes 4 3 ++ [1]; [2; 3]; [6]; le_bytes 4 1 ++ [4]]) 0 [] (Some 3%nat))
         demo_device) = Done (0, mk_session server dv').
Proof.
  destruct (remote_write_stream_delivers [1; 2; 3] [[4]]
    [[[6] ++ le_bytes 4 3 ++ [1]; [2; 3]]; [[6]; le_bytes 4 1 ++ [4]]] 3 4 (Z.to_nat (BUFFER_SIZE + 1)) []
    demo_device) as (c & s & d & log & cur & b & bs & _ & _ & Hr & _).
  - split; [reflexivity|exact demo_block].
  - constructor; [|constructor; [|constructor]].
    + exists [1], [[2; 3]]. split; [by repeat constructor|]. split; [reflexivity|]. by left.
    + exists [4], []. split; [constructor|]. split; [reflexivity|]. by right.
  - repeat constructor; lia.
  - rewrite <-(Nat2Z.id 0). simpl. rewrite BUFFER_SIZE_val. simpl. lia.
  - simpl. lia.
  - lia.
  - rewrite Z2Nat.id by (rewrite BUFFER_SIZE_val; lia). lia.
  - exists s, d. exact Hr.
Defined.

Lemma remote_read_stream_delivers_witness :
  ∃ client, client_reads 1 (Z.to_nat (send_size + 1)) (fresh_net_stream
      (mk_socket [packet_header send_size ++ stream_packet (replicate (Z.to_nat BUFFER_SIZE) 0)] 0 [] None)
      (replicate (Z.to_nat send_size) 9)) =
    Done ([stream_packet (replicate (Z.to_nat BUFFER_SIZE) 0)], client).
Proof.
  set (blk := replicate (Z.to_nat BUFFER_SIZE) 0).
  assert (Z.of_nat (length (stream_packet blk)) = send_size) as Hl.
  { apply stream_packet_length, demo_block. }
  destruct (remote_read_stream_delivers [blk; blk] [[packet_header send_size ++ stream_packet blk]]
    1 2 (Z.to_nat (send_size + 1)) (replicate (Z.to_nat send_size) 9)
    (mk_mem_device [] [] [] [blk; blk])) as (c & _ & _ & _ & _ & Hr).
  - reflexivity.
  - constructor; [exact demo_block|constructor; [exact demo_block|constructor]].
  - simpl. lia.
  - lia.
  - constructor; [|constructor]. exists (stream_packet blk), [].
    split; [constructor|]. split; [by rewrite app_nil_r|]. by rewrite Hl.
  - rewrite length_replicate, Z2Nat.id; [lia|vm_compute; congruence].
  - rewrite Z2Nat.id by (vm_compute; congruence). lia.
  - exists c. exact Hr.
Defined.
