(* ===== verification/LocalBackend.v ===== *)
(** * LocalBackend: devices of this machine

    [src/lib/bbio/src/bbio_backend_local.c] and [src/lib/buffer/buffer.c]:
    register devices behind [mmap], and stream devices whose ring of transfer
    buffers is the memory of the DMA proxy driver.  The driver is seen through
    the class [DmaDriver]; the channel of [DmaChannel] is its instance. *)
From Stdlib Require Import ZArith Lia.
From stdpp Require Import base list numbers option gmap.
From S2P Require Import Prelude DmaChannel.

(** ** The process: descriptors, mappings and heap blocks

    [lo_opens] and [lo_mmaps] are the outcomes of the [open] and [mmap] calls to
    come; a mapping is known by its address and its length in bytes, a whole
    number of pages; [lo_mem] holds the mapped words. *)
Record local_os := mk_os {
  lo_opens : list Z;
  lo_mmaps : list bool;
  lo_fds : gset Z;
  lo_maps : gmap Z Z;
  lo_mem : gmap Z Z;
  lo_next : Z;
  lo_blocks : Z
}.

Definition set_opens (l : list Z) (fds : gset Z) (w : local_os) : local_os :=
  mk_os l (lo_mmaps w) fds (lo_maps w) (lo_mem w) (lo_next w) (lo_blocks w).
Definition set_maps (l : list bool) (m : gmap Z Z) (n : Z) (w : local_os) : local_os :=
  mk_os (lo_opens w) l (lo_fds w) m (lo_mem w) n (lo_blocks w).
Definition set_mem (m : gmap Z Z) (w : local_os) : local_os :=
  mk_os (lo_opens w) (lo_mmaps w) (lo_fds w) (lo_maps w) m (lo_next w) (lo_blocks w).
Definition set_blocks (n : Z) (w : local_os) : local_os :=
  mk_os (lo_opens w) (lo_mmaps w) (lo_fds w) (lo_maps w) (lo_mem w) (lo_next w) n.

Definition PAGE : Z := 4096.
Definition pages (len : Z) : Z := (len + PAGE - 1) / PAGE * PAGE.

Definition sys_open : M local_os Z := λ w,
  match lo_opens w with
  | fd :: l => if fd <? 0 then Done (-1, set_opens l (lo_fds w) w)
               else Done (fd, set_opens l ({[fd]} ∪ lo_fds w) w)
  | [] => Done (-1, w)
  end.

Definition sys_close (fd : Z) : M local_os unit :=
  modify (λ w, set_opens (lo_opens w) (lo_fds w ∖ {[fd]}) w).

Definition MAP_FAILED : Z := -1.

(** A fresh mapping starts at [lo_next]; one page is left free behind it. *)
Definition sys_mmap (len : Z) : M local_os Z := λ w,
  match lo_mmaps w with
  | true :: l =>
      Done (lo_next w, set_maps l (<[lo_next w := pages len]> (lo_maps w))
                         (lo_next w + pages len + PAGE) w)
  | false :: l => Done (MAP_FAILED, set_maps l (lo_maps w) (lo_next w) w)
  | [] => Done (MAP_FAILED, w)
  end.

(** [munmap] of the first pages of a mapping keeps the others. *)
Definition sys_munmap (addr len : Z) : M local_os Z := λ w,
  match lo_maps w !! addr with
  | None => Done (-1, w)
  | Some n =>
      let m := delete addr (lo_maps w) in
      Done (0, set_maps (lo_mmaps w)
                 (if pages len <? n then <[addr + pages len := n - pages len]> m else m) (lo_next w) w)
  end.

Definition malloc : M local_os unit := modify (λ w, set_blocks (lo_blocks w + 1) w).
Definition free : M local_os unit := modify (λ w, set_blocks (lo_blocks w - 1) w).

(** The word at index [i] of the mapping at [start]. *)
Definition word_at (start i : Z) : M local_os Z := λ w,
  match lo_maps w !! start with
  | None => Fault WildPointer
  | Some n => if (0 <=? i) && (4 * i + 4 <=? n) then Done (start + 4 * i, w) else Fault OutOfBounds
  end.

(** ** Register devices *)

(** [io_mapped_device] as this backend fills it: [start] and [end] bound the
    words [addr] may name. *)
Record mapped_dev := mk_mapped_dev { ch_start : Z; ch_end : Z; md_fd : Z }.

(** [end - start] counts words. *)
Definition io_write_local (device : mapped_dev) (addr value : Z) : M local_os unit :=
  if (ch_end device - ch_start device) / 4 <? addr then mret tt
  else
    p ← word_at (ch_start device) addr;
    modify (λ w, set_mem (<[p := value]> (lo_mem w)) w).

Definition io_read_local (device : mapped_dev) (addr : Z) : M local_os Z :=
  if (ch_end device - ch_start device) / 4 <? addr then mret (u32 (-1))
  else
    p ← word_at (ch_start device) addr;
    w ← get;
    mret (default 0 (lo_mem w !! p)).

(** The test after [mmap] compares with NULL, the address 0, and not with
    [MAP_FAILED]. *)
Definition io_open_mapped_local (size : Z) : M local_os (option mapped_dev) :=
  fd ← sys_open;
  if fd <? 1 then mret None
  else
    malloc ;;
    start ← sys_mmap (size * 4);
    if start =? 0 then free ;; sys_close fd ;; mret None
    else mret (Some (mk_mapped_dev start (start + size * 4) fd)).

Definition io_close_mapped_local (device : option mapped_dev) : M local_os Z :=
  match device with
  | None => mret 0
  | Some d =>
      sys_munmap (ch_start d) (ch_end d - ch_start d) ;;
      sys_close (md_fd d) ;;
      free ;;
      mret 0
  end.

(** ** What the ring relies on: the driver behind the descriptor *)

(** [drv_ioctl cmd arg] is the system call; [drv_status] and [drv_set_status],
    [drv_set_length] access the status and the length of a channel buffer in
    the memory shared with the driver. *)
Class DmaDriver (C : Type) := {
  drv_ioctl : Z → Z → M C Z;
  drv_status : C → nat → option proxy_status;
  drv_set_status : nat → proxy_status → M C unit;
  drv_set_length : nat → Z → M C unit
}.

(** What it promises for the 32 buffers: every call returns and concerns its
    buffer only; a finish command leaves its buffer in a status of a wait that has
    ended: PROXY_NO_ERROR, PROXY_TIMEOUT, or PROXY_ERROR, which a wait that a
    signal interrupted leaves too, with the transfer still in progress. *)
Class DmaDriverLaws (C : Type) `{DmaDriver C} := {
  drv_ok : C → Prop;
  law_status : ∀ c i, drv_ok c → (i < BUFFER_COUNT)%nat → is_Some (drv_status c i);
  law_start : ∀ c i, drv_ok c → (i < BUFFER_COUNT)%nat →
    ∃ c', drv_ioctl START_XFER (Z.of_nat i) c = Done (0, c') ∧ drv_ok c' ∧
          ∀ j, j ≠ i → drv_status c' j = drv_status c j;
  law_finish : ∀ c i, drv_ok c → (i < BUFFER_COUNT)%nat →
    ∃ c' st, drv_ioctl FINISH_XFER (Z.of_nat i) c = Done (0, c') ∧ drv_ok c' ∧
          drv_status c' i = Some st ∧ settled st = true ∧
          ∀ j, j ≠ i → drv_status c' j = drv_status c j;
  law_set_status : ∀ c i st, drv_ok c → (i < BUFFER_COUNT)%nat →
    ∃ c', drv_set_status i st c = Done (tt, c') ∧ drv_ok c' ∧ drv_status c' i = Some st ∧
          ∀ j, j ≠ i → drv_status c' j = drv_status c j;
  law_set_length : ∀ c i n, drv_ok c → (i < BUFFER_COUNT)%nat →
    ∃ c', drv_set_length i n c = Done (tt, c') ∧ drv_ok c' ∧ ∀ j, drv_status c' j = drv_status c j
}.

(** ** Stream devices *)

(** [local_buffer_d] together with the driver memory its buffers live in. *)
Record ring (C : Type) := mk_ring {
  rg_driver : C;
  buffer_count : Z;
  current_buffer_id : Z
}.
Arguments mk_ring {C}.
Arguments rg_driver {C}.
Arguments buffer_count {C}.
Arguments current_buffer_id {C}.

Record stream_dev := mk_stream_dev { sd_fd : Z; sd_buffers : Z }.

Section Ring.
Context {C : Type} `{DmaDriver C}.

Definition on_driver {A} (m : M C A) : M (ring C) A :=
  zoom rg_driver (λ c r, mk_ring c (buffer_count r) (current_buffer_id r)) m.

Definition status_of (i : Z) : M (ring C) proxy_status :=
  r ← get;
  if i <? 0 then raise OutOfBounds
  else require OutOfBounds (drv_status (rg_driver r) (Z.to_nat i)).

(** [data] points to channel buffer number [buffer_id]. *)
Definition io_write_stream_local (buffer_id : nat) (size : Z) : M (ring C) Z :=
  on_driver (drv_set_length buffer_id size) ;;
  on_driver (drv_ioctl START_XFER (Z.of_nat buffer_id)) ;;
  mret (Z.of_nat buffer_id).

Definition io_stream_zc_buffer_local : M (ring C) (option nat) :=
  r ← get;
  let next_buffer_id := current_buffer_id r in
  st ← status_of next_buffer_id;
  (if bool_decide (st = PROXY_NO_ERROR) then mret tt
   else on_driver (drv_ioctl FINISH_XFER next_buffer_id) ;; mret tt) ;;
  st ← status_of next_buffer_id;
  if bool_decide (st = PROXY_TIMEOUT) then mret None
  else
    modify (λ r, mk_ring (rg_driver r) (buffer_count r)
                   (u32 (next_buffer_id + 1) mod buffer_count r)) ;;
    mret (Some (Z.to_nat next_buffer_id)).

Definition io_finish_stream_local : M (ring C) unit :=
  r ← get;
  for_ (Z.to_nat (buffer_count r)) (λ i,
    st ← status_of (Z.of_nat i);
    if bool_decide (st = PROXY_NO_ERROR) then mret tt
    else on_driver (drv_ioctl FINISH_XFER (Z.of_nat i)) ;; mret tt).

(** [buffer_allocate]: the result of [mmap] is not tested. *)
Definition buffer_allocate (count : Z) : M local_os (option Z) :=
  if Z.of_nat BUFFER_COUNT <? count then mret None
  else
    base ← sys_mmap (sizeof_channel_buffer * count);
    malloc ;;
    mret (Some base).

(** Clearing the statuses is the first access to the mapping. *)
Definition io_local_buffer_init (c : C) : M local_os (option (Z * ring C)) :=
  base ← buffer_allocate (Z.of_nat BUFFER_COUNT);
  match base with
  | None => mret None
  | Some base =>
      malloc ;;
      w ← get;
      if bool_decide (lo_maps w !! base = None) then raise WildPointer
      else
        λ w, match for_ BUFFER_COUNT (λ i, drv_set_status i PROXY_NO_ERROR) c with
             | Done (_, c') => Done (Some (base, mk_ring c' (Z.of_nat BUFFER_COUNT) 0), w)
             | Fault f => Fault f
             end
  end.

Definition io_open_stream_local (c : C) : M local_os (option (stream_dev * ring C)) :=
  fd ← sys_open;
  if fd <? 1 then mret None
  else
    malloc ;;
    private ← io_local_buffer_init c;
    match private with
    | None => free ;; sys_close fd ;; mret None
    | Some (base, r) => mret (Some (mk_stream_dev fd base, r))
    end.

(** [buffer_release] unmaps the size of one channel buffer. *)
Definition buffer_release (base : Z) : M local_os unit :=
  sys_munmap base sizeof_channel_buffer ;;
  free.

Definition io_close_stream_local (device : option stream_dev) : M local_os Z :=
  match device with
  | None => mret 0
  | Some d =>
      buffer_release (sd_buffers d) ;;
      free ;;
      sys_close (sd_fd d) ;;
      free ;;
      mret 0
  end.

End Ring.

(** ** The DMA proxy driver is such a driver *)

Section Channel.
Context {E : Type} `{DmaEngine E} (jiffies : Z).

Definition channel_ioctl (cmd arg : Z) : M (dma_proxy_channel E) Z := λ pc,
  match ioctl jiffies cmd arg (Some pc) with
  | Done (r, Some pc') => Done (r, pc')
  | Done (r, None) => Done (r, pc)
  | Fault f => Fault f
  end.

Definition channel_driver : DmaDriver (dma_proxy_channel E) := {|
  drv_ioctl := channel_ioctl;
  drv_status := status_at;
  drv_set_status := λ i st, update_buffer (Z.of_nat i) (set_cb_status st);
  drv_set_length := λ i n, update_buffer (Z.of_nat i) (set_cb_length n)
|}.

End Channel.

(** ** Lemmas: the driver's laws *)

Section ChannelLaws.
Context {E : Type} `{DmaEngine E} `{!DmaEngineLaws E} (jiffies : Z).
Implicit Types (pc : dma_proxy_channel E).

#[local] Instance driver : DmaDriver (dma_proxy_channel E) := channel_driver jiffies.

Lemma frame_status i pc pc' j :
  wf_channel pc → wf_channel pc' → frame_slot i pc pc' → j ≠ i → status_at pc' j = status_at pc j.
Proof.
  intros [_ (t & Ht & _) _ _ _] [_ (t' & Ht' & _) _ _ _] [_ Hb _] Hj.
  unfold status_at. rewrite Ht, Ht'. simpl. specialize (Hb j t t' Hj Ht Ht').
  destruct (t' !! j) as [b'|], (t !! j) as [b|]; try done. injection Hb as Hb _. simpl. by rewrite Hb.
Qed.

Lemma status_defined pc i : wf_channel pc → (i < BUFFER_COUNT)%nat → is_Some (status_at pc i).
Proof.
  intros Hwf Hi. destruct (slot_exists pc i Hwf Hi) as (d & b & Hs).
  destruct (slot_view _ _ _ _ Hs) as [_ ->]. done.
Qed.

Lemma ioctl_driver cmd i pc :
  wf_channel pc → (i < BUFFER_COUNT)%nat →
  ∃ pc', channel_ioctl jiffies cmd (Z.of_nat i) pc = Done (0, pc') ∧ cmd_post jiffies i (waits_cmd cmd) pc pc'.
Proof.
  intros Hwf Hi. destruct (ioctl_safe pc jiffies cmd i Hwf Hi) as (pc' & Hr & Hp).
  exists pc'. split; [|done]. unfold channel_ioctl. by rewrite Hr.
Qed.

(** A store to the shared memory changes one buffer. *)
Lemma update_buffer_driver i f pc :
  wf_channel pc → (i < BUFFER_COUNT)%nat →
  ∃ pc' b, update_buffer (Z.of_nat i) f pc = Done (tt, pc') ∧ wf_channel pc' ∧
    status_at pc i = Some (cb_status b) ∧ status_at pc' i = Some (cb_status (f b)) ∧
    ∀ j, j ≠ i → status_at pc' j = status_at pc j.
Proof.
  intros Hwf Hi. destruct (slot_exists pc i Hwf Hi) as (d & b & Hs).
  exists (put_buffer i (f b) pc), b. split; [by eapply update_buffer_run|].
  split; [by apply wf_put_buffer|].
  split; [by apply (slot_view pc i d b)|].
  split; [apply (slot_view _ i d (f b)); by eapply slot_put_buffer|].
  intros j Hj. destruct Hs as (_ & t & Ht & _). unfold status_at, put_buffer. rewrite Ht. simpl.
  by rewrite list_lookup_insert_ne.
Qed.

#[export, refine] Instance channel_driver_laws : DmaDriverLaws (dma_proxy_channel E) := {
  drv_ok := wf_channel
}.
Proof.
  - intros c i. apply status_defined.
  - intros c i Hwf Hi. destruct (ioctl_driver START_XFER i c Hwf Hi) as (pc' & Hr & [Hwf' Hf _ _]).
    exists pc'. split; [exact Hr|]. split; [done|]. intros j. by apply frame_status.
  - intros c i Hwf Hi. destruct (ioctl_driver FINISH_XFER i c Hwf Hi) as (pc' & Hr & [Hwf' Hf _ Hset]).
    destruct (status_defined pc' i Hwf' Hi) as [st Hst]. exists pc', st.
    split; [exact Hr|]. split; [done|]. split; [done|]. split.
    + specialize (Hset eq_refl). rewrite Hst in Hset. by injection Hset.
    + intros j. by apply frame_status.
  - intros c i st Hwf Hi.
    destruct (update_buffer_driver i (set_cb_status st) c Hwf Hi) as (pc' & b & Hr & Hwf' & _ & Hst & Ho).
    by exists pc'.
  - intros c i n Hwf Hi.
    destruct (update_buffer_driver i (set_cb_length n) c Hwf Hi) as (pc' & b & Hr & Hwf' & Hst0 & Hst & Ho).
    exists pc'. split; [done|]. split; [done|]. intros j.
    destruct (decide (j = i)) as [->|Hj]; [|by apply Ho].
    transitivity (Some (cb_status b)); [exact Hst|symmetry; exact Hst0].
Defined.

End ChannelLaws.

(** ** Lemmas: the ring *)

Section RingLemmas.
Context {C : Type} `{DmaDriverLaws C}.
Implicit Types (r : ring C).

Record wf_ring r : Prop := {
  wr_ok : drv_ok (rg_driver r);
  wr_count : buffer_count r = Z.of_nat BUFFER_COUNT;
  wr_current : 0 ≤ current_buffer_id r < Z.of_nat BUFFER_COUNT
}.

(** Only buffer [i]'s status may differ. *)
Definition others_same (i : nat) r r' : Prop :=
  ∀ j, j ≠ i → drv_status (rg_driver r') j = drv_status (rg_driver r) j.

Lemma on_driver_run {A} (m : M C A) r a c :
  m (rg_driver r) = Done (a, c) →
  on_driver m r = Done (a, mk_ring c (buffer_count r) (current_buffer_id r)).
Proof. intros Hm. unfold on_driver, zoom. by rewrite Hm. Qed.

Lemma status_of_run r i st :
  drv_status (rg_driver r) i = Some st → status_of (Z.of_nat i) r = Done (st, r).
Proof.
  intros Hst. unfold status_of. eapply bind_done; [done|].
  rewrite (proj2 (Z.ltb_ge _ _)) by lia. rewrite Nat2Z.id, Hst. done.
Qed.

Lemma wf_ring_driver r c : wf_ring r → drv_ok c → wf_ring (mk_ring c (buffer_count r) (current_buffer_id r)).
Proof. intros [Ho Hc Hi] Hc'. by split. Qed.

(** Waiting for a buffer that is not free. *)
Definition finish_if_busy (i : Z) (st : proxy_status) : M (ring C) unit :=
  if bool_decide (st = PROXY_NO_ERROR) then mret tt
  else on_driver (drv_ioctl FINISH_XFER i) ;; mret tt.

Lemma finish_run r i st :
  wf_ring r → (i < BUFFER_COUNT)%nat → drv_status (rg_driver r) i = Some st →
  ∃ r' st', finish_if_busy (Z.of_nat i) st r = Done (tt, r') ∧ wf_ring r' ∧
    current_buffer_id r' = current_buffer_id r ∧ drv_status (rg_driver r') i = Some st' ∧
    settled st' = true ∧ others_same i r r'.
Proof.
  intros Hr Hi Hst. unfold finish_if_busy. destruct (bool_decide_reflect (st = PROXY_NO_ERROR)) as [->|Hne].
  - by exists r, PROXY_NO_ERROR.
  - destruct (law_finish (rg_driver r) i (wr_ok r Hr) Hi) as (c' & st' & Hio & Hok & Hst' & Hset & Ho).
    exists (mk_ring c' (buffer_count r) (current_buffer_id r)), st'.
    split; [eapply bind_done; [by apply on_driver_run|done]|].
    split; [by apply wf_ring_driver|]. done.
Qed.

(** What asking for the next buffer does. *)
Lemma get_run r :
  wf_ring r → let i := Z.to_nat (current_buffer_id r) in
  ∃ r' st, wf_ring r' ∧ drv_status (rg_driver r') i = Some st ∧ settled st = true ∧ others_same i r r' ∧
    if bool_decide (st = PROXY_TIMEOUT)
    then io_stream_zc_buffer_local r = Done (None, r') ∧ current_buffer_id r' = current_buffer_id r
    else io_stream_zc_buffer_local r = Done (Some i, r') ∧
         current_buffer_id r' = (current_buffer_id r + 1) mod Z.of_nat BUFFER_COUNT.
Proof.
  intros Hr i. destruct (wr_current r Hr) as [Hc1 Hc2].
  assert (Z.of_nat i = current_buffer_id r) as Hi by (unfold i; lia).
  assert (i < BUFFER_COUNT)%nat as Hlt by lia.
  destruct (law_status (rg_driver r) i (wr_ok r Hr) Hlt) as [st0 Hst0].
  destruct (finish_run r i st0 Hr Hlt Hst0) as (r1 & st & Hfin & Hr1 & Hcur & Hst & Hset & Ho).
  assert (io_stream_zc_buffer_local r =
    (if bool_decide (st = PROXY_TIMEOUT) then mret None
     else modify (λ r, mk_ring (rg_driver r) (buffer_count r)
                         (u32 (current_buffer_id r1 + 1) mod buffer_count r)) ;;
          mret (Some i)) r1) as Hrun.
  { unfold io_stream_zc_buffer_local. eapply bind_done; [done|]. rewrite <-Hi.
    eapply bind_done; [by apply status_of_run|]. fold (finish_if_busy (Z.of_nat i) st0).
    eapply bind_done; [exact Hfin|]. eapply bind_done; [by apply status_of_run|].
    rewrite Nat2Z.id, Hcur, Hi. done. }
  rewrite Hrun. destruct (bool_decide _) eqn:Et.
  - exists r1, st. rewrite Et. done.
  - destruct Hr1 as [Hok1 Hcnt1 _]. unfold BUFFER_COUNT in *.
    eexists (mk_ring (rg_driver r1) _ _), st. rewrite Et.
    split; [|split; [done|split; [done|split; [done|split; [reflexivity|]]]]].
    + split; [done|exact Hcnt1|]. simpl. rewrite Hcnt1. apply Z.mod_pos_bound. unfold BUFFER_COUNT. lia.
    + simpl. rewrite Hcnt1, Hcur. by rewrite (uwrap_small 32) by lia.
Qed.

Lemma write_ring_run r i n :
  wf_ring r → (i < BUFFER_COUNT)%nat →
  ∃ r', io_write_stream_local i n r = Done (Z.of_nat i, r') ∧ wf_ring r' ∧
    current_buffer_id r' = current_buffer_id r ∧ others_same i r r'.
Proof.
  intros Hr Hi.
  destruct (law_set_length (rg_driver r) i n (wr_ok r Hr) Hi) as (c1 & H1 & Hok1 & Hs1).
  destruct (law_start c1 i Hok1 Hi) as (c2 & H2 & Hok2 & Hs2).
  exists (mk_ring c2 (buffer_count r) (current_buffer_id r)).
  split; [|split; [by apply wf_ring_driver|split; [done|]]].
  - unfold io_write_stream_local. eapply bind_done; [by apply on_driver_run|].
    eapply bind_done; [by apply on_driver_run|]. done.
  - intros j Hj. simpl. by rewrite Hs2, Hs1.
Qed.

End RingLemmas.

(** ** Programs over a ring *)

Section Programs.
Context {C : Type} `{DmaDriver C}.

(** The transmit loop of the applications: get a buffer, start its transfer,
    [n] times or up to the first NULL. *)
Fixpoint pump (n : nat) (size : Z) : M (ring C) (list nat) :=
  match n with
  | O => mret []
  | S n' =>
      b ← io_stream_zc_buffer_local;
      match b with
      | None => mret []
      | Some i => io_write_stream_local i size ;; ids ← pump n' size; mret (i :: ids)
      end
  end.

(** The [k]-th buffer after [from]. *)
Definition ring_id (from : Z) (k : nat) : nat := Z.to_nat ((from + Z.of_nat k) mod Z.of_nat BUFFER_COUNT).

End Programs.

(** ** Properties of stream devices *)

Section NextBuffer.
Context {C : Type} `{DmaDriverLaws C}.
Implicit Types (r : ring C).

(** What the call does once the driver is in [c], with the status [st]. *)
Lemma get_after r c st :
  wf_ring r → let i := Z.to_nat (current_buffer_id r) in
  drv_status c i = Some st →
  (st ← status_of (current_buffer_id r);
   if bool_decide (st = PROXY_TIMEOUT) then mret None
   else
     modify (λ r', mk_ring (rg_driver r') (buffer_count r') (u32 (current_buffer_id r + 1) mod buffer_count r')) ;;
     mret (Some i)) (mk_ring c (buffer_count r) (current_buffer_id r)) =
  if bool_decide (st = PROXY_TIMEOUT) then Done (None, mk_ring c (buffer_count r) (current_buffer_id r))
  else Done (Some i, mk_ring c (buffer_count r) ((current_buffer_id r + 1) mod Z.of_nat BUFFER_COUNT)).
Proof.
  intros [_ Hcnt Hc] i Hst. assert (Z.of_nat i = current_buffer_id r) as Hi by (unfold i; lia).
  pose proof (status_of_run (mk_ring c (buffer_count r) (current_buffer_id r)) i st Hst) as Hs. rewrite Hi in Hs.
  eapply bind_done; [exact Hs|]. destruct (bool_decide _); [done|].
  assert (Z.of_nat BUFFER_COUNT = 32) as Hn by reflexivity. unfold mbind, M_bind, modify. cbn [rg_driver buffer_count].
  rewrite Hcnt, (uwrap_small 32) by lia. reflexivity.
Qed.

Lemma get_free r :
  wf_ring r → let i := Z.to_nat (current_buffer_id r) in
  drv_status (rg_driver r) i = Some PROXY_NO_ERROR →
  io_stream_zc_buffer_local r =
    Done (Some i, mk_ring (rg_driver r) (buffer_count r) ((current_buffer_id r + 1) mod Z.of_nat BUFFER_COUNT)).
Proof.
  intros Hr i Hst. destruct (wr_current r Hr) as [Hc1 Hc2].
  assert (Z.of_nat i = current_buffer_id r) as Hi by (unfold i; lia).
  pose proof (get_after r (rg_driver r) _ Hr Hst) as Ha. fold i in Ha.
  assert (mk_ring (rg_driver r) (buffer_count r) (current_buffer_id r) = r) as He by (by destruct r). rewrite He in Ha.
  unfold io_stream_zc_buffer_local. eapply bind_done; [done|].
  pose proof (status_of_run r i _ Hst) as Hs. rewrite Hi in Hs.
  eapply bind_done; [exact Hs|]. eapply bind_done; [done|exact Ha].
Qed.

Lemma get_waited r st0 c st :
  wf_ring r → let i := Z.to_nat (current_buffer_id r) in
  drv_status (rg_driver r) i = Some st0 → st0 ≠ PROXY_NO_ERROR →
  drv_ioctl FINISH_XFER (current_buffer_id r) (rg_driver r) = Done (0, c) → drv_status c i = Some st →
  io_stream_zc_buffer_local r =
    if bool_decide (st = PROXY_TIMEOUT) then Done (None, mk_ring c (buffer_count r) (current_buffer_id r))
    else Done (Some i, mk_ring c (buffer_count r) ((current_buffer_id r + 1) mod Z.of_nat BUFFER_COUNT)).
Proof.
  intros Hr i Hst0 Hne Hfin Hst. destruct (wr_current r Hr) as [Hc1 Hc2].
  assert (Z.of_nat i = current_buffer_id r) as Hi by (unfold i; lia).
  unfold io_stream_zc_buffer_local. eapply bind_done; [done|].
  pose proof (status_of_run r i _ Hst0) as Hs. rewrite Hi in Hs.
  eapply bind_done; [exact Hs|]. rewrite bool_decide_eq_false_2 by done.
  eapply bind_done; [eapply bind_done; [apply zoom_done; exact Hfin|reflexivity]|]. exact (get_after r c st Hr Hst).
Qed.

End NextBuffer.

Section RingProperties.
Context {C : Type} `{DmaDriverLaws C}.
Implicit Types (r : ring C).

(** C27: Asking for the next buffer always returns.  A buffer with the status
    PROXY_NO_ERROR is handed out without a call into the driver, and the ring
    advances by one.  For any other the driver is asked to finish it, once; it is
    handed out, and the ring advances, if the status is then PROXY_NO_ERROR or
    PROXY_ERROR (which a transfer still in progress has when a signal interrupted
    the wait); with PROXY_TIMEOUT the answer is NULL and the ring stays.  No other
    buffer's status changes. *)
Theorem get_buffer_contract r :
  wf_ring r →
  let i := Z.to_nat (current_buffer_id r) in
  let advanced c := mk_ring c (buffer_count r) ((current_buffer_id r + 1) mod Z.of_nat BUFFER_COUNT) in
  drv_status (rg_driver r) i = Some PROXY_NO_ERROR ∧
    io_stream_zc_buffer_local r = Done (Some i, advanced (rg_driver r)) ∧ wf_ring (advanced (rg_driver r))
  ∨ ∃ st0 c st,
    drv_status (rg_driver r) i = Some st0 ∧ st0 ≠ PROXY_NO_ERROR ∧
    drv_ioctl FINISH_XFER (current_buffer_id r) (rg_driver r) = Done (0, c) ∧ drv_status c i = Some st ∧
    (st = PROXY_TIMEOUT ∧ io_stream_zc_buffer_local r = Done (None, mk_ring c (buffer_count r) (current_buffer_id r))
     ∨ (st = PROXY_NO_ERROR ∨ st = PROXY_ERROR) ∧ io_stream_zc_buffer_local r = Done (Some i, advanced c)) ∧
    wf_ring (advanced c) ∧ ∀ j, j ≠ i → drv_status c j = drv_status (rg_driver r) j.
Proof.
  intros Hr i advanced. destruct (wr_current r Hr) as [Hc1 Hc2].
  assert (Z.of_nat i = current_buffer_id r) as Hi by (unfold i; lia).
  assert (i < BUFFER_COUNT)%nat as Hlt by lia.
  assert (∀ c, drv_ok c → wf_ring (advanced c)) as Hadv.
  { intros c Hok. split; [exact Hok|apply (wr_count r Hr)|apply Z.mod_pos_bound; unfold BUFFER_COUNT; lia]. }
  destruct (law_status (rg_driver r) i (wr_ok r Hr) Hlt) as [st0 Hst0].
  destruct (decide (st0 = PROXY_NO_ERROR)) as [->|Hne]; [left|right].
  - split; [done|]. split; [|apply Hadv, (wr_ok r Hr)]. by apply get_free.
  - destruct (law_finish (rg_driver r) i (wr_ok r Hr) Hlt) as (c & st & Hfin & Hok & Hst & Hset & Ho). rewrite Hi in Hfin.
    exists st0, c, st. do 4 (split; [done|]). split; [|split; [by apply Hadv|done]].
    pose proof (get_waited r st0 c st Hr Hst0 Hne Hfin Hst) as Hrun. fold i in Hrun.
    destruct st; try done; [right|left|right]; (split; [tauto|exact Hrun]).
Qed.

(** A sender that keeps filling buffers uses them in round-robin order and
    never faults; it stops early only at a buffer that timed out. *)
Theorem pump_round_robin n size r :
  wf_ring r →
  ∃ ids r', pump n size r = Done (ids, r') ∧ wf_ring r' ∧
    ids = ring_id (current_buffer_id r) <$> seq 0 (length ids) ∧
    Z.to_nat (current_buffer_id r') = ring_id (current_buffer_id r) (length ids) ∧
    (length ids = n ∨
     (length ids < n)%nat ∧ drv_status (rg_driver r') (Z.to_nat (current_buffer_id r')) = Some PROXY_TIMEOUT).
Proof.
  revert r. induction n as [|n IH]; intros r Hr.
  - exists [], r. split; [done|]. split; [done|]. split; [done|]. split; [|by left].
    unfold ring_id. simpl. rewrite Z.add_0_r, Z.mod_small by apply (wr_current r Hr). done.
  - destruct (get_run r Hr) as (r1 & st & Hr1 & Hst & _ & _ & Hcase).
    destruct (wr_current r Hr) as [Hc1 Hc2]. set (i := Z.to_nat (current_buffer_id r)) in *.
    destruct (bool_decide_reflect (st = PROXY_TIMEOUT)) as [->|_]; destruct Hcase as [Hrun Hcur].
    + exists [], r1. split; [simpl; by eapply bind_done; [exact Hrun|]|]. split; [done|]. split; [done|].
      rewrite Hcur. split; [|right; split; [simpl; lia|done]].
      unfold ring_id. simpl. by rewrite Z.add_0_r, Z.mod_small by done.
    + destruct (write_ring_run r1 i size Hr1) as (r2 & Hw & Hr2 & Hcur2 & _); [lia|].
      destruct (IH r2 Hr2) as (ids & r3 & Hp & Hr3 & Hids & Hc3 & Hend).
      rewrite Hcur2, Hcur in Hids, Hc3.
      assert (∀ k, ring_id ((current_buffer_id r + 1) mod Z.of_nat BUFFER_COUNT) k =
                   ring_id (current_buffer_id r) (S k)) as Hshift.
      { intros k. unfold ring_id. rewrite Zplus_mod_idemp_l. do 2 f_equal. lia. }
      exists (i :: ids), r3. split; [|split; [done|split; [|split]]].
      * simpl. eapply bind_done; [exact Hrun|]. eapply bind_done; [exact Hw|].
        eapply bind_done; [exact Hp|]. done.
      * simpl. f_equal.
        -- unfold ring_id. simpl. by rewrite Z.add_0_r, Z.mod_small by done.
        -- rewrite Hids at 1. rewrite <-fmap_S_seq, <-list_fmap_compose. apply list_fmap_ext. intros _ k _. apply Hshift.
      * rewrite Hc3. apply Hshift.
      * simpl. destruct Hend as [->|[Hl Ht]]; [by left|right]. split; [lia|done].
Qed.

(** Synchronising waits for every buffer that is not free: afterwards each of the
    32 buffers has a status of a wait that has ended (a time-out or an error
    included), and the ring has not moved. *)
Theorem finish_settles_all r :
  wf_ring r →
  ∃ r', io_finish_stream_local r = Done (tt, r') ∧ wf_ring r' ∧
    current_buffer_id r' = current_buffer_id r ∧
    ∀ i, (i < BUFFER_COUNT)%nat → settled <$> drv_status (rg_driver r') i = Some true.
Proof.
  intros Hr.
  assert (wp io_finish_stream_local (λ _ r', wf_ring r' ∧ current_buffer_id r' = current_buffer_id r ∧
    ∀ i, (i < BUFFER_COUNT)%nat → settled <$> drv_status (rg_driver r') i = Some true) r) as Hwp.
  { unfold io_finish_stream_local. wp_step. rewrite (wr_count r Hr), Nat2Z.id.
    apply (wp_for (λ n r', wf_ring r' ∧ current_buffer_id r' = current_buffer_id r ∧
      ∀ i, (i < n)%nat → settled <$> drv_status (rg_driver r') i = Some true)).
    - intros k r1 Hk (Hr1 & Hcur & Hall).
      destruct (law_status (rg_driver r1) k (wr_ok r1 Hr1) Hk) as [st Hst].
      destruct (finish_run r1 k st Hr1 Hk Hst) as (r2 & st2 & Hrun & Hr2 & Hcur2 & Hst2 & Hset & Ho).
      apply wp_bind. eapply wp_done; [by apply status_of_run|].
      eapply wp_done; [exact Hrun|]. split; [done|]. split; [by rewrite Hcur2|].
      intros i Hi. destruct (decide (i = k)) as [->|Hne]; [rewrite Hst2; simpl; by rewrite Hset|].
      rewrite Ho by done. apply Hall. lia.
    - split; [done|]. split; [done|]. lia. }
  apply wp_run in Hwp as ([] & r' & Hrun & Hp). by exists r'.
Qed.

End RingProperties.

(** ** Lemmas: mappings *)

(** A device whose window of [size] words is mapped. *)
Definition live (dev : mapped_dev) (size : Z) (w : local_os) : Prop :=
  0 < size ∧ lo_maps w !! ch_start dev = Some (pages (4 * size)) ∧
  ch_end dev = ch_start dev + 4 * size.

Lemma pages_bounds len : 0 ≤ len → len ≤ pages len < len + PAGE.
Proof.
  intros Hl. unfold pages, PAGE.
  pose proof (Z.div_mod (len + 4096 - 1) 4096 ltac:(lia)).
  pose proof (Z.mod_pos_bound (len + 4096 - 1) 4096 ltac:(lia)). lia.
Qed.

Lemma pages_aligned len : len mod PAGE = 0 → pages len = len.
Proof.
  intros Hm. unfold pages. apply Z.div_exact in Hm; [|done]. rewrite Hm at 1. unfold PAGE in *.
  replace (4096 * (len / 4096) + 4096 - 1) with (4095 + (len / 4096) * 4096) by lia.
  rewrite Z.div_add by lia. change (4095 / 4096) with 0. lia.
Qed.

Lemma pages_room size : 0 < size → size mod 1024 ≠ 0 → 4 * size + 4 ≤ pages (4 * size).
Proof.
  intros Hs Hm. unfold pages, PAGE.
  pose proof (Z.div_mod size 1024 ltac:(lia)).
  pose proof (Z.mod_pos_bound size 1024 ltac:(lia)).
  replace (4 * size + 4096 - 1) with ((4 * (size mod 1024) - 1) + (size / 1024 + 1) * 4096) by lia.
  rewrite Z.div_add by lia. rewrite Z.div_small by lia. lia.
Qed.

Lemma window_words dev size w : live dev size w → (ch_end dev - ch_start dev) / 4 = size.
Proof.
  intros (_ & _ & He). rewrite He. replace (ch_start dev + 4 * size - ch_start dev) with (size * 4) by lia.
  by apply Z.div_mul.
Qed.

Lemma word_at_run dev size w a :
  live dev size w → 0 ≤ a → 4 * a + 4 ≤ pages (4 * size) →
  word_at (ch_start dev) a w = Done (ch_start dev + 4 * a, w).
Proof.
  intros (_ & Hm & _) Ha Hl. unfold word_at. rewrite Hm.
  by rewrite (proj2 (Z.leb_le 0 a)), (proj2 (Z.leb_le _ _)) by lia.
Qed.

Lemma read_local_run dev size w a :
  live dev size w → 0 ≤ a < size →
  io_read_local dev a w = Done (default 0 (lo_mem w !! (ch_start dev + 4 * a)), w).
Proof.
  intros Hlive Ha. pose proof Hlive as (Hs & _ & _). unfold io_read_local.
  rewrite (window_words dev size w Hlive), (proj2 (Z.ltb_ge _ _)) by lia.
  pose proof (pages_bounds (4 * size) ltac:(lia)).
  eapply bind_done; [eapply word_at_run; [done|lia|lia]|]. done.
Qed.

Lemma write_local_run dev size w a v :
  live dev size w → 0 ≤ a → a ≤ size → 4 * a + 4 ≤ pages (4 * size) →
  io_write_local dev a v w = Done (tt, set_mem (<[ch_start dev + 4 * a := v]> (lo_mem w)) w).
Proof.
  intros Hlive Ha Hs Hp. unfold io_write_local.
  rewrite (window_words dev size w Hlive), (proj2 (Z.ltb_ge _ _)) by lia.
  eapply bind_done; [by eapply word_at_run|]. done.
Qed.

Lemma open_mapped_run w fd l ok ms size :
  lo_opens w = fd :: l → 1 ≤ fd → lo_mmaps w = ok :: ms → 0 < lo_next w →
  let start := if ok then lo_next w else MAP_FAILED in
  let maps := if ok then <[lo_next w := pages (size * 4)]> (lo_maps w) else lo_maps w in
  let next := if ok then lo_next w + pages (size * 4) + PAGE else lo_next w in
  io_open_mapped_local size w =
    Done (Some (mk_mapped_dev start (start + size * 4) fd),
          mk_os l ms ({[fd]} ∪ lo_fds w) maps (lo_mem w) next (lo_blocks w + 1)).
Proof.
  intros Ho Hfd Hm Hn start maps next. unfold io_open_mapped_local.
  eapply bind_done; [unfold sys_open; rewrite Ho, (proj2 (Z.ltb_ge fd 0)) by lia; reflexivity|].
  rewrite (proj2 (Z.ltb_ge fd 1)) by lia. eapply bind_done; [reflexivity|].
  unfold start, maps, next.
  destruct ok; (eapply bind_done; [unfold sys_mmap; cbn; rewrite Hm; reflexivity|]).
  - rewrite (proj2 (Z.eqb_neq _ _)) by (cbn; lia). done.
  - done.
Qed.

(** ** Properties of local devices *)

Section DeviceProperties.
Implicit Types (w : local_os).

(** The words of a mapped device behave as an array: in the window a write is
    read back and leaves the other words alone, and beyond the word after the
    window writes are dropped and reads give all ones. *)
Theorem local_registers dev size w a v :
  live dev size w → 0 ≤ a < 2 ^ 32 →
  (a < size → ∃ w', io_write_local dev a v w = Done (tt, w') ∧ live dev size w' ∧
     io_read_local dev a w' = Done (v, w') ∧
     ∀ b, 0 ≤ b < size → b ≠ a → ∃ x, io_read_local dev b w = Done (x, w) ∧
                                      io_read_local dev b w' = Done (x, w')) ∧
  (size < a → io_write_local dev a v w = Done (tt, w) ∧ io_read_local dev a w = Done (2 ^ 32 - 1, w)).
Proof.
  intros Hlive Ha. pose proof Hlive as (Hs & Hm & He). split.
  - intros Has. pose proof (pages_bounds (4 * size) ltac:(lia)).
    eexists. split; [apply (write_local_run dev size); try done; lia|].
    assert (live dev size (set_mem (<[ch_start dev + 4 * a := v]> (lo_mem w)) w)) as Hlive' by done.
    split; [done|]. split.
    + rewrite (read_local_run dev size) by (done || lia). cbn [lo_mem set_mem].
      by rewrite lookup_insert_eq.
    + intros b Hb Hne. eexists. split; [by apply (read_local_run dev size)|].
      rewrite (read_local_run dev size) by done. cbn [lo_mem set_mem].
      by rewrite lookup_insert_ne by lia.
  - intros Has. unfold io_write_local, io_read_local.
    rewrite (window_words dev size w Hlive), (proj2 (Z.ltb_lt _ _)) by lia. done.
Qed.

(** The bound check lets the word just past the window through: a write to it
    stores outside the window, and faults when the window fills its last
    page. *)
Theorem end_register_not_rejected dev size w v :
  live dev size w →
  io_write_local dev size v w =
    if size mod 1024 =? 0 then Fault OutOfBounds
    else Done (tt, set_mem (<[ch_end dev := v]> (lo_mem w)) w).
Proof.
  intros Hlive. pose proof Hlive as (Hs & Hm & He).
  destruct (Z.eqb_spec (size mod 1024) 0) as [Hz|Hnz].
  - unfold io_write_local. rewrite (window_words dev size w Hlive), (proj2 (Z.ltb_ge _ _)) by lia.
    apply bind_fault. unfold word_at. rewrite Hm, pages_aligned.
    + by rewrite (proj2 (Z.leb_le 0 size)), (proj2 (Z.leb_gt _ _)) by lia.
    + unfold PAGE. apply Z.div_exact in Hz; [|done]. rewrite Hz.
      replace (4 * (1024 * (size / 1024))) with (size / 1024 * 4096) by lia. by apply Z.mod_mul.
  - rewrite (write_local_run dev size) by (done || lia || by apply pages_room). by rewrite He.
Qed.

(** Opening a register device maps its window, and closing it gives the
    descriptor, the mapping and the memory back. *)
Theorem open_close_mapped_local w fd l ms size :
  lo_opens w = fd :: l → 1 ≤ fd → fd ∉ lo_fds w → lo_mmaps w = true :: ms → 0 < lo_next w →
  lo_maps w !! lo_next w = None → 0 < size →
  ∃ dev w1 w2, io_open_mapped_local size w = Done (Some dev, w1) ∧ live dev size w1 ∧
    fd ∈ lo_fds w1 ∧ io_close_mapped_local (Some dev) w1 = Done (0, w2) ∧
    lo_fds w2 = lo_fds w ∧ lo_maps w2 = lo_maps w ∧ lo_blocks w2 = lo_blocks w.
Proof.
  intros Ho Hfd Hfresh Hm Hn Hnone Hs.
  do 3 eexists. split; [by apply (open_mapped_run w fd l true ms)|].
  split.
  { split; [done|]. simpl. rewrite lookup_insert_eq. split; [do 2 f_equal|]; lia. }
  split; [simpl; set_solver|]. split.
  { unfold io_close_mapped_local. eapply bind_done.
    { unfold sys_munmap. simpl. rewrite lookup_insert_eq.
      replace (lo_next w + size * 4 - lo_next w) with (size * 4) by lia. rewrite Z.ltb_irrefl. reflexivity. }
    eapply bind_done; [reflexivity|]. eapply bind_done; [reflexivity|]. reflexivity. }
  simpl. split; [set_solver|]. split; [|lia]. by rewrite delete_insert_id.
Qed.

(** A failing [mmap] is not detected: the open of a register device still
    succeeds, with a device on which every access inside the window is wild, and
    the open of a stream device faults while clearing the statuses. *)
Theorem mmap_failure_undetected {C} `{DmaDriver C} w fd l ms size (c : C) :
  lo_opens w = fd :: l → 1 ≤ fd → lo_mmaps w = false :: ms → 0 < lo_next w →
  lo_maps w !! MAP_FAILED = None → 0 < size →
  io_open_stream_local c w = Fault WildPointer ∧
  ∃ dev w1, io_open_mapped_local size w = Done (Some dev, w1) ∧
    ∀ a v, 0 ≤ a ≤ size → io_write_local dev a v w1 = Fault WildPointer ∧
                          io_read_local dev a w1 = Fault WildPointer.
Proof.
  intros Ho Hfd Hm Hn Hnone Hs. split.
  - unfold io_open_stream_local.
    eapply bind_done; [unfold sys_open; rewrite Ho, (proj2 (Z.ltb_ge fd 0)) by lia; reflexivity|].
    rewrite (proj2 (Z.ltb_ge fd 1)) by lia. eapply bind_done; [reflexivity|]. apply bind_fault.
    unfold io_local_buffer_init. eapply bind_done.
    { unfold buffer_allocate. rewrite Z.ltb_irrefl.
      eapply bind_done; [unfold sys_mmap; cbn; rewrite Hm; reflexivity|].
      eapply bind_done; reflexivity. }
    cbv beta iota. eapply bind_done; [reflexivity|]. eapply bind_done; [reflexivity|].
    rewrite bool_decide_eq_true_2; [done|]. exact Hnone.
  - do 2 eexists. split; [by apply (open_mapped_run w fd l false ms)|].
    intros a v Ha. unfold io_write_local, io_read_local. cbn [ch_start ch_end].
    replace (MAP_FAILED + size * 4 - MAP_FAILED) with (size * 4) by lia.
    rewrite Z.div_mul, (proj2 (Z.ltb_ge _ _)) by lia.
    split; apply bind_fault; unfold word_at; cbn [lo_maps]; by rewrite Hnone.
Qed.

(** Closing a stream device returns its descriptor and its memory but unmaps
    one of the 32 channel buffers only: the rest of the mapping stays for the
    life of the process. *)
Theorem close_stream_keeps_mapping w d :
  lo_maps w !! sd_buffers d = Some (pages (sizeof_channel_buffer * Z.of_nat BUFFER_COUNT)) →
  ∃ w', io_close_stream_local (Some d) w = Done (0, w') ∧
    lo_fds w' = lo_fds w ∖ {[sd_fd d]} ∧ lo_blocks w' = lo_blocks w - 3 ∧
    lo_maps w' = <[sd_buffers d + 33 * PAGE := 999 * PAGE]> (delete (sd_buffers d) (lo_maps w)).
Proof.
  intros Hm. eexists. split.
  { unfold io_close_stream_local. eapply bind_done.
    { unfold buffer_release. eapply bind_done; [unfold sys_munmap; rewrite Hm; reflexivity|]. reflexivity. }
    eapply bind_done; [reflexivity|]. eapply bind_done; [reflexivity|].
    eapply bind_done; [reflexivity|]. reflexivity. }
  simpl. split; [done|]. split; [lia|]. done.
Qed.

End DeviceProperties.

(** ** Concrete runs *)

Definition demo_os (ok : bool) : local_os := mk_os [5] [ok] ∅ ∅ ∅ 65536 0.
Definition demo_dev : mapped_dev := mk_mapped_dev 65536 (65536 + 2048) 5.
Definition demo_mapped : local_os := mk_os [] [] {[5]} {[65536 := 4096]} ∅ 73728 1.

Lemma demo_live : live demo_dev 512 demo_mapped.
Proof. split; [lia|]. split; reflexivity. Qed.

(** A process with an open stream device: 32 buffers of 132096 bytes are mapped. *)
Definition demo_streaming : local_os := mk_os [] [] {[5]} {[65536 := 4227072]} ∅ 0 3.

#[local] Instance demo_driver : DmaDriver (dma_proxy_channel script) := channel_driver 300.

Definition demo_ring : ring (dma_proxy_channel script) :=
  mk_ring (fresh_channel demo_engine 4096) 32 30.

Lemma demo_ring_wf : wf_ring demo_ring.
Proof. split; [apply wf_fresh_channel|reflexivity|split; vm_compute; congruence]. Qed.

Lemma local_registers_witness :
  ∃ w', io_write_local demo_dev 7 9 demo_mapped = Done (tt, w') ∧ io_read_local demo_dev 7 w' = Done (9, w').
Proof.
  destruct (local_registers demo_dev 512 demo_mapped 7 9 demo_live ltac:(lia)) as [Hin _].
  destruct (Hin ltac:(lia)) as (w' & Hw & _ & Hr & _). exists w'. split; [exact Hw|exact Hr].
Defined.

Lemma end_register_not_rejected_witness :
  ∃ w', io_write_local demo_dev 512 9 demo_mapped = Done (tt, w') ∧ lo_mem w' !! ch_end demo_dev = Some 9.
Proof.
  eexists. split; [rewrite (end_register_not_rejected demo_dev 512 demo_mapped 9 demo_live); reflexivity|].
  reflexivity.
Defined.

Lemma open_close_mapped_local_witness :
  ∃ dev w1 w2, io_open_mapped_local 512 (demo_os true) = Done (Some dev, w1) ∧
    io_close_mapped_local (Some dev) w1 = Done (0, w2) ∧ lo_fds w2 = ∅ ∧ lo_maps w2 = ∅.
Proof.
  destruct (open_close_mapped_local (demo_os true) 5 [] [] 512) as (dev & w1 & w2 & H1 & _ & _ & H2 & H3 & H4 & _);
    [reflexivity|lia|set_solver|reflexivity|simpl; lia|reflexivity|lia|].
  exists dev, w1, w2. split; [exact H1|]. split; [exact H2|]. split; [exact H3|exact H4].
Defined.

Lemma mmap_failure_undetected_witness :
  io_open_stream_local (fresh_channel demo_engine 4096) (demo_os false) = Fault WildPointer.
Proof.
  destruct (mmap_failure_undetected (demo_os false) 5 [] [] 512 (fresh_channel demo_engine 4096)) as [Hs _];
    [reflexivity|lia|reflexivity|simpl; lia|reflexivity|lia|exact Hs].
Defined.

Lemma close_stream_keeps_mapping_witness :
  ∃ w', io_close_stream_local (Some (mk_stream_dev 5 65536)) demo_streaming =
      Done (0, w') ∧ lo_maps w' !! (65536 + 33 * PAGE) = Some (999 * PAGE).
Proof.
  destruct (close_stream_keeps_mapping demo_streaming (mk_stream_dev 5 65536) ltac:(vm_compute; reflexivity))
    as (w' & Hr & _ & _ & Hm). exists w'. split; [exact Hr|]. rewrite Hm. reflexivity.
Defined.

Lemma get_buffer_contract_witness :
  ∃ r', io_stream_zc_buffer_local demo_ring = Done (Some 30%nat, r') ∧ current_buffer_id r' = 31.
Proof.
  destruct (get_buffer_contract demo_ring demo_ring_wf) as [(_ & Hr & _)|(st0 & c & st & Hst0 & Hne & _)].
  - eexists. split; [exact Hr|reflexivity].
  - exfalso. apply Hne. vm_compute in Hst0. by injection Hst0.
Defined.

Lemma pump_round_robin_witness :
  ∃ r', pump 3 4096 demo_ring = Done ([30%nat; 31%nat; 0%nat], r') ∧ wf_ring r'.
Proof.
  destruct (pump_round_robin 3 4096 demo_ring demo_ring_wf) as (ids & r' & Hr & Hwf & Hids & _ & _).
  assert (∃ r1, pump 3 4096 demo_ring = Done ([30%nat; 31%nat; 0%nat], r1)) as [r1 Hrun]
    by (eexists; vm_compute; reflexivity).
  rewrite Hrun in Hr. injection Hr as <- <-. exists r1. split; [exact Hrun|exact Hwf].
Defined.

Lemma finish_settles_all_witness :
  ∃ r', io_finish_stream_local demo_ring = Done (tt, r') ∧ settled <$> drv_status (rg_driver r') 3 = Some true.
Proof.
  destruct (finish_settles_all demo_ring demo_ring_wf) as (r' & Hr & _ & _ & Hall).
  exists r'. split; [exact Hr|]. apply Hall. unfold BUFFER_COUNT. lia.
Defined.
