(* ===== verification/Mapping.v ===== *)
(** * Mapping: the driver's memory in an application

    [mmap] of [src/driver/stream_dma/streamio-drv.c], the call behind the mapping
    of a stream device in [LocalBackend].  The kernel's [dma_mmap_coherent] is a
    parameter: it refuses a window that does not fit into the size it is given and
    otherwise maps the pages of the area one by one. *)
From Stdlib Require Import ZArith Lia.
From stdpp Require Import base list numbers option gmap.
From S2P Require Import Prelude DmaChannel LocalBackend.

(** [struct vm_area_struct]: the window and the offset in pages. *)
Record vm_area := mk_vma { vm_start : Z; vm_end : Z; vm_pgoff : Z }.

Record vma_ok (v : vm_area) : Prop := {
  vo_start : vm_start v mod PAGE = 0;
  vo_end : vm_end v mod PAGE = 0;
  vo_order : vm_start v < vm_end v;
  vo_pgoff : 0 ≤ vm_pgoff v
}.

(** The page tables of a process: the physical page behind a page. *)
Abbreviation page_table := (gmap Z Z).

(** The physical address behind an address. *)
Definition translate (t : page_table) (a : Z) : option Z :=
  frame ← t !! (a / PAGE * PAGE);
  Some (frame + a mod PAGE).

Class CoherentMmap := {
  dma_mmap_coherent : vm_area → Z → Z → M page_table Z;
  mmap_fits : ∀ v phys size t, vma_ok v → 0 ≤ size → phys mod PAGE = 0 →
    vm_pgoff v * PAGE + (vm_end v - vm_start v) ≤ pages size →
    ∃ t', dma_mmap_coherent v phys size t = Done (0, t') ∧
      ∀ a, a mod PAGE = 0 →
        t' !! a = if (vm_start v <=? a) && (a <? vm_end v)
                  then Some (phys + vm_pgoff v * PAGE + (a - vm_start v)) else t !! a;
  mmap_refuses : ∀ v phys size t, vma_ok v → 0 ≤ size →
    pages size < vm_pgoff v * PAGE + (vm_end v - vm_start v) →
    ∃ r, r < 0 ∧ dma_mmap_coherent v phys size t = Done (r, t)
}.

Section Mmap.
Context {E : Type} `{DmaEngine E} `{CoherentMmap}.
Abbreviation chan := (dma_proxy_channel E).
Implicit Types (pc : chan).

(** The size handed over is that of the window, not that of the buffers. *)
Definition mmap pc (v : vm_area) : M page_table Z :=
  dma_mmap_coherent v (buffer_phys_addr pc) (vm_end v - vm_start v).

(** ** Lemmas *)

Lemma page_start a : (a / PAGE * PAGE) mod PAGE = 0.
Proof. by apply Z.mod_mul. Qed.

Lemma page_split a : a = a / PAGE * PAGE + a mod PAGE ∧ 0 ≤ a mod PAGE < PAGE.
Proof.
  pose proof (Z.div_mod a PAGE ltac:(done)). pose proof (Z.mod_pos_bound a PAGE ltac:(done)). lia.
Qed.

(** A page lies in a window of pages or outside it. *)
Lemma page_inside b a : b mod PAGE = 0 → b ≤ a ↔ b ≤ a / PAGE * PAGE.
Proof.
  intros Hb. apply Z.div_exact in Hb; [|done]. rewrite Hb. destruct (page_split a) as [Ha Hr]. unfold PAGE in *. lia.
Qed.

Lemma window_aligned v : vma_ok v → pages (vm_end v - vm_start v) = vm_end v - vm_start v.
Proof.
  intros [Hs He _ _]. apply pages_aligned. rewrite Zminus_mod, Hs, He. done.
Qed.

(** The buffers fill whole pages. *)
Lemma table_pages : pages (sizeof_channel_buffer * Z.of_nat BUFFER_COUNT) = sizeof_channel_buffer * Z.of_nat BUFFER_COUNT.
Proof. reflexivity. Qed.

Lemma mmap_run pc v t :
  vma_ok v → buffer_phys_addr pc mod PAGE = 0 →
  if vm_pgoff v =? 0 then
    ∃ t', mmap pc v t = Done (0, t') ∧
      ∀ a, translate t' a = if (vm_start v <=? a) && (a <? vm_end v)
                            then Some (buffer_phys_addr pc + (a - vm_start v)) else translate t a
  else ∃ r, r < 0 ∧ mmap pc v t = Done (r, t).
Proof.
  intros Hv Hp. pose proof Hv as [Hs He Ho Hoff]. pose proof (window_aligned v Hv) as Hw.
  destruct (Z.eqb_spec (vm_pgoff v) 0) as [Hoff0|Hoff0].
  - destruct (mmap_fits v (buffer_phys_addr pc) (vm_end v - vm_start v) t Hv) as (t' & Hr & Ht');
      [lia|done|rewrite Hw, Hoff0; lia|].
    exists t'. split; [exact Hr|]. intros a. unfold translate. rewrite (Ht' _ (page_start a)), Hoff0.
    destruct (page_split a) as [Ha Hm].
    replace (vm_start v <=? a / PAGE * PAGE) with (vm_start v <=? a)
      by (apply eq_true_iff_eq; rewrite !Z.leb_le; by apply page_inside).
    replace (a / PAGE * PAGE <? vm_end v) with (a <? vm_end v)
      by (apply eq_true_iff_eq; rewrite !Z.ltb_lt, <-!Z.nle_gt; by rewrite (page_inside (vm_end v) a)).
    destruct (_ && _); [|done]. simpl. f_equal. lia.
  - apply mmap_refuses; [done|lia|]. rewrite Hw. unfold PAGE in *. lia.
Qed.

(** ** Properties *)

(** C34: Mapping a channel's node, on every window of pages: with the offset 0 it
    always succeeds, and the application's byte [off] of buffer [i] is the byte the
    buffer's descriptor has the hardware transfer.  The size is checked against the
    window itself, so a window longer than the 32 buffers is mapped as well, onto
    the physical memory behind them; with any other offset the call fails. *)
Theorem mmap_outcomes pc v t :
  vma_ok v → wf_channel pc → buffer_phys_addr pc mod PAGE = 0 →
  if vm_pgoff v =? 0 then
    ∃ t', mmap pc v t = Done (0, t') ∧
      (∀ i d off, bdtable pc !! i = Some d → 0 ≤ off < sizeof_channel_buffer →
         let a := vm_start v + sizeof_channel_buffer * Z.of_nat i + off in
         a < vm_end v → translate t' a = Some (dma_handle d + off)) ∧
      (∀ n, sizeof_channel_buffer * Z.of_nat BUFFER_COUNT ≤ n < vm_end v - vm_start v →
         ∃ p, translate t' (vm_start v + n) = Some p ∧
           buffer_phys_addr pc + sizeof_channel_buffer * Z.of_nat BUFFER_COUNT ≤ p) ∧
      ∀ a, a < vm_start v ∨ vm_end v ≤ a → translate t' a = translate t a
  else ∃ r, r < 0 ∧ mmap pc v t = Done (r, t).
Proof.
  intros Hv Hwf Hp. pose proof (mmap_run pc v t Hv Hp) as Hrun. destruct (vm_pgoff v =? 0); [|done].
  destruct Hrun as (t' & Hr & Ht'). exists t'. split; [exact Hr|].
  assert (0 < sizeof_channel_buffer) as Hsz by reflexivity. split; [|split].
  - intros i d off Hd Hoff a Ha. rewrite Ht', (wf_handles _ Hwf i d Hd). unfold a in *.
    rewrite (proj2 (Z.leb_le _ _)), (proj2 (Z.ltb_lt _ _)) by lia. simpl. f_equal. lia.
  - intros n Hn. exists (buffer_phys_addr pc + n). rewrite Ht'.
    rewrite (proj2 (Z.leb_le _ _)), (proj2 (Z.ltb_lt _ _)) by lia. simpl. split; [f_equal; lia|lia].
  - intros a Ha. rewrite Ht'. destruct Ha as [Ha|Ha].
    + by rewrite (proj2 (Z.leb_gt _ _)) by lia.
    + by rewrite (proj2 (Z.ltb_ge a _)), andb_false_r by lia.
Qed.

End Mmap.

(** ** A concrete kernel *)

(** [remap_pfn_range]: [n] pages from [a] on to the physical pages from [p] on. *)
Fixpoint remap (n : nat) (a p : Z) (t : page_table) : page_table :=
  match n with
  | O => t
  | S n' => <[a := p]> (remap n' (a + PAGE) (p + PAGE) t)
  end.

Lemma remap_lookup n a p t x :
  a mod PAGE = 0 → x mod PAGE = 0 →
  remap n a p t !! x = if (a <=? x) && (x <? a + PAGE * Z.of_nat n) then Some (p + (x - a)) else t !! x.
Proof.
  intros Ha Hx. revert a p Ha. induction n as [|n IH]; intros a p Ha.
  { cbn [remap]. destruct (Z.leb_spec a x), (Z.ltb_spec x (a + PAGE * Z.of_nat 0)); try done. lia. }
  cbn [remap]. rewrite Nat2Z.inj_succ. destruct (decide (x = a)) as [->|Hne].
  - rewrite lookup_insert_eq, Z.leb_refl, (proj2 (Z.ltb_lt _ _)) by (unfold PAGE; lia). simpl. f_equal. lia.
  - rewrite lookup_insert_ne, IH by (done || by rewrite <-Z.add_mod_idemp_r, Z_mod_same_full, Z.add_0_r).
    assert (a <=? x = (a + PAGE <=? x)) as ->.
    { apply eq_true_iff_eq. rewrite !Z.leb_le. apply Z.div_exact in Ha; [|done]. apply Z.div_exact in Hx; [|done].
      unfold PAGE in *. lia. }
    replace (a + PAGE * Z.succ (Z.of_nat n)) with (a + PAGE + PAGE * Z.of_nat n) by lia.
    destruct (_ && _); [|done]. f_equal. lia.
Qed.

#[export, refine] Instance direct_mmap : CoherentMmap := {
  dma_mmap_coherent := λ v phys size t,
    if vm_pgoff v * PAGE + (vm_end v - vm_start v) <=? pages size
    then Done (0, remap (Z.to_nat ((vm_end v - vm_start v) / PAGE)) (vm_start v) (phys + vm_pgoff v * PAGE) t)
    else Done (-6, t)
}.
Proof.
  - intros v phys size t [Hs He Ho _] _ _ Hle. rewrite (proj2 (Z.leb_le _ _)) by done. eexists. split; [done|].
    intros a Ha. rewrite remap_lookup by done.
    rewrite Z2Nat.id by (apply Z.div_pos; [lia|done]).
    replace (vm_start v + PAGE * ((vm_end v - vm_start v) / PAGE)) with (vm_end v); [done|].
    rewrite <-(proj2 (Z.div_exact (vm_end v - vm_start v) PAGE ltac:(done))); [lia|].
    by rewrite Zminus_mod, Hs, He.
  - intros v phys size t _ _ Hlt. rewrite (proj2 (Z.leb_gt _ _)) by done. by exists (-6).
Defined.

(** A window of one page more than the buffers of a channel at 4096. *)
Lemma mmap_outcomes_witness :
  let n := sizeof_channel_buffer * Z.of_nat BUFFER_COUNT in
  ∃ t' p, mmap demo_channel (mk_vma 65536 (65536 + n + PAGE) 0) ∅ = Done (0, t') ∧
    translate t' (65536 + sizeof_channel_buffer * 3) = Some (4096 + sizeof_channel_buffer * 3) ∧
    translate t' (65536 + n) = Some p ∧ 4096 + n ≤ p.
Proof.
  intros n. assert (vma_ok (mk_vma 65536 (65536 + n + PAGE) 0)) as Hv by (by split).
  pose proof (mmap_outcomes demo_channel (mk_vma 65536 (65536 + n + PAGE) 0) ∅ Hv demo_wf eq_refl) as Hm.
  cbn [vm_pgoff Z.eqb] in Hm. destruct Hm as (t' & Hr & Hin & Hout & _).
  destruct (Hout n) as (p & Hp & Hle); [cbn [vm_start vm_end]; unfold PAGE; lia|].
  exists t', p. split; [exact Hr|]. split; [|by split].
  rewrite <-(Z.add_0_r (65536 + _)). apply (Hin 3%nat (mk_bd 0 0 (4096 + sizeof_channel_buffer * 3) None) 0 eq_refl).
  - by split.
  - by vm_compute.
Defined.
