(* ===== verification/ZeroCopy.v ===== *)
(** * ZeroCopy: what the hardware reads is what was handed to it

    The buffers of a stream device are shared with the hardware: a transfer
    that was started reads its buffer later, while the application goes on.
    This file runs the ring of [src/lib/bbio/src/bbio_backend_local.c] on the
    channel of [src/driver/stream_dma/streamio-drv.c] next to an engine that
    works at its own pace, and shows that every transfer sends the bytes its
    buffer held when it was started, in the order of the starts. *)
From Stdlib Require Import ZArith Lia.
From stdpp Require Import base list numbers option gmap sets.
From S2P Require Import Prelude DmaChannel BufferData LocalBackend.

(** ** The engine's queue

    [in_flight e] are the transfers that were submitted and are not finished,
    oldest first, with cookie, bus address and length; [prepared e ds] is what
    descriptor [ds] transfers.  The laws are the documented behaviour of a slave
    channel: a submission goes to the end of the queue, transfers finish in
    order, and a wait that returns a positive number of jiffies was woken by the
    completion callback of its transfer. *)
Class EngineQueue (E : Type) `{DmaEngine E} := {
  in_flight : E → list (Z * (Z * Z));
  prepared : E → Z → option (Z * Z);
  queue_prep : ∀ sg dir e ds e1, device_prep_slave_sg sg dir e = (ds, e1) →
    in_flight e1 = in_flight e ∧ ∀ x, ds = Some x → prepared e1 x = Some sg;
  queue_submit : ∀ ds i e c e1 sg, prepared e ds = Some sg → dmaengine_submit ds i e = (c, e1) →
    in_flight e1 = in_flight e ++ (if dma_submit_error c then [] else [(c, sg)]);
  queue_issue : ∀ e, in_flight (dma_async_issue_pending e) = in_flight e;
  queue_terminate : ∀ e, in_flight (device_terminate_all e) = [];
  queue_wait : ∀ bd jiffies pc r pc' d,
    wait_for_completion_interruptible_timeout bd jiffies pc = Done (r, pc') →
    bdtable pc !! bd = Some d →
    (∃ k, in_flight (channel_p pc') = drop k (in_flight (channel_p pc))) ∧
    (0 < r → ∀ sg, (cookie d, sg) ∉ in_flight (channel_p pc'))
}.

(** No signal is delivered to the thread while it waits. *)
Class Uninterrupted (E : Type) `{DmaEngine E} : Prop := {
  wait_not_negative : ∀ bd jiffies (pc : dma_proxy_channel E) r pc',
    wait_for_completion_interruptible_timeout bd jiffies pc = Done (r, pc') → 0 ≤ r
}.

Section Channel.
Context {E : Type} `{EngineQueue E}.
Abbreviation chan := (dma_proxy_channel E).
Implicit Types (pc : chan) (d : proxy_bd) (b : channel_buffer).

Abbreviation queue pc := (in_flight (channel_p pc)).

(** The bytes a transfer of [len] bytes at bus address [a] reads now. *)
Definition dma_read pc (sg : Z * Z) : list Z :=
  load (Z.to_nat (snd sg))
    (default ∅ (data_at pc (Z.to_nat ((fst sg - buffer_phys_addr pc) / sizeof_channel_buffer)))).

(** What the transfers in flight would send now. *)
Definition contents pc : list (list Z) := (λ x, dma_read pc (snd x)) <$> queue pc.

(** Bus address of buffer [i]. *)
Definition bus_address pc (i : nat) : Z := buffer_phys_addr pc + sizeof_channel_buffer * Z.of_nat i.

(** No transfer of buffer [i] is in flight. *)
Definition free_of (i : nat) pc : Prop := ∀ x, x ∈ queue pc → fst (snd x) ≠ bus_address pc i.

(** The statuses of a buffer the hardware may be reading; the last one only the
    application stores, into a buffer it holds. *)
Definition in_use (st : proxy_status) : bool :=
  match st with
  | PROXY_NO_ERROR | PROXY_ERROR | PROXY_OTHER _ => false
  | PROXY_BUSY | PROXY_TIMEOUT | PROXY_QUEUED => true
  end.

(** Every transfer in flight is the last one of its descriptor, and the status
    of its buffer says so. *)
Definition entry_ok pc (x : Z * (Z * Z)) : Prop :=
  ∃ j d b, slot pc j d b ∧ fst (snd x) = dma_handle d ∧ fst x = cookie d ∧ in_use (cb_status b) = true.

Definition queue_ok pc : Prop := ∀ x, x ∈ queue pc → entry_ok pc x.

(** The queue has moved on; the memory has not changed. *)
Record progress pc pc' : Prop := {
  pr_queue : ∃ k, queue pc' = drop k (queue pc);
  pr_data : datas pc' = datas pc;
  pr_phys : buffer_phys_addr pc' = buffer_phys_addr pc
}.

(** The engine turned a transfer down. *)
Definition refusal : Prop :=
  ∃ sg dir i (e : E), match device_prep_slave_sg sg dir e with
                      | (None, _) => True
                      | (Some ds, e1) => dma_submit_error (fst (dmaengine_submit ds i e1)) = true
                      end.

(** What the engine has sent between the two states. *)
Definition sent_by pc pc' : list (list Z) := take (length (queue pc) - length (queue pc')) (contents pc).

End Channel.

(** ** A stream and its engine *)

(** The ring with the buffers the application holds, the blocks whose transfer
    was started and the blocks the engine has sent. *)
Record stream_sys (E : Type) := mk_sys {
  ss_ring : ring (dma_proxy_channel E);
  ss_held : gset nat;
  ss_issued : list (list Z);
  ss_sent : list (list Z)
}.
Arguments mk_sys {E}.
Arguments ss_ring {E}.
Arguments ss_held {E}.
Arguments ss_issued {E}.
Arguments ss_sent {E}.

Section Stream.
Context {E : Type} `{EngineQueue E} (jiffies : Z).
Abbreviation chan := (dma_proxy_channel E).

#[local] Instance driver : DmaDriver chan := channel_driver jiffies.

Definition ring_chan (s : stream_sys E) : chan := rg_driver (ss_ring s).

(** A store of the application into the data of buffer [i]. *)
Definition store_buffer (i : nat) (off : Z) (x : list Z) : M chan unit :=
  b ← read_buffer (Z.of_nat i);
  d ← require OutOfBounds (if off <? 0 then None else store_bytes off x (cb_buffer b));
  update_buffer (Z.of_nat i) (set_cb_buffer d).

(** The int behind a status. *)
Definition status_code (st : proxy_status) : Z :=
  match st with
  | PROXY_NO_ERROR => 0
  | PROXY_BUSY => 1
  | PROXY_TIMEOUT => 2
  | PROXY_ERROR => 3
  | PROXY_QUEUED => 4
  | PROXY_OTHER v => v
  end.

Definition code_status (v : Z) : proxy_status :=
  if v =? 0 then PROXY_NO_ERROR
  else if v =? 1 then PROXY_BUSY
  else if v =? 2 then PROXY_TIMEOUT
  else if v =? 3 then PROXY_ERROR
  else if v =? 4 then PROXY_QUEUED
  else PROXY_OTHER v.

(** A store that runs on behind the data of a [struct channel_buffer]: the bytes
    [x] go to [status] and [length], the others to the padding. *)
Definition store_fields (x : list Z) (b : channel_buffer) : channel_buffer :=
  let fields := overwrite 0 x (le_bytes 4 (status_code (cb_status b)) ++ le_bytes 4 (cb_length b)) in
  mk_buffer (cb_buffer b) (code_status (le_val (take 4 fields))) (le_val (take 4 (drop 4 fields))).

(** A store of [x] that starts inside the data and stays in one struct. *)
Definition store_one (off : Z) (x : list Z) (b : channel_buffer) : option channel_buffer :=
  if (off <? 0) || (BUFFER_SIZE <? off) then None
  else
    let room := Z.to_nat (BUFFER_SIZE - off) in
    d ← store_bytes off (take room x) (cb_buffer b);
    let b' := set_cb_buffer d b in
    Some (match drop room x with [] => b' | y => store_fields y b' end).

(** What does not fit goes to the next struct of the mapping, and past the last
    one the access fails. *)
Fixpoint store_structs (fuel i : nat) (off : Z) (x : list Z) : M chan unit :=
  match fuel with
  | O => raise OutOfFuel
  | S fuel' =>
      let room := Z.to_nat (sizeof_channel_buffer - off) in
      b ← read_buffer (Z.of_nat i);
      b' ← require OutOfBounds (store_one off (take room x) b);
      update_buffer (Z.of_nat i) (λ _, b') ;;
      match drop room x with
      | [] => mret tt
      | y => store_structs fuel' (S i) 0 y
      end
  end.

(** A store through the pointer to the struct of buffer [i]. *)
Definition store_struct (i : nat) (off : Z) (x : list Z) : M chan unit :=
  store_structs (S BUFFER_COUNT) i off x.

(** The application asks for a buffer, stores into a buffer it holds (into its
    data, or anywhere in its struct), hands it over or synchronises; the engine finishes transfers and its callbacks run at
    any time. *)
Inductive sys_step : stream_sys E → stream_sys E → Prop :=
| sys_get r h iss snt o r' :
    io_stream_zc_buffer_local r = Done (o, r') →
    sys_step (mk_sys r h iss snt)
      (mk_sys r' (match o with Some i => {[i]} ∪ h | None => h end) iss
         (snt ++ sent_by (rg_driver r) (rg_driver r')))
| sys_store r h iss snt i off x r' :
    i ∈ h → on_driver (store_buffer i off x) r = Done (tt, r') →
    sys_step (mk_sys r h iss snt) (mk_sys r' h iss snt)
| sys_store_struct r h iss snt i off x r' :
    i ∈ h → 0 ≤ off → off + Z.of_nat (length x) ≤ sizeof_channel_buffer →
    on_driver (store_struct i off x) r = Done (tt, r') →
    sys_step (mk_sys r h iss snt) (mk_sys r' h iss snt)
| sys_write r h iss snt i n id r' :
    i ∈ h → 0 ≤ n ≤ BUFFER_SIZE → io_write_stream_local i n r = Done (id, r') →
    sys_step (mk_sys r h iss snt)
      (mk_sys r' (h ∖ {[i]})
         (iss ++ drop (length (contents (rg_driver r))) (contents (rg_driver r'))) snt)
| sys_sync r h iss snt r' :
    io_finish_stream_local r = Done (tt, r') →
    sys_step (mk_sys r h iss snt) (mk_sys r' h iss (snt ++ sent_by (rg_driver r) (rg_driver r')))
| sys_engine r h iss snt e k :
    let pc := rg_driver r in let pc' := set_engine e pc in
    in_flight e = drop k (in_flight (channel_p pc)) →
    sys_step (mk_sys r h iss snt)
      (mk_sys (mk_ring pc' (buffer_count r) (current_buffer_id r)) h iss (snt ++ sent_by pc pc'))
| sys_callback r h iss snt bd r' :
    on_driver (sync_callback bd) r = Done (tt, r') →
    sys_step (mk_sys r h iss snt) (mk_sys r' h iss snt).

End Stream.

(** ** Lemmas: progress *)

Section Progress.
Context {E : Type} `{EngineQueue E}.
Abbreviation chan := (dma_proxy_channel E).
Implicit Types (pc : chan) (d : proxy_bd) (b : channel_buffer).
Abbreviation queue pc := (in_flight (channel_p pc)).

Lemma progress_refl pc : progress pc pc.
Proof. split; [by exists 0%nat|done|done]. Qed.

Lemma progress_trans pc1 pc2 pc3 : progress pc1 pc2 → progress pc2 pc3 → progress pc1 pc3.
Proof.
  intros [[k1 Q1] D1 P1] [[k2 Q2] D2 P2]. split; [|congruence|congruence].
  exists (k1 + k2)%nat. by rewrite Q2, Q1, drop_drop.
Qed.

Lemma dma_read_same pc pc' sg :
  datas pc' = datas pc → buffer_phys_addr pc' = buffer_phys_addr pc → dma_read pc' sg = dma_read pc sg.
Proof. intros Hd Hp. unfold dma_read. by rewrite Hp, (data_at_datas pc pc'). Qed.

(** What was sent and what is still in flight is what was in flight. *)
Lemma sent_contents pc pc' : progress pc pc' → sent_by pc pc' ++ contents pc' = contents pc.
Proof.
  intros [[k Hq] Hd Hp]. unfold sent_by.
  assert (contents pc' = drop k (contents pc)) as ->.
  { unfold contents. rewrite Hq, fmap_drop. f_equal. apply list_fmap_ext. intros _ x _. by apply dma_read_same. }
  assert (length (contents pc) = length (queue pc)) as Hl by apply length_fmap.
  rewrite Hq, length_drop.
  destruct (decide (k ≤ length (queue pc))%nat) as [Hk|Hk].
  - replace (length (queue pc) - (length (queue pc) - k))%nat with k by lia. apply take_drop.
  - rewrite (drop_ge _ k) by lia. rewrite take_ge by lia. by rewrite app_nil_r.
Qed.

Lemma queue_suffix pc pc' x : progress pc pc' → x ∈ queue pc' → x ∈ queue pc.
Proof. intros [[k Hq] _ _] Hx. rewrite Hq in Hx. by eapply (subseteq_drop k). Qed.

Lemma free_progress i pc pc' : progress pc pc' → free_of i pc → free_of i pc'.
Proof.
  intros Hp Hf x Hx. unfold bus_address. rewrite (pr_phys _ _ Hp). apply Hf. by eapply queue_suffix.
Qed.

Lemma slot_bus pc i d b : wf_channel pc → slot pc i d b → dma_handle d = bus_address pc i.
Proof. intros Hwf [Hd _]. by apply (wf_handles pc Hwf). Qed.

Lemma bus_inj pc i j : bus_address pc i = bus_address pc j → i = j.
Proof. unfold bus_address, sizeof_channel_buffer. change ((BUFFER_SIZE + 4 + 4 + 1023) / 1024 * 1024) with 132096. lia. Qed.

Lemma bus_index pc j : (bus_address pc j - buffer_phys_addr pc) / sizeof_channel_buffer = Z.of_nat j.
Proof.
  unfold bus_address.
  replace (buffer_phys_addr pc + sizeof_channel_buffer * Z.of_nat j - buffer_phys_addr pc)
    with (Z.of_nat j * sizeof_channel_buffer) by lia.
  by apply Z.div_mul.
Qed.

Lemma slot_agree pc i d1 b1 d2 b2 : slot pc i d1 b1 → slot pc i d2 b2 → d1 = d2 ∧ b1 = b2.
Proof. intros (Hd & t & Ht & Hb) (Hd2 & t2 & Ht2 & Hb2). by simplify_eq. Qed.

Lemma entry_in_use pc i d b x :
  wf_channel pc → slot pc i d b → fst (snd x) = bus_address pc i → entry_ok pc x →
  fst x = cookie d ∧ in_use (cb_status b) = true.
Proof.
  intros Hwf Hs Ha (j & d' & b' & Hs' & Hx & Hc & Hu).
  rewrite Ha, (slot_bus pc j d' b' Hwf Hs') in Hx. apply bus_inj in Hx as <-.
  by destruct (slot_agree pc i d b d' b') as [<- <-].
Qed.

(** A buffer whose status is final is not read by the hardware. *)
Lemma free_by_status pc i st :
  wf_channel pc → queue_ok pc → (i < BUFFER_COUNT)%nat →
  status_at pc i = Some st → in_use st = false → free_of i pc.
Proof.
  intros Hwf Hq Hi Hst Hu x Hx Ha. destruct (slot_exists pc i Hwf Hi) as (d & b & Hs).
  destruct (slot_view pc i d b Hs) as [_ Hst']. rewrite Hst in Hst'. injection Hst' as ->.
  destruct (entry_in_use pc i d b x Hwf Hs Ha (Hq x Hx)) as [_ Hu']. congruence.
Qed.

(** A change of slot [i] that leaves no entry of that slot unaccounted keeps the
    queue in order. *)
Lemma entry_other i pc pc' x :
  wf_channel pc → wf_channel pc' → frame_slot i pc pc' →
  entry_ok pc x → fst (snd x) ≠ bus_address pc i → entry_ok pc' x.
Proof.
  intros Hwf Hwf' [Hb Hm _] (j & d & b & Hs & Hx & Hc & Hu) Hne.
  assert (j ≠ i) as Hj by (intros ->; by rewrite (slot_bus pc i d b) in Hx).
  pose proof Hs as (Hd & t & Ht & Htj).
  assert (j < BUFFER_COUNT)%nat as Hlt by (rewrite <-(wf_bds pc Hwf); by eapply lookup_lt_Some).
  destruct (slot_exists pc' j Hwf' Hlt) as (d' & b' & Hs'). pose proof Hs' as (Hd' & t' & Ht' & Htj').
  specialize (Hb j Hj). rewrite Hd, Hd' in Hb. injection Hb as Hc' Hh' _.
  specialize (Hm j t t' Hj Ht Ht'). rewrite Htj, Htj' in Hm. injection Hm as Hs1 _.
  exists j, d', b'. split; [done|]. rewrite Hh', Hc', Hs1. done.
Qed.

Lemma phys_put_buffer i b pc : buffer_phys_addr (put_buffer i b pc) = buffer_phys_addr pc.
Proof. unfold put_buffer. by destruct (buffer_table_p pc). Qed.

Lemma queue_put_buffer i b pc : queue (put_buffer i b pc) = queue pc.
Proof. unfold put_buffer. by destruct (buffer_table_p pc). Qed.

(** A store into a buffer that is not in flight changes nothing the hardware
    still reads. *)
Lemma contents_store pc i b :
  wf_channel pc → queue_ok pc → free_of i pc → contents (put_buffer i b pc) = contents pc.
Proof.
  intros Hwf Hq Hf. unfold contents. rewrite queue_put_buffer.
  apply list_fmap_ext. intros k x Hx%list_elem_of_lookup_2.
  destruct (Hq x Hx) as (j & d & b' & Hs & Ha & _). specialize (Hf x Hx).
  rewrite (slot_bus pc j d b' Hwf Hs) in Ha. rewrite Ha in Hf.
  unfold dma_read. rewrite phys_put_buffer, Ha, bus_index, Nat2Z.id.
  rewrite data_put_other; [done|]. intros ->. done.
Qed.

Lemma queue_ok_put_buffer pc i b :
  wf_channel pc → queue_ok pc → free_of i pc → queue_ok (put_buffer i b pc).
Proof.
  intros Hwf Hq Hf x Hx. rewrite queue_put_buffer in Hx.
  destruct (Hq x Hx) as (j & d & b' & Hs & Hrest). exists j, d, b'. split; [|done].
  specialize (Hf x Hx). destruct Hs as (Hd & t & Ht & Hb). destruct Hrest as (Ha & _).
  unfold put_buffer. rewrite Ht. split; [done|]. exists (<[i:=b]> t). split; [done|].
  rewrite list_lookup_insert_ne; [done|]. intros ->. apply Hf. rewrite Ha.
  eapply slot_bus; [done|]. split; [done|]. by exists t.
Qed.

End Progress.

(** ** Lemmas: the driver's commands *)

Section Commands.
Context {E : Type} `{EngineQueue E} `{!DmaEngineLaws E, !TransmitEngine E, !Uninterrupted E}.
Abbreviation chan := (dma_proxy_channel E).
Implicit Types (pc : chan) (d : proxy_bd) (b : channel_buffer).
Abbreviation queue pc := (in_flight (channel_p pc)).

Lemma final_in_use t st : in_use (final_status t st) = (t =? 0).
Proof. unfold final_status. destruct (t =? 0); [done|]. by destruct (negb _). Qed.

Lemma wait_queue pc i d b jiffies pc' :
  wf_channel pc → wf_channel pc' → frame_slot i pc pc' →
  bdindex pc = Z.of_nat i → slot pc i d b → queue_ok pc →
  wait_for_transfer jiffies pc = Done (tt, pc') →
  queue_ok pc' ∧ (∃ k, queue pc' = drop k (queue pc)) ∧ buffer_phys_addr pc' = buffer_phys_addr pc.
Proof.
  intros Hwf Hwf' Hfr Hi Hs Hq Hrun.
  destruct (wait_run pc i d b jiffies Hwf Hi Hs) as (pc1 & ret & n & b1 & Hw & Hf & Hs1 & _ & Hr).
  rewrite Hrun in Hr. injection Hr as Hr.
  set (st := final_status _ _) in Hr. set (pc2 := put_buffer i (set_cb_status st b1) pc1) in Hr.
  assert (queue pc' = queue pc1 ∧ buffer_phys_addr pc' = buffer_phys_addr pc1) as [Hq' Hp'].
  { rewrite Hr. unfold pc2. destruct (bool_decide _); cbn [channel_p buffer_phys_addr set_wait_count];
      by rewrite ?queue_put_buffer, ?phys_put_buffer. }
  assert (slot pc' i (set_cmp_done n d) (set_cb_status st b1)) as Hs'.
  { rewrite Hr. assert (slot pc2 i (set_cmp_done n d) (set_cb_status st b1)) by (by eapply slot_put_buffer).
    by destruct (bool_decide _). }
  assert (bdtable (put_buffer i (set_cb_status PROXY_BUSY b) pc) !! i = Some d) as Hd1
    by (eapply slot_put_buffer, Hs).
  destruct (queue_wait _ _ _ _ _ d Hw Hd1) as [[k Hk] Hdone]. rewrite queue_put_buffer in Hk.
  split; [|split; [exists k; by rewrite Hq', Hk|]].
  - intros x Hx. rewrite Hq' in Hx.
    assert (x ∈ queue pc) as Hx0 by (rewrite Hk in Hx; by eapply (subseteq_drop k)).
    destruct (decide (fst (snd x) = bus_address pc i)) as [Ha|Ha];
      [|apply (entry_other i pc); [done|done|done|by apply Hq|done]].
    destruct (entry_in_use pc i d b x Hwf Hs Ha (Hq x Hx0)) as [Hc _].
    exists i, (set_cmp_done n d), (set_cb_status st b1). split; [done|].
    split; [by rewrite Ha, <-(slot_bus pc i d b)|]. split; [done|]. cbn [cb_status set_cb_status].
    unfold st. rewrite final_in_use. apply Z.eqb_eq. destruct (decide (u64 ret = 0)) as [|Hne]; [done|].
    pose proof (wait_not_negative _ _ _ _ _ Hw) as Hpos.
    destruct (decide (ret = 0)) as [->|Hr0]; [done|]. exfalso.
    apply (Hdone ltac:(lia) (snd x)). rewrite <-Hc. by destruct x.
  - rewrite Hp', (wfr_phys _ _ Hf). apply phys_put_buffer.
Qed.

Lemma ioctl_inv jiffies cmd i pc r pc' :
  (i < BUFFER_COUNT)%nat → channel_ioctl jiffies cmd (Z.of_nat i) pc = Done (r, pc') →
  ioctl jiffies cmd (Z.of_nat i) (Some pc) = Done (r, Some pc').
Proof.
  intros Hi. unfold channel_ioctl. destruct (ioctl jiffies cmd _ _) as [[r0 [p|]]|] eqn:Er; [|clear Hi|done].
  - by intros [= <- <-].
  - exfalso. unfold ioctl in Er. by repeat case_match.
Qed.

(** A command is the transfer function run with the buffer's number. *)
Lemma finish_inv jiffies i pc r pc' :
  (i < BUFFER_COUNT)%nat → channel_ioctl jiffies FINISH_XFER (Z.of_nat i) pc = Done (r, pc') →
  wait_for_transfer jiffies (set_bdindex (Z.of_nat i) pc) = Done (tt, pc').
Proof.
  intros Hi Hrun. apply ioctl_inv in Hrun; [|done]. unfold ioctl in Hrun.
  rewrite (swrap_small 32) in Hrun by (unfold BUFFER_COUNT in Hi; lia).
  unfold mbind, M_bind, modify in Hrun.
  change (FINISH_XFER =? START_XFER) with false in Hrun. rewrite Z.eqb_refl in Hrun. cbv iota in Hrun.
  destruct (wait_for_transfer _ _) as [[[] p]|]; [|done]. by injection Hrun as _ ->.
Qed.

Lemma start_inv jiffies i pc r pc' :
  (i < BUFFER_COUNT)%nat → channel_ioctl jiffies START_XFER (Z.of_nat i) pc = Done (r, pc') →
  start_transfer (set_bdindex (Z.of_nat i) pc) = Done (tt, pc').
Proof.
  intros Hi Hrun. apply ioctl_inv in Hrun; [|done]. unfold ioctl in Hrun.
  rewrite (swrap_small 32) in Hrun by (unfold BUFFER_COUNT in Hi; lia).
  unfold mbind, M_bind, modify in Hrun. rewrite Z.eqb_refl in Hrun. cbv iota in Hrun.
  destruct (start_transfer _) as [[[] p]|]; [|done]. by injection Hrun as _ ->.
Qed.

Lemma finish_progress jiffies i pc r pc' :
  wf_channel pc → (i < BUFFER_COUNT)%nat → queue_ok pc →
  channel_ioctl jiffies FINISH_XFER (Z.of_nat i) pc = Done (r, pc') →
  wf_channel pc' ∧ queue_ok pc' ∧ progress pc pc'.
Proof.
  intros Hwf Hi Hq Hrun.
  destruct (ioctl_driver jiffies FINISH_XFER i pc Hwf Hi) as (pc1 & Hr1 & [Hwf' Hfr _]).
  rewrite Hrun in Hr1. injection Hr1 as -> <-. split; [done|].
  pose proof (ioctl_keeps_data pc jiffies _ i _ _ Hwf Hi (ioctl_inv _ _ _ _ _ _ Hi Hrun)) as Hd.
  apply finish_inv in Hrun as Hw; [|done]. set (pc0 := set_bdindex (Z.of_nat i) pc) in *.
  destruct (slot_exists pc0 i (wf_set_bdindex pc _ Hwf) Hi) as (d & b & Hs).
  destruct (wait_queue pc0 i d b jiffies pc') as (Hq' & Hk & Hp);
    [by apply wf_set_bdindex|done|destruct Hfr; by split|done|done|exact Hq|done|].
  split; [done|]. by split.
Qed.

(** Starting the transfer of a free buffer puts it at the end of the queue, or
    leaves the queue when the engine refuses it. *)
Lemma start_queue pc i d b pc' :
  wf_channel pc → wf_channel pc' → frame_slot i pc pc' →
  bdindex pc = Z.of_nat i → slot pc i d b → queue_ok pc → free_of i pc →
  start_transfer pc = Done (tt, pc') →
  queue_ok pc' ∧ buffer_phys_addr pc' = buffer_phys_addr pc ∧
  ∃ new, queue pc' = queue pc ++ new ∧
    (new = [] ∧ refusal (E:=E) ∨ ∃ c, new = [(c, (dma_handle d, cb_length b))] ∧ dma_submit_error c = false).
Proof.
  intros Hwf Hwf' Hfr Hi Hs Hq Hf Hrun. rewrite (start_run pc i d b Hi Hs) in Hrun.
  assert (∀ x, x ∈ queue pc → entry_ok pc' x) as Hold.
  { intros x Hx. apply (entry_other i pc); [done|done|done|by apply Hq|by apply Hf]. }
  destruct (device_prep_slave_sg _ _ _) as [ds e1] eqn:Ep. pose proof Ep as Ep0.
  apply queue_prep in Ep as [He1 Hds]. destruct ds as [ds|].
  - destruct (dmaengine_submit ds i e1) as [c e2] eqn:Es. pose proof Es as Es0.
    apply (queue_submit _ _ _ _ _ _ (Hds ds eq_refl)) in Es. rewrite He1 in Es.
    pose proof (slot_submitted pc i d b c e2 Hs) as Hs'.
    destruct (dma_submit_error c) eqn:Ec; injection Hrun as <-.
    + rewrite app_nil_r in Es. split; [intros x Hx; apply Hold; unfold submitted in Hx; cbn in Hx; by rewrite Es in Hx|].
      split; [done|]. exists []. split; [cbn; by rewrite Es, app_nil_r|]. left. split; [done|].
      do 4 eexists. rewrite Ep0, Es0. exact Ec.
    + split; [|split].
      * intros x Hx. cbn in Hx. rewrite queue_issue, Es in Hx.
        apply elem_of_app in Hx as [Hx|Hx%list_elem_of_singleton]; [by apply Hold|]. subst x.
        do 3 eexists. split; [eapply slot_set_engine, slot_put_buffer, Hs'|]. done.
      * cbn. by rewrite phys_put_buffer.
      * exists [(c, (dma_handle d, cb_length b))]. split; [cbn; by rewrite queue_issue, Es|].
        right. by exists c.
  - injection Hrun as <-. split; [intros x Hx; apply Hold; cbn in Hx; by rewrite He1 in Hx|].
    split; [done|]. exists []. split; [cbn; by rewrite He1, app_nil_r|]. left. split; [done|].
    exists (dma_handle d, cb_length b), (direction pc), i, (channel_p pc). by rewrite Ep0.
Qed.

Lemma start_cmd_queue jiffies i d b pc r pc' :
  wf_channel pc → (i < BUFFER_COUNT)%nat → slot pc i d b → queue_ok pc → free_of i pc →
  channel_ioctl jiffies START_XFER (Z.of_nat i) pc = Done (r, pc') →
  wf_channel pc' ∧ queue_ok pc' ∧ datas pc' = datas pc ∧ buffer_phys_addr pc' = buffer_phys_addr pc ∧
  ∃ new, queue pc' = queue pc ++ new ∧
    (new = [] ∧ refusal (E:=E) ∨ ∃ c, new = [(c, (dma_handle d, cb_length b))] ∧ dma_submit_error c = false).
Proof.
  intros Hwf Hi Hs Hq Hf Hrun.
  destruct (ioctl_driver jiffies START_XFER i pc Hwf Hi) as (pc1 & Hr1 & [Hwf' Hfr _]).
  rewrite Hrun in Hr1. injection Hr1 as -> <-. split; [done|].
  pose proof (ioctl_keeps_data pc jiffies _ i _ _ Hwf Hi (ioctl_inv _ _ _ _ _ _ Hi Hrun)) as Hd.
  apply start_inv in Hrun as Hw; [|done]. set (pc0 := set_bdindex (Z.of_nat i) pc) in *.
  destruct (start_queue pc0 i d b pc') as (Hq' & Hp & Hnew);
    [by apply wf_set_bdindex|done|destruct Hfr; by split|done|exact Hs|exact Hq|exact Hf|done|].
  split; [done|]. split; [done|]. split; [exact Hp|exact Hnew].
Qed.

End Commands.

(** ** Lemmas: the ring on the channel *)

Section RingQueue.
Context {E : Type} `{EngineQueue E} `{!DmaEngineLaws E, !TransmitEngine E, !Uninterrupted E} (jiffies : Z).
Abbreviation chan := (dma_proxy_channel E).
Implicit Types (pc : chan) (r : ring chan).

#[local] Instance driver2 : DmaDriver chan := channel_driver jiffies.
#[local] Instance driver2_laws : DmaDriverLaws chan := channel_driver_laws jiffies.

Lemma on_driver_inv {A} (m : M chan A) r a r' :
  on_driver m r = Done (a, r') → m (rg_driver r) = Done (a, rg_driver r') ∧
    buffer_count r' = buffer_count r ∧ current_buffer_id r' = current_buffer_id r.
Proof. unfold on_driver, zoom. destruct (m (rg_driver r)) as [[x c]|]; [|done]. by intros [= <- <-]. Qed.

Lemma finish_ring_progress r i st r' :
  wf_channel (rg_driver r) → (i < BUFFER_COUNT)%nat → queue_ok (rg_driver r) →
  finish_if_busy (Z.of_nat i) st r = Done (tt, r') →
  wf_channel (rg_driver r') ∧ queue_ok (rg_driver r') ∧ progress (rg_driver r) (rg_driver r').
Proof.
  intros Hwf Hi Hq. unfold finish_if_busy. destruct (bool_decide _).
  - intros [= <-]. split; [done|]. split; [done|]. apply progress_refl.
  - intros (x & r1 & Hr & [= <-])%bind_inv. apply on_driver_inv in Hr as [Hr _].
    by apply (finish_progress jiffies i _ x).
Qed.

Lemma status_of_inv r i st r' :
  status_of i r = Done (st, r') → r' = r ∧ drv_status (rg_driver r) (Z.to_nat i) = Some st.
Proof.
  unfold status_of, mbind, M_bind, get. destruct (_ <? 0); [done|].
  unfold require. destruct (drv_status _ _); [|done]. by intros [= <- <-].
Qed.

Lemma get_inv r o r' :
  io_stream_zc_buffer_local r = Done (o, r') →
  ∃ st r1, drv_status (rg_driver r) (Z.to_nat (current_buffer_id r)) = Some st ∧
    finish_if_busy (current_buffer_id r) st r = Done (tt, r1) ∧ rg_driver r' = rg_driver r1.
Proof.
  intros (r0 & s0 & [= <- <-] & (st & s1 & Hst & Hr)%bind_inv)%bind_inv.
  apply status_of_inv in Hst as [-> Hst].
  apply bind_inv in Hr as ([] & r1 & Hfin & Hr). exists st, r1. split; [done|]. split; [exact Hfin|].
  apply bind_inv in Hr as (st2 & r2 & Hst2 & Hr).
  apply status_of_inv in Hst2 as [-> _].
  unfold mret, M_ret in Hr. destruct (bool_decide (st2 = _)); [by simplify_eq|].
  apply bind_inv in Hr as ([] & r3 & Hm & Hr). injection Hm as <-. by simplify_eq.
Qed.

(** A buffer handed out is not read by the hardware. *)
Lemma get_progress r o r' :
  wf_ring r → queue_ok (rg_driver r) → io_stream_zc_buffer_local r = Done (o, r') →
  wf_ring r' ∧ queue_ok (rg_driver r') ∧ progress (rg_driver r) (rg_driver r') ∧
  ∀ i, o = Some i → (i < BUFFER_COUNT)%nat ∧ free_of i (rg_driver r').
Proof.
  intros Hr Hq Hrun. pose proof (wr_current r Hr) as Hc. set (i := Z.to_nat (current_buffer_id r)).
  assert (current_buffer_id r = Z.of_nat i) as Hi by (unfold i; lia).
  assert (i < BUFFER_COUNT)%nat as Hlt by lia.
  destruct (get_inv r o r' Hrun) as (st1 & r1 & _ & Hfin & Hd). rewrite Hi in Hfin.
  destruct (finish_ring_progress r i st1 r1 (wr_ok r Hr) Hlt Hq Hfin) as (Hwf1 & Hq1 & Hp1).
  rewrite <-Hd in Hwf1, Hq1, Hp1.
  destruct (get_run r Hr) as (r2 & st & Hr2 & Hst & Hset & _ & Hcase). fold i in Hst, Hcase.
  destruct (bool_decide_reflect (st = PROXY_TIMEOUT)) as [->|Hne]; destruct Hcase as [Hrun2 _];
    rewrite Hrun in Hrun2; injection Hrun2 as -> ->.
  - split; [done|]. split; [done|]. split; [done|]. done.
  - split; [done|]. split; [done|]. split; [done|]. intros ? [= <-]. split; [done|].
    apply (free_by_status (rg_driver r2) i st); try done. destruct st; done.
Qed.

(** Starting a transfer appends at most its block. *)
Lemma write_queue r i d b n id r' :
  wf_ring r → queue_ok (rg_driver r) → (i < BUFFER_COUNT)%nat → free_of i (rg_driver r) →
  slot (rg_driver r) i d b → io_write_stream_local i n r = Done (id, r') →
  wf_ring r' ∧ queue_ok (rg_driver r') ∧ buffer_phys_addr (rg_driver r') = buffer_phys_addr (rg_driver r) ∧
  ∃ new, contents (rg_driver r') = contents (rg_driver r) ++ new ∧
    (in_flight (channel_p (rg_driver r')) = in_flight (channel_p (rg_driver r)) ∧ new = [] ∧ refusal (E:=E) ∨
     ∃ c, in_flight (channel_p (rg_driver r')) =
            in_flight (channel_p (rg_driver r)) ++ [(c, (bus_address (rg_driver r) i, n))] ∧
          new = [load (Z.to_nat n) (cb_buffer b)]).
Proof.
  intros Hr Hq Hi Hf Hs Hrun. set (pc := rg_driver r) in *.
  assert (wf_ring r') as Hr'.
  { destruct (write_ring_run r i n Hr Hi) as (r2 & Hrun2 & Hr2 & _). rewrite Hrun in Hrun2. by injection Hrun2 as _ <-. }
  split; [done|].
  apply bind_inv in Hrun as ([] & r1 & H1 & Hrun). apply on_driver_inv in H1 as [H1 _]. fold pc in H1.
  change (drv_set_length i n) with (update_buffer (E:=E) (Z.of_nat i) (set_cb_length n)) in H1.
  erewrite update_buffer_run in H1 by exact Hs. injection H1 as H1.
  apply bind_inv in Hrun as (x & r2 & H2 & Hrun). apply on_driver_inv in H2 as [H2 _].
  unfold mret, M_ret in Hrun. injection Hrun as _ <-. rewrite <-H1 in H2.
  set (b1 := set_cb_length n b) in *. set (pc1 := put_buffer i b1 pc) in *.
  assert (wf_channel pc1) as Hwf1 by (apply wf_put_buffer, (wr_ok r Hr)).
  assert (slot pc1 i d b1) as Hs1 by (by eapply slot_put_buffer).
  destruct (start_cmd_queue jiffies i d b1 pc1 x (rg_driver r2)) as (_ & Hq2 & Hd2 & Hp2 & new & Hn & Hcase);
    [done|done|done|by apply queue_ok_put_buffer; [apply (wr_ok r Hr)| |]| |exact H2|].
  { unfold pc1. intros y Hy. rewrite queue_put_buffer in Hy. unfold bus_address. rewrite phys_put_buffer. by apply Hf. }
  split; [done|]. split; [rewrite Hp2; apply phys_put_buffer|].
  assert (∀ y, dma_read (rg_driver r2) y = dma_read pc y) as Hread.
  { intros y. rewrite (dma_read_same pc1 (rg_driver r2)) by done. apply dma_read_same.
    - by apply (datas_put_buffer pc i d b).
    - apply phys_put_buffer. }
  assert (in_flight (channel_p pc1) = in_flight (channel_p pc)) as Hqp by apply queue_put_buffer.
  exists ((λ y, dma_read (rg_driver r2) (snd y)) <$> new). split.
  - unfold contents. rewrite Hn, fmap_app, Hqp. f_equal. apply list_fmap_ext. intros _ y _. apply Hread.
  - destruct Hcase as [[-> Href]|(c & -> & Hc)]; [left|right; exists c].
    + split; [|by split]. by rewrite Hn, Hqp, app_nil_r.
    + rewrite (slot_bus pc1 i d b1 Hwf1 Hs1) in Hn. unfold bus_address in *.
      rewrite <-(phys_put_buffer i b1 pc). split; [by rewrite Hn, Hqp|].
      rewrite (slot_bus pc1 i d b1 Hwf1 Hs1). simpl. f_equal. rewrite Hread. unfold dma_read. simpl.
      unfold pc1, bus_address. rewrite phys_put_buffer. fold (bus_address pc i).
      rewrite bus_index, Nat2Z.id, (slot_data pc i d b Hs). done.
Qed.

Lemma sync_progress r r' :
  wf_ring r → queue_ok (rg_driver r) → io_finish_stream_local r = Done (tt, r') →
  wf_ring r' ∧ queue_ok (rg_driver r') ∧ progress (rg_driver r) (rg_driver r').
Proof.
  intros Hr Hq Hrun.
  assert (wp io_finish_stream_local (λ _ r', wf_ring r' ∧ queue_ok (rg_driver r') ∧
            progress (rg_driver r) (rg_driver r')) r) as Hwp.
  { unfold io_finish_stream_local. wp_step. rewrite (wr_count r Hr), Nat2Z.id.
    apply (wp_for (λ _ r', wf_ring r' ∧ queue_ok (rg_driver r') ∧ progress (rg_driver r) (rg_driver r'))).
    - intros k r1 Hk (Hr1 & Hq1 & Hp1).
      destruct (law_status (rg_driver r1) k (wr_ok r1 Hr1) Hk) as [st Hst].
      destruct (finish_run r1 k st Hr1 Hk Hst) as (r2 & st2 & Hrun2 & Hr2 & _).
      destruct (finish_ring_progress r1 k st r2 (wr_ok r1 Hr1) Hk Hq1 Hrun2) as (_ & Hq2 & Hp2).
      apply wp_bind. eapply wp_done; [by apply status_of_run|].
      eapply wp_done; [exact Hrun2|]. split; [done|]. split; [done|]. by eapply progress_trans.
    - split; [done|]. split; [done|]. apply progress_refl. }
  unfold wp in Hwp. by rewrite Hrun in Hwp.
Qed.

Lemma store_inv i off x pc pc' :
  wf_channel pc → (i < BUFFER_COUNT)%nat → store_buffer i off x pc = Done (tt, pc') →
  ∃ b d, pc' = put_buffer i (set_cb_buffer d b) pc.
Proof.
  intros Hwf Hi Hrun. destruct (slot_exists pc i Hwf Hi) as (bd & b & Hs). unfold store_buffer in Hrun.
  apply bind_inv in Hrun as (b' & pc1 & Hr & Hrun). erewrite read_buffer_run in Hr by done. injection Hr as <- <-.
  destruct (if off <? 0 then None else store_bytes off x (cb_buffer b)) as [d|]; [|done].
  exists b, d. apply bind_inv in Hrun as (d' & pc1 & Hr & Hrun). injection Hr as <- <-.
  erewrite update_buffer_run in Hrun by done. by injection Hrun as <-.
Qed.

(** A store that stays in the struct of its buffer. *)
Lemma store_struct_run i off x pc bd b :
  slot pc i bd b → 0 ≤ off → off + Z.of_nat (length x) ≤ sizeof_channel_buffer →
  store_struct i off x pc =
    match store_one off x b with
    | Some b' => Done (tt, put_buffer i b' pc)
    | None => Fault OutOfBounds
    end.
Proof.
  intros Hs Hoff Hle. unfold store_struct. cbn [store_structs].
  rewrite take_ge, (drop_ge x) by lia. destruct (store_one off x b) as [b'|] eqn:Eo.
  - eapply bind_done; [by eapply read_buffer_run|]. rewrite Eo. eapply bind_done; [reflexivity|].
    eapply bind_done; [by eapply update_buffer_run|]. done.
  - eapply bind_done; [by eapply read_buffer_run|]. by rewrite Eo.
Qed.

Lemma store_struct_inv i off x pc pc' :
  wf_channel pc → (i < BUFFER_COUNT)%nat → 0 ≤ off → off + Z.of_nat (length x) ≤ sizeof_channel_buffer →
  store_struct i off x pc = Done (tt, pc') → ∃ b, pc' = put_buffer i b pc.
Proof.
  intros Hwf Hi Hoff Hle Hrun. destruct (slot_exists pc i Hwf Hi) as (bd & b & Hs).
  rewrite (store_struct_run i off x pc bd b Hs Hoff Hle) in Hrun.
  destruct (store_one off x b) as [b'|]; [|done]. injection Hrun as <-. by exists b'.
Qed.

(** Its data. *)
Lemma store_one_data off x b :
  (Z.of_nat off ≤ BUFFER_SIZE) → Forall is_byte x →
  let y := take (Z.to_nat BUFFER_SIZE - off) x in
  ∃ b', store_one (Z.of_nat off) x b = Some b' ∧
    buffer_data (cb_buffer b') = overwrite off y (buffer_data (cb_buffer b)).
Proof.
  intros Hoff Hx y. unfold store_one. rewrite (proj2 (Z.ltb_ge _ 0)), (proj2 (Z.ltb_ge BUFFER_SIZE _)) by lia.
  cbn [orb]. replace (Z.to_nat (BUFFER_SIZE - Z.of_nat off)) with (Z.to_nat BUFFER_SIZE - off)%nat by lia. fold y.
  pose proof (length_buffer_data (cb_buffer b)) as Hl.
  destruct (store_data off y (cb_buffer b)) as (d & Hd & Hdata).
  { by apply Forall_take. }
  { unfold y. rewrite length_take. lia. }
  rewrite Hd. eexists. split; [reflexivity|]. by destruct (drop _ x).
Qed.

Lemma callback_progress bd pc pc' :
  wf_channel pc → queue_ok pc → sync_callback bd pc = Done (tt, pc') →
  wf_channel pc' ∧ queue_ok pc' ∧ progress pc pc' ∧ contents pc' = contents pc.
Proof.
  intros Hwf Hq Hrun. split; [by eapply wf_sync_callback|].
  apply bind_inv in Hrun as (d & pc1 & Hr & Hm). apply read_bd_inv in Hr as [-> Hd].
  unfold modify in Hm. injection Hm as <-. split; [|by split; [split; [exists 0%nat|..]|]].
  intros x Hx. destruct (Hq x Hx) as (j & d1 & b1 & (Hd1 & Ht) & Hrest).
  destruct (decide (j = Z.to_nat bd)) as [->|Hne].
  - rewrite Hd in Hd1. injection Hd1 as <-. exists (Z.to_nat bd), (set_cmp_done (complete (cmp_done d)) d), b1.
    split; [|done]. split; [|done]. cbn. apply list_lookup_insert_eq. by eapply lookup_lt_Some.
  - exists j, d1, b1. split; [|done]. split; [|done]. cbn. by rewrite list_lookup_insert_ne.
Qed.

End RingQueue.

(** ** The invariant of a stream *)

Section Invariant.
Context {E : Type} `{EngineQueue E} `{!DmaEngineLaws E} (jiffies : Z).
Abbreviation chan := (dma_proxy_channel E).

#[local] Instance driver3 : DmaDriver chan := channel_driver jiffies.
#[local] Instance driver3_laws : DmaDriverLaws chan := channel_driver_laws jiffies.

(** A stream the library has just opened on a channel the driver has just
    opened. *)
Definition sys_init (s : stream_sys E) : Prop :=
  ∃ pc0 pc w dev w',
    wf_channel pc0 ∧ local_open pc0 = Done (0, pc) ∧
    io_open_stream_local pc w = Done (Some (dev, ss_ring s), w') ∧
    ss_held s = ∅ ∧ ss_issued s = [] ∧ ss_sent s = [].

Record sys_ok (s : stream_sys E) : Prop := {
  so_ring : wf_ring (ss_ring s);
  so_queue : queue_ok (ring_chan s);
  so_held : ∀ i, i ∈ ss_held s → (i < BUFFER_COUNT)%nat ∧ free_of i (ring_chan s);
  so_log : ss_sent s ++ contents (ring_chan s) = ss_issued s
}.

Lemma clear_buffers_run pc :
  wf_channel pc → wp (for_ BUFFER_COUNT (λ i, drv_set_status i PROXY_NO_ERROR))
    (λ _ pc', wf_channel pc' ∧ channel_p pc' = channel_p pc ∧
       ∀ i, (i < BUFFER_COUNT)%nat → status_at pc' i = Some PROXY_NO_ERROR) pc.
Proof.
  intros Hwf. apply (wp_for (λ k pc', wf_channel pc' ∧ channel_p pc' = channel_p pc ∧
    ∀ i, (i < k)%nat → status_at pc' i = Some PROXY_NO_ERROR)).
  2: { split; [done|]. split; [done|]. lia. }
  intros k pc1 Hk (Hwf1 & He & Hst). destruct (slot_exists pc1 k Hwf1 Hk) as (d & b & Hs).
  change (drv_set_status k PROXY_NO_ERROR)
    with (update_buffer (E:=E) (Z.of_nat k) (set_cb_status PROXY_NO_ERROR)).
  eapply wp_done; [by eapply update_buffer_run|]. split; [by apply wf_put_buffer|]. split.
  { rewrite <-He. unfold put_buffer. by destruct (buffer_table_p pc1). }
  intros i Hi. destruct (decide (i = k)) as [->|Hne].
  - by apply (slot_view _ k d (set_cb_status PROXY_NO_ERROR b)), slot_put_buffer with (b := b).
  - rewrite <-(Hst i) by lia. apply (frame_status k); [done|by apply wf_put_buffer| |done].
    by eapply frame_put_buffer.
Qed.

Lemma open_stream_inv (pc : chan) w dev r w' :
  io_open_stream_local pc w = Done (Some (dev, r), w') →
  ∃ u pc', for_ BUFFER_COUNT (λ i, drv_set_status i PROXY_NO_ERROR) pc = Done (u, pc') ∧
    r = mk_ring pc' (Z.of_nat BUFFER_COUNT) 0.
Proof.
  intros (fd & w1 & _ & Hr)%bind_inv. destruct (fd <? 1); [done|].
  apply bind_inv in Hr as ([] & w2 & _ & Hr). apply bind_inv in Hr as (p & w3 & Hi & Hr).
  apply bind_inv in Hi as (base & w4 & _ & Hi). destruct base as [base|].
  - apply bind_inv in Hi as ([] & w5 & _ & Hi). apply bind_inv in Hi as (w6 & w7 & _ & Hi).
    destruct (bool_decide _); [done|]. destruct (for_ _ _ pc) as [[u pc']|]; [|done].
    injection Hi as <- <-. unfold mret, M_ret in Hr. injection Hr as _ <- _. by exists u, pc'.
  - unfold mret, M_ret in Hi. injection Hi as <- <-.
    by apply bind_inv in Hr as ([] & w8 & _ & (x & w9 & _ & Hr)%bind_inv).
Qed.

Lemma sys_init_ok s : sys_init s → sys_ok s.
Proof.
  intros (pc0 & pc & w & dev & w' & Hwf0 & Hop & Hst & Hh & Hi & Hs).
  apply bind_inv in Hop as ([] & pc1 & Hm & Hop). unfold modify in Hm. injection Hm as <-.
  apply bind_inv in Hop as ([] & pc2 & Hc & Hop). unfold mret, M_ret in Hop. injection Hop as <-.
  pose proof (clear_statuses_run _ (wf_set_engine pc0 (device_terminate_all (channel_p pc0)) Hwf0)) as Hrun.
  unfold wp in Hrun. rewrite Hc in Hrun. destruct Hrun as (Hwf2 & _ & He2 & _).
  destruct (open_stream_inv _ _ _ _ _ Hst) as (u & pc3 & Hfor & Hr).
  pose proof (clear_buffers_run pc2 Hwf2) as Hrun. unfold wp in Hrun. rewrite Hfor in Hrun.
  destruct Hrun as (Hwf3 & He3 & _).
  assert (in_flight (channel_p (ring_chan s)) = []) as Hq.
  { unfold ring_chan. rewrite Hr. cbn [rg_driver]. rewrite He3, He2. apply queue_terminate. }
  split.
  - rewrite Hr. split; [exact Hwf3|done|cbn; unfold BUFFER_COUNT; lia].
  - intros x Hx. rewrite Hq in Hx. by apply not_elem_of_nil in Hx.
  - rewrite Hh. set_solver.
  - unfold contents. by rewrite Hq, Hi, Hs.
Qed.

(** The application may store anything into a buffer it holds. *)
Lemma held_put_ok r h iss snt i b r' :
  sys_ok (mk_sys r h iss snt) → i ∈ h → rg_driver r' = put_buffer i b (rg_driver r) →
  buffer_count r' = buffer_count r → current_buffer_id r' = current_buffer_id r → sys_ok (mk_sys r' h iss snt).
Proof.
  intros [Hr Hq Hh Hl] Hi He Hc Hid. unfold ring_chan in *. cbn [ss_ring ss_held ss_issued ss_sent] in *.
  destruct (Hh i Hi) as [Hlt Hf]. split; unfold ring_chan; cbn [ss_ring ss_held ss_issued ss_sent].
  - destruct Hr as [Hwf Hn Hcur]. split; [rewrite He; by apply wf_put_buffer|congruence|by rewrite Hid].
  - rewrite He. apply queue_ok_put_buffer; [apply (wr_ok r Hr)|done|done].
  - intros j Hj. destruct (Hh j Hj) as [Hlt' Hf']. split; [done|]. rewrite He. intros y Hy.
    rewrite queue_put_buffer in Hy. unfold bus_address. rewrite phys_put_buffer. by apply Hf'.
  - rewrite He, contents_store; [done|apply (wr_ok r Hr)|done|done].
Qed.

Context `{!TransmitEngine E, !Uninterrupted E}.

Lemma sys_step_ok s s' : sys_ok s → sys_step jiffies s s' → sys_ok s'.
Proof.
  intros [Hr Hq Hh Hl] Hstep. destruct Hstep; unfold ring_chan in *; cbn [ss_ring ss_held ss_issued ss_sent] in *.
  - destruct (get_progress jiffies r o r') as (Hr' & Hq' & Hp & Ho); [done..|].
    split; unfold ring_chan; cbn [ss_ring ss_held ss_issued ss_sent]; [done|done| |].
    + assert (∀ i, i ∈ h → (i < BUFFER_COUNT)%nat ∧ free_of i (rg_driver r')) as Hh'.
      { intros i Hi. destruct (Hh i Hi) as [Hlt Hf]. split; [done|by eapply free_progress]. }
      intros i Hi. destruct o as [j|]; [|by apply Hh'].
      apply elem_of_union in Hi as [->%elem_of_singleton|Hi]; [by apply Ho|by apply Hh'].
    + by rewrite <-app_assoc, sent_contents.
  - destruct (Hh i) as [Hlt Hf]; [done|]. match goal with Hs : on_driver _ _ = _ |- _ =>
      apply on_driver_inv in Hs as (Hs & Hc & Hid) end.
    destruct (store_inv i off x (rg_driver r) (rg_driver r')) as (b & d & He); [apply (wr_ok r Hr)|done|done|].
    by apply (held_put_ok r h iss snt i (set_cb_buffer d b)).
  - destruct (Hh i) as [Hlt Hf]; [done|]. match goal with Hs : on_driver (store_struct _ _ _) _ = _ |- _ =>
      apply on_driver_inv in Hs as (Hs & Hc & Hid) end.
    destruct (store_struct_inv i off x (rg_driver r) (rg_driver r')) as (b & He); [apply (wr_ok r Hr)|done..|].
    by apply (held_put_ok r h iss snt i b).
  - destruct (Hh i) as [Hlt Hf]; [done|].
    destruct (slot_exists (rg_driver r) i (wr_ok r Hr) Hlt) as (d & b & Hs).
    destruct (write_queue jiffies r i d b n id r') as (Hr' & Hq' & Hphys & new & Hc & Hcase); [done..|].
    split; unfold ring_chan; cbn [ss_ring ss_held ss_issued ss_sent]; [done|done| |].
    + intros j [Hj Hne]%elem_of_difference. destruct (Hh j Hj) as [Hlt' Hf']. split; [done|].
      intros y Hy. unfold bus_address. rewrite Hphys.
      destruct Hcase as [[Hq2 _]|(c & Hq2 & _)]; rewrite Hq2 in Hy; [by apply Hf'|].
      apply elem_of_app in Hy as [Hy|Hy%list_elem_of_singleton]; [by apply Hf'|]. subst y. cbn.
      intros Hb%bus_inj. set_solver.
    + rewrite Hc, drop_app_length, app_assoc. by rewrite Hl.
  - destruct (sync_progress jiffies r r') as (Hr' & Hq' & Hp); [done..|].
    split; unfold ring_chan; cbn [ss_ring ss_held ss_issued ss_sent]; [done|done| |].
    + intros i Hi. destruct (Hh i Hi) as [Hlt Hf]. split; [done|by eapply free_progress].
    + by rewrite <-app_assoc, sent_contents.
  - assert (progress pc pc') as Hp by (split; [by exists k|done|done]).
    split; unfold ring_chan; cbn [ss_ring ss_held ss_issued ss_sent rg_driver].
    + by apply wf_ring_driver; [|apply wf_set_engine, (wr_ok r Hr)].
    + intros x Hx. apply (queue_suffix pc pc' x Hp), Hq in Hx. exact Hx.
    + intros i Hi. destruct (Hh i Hi) as [Hlt Hf]. split; [done|by apply (free_progress i pc)].
    + by rewrite <-app_assoc, sent_contents.
  - match goal with Hs : on_driver _ _ = _ |- _ => apply on_driver_inv in Hs as (Hs & Hc & Hid) end.
    destruct (callback_progress bd (rg_driver r) (rg_driver r')) as (Hwf' & Hq' & Hp & Hsame); [apply (wr_ok r Hr)|done|done|].
    split; unfold ring_chan; cbn [ss_ring ss_held ss_issued ss_sent].
    + destruct Hr as [Hwf Hn Hcur]. split; [done|congruence|by rewrite Hid].
    + done.
    + intros i Hi. destruct (Hh i Hi) as [Hlt Hf]. split; [done|by eapply free_progress].
    + by rewrite Hsame.
Qed.

End Invariant.

(** ** A concrete engine

    It finishes everything at the next wait, or every wait is interrupted by a
    signal, or every wait times out. *)
Inductive wait_mode := Finishes | Signalled | TimesOut.

Record queue_engine (sig : wait_mode) := mk_queue_engine {
  qe_flight : list (Z * (Z * Z));
  qe_prepared : option (Z * Z);
  qe_next : Z
}.
Arguments mk_queue_engine {sig}.
Arguments qe_flight {sig}.
Arguments qe_prepared {sig}.
Arguments qe_next {sig}.

Definition ERESTARTSYS : Z := 512.

#[export] Instance queue_engine_ops (sig : wait_mode) : DmaEngine (queue_engine sig) := {
  device_prep_slave_sg := λ sg _ e, (Some 1, mk_queue_engine (qe_flight e) (Some sg) (qe_next e));
  dmaengine_submit := λ _ _ e,
    match qe_prepared e with
    | Some sg => (Z.abs (qe_next e),
                  mk_queue_engine (qe_flight e ++ [(Z.abs (qe_next e), sg)]) (Some sg) (qe_next e + 1))
    | None => (-1, e)
    end;
  dma_async_issue_pending := λ e, e;
  dma_async_is_tx_complete := λ c e,
    if bool_decide (c ∈ (qe_flight e).*1) then DMA_IN_PROGRESS else DMA_COMPLETE;
  device_terminate_all := λ e, mk_queue_engine [] None (qe_next e);
  wait_for_completion_interruptible_timeout := λ _ _ pc,
    match sig with
    | Finishes => Done (1, set_engine (mk_queue_engine [] (qe_prepared (channel_p pc)) (qe_next (channel_p pc))) pc)
    | Signalled => Done (- ERESTARTSYS, pc)
    | TimesOut => Done (0, pc)
    end
}.

#[export] Instance queue_engine_laws sig : DmaEngineLaws (queue_engine sig).
Proof.
  split. intros bd j pc Hc. simpl. destruct sig; do 2 eexists; (split; [done|]); split; try lia; by split.
Qed.

#[export] Instance queue_engine_transmit sig : TransmitEngine (queue_engine sig).
Proof. split. intros bd j pc r pc'. simpl. by destruct sig; intros [= <- <-]. Qed.

#[export] Instance queue_engine_quiet : Uninterrupted (queue_engine Finishes).
Proof. split. intros bd j pc r pc'. simpl. by intros [= <- <-]. Qed.

#[export, refine] Instance queue_engine_queue sig : EngineQueue (queue_engine sig) := {
  in_flight := qe_flight;
  prepared := λ e _, qe_prepared e
}.
Proof.
  - intros sg dir e ds e1 [= <- <-]. split; [done|]. by intros x [= <-].
  - intros ds i e c e1 sg Hp. simpl. rewrite Hp. intros [= <- <-]. simpl.
    unfold dma_submit_error. rewrite (proj2 (Z.ltb_ge _ _)); [done|lia].
  - done.
  - done.
  - intros bd j pc r pc' d. simpl. destruct sig; intros [= <- <-] Hd.
    2, 3: split; [by exists 0%nat|done].
    split; [exists (length (qe_flight (channel_p pc))); simpl; by rewrite drop_all|].
    intros _ sg. apply not_elem_of_nil.
Defined.

(** ** Lemmas: interrupted waits *)

Section Interrupted.
Context {E : Type} `{EngineQueue E} `{!DmaEngineLaws E}.
Implicit Types (pc : dma_proxy_channel E).

Lemma chan_put_buffer i b pc : channel_p (put_buffer i b pc) = channel_p pc.
Proof. unfold put_buffer. by destruct (buffer_table_p pc). Qed.

(** The one wait behind a finish command: the engine is as the wait left it, and
    a wait that does not return 0 leaves no timeout. *)
Lemma wait_wakes jiffies i pc d b pc' :
  wf_channel pc → bdindex pc = Z.of_nat i → slot pc i d b →
  wait_for_transfer jiffies pc = Done (tt, pc') →
  ∃ p0 ret p1, wait_for_completion_interruptible_timeout i jiffies p0 = Done (ret, p1) ∧
    channel_p p0 = channel_p pc ∧ channel_p pc' = channel_p p1 ∧
    buffer_phys_addr pc' = buffer_phys_addr pc ∧ (ret ≠ 0 → status_at pc' i ≠ Some PROXY_TIMEOUT).
Proof.
  intros Hwf Hi Hs Hrun.
  destruct (wait_run pc i d b jiffies Hwf Hi Hs) as (pc1 & ret & n & b1 & Hw & Hf & Hs1 & _ & Hr).
  set (p0 := put_buffer i (set_cb_status PROXY_BUSY b) pc) in *.
  destruct (wait_returns i jiffies p0) as (ret' & pc2 & Hw2 & Hrange & _); [by apply wf_count, wf_put_buffer|].
  rewrite Hw in Hw2. injection Hw2 as <- <-. rewrite Hrun in Hr. injection Hr as Hr.
  set (st := final_status _ _) in Hr. set (pc3 := put_buffer i (set_cb_status st b1) pc1) in Hr.
  exists p0, ret, pc1. split; [done|]. split; [apply chan_put_buffer|].
  assert (channel_p pc' = channel_p pc3 ∧ buffer_phys_addr pc' = buffer_phys_addr pc3 ∧
          status_at pc' i = status_at pc3 i) as (-> & -> & ->) by (rewrite Hr; by destruct (bool_decide _)).
  split; [apply chan_put_buffer|]. split.
  { unfold pc3. rewrite phys_put_buffer, (wfr_phys _ _ Hf). apply phys_put_buffer. }
  assert (slot pc3 i (set_cmp_done n d) (set_cb_status st b1)) as Hs3 by (by eapply slot_put_buffer).
  destruct (slot_view _ _ _ _ Hs3) as [_ ->]. intros Hne [= Hst]. revert Hst. unfold st, final_status.
  assert (u64 ret =? 0 = false) as ->; [|by destruct (negb _)].
  apply Z.eqb_neq. unfold uwrap. destruct (Z.lt_ge_cases ret 0); [rewrite <-(Z.mod_add ret 1) by lia|];
    rewrite Z.mod_small; lia.
Qed.

Lemma finish_wakes jiffies i pc r pc' :
  wf_channel pc → (i < BUFFER_COUNT)%nat →
  channel_ioctl jiffies FINISH_XFER (Z.of_nat i) pc = Done (r, pc') →
  ∃ p0 ret p1, wait_for_completion_interruptible_timeout i jiffies p0 = Done (ret, p1) ∧
    channel_p p0 = channel_p pc ∧ channel_p pc' = channel_p p1 ∧
    buffer_phys_addr pc' = buffer_phys_addr pc ∧ (ret ≠ 0 → status_at pc' i ≠ Some PROXY_TIMEOUT).
Proof.
  intros Hwf Hi Hw%finish_inv; [|done]. set (pc0 := set_bdindex (Z.of_nat i) pc) in *.
  destruct (slot_exists pc0 i (wf_set_bdindex pc _ Hwf) Hi) as (d & b & Hs).
  exact (wait_wakes jiffies i pc0 d b pc' (wf_set_bdindex pc _ Hwf) eq_refl Hs Hw).
Qed.

(** Every wait on descriptor [i] ends with an error while the engine is where it
    was. *)
Definition interrupted (jiffies : Z) (i : nat) : Prop :=
  ∀ pc : dma_proxy_channel E,
    ∃ err pc', wait_for_completion_interruptible_timeout i jiffies pc = Done (err, pc') ∧
      err < 0 ∧ channel_p pc' = channel_p pc.

Lemma interrupted_finish jiffies i pc r pc' :
  wf_channel pc → (i < BUFFER_COUNT)%nat → interrupted jiffies i →
  channel_ioctl jiffies FINISH_XFER (Z.of_nat i) pc = Done (r, pc') →
  channel_p pc' = channel_p pc ∧ buffer_phys_addr pc' = buffer_phys_addr pc ∧
  status_at pc' i ≠ Some PROXY_TIMEOUT.
Proof.
  intros Hwf Hi Hint Hrun.
  destruct (finish_wakes jiffies i pc r pc' Hwf Hi Hrun) as (p0 & ret & p1 & Hw & Hc0 & Hc1 & Hp & Hst).
  destruct (Hint p0) as (err & p2 & Hw' & Herr & He). rewrite Hw in Hw'. injection Hw' as <- <-.
  split; [by rewrite Hc1, He, Hc0|]. split; [done|]. apply Hst. lia.
Qed.

(** Waiting for a buffer leaves it idle unless the wait returned 0. *)
Lemma busy_woken jiffies (r r' : ring (dma_proxy_channel E)) i st :
  let D := channel_driver jiffies in let L := channel_driver_laws jiffies in
  wf_ring r → (i < BUFFER_COUNT)%nat →
  (∀ pc ret pc', wait_for_completion_interruptible_timeout i jiffies pc = Done (ret, pc') → ret ≠ 0) →
  status_at (rg_driver r) i = Some st → finish_if_busy (Z.of_nat i) st r = Done (tt, r') →
  status_at (rg_driver r') i ≠ Some PROXY_TIMEOUT ∧
  (rg_driver r' = rg_driver r ∨ status_at (rg_driver r) i ≠ Some PROXY_NO_ERROR ∧
   ∃ x, channel_ioctl jiffies FINISH_XFER (Z.of_nat i) (rg_driver r) = Done (x, rg_driver r')).
Proof.
  intros D L Hr Hlt Hwake Hst Hfin.
  unfold finish_if_busy in Hfin. destruct (bool_decide_reflect (st = PROXY_NO_ERROR)) as [->|Hne].
  - unfold mret, M_ret in Hfin. injection Hfin as <-. split; [congruence|by left].
  - apply bind_inv in Hfin as (y & r2 & Hio & Hm). unfold mret, M_ret in Hm. injection Hm as <-.
    apply on_driver_inv in Hio as [Hio _]. split; [|right; split; [congruence|by exists y]].
    destruct (finish_wakes jiffies i _ _ _ (wr_ok r Hr) Hlt Hio) as (p0 & ret & p1 & Hw & _ & _ & _ & Hs).
    exact (Hs (Hwake _ _ _ Hw)).
Qed.

(** The ring moves on unless the wait on its next buffer returned 0. *)
Lemma get_woken jiffies (r : ring (dma_proxy_channel E)) :
  let D := channel_driver jiffies in let L := channel_driver_laws jiffies in
  let i := Z.to_nat (current_buffer_id r) in
  wf_ring r →
  (∀ pc ret pc', wait_for_completion_interruptible_timeout i jiffies pc = Done (ret, pc') → ret ≠ 0) →
  ∃ r', io_stream_zc_buffer_local r = Done (Some i, r') ∧ wf_ring r' ∧
    (rg_driver r' = rg_driver r ∨
     status_at (rg_driver r) i ≠ Some PROXY_NO_ERROR ∧
     ∃ x, channel_ioctl jiffies FINISH_XFER (Z.of_nat i) (rg_driver r) = Done (x, rg_driver r')).
Proof.
  intros D L i Hr Hwake. pose proof (wr_current r Hr) as Hc.
  assert (current_buffer_id r = Z.of_nat i) as Hi by (unfold i; lia).
  assert (i < BUFFER_COUNT)%nat as Hlt by lia.
  destruct (get_run r Hr) as (r' & st' & Hr' & Hst' & _ & _ & Hcase). fold i in Hst', Hcase.
  assert (∃ o, io_stream_zc_buffer_local r = Done (o, r')) as [o Ho].
  { destruct (bool_decide (st' = _)); destruct Hcase as [-> _]; by eexists. }
  destruct (get_inv jiffies r o r' Ho) as (st1 & r1 & Hst1 & Hfin & Hd1). fold i in Hst1.
  change (drv_status (rg_driver r) i) with (status_at (rg_driver r) i) in Hst1.
  change (status_at (rg_driver r') i = Some st') in Hst'.
  rewrite Hi in Hfin. destruct (busy_woken jiffies r r1 i st1 Hr Hlt Hwake Hst1 Hfin) as [Hnt Hd].
  rewrite <-Hd1, ?Hst' in Hnt, Hd. assert (st' ≠ PROXY_TIMEOUT) as Hne by congruence.
  rewrite bool_decide_eq_false_2 in Hcase by done. exists r'. split; [apply Hcase|]. by split.
Qed.

End Interrupted.

(** ** Properties *)

(** C1: The buffers are shared without copying and still every transfer sends what
    its buffer held when it was started: whatever the order of the application's
    calls, of its stores into buffers it holds and of the engine's progress, the
    blocks sent followed by what the transfers in flight would send now are
    exactly the blocks that were started, in order; and no buffer the application
    holds is being read.  (No signal interrupts a wait.) *)
Theorem zero_copy {E} `{EngineQueue E} `{!DmaEngineLaws E, !TransmitEngine E, !Uninterrupted E}
    jiffies (s : stream_sys E) :
  reachable (sys_init jiffies) (sys_step jiffies) s →
  ss_sent s ++ contents (ring_chan s) = ss_issued s ∧
  ∀ i, i ∈ ss_held s → free_of i (ring_chan s).
Proof.
  intros Hreach.
  pose proof (reachable_invariant _ _ (sys_ok jiffies) (sys_init_ok jiffies) (sys_step_ok jiffies) s Hreach)
    as [_ _ Hh Hl].
  split; [done|]. intros i Hi. by apply Hh.
Qed.

(** Starting the transfer of a free buffer adds the first [n] bytes it holds to
    what will be sent, or nothing when the engine refuses the transfer; the
    caller gets the buffer's number in both cases. *)
Theorem write_stream_issues {E} `{EngineQueue E} `{!DmaEngineLaws E, !TransmitEngine E, !Uninterrupted E}
    jiffies (r : ring (dma_proxy_channel E)) i d b n :
  let D := channel_driver jiffies in let L := channel_driver_laws jiffies in
  wf_ring r → queue_ok (rg_driver r) → (i < BUFFER_COUNT)%nat → free_of i (rg_driver r) →
  slot (rg_driver r) i d b →
  ∃ r', io_write_stream_local i n r = Done (Z.of_nat i, r') ∧ wf_ring r' ∧ queue_ok (rg_driver r') ∧
    (contents (rg_driver r') = contents (rg_driver r) ++ [load (Z.to_nat n) (cb_buffer b)] ∨
     contents (rg_driver r') = contents (rg_driver r) ∧
     in_flight (channel_p (rg_driver r')) = in_flight (channel_p (rg_driver r)) ∧ refusal (E:=E)).
Proof.
  intros D L Hr Hq Hi Hf Hs. destruct (write_ring_run r i n Hr Hi) as (r' & Hrun & _).
  destruct (write_queue jiffies r i d b n _ r' Hr Hq Hi Hf Hs Hrun) as (Hr' & Hq' & _ & new & Hc & Hcase).
  exists r'. split; [done|]. split; [done|]. split; [done|]. rewrite Hc.
  destruct Hcase as [(He & -> & Href)|(c & _ & ->)]; [right; rewrite app_nil_r; by split|by left].
Qed.

(** A signal during the wait breaks this: the driver takes the interrupted wait
    for a finished one, so the ring hands out a buffer whose transfer is still
    in the engine's queue. *)
Theorem interrupted_wait_hands_out_busy {E} `{EngineQueue E} `{!DmaEngineLaws E}
    jiffies (r : ring (dma_proxy_channel E)) x :
  let D := channel_driver jiffies in let L := channel_driver_laws jiffies in
  let i := Z.to_nat (current_buffer_id r) in
  wf_ring r → x ∈ in_flight (channel_p (rg_driver r)) → fst (snd x) = bus_address (rg_driver r) i →
  interrupted (E:=E) jiffies i →
  ∃ r', io_stream_zc_buffer_local r = Done (Some i, r') ∧ ¬ free_of i (rg_driver r').
Proof.
  intros D L i Hr Hx Ha Hint. pose proof (wr_current r Hr) as Hc.
  destruct (get_woken jiffies r Hr) as (r' & Hrun & Hr' & Hd).
  { intros pc ret pc' Hw. destruct (Hint pc) as (err & p2 & Hw' & Herr & _). unfold i in Hw'.
    rewrite Hw in Hw'. injection Hw' as <- _. lia. }
  exists r'. split; [exact Hrun|]. intros Hfree.
  assert (channel_p (rg_driver r') = channel_p (rg_driver r) ∧
          buffer_phys_addr (rg_driver r') = buffer_phys_addr (rg_driver r)) as [Hch Hp].
  { destruct Hd as [->|(_ & y & Hio)]; [done|].
    apply interrupted_finish in Hio as (Hch & Hp & _); [done|apply (wr_ok r Hr)|lia|done]. }
  apply (Hfree x); [by rewrite Hch|]. unfold bus_address. rewrite Hp. exact Ha.
Qed.

(** ** Concrete runs *)

Lemma done_state {St A} (a a' : A) (s s' : St) : Done (a, s) = Done (a', s') → s = s'.
Proof. by intros [= _ ->]. Qed.

Section Demo.
Context (sig : wait_mode).
Abbreviation chan := (dma_proxy_channel (queue_engine sig)).

#[local] Instance demo_queue_driver : DmaDriver chan := channel_driver 300.
#[local] Instance demo_queue_driver_laws : DmaDriverLaws chan := channel_driver_laws 300.

Definition after {St A} (m : M St A) (s : St) : St :=
  match m s with Done (_, s') => s' | Fault _ => s end.

Definition queue_chan : chan :=
  after local_open (fresh_channel (mk_queue_engine [(9, (4096, 8))] None 10) 4096).

(** The stream just opened, and after a buffer was filled and handed over. *)
Definition stream_opened : ring chan :=
  match io_open_stream_local queue_chan (demo_os true) with
  | Done (Some (_, r), _) => r
  | _ => mk_ring queue_chan 32 0
  end.
Definition stream_got : ring chan := after io_stream_zc_buffer_local stream_opened.
Definition stream_filled : ring chan := after (on_driver (store_buffer 0 0 [1; 2; 3])) stream_got.
Definition stream_started : ring chan := after (io_write_stream_local 0 3) stream_filled.

(** The ring has come round to buffer 0. *)
Definition stream_round : ring chan :=
  mk_ring (rg_driver stream_started) 32 0.

Definition demo_stream : stream_sys (queue_engine sig) :=
  mk_sys stream_started (({[0%nat]} ∪ ∅) ∖ {[0%nat]}) [[1; 2; 3]] [].

Lemma opened_init : sys_init 300 (mk_sys stream_opened ∅ [] []).
Proof.
  exists (fresh_channel (mk_queue_engine [(9, (4096, 8))] None 10) 4096), queue_chan, (demo_os true).
  do 2 eexists. split; [apply wf_fresh_channel|]. split; [vm_compute; reflexivity|].
  split; [vm_compute; reflexivity|done].
Qed.

Lemma got_run : io_stream_zc_buffer_local stream_opened = Done (Some 0%nat, stream_got).
Proof. vm_compute. reflexivity. Qed.

Lemma filled_run : on_driver (store_buffer 0 0 [1; 2; 3]) stream_got = Done (tt, stream_filled).
Proof. vm_compute. reflexivity. Qed.

Lemma started_run : io_write_stream_local 0 3 stream_filled = Done (0, stream_started).
Proof. vm_compute. reflexivity. Qed.

Definition filled_stream : stream_sys (queue_engine sig) := mk_sys stream_filled ({[0%nat]} ∪ ∅) [] [].

Lemma filled_reachable : reachable (sys_init 300) (sys_step 300) filled_stream.
Proof.
  exists (mk_sys stream_opened ∅ [] []). split; [apply opened_init|].
  eapply star_step; [apply (sys_get 300 _ _ _ _ _ _ got_run)|]. eapply star_one.
  assert ([] ++ sent_by (rg_driver stream_opened) (rg_driver stream_got) = []) as -> by (vm_compute; reflexivity).
  apply (sys_store 300 _ _ [] [] 0 0 [1; 2; 3]); [set_solver|apply filled_run].
Qed.

Lemma demo_sys_reachable : reachable (sys_init 300) (sys_step 300) demo_stream.
Proof.
  destruct filled_reachable as (s0 & Hi & Hs). exists s0. split; [done|]. eapply star_trans; [exact Hs|].
  apply star_one. unfold demo_stream.
  assert ([[1; 2; 3]] = [] ++ drop (length (contents (rg_driver stream_filled))) (contents (rg_driver stream_started))) as ->
    by (vm_compute; reflexivity).
  apply (sys_write 300 _ _ _ _ 0 3 0); [set_solver|unfold BUFFER_SIZE; lia|apply started_run].
Qed.

Lemma started_wf : wf_ring stream_started.
Proof.
  destruct (sys_init_ok 300 _ opened_init) as [Hr _ _ _]. cbn [ss_ring] in Hr.
  destruct (@get_run _ _ demo_queue_driver_laws stream_opened Hr) as (r1 & st & Hr1 & _ & _ & _ & Hc).
  assert (stream_got = r1) as <-.
  { destruct (bool_decide (st = _)); destruct Hc as [Hc _]; rewrite got_run in Hc; congruence. }
  pose proof filled_run as Hf. apply on_driver_inv in Hf as (Hf & Hn & Hi).
  destruct (store_inv 0 0 [1; 2; 3] _ _ (wr_ok _ Hr1) ltac:(unfold BUFFER_COUNT; lia) Hf) as (b & d & He).
  assert (wf_ring stream_filled) as Hr2.
  { destruct Hr1 as [Hwf Hc1 Hc2]. split; [rewrite He; apply wf_put_buffer; exact Hwf|rewrite Hn; exact Hc1|rewrite Hi; exact Hc2]. }
  destruct (@write_ring_run _ _ demo_queue_driver_laws stream_filled 0 3 Hr2 ltac:(unfold BUFFER_COUNT; lia)) as (r3 & Hw & Hr3 & _).
  rewrite started_run in Hw. rewrite (done_state _ _ _ _ Hw). exact Hr3.
Qed.

Lemma round_wf : wf_ring stream_round.
Proof.
  pose proof (wr_ok _ started_wf) as Hwf. unfold stream_round. revert Hwf.
  generalize (rg_driver stream_started). intros pc Hwf. split; [exact Hwf|done|].
  cbn [current_buffer_id]. unfold BUFFER_COUNT. lia.
Qed.

End Demo.

#[local] Opaque queue_chan stream_opened stream_got stream_filled stream_started.

Lemma filled_ok : sys_ok 300 (filled_stream Finishes).
Proof.
  exact (reachable_invariant _ _ (sys_ok 300) (sys_init_ok 300) (sys_step_ok 300) _ (filled_reachable Finishes)).
Qed.

Lemma zero_copy_witness :
  ss_sent (demo_stream Finishes) ++ contents (ring_chan (demo_stream Finishes)) = [[1; 2; 3]].
Proof. destruct (zero_copy 300 (demo_stream Finishes) (demo_sys_reachable Finishes)) as [Hl _]. exact Hl. Defined.

Lemma write_stream_issues_witness :
  let D := channel_driver 300 in
  ∃ r' d b, io_write_stream_local 0 3 (stream_filled Finishes) = Done (0, r') ∧
    slot (rg_driver (stream_filled Finishes)) 0 d b ∧
    (contents (rg_driver r') = contents (rg_driver (stream_filled Finishes)) ++ [load 3 (cb_buffer b)] ∨
     contents (rg_driver r') = contents (rg_driver (stream_filled Finishes))).
Proof.
  intros D. destruct filled_ok as [Hr Hq Hh _].
  destruct (Hh 0%nat ltac:(set_solver)) as [Hlt Hf].
  destruct (slot_exists _ 0 (wr_ok _ Hr) Hlt) as (d & b & Hs).
  destruct (write_stream_issues 300 (stream_filled Finishes) 0 d b 3 Hr Hq Hlt Hf Hs) as (r' & Hrun & _ & _ & Hc).
  exists r', d, b. split; [exact Hrun|]. split; [exact Hs|]. destruct Hc as [Hc|[Hc _]]; [left|right]; exact Hc.
Defined.

Lemma interrupted_wait_hands_out_busy_witness :
  let D := channel_driver 300 in
  ∃ r', io_stream_zc_buffer_local (stream_round Signalled) = Done (Some 0%nat, r') ∧ ¬ free_of 0 (rg_driver r').
Proof.
  intros D. apply (interrupted_wait_hands_out_busy 300 (stream_round Signalled) (10, (4096, 3))).
  - exact (round_wf Signalled).
  - assert (in_flight (channel_p (rg_driver (stream_round Signalled))) = [(10, (4096, 3))]) as ->
      by (vm_compute; reflexivity). by apply list_elem_of_singleton.
  - reflexivity.
  - intros pc. exists (- ERESTARTSYS), pc. split; [reflexivity|]. split; [unfold ERESTARTSYS; lia|reflexivity].
Defined.
