(* ===== verification/LocalStream.v ===== *)
(** * LocalStream: a local stream device behind the dispatch functions

    The stream functions of [src/lib/bbio/src/bbio_core.c] on a device of the
    local backend: the ring of [LocalBackend] on the channel of [DmaChannel],
    with its memory.  While no transfer times out or is refused, this device
    keeps the contract of [Devices.StreamSink], and so the server's command handler
    ([io_backend_call.c]) writes what a client sends into this machine's DMA
    buffers.  The server as it is starts that handler for nobody
    ([StreamChannel]). *)
From Stdlib Require Import ZArith Lia.
From stdpp Require Import base list numbers option gmap sets.
From S2P Require Import Prelude Socket NetClient DmaChannel BufferData Devices BackendCall Remote LocalBackend ZeroCopy.

(** ** The device *)

Section Device.
Context {E : Type} `{EngineQueue E} (jiffies : Z).
Abbreviation chan := (dma_proxy_channel E).
Abbreviation dev := (stream_sys E).
Implicit Types (s : dev).

#[local] Instance driver : DmaDriver chan := channel_driver jiffies.

Definition on_ring {A} (m : M (ring chan) A) : M dev A :=
  zoom ss_ring (λ r s, mk_sys r (ss_held s) (ss_issued s) (ss_sent s)) m.

(** A load of the first [n] bytes of buffer [i]. *)
Definition load_buffer (i n : nat) : M chan (list Z) :=
  b ← read_buffer (Z.of_nat i);
  if Z.of_nat n <=? BUFFER_SIZE then mret (load n (cb_buffer b)) else raise OutOfBounds.

(** [device->ch.alloc_buffer]; while it waits the engine sends. *)
Definition alloc_buffer : M dev (option nat) :=
  s ← get;
  o ← on_ring io_stream_zc_buffer_local;
  modify (λ s', mk_sys (ss_ring s') (match o with Some i => {[i]} ∪ ss_held s' | None => ss_held s' end)
    (ss_issued s') (ss_sent s' ++ sent_by (ring_chan s) (ring_chan s'))) ;;
  mret o.

(** [device->ch.write_stream], which is [device->ch.read_stream] too. *)
Definition start_stream (i : nat) (n : Z) : M dev unit :=
  s ← get;
  on_ring (io_write_stream_local i n) ;;
  modify (λ s', mk_sys (ss_ring s') (ss_held s' ∖ {[i]})
    (ss_issued s' ++ drop (length (contents (ring_chan s))) (contents (ring_chan s'))) (ss_sent s')).

(** [device->ch.sync_stream]. *)
Definition sync_stream : M dev unit :=
  s ← get;
  on_ring io_finish_stream_local ;;
  modify (λ s', mk_sys (ss_ring s') (ss_held s') (ss_issued s')
    (ss_sent s' ++ sent_by (ring_chan s) (ring_chan s'))).

(** [device->ch] as [io_open_stream_local] fills it. *)
#[export] Instance local_stream_device : StreamDevice dev := {
  io_stream_get_buffer := alloc_buffer;
  fill_buffer := λ i off x, on_ring (on_driver (store_buffer i off x));
  fill_struct := λ i off x, on_ring (on_driver (store_struct i off x));
  buffer_bytes := λ i n, on_ring (on_driver (load_buffer i n));
  io_write_stream_device := start_stream;
  io_read_stream_device := start_stream;
  io_sync_stream_device := sync_stream
}.

End Device.

(** A provider that takes every transfer and finishes it in time. *)
Class HealthyEngine (E : Type) `{DmaEngine E} : Prop := {
  healthy_accepts : ¬ refusal (E:=E);
  healthy_wait : ∀ bd jiffies (pc : dma_proxy_channel E) r pc',
    wait_for_completion_interruptible_timeout bd jiffies pc = Done (r, pc') → 0 < r
}.

#[export] Instance healthy_uninterrupted {E} `{HealthyEngine E} : Uninterrupted E.
Proof. split. intros bd j pc r pc' Hw%healthy_wait. lia. Qed.

(** ** Lemmas: the contract *)

Section Sink.
Context {E : Type} `{EngineQueue E} `{!DmaEngineLaws E, !TransmitEngine E, !HealthyEngine E} (jiffies : Z).
Abbreviation chan := (dma_proxy_channel E).
Abbreviation dev := (stream_sys E).
Implicit Types (s : dev) (r : ring chan) (pc : chan).

#[local] Instance driver2 : DmaDriver chan := channel_driver jiffies.
#[local] Instance driver2_laws : DmaDriverLaws chan := channel_driver_laws jiffies.
#[local] Instance device2 : StreamDevice dev := local_stream_device jiffies.

Definition stream_idle (log : list (list Z)) s : Prop := sys_ok jiffies s ∧ ss_issued s = log.

Definition stream_holds (log : list (list Z)) (i : nat) (bs : list Z) s : Prop :=
  stream_idle log s ∧ i ∈ ss_held s ∧
  ∃ bd b, slot (ring_chan s) i bd b ∧ buffer_data (cb_buffer b) = bs.

Lemma on_ring_run {A} (m : M (ring chan) A) s a r :
  m (ss_ring s) = Done (a, r) → on_ring m s = Done (a, mk_sys r (ss_held s) (ss_issued s) (ss_sent s)).
Proof. intros Hm. unfold on_ring, zoom. by rewrite Hm. Qed.

Lemma stream_get log s :
  stream_idle log s →
  ∃ i bs s', io_stream_get_buffer s = Done (Some i, s') ∧ stream_holds log i bs s' ∧ is_block bs.
Proof.
  intros [Hok Hl]. pose proof (so_ring _ _ Hok) as Hr.
  destruct (get_woken jiffies (ss_ring s) Hr) as (r' & Hrun & Hr' & _).
  { intros pc ret pc' Hw%healthy_wait. lia. }
  set (i := Z.to_nat (current_buffer_id (ss_ring s))) in *.
  destruct s as [r h iss snt]. pose proof (sys_step_ok jiffies _ _ Hok (sys_get jiffies r h iss snt _ r' Hrun)) as Hok'.
  destruct (so_held _ _ Hok' i) as [Hlt _]; [cbn; set_solver|].
  destruct (slot_exists _ i (wr_ok _ Hr') Hlt) as (bd & b & Hs).
  do 2 eexists. eexists (mk_sys r' _ _ _). split.
  { cbn. unfold alloc_buffer. eapply bind_done; [reflexivity|].
    eapply bind_done; [by apply on_ring_run|]. reflexivity. }
  split; [|apply (length_buffer_data (cb_buffer b))].
  split; [by split|]. split; [cbn; set_solver|]. by exists bd, b.
Qed.

Lemma store_buffer_run i off x pc bd b :
  slot pc i bd b →
  store_buffer i (Z.of_nat off) x pc =
    match store_bytes (Z.of_nat off) x (cb_buffer b) with
    | Some g => Done (tt, put_buffer i (set_cb_buffer g b) pc)
    | None => Fault OutOfBounds
    end.
Proof.
  intros Hs. unfold store_buffer. rewrite (proj2 (Z.ltb_ge _ _)) by lia.
  destruct (store_bytes _ _ _) as [g|] eqn:Eg.
  - eapply bind_done; [by eapply read_buffer_run|]. rewrite Eg.
    eapply bind_done; [reflexivity|]. by eapply update_buffer_run.
  - eapply bind_done; [by eapply read_buffer_run|]. by rewrite Eg.
Qed.

Lemma stream_fill log i bs off x s :
  stream_holds log i bs s → Forall is_byte x → (off + length x ≤ length bs)%nat →
  ∃ s', fill_buffer i (Z.of_nat off) x s = Done (tt, s') ∧ stream_holds log i (overwrite off x bs) s'.
Proof.
  intros ([Hok Hl] & Hi & bd & b & Hs & Hbs) Hx Hle.
  rewrite <-Hbs in Hle. destruct (store_data off x (cb_buffer b) Hx Hle) as (g & Hg & Hload).
  destruct s as [r h iss snt]. unfold ring_chan in Hs. cbn [ss_ring ss_held ss_issued] in *.
  set (pc' := put_buffer i (set_cb_buffer g b) (rg_driver r)).
  set (r' := mk_ring pc' (buffer_count r) (current_buffer_id r)).
  assert (on_driver (store_buffer i (Z.of_nat off) x) r = Done (tt, r')) as Hrun.
  { apply on_driver_run. by rewrite (store_buffer_run i off x _ bd b Hs), Hg. }
  exists (mk_sys r' h iss snt). split; [by apply on_ring_run|].
  split; [split; [|done]|split; [done|]].
  - exact (sys_step_ok jiffies _ _ Hok (sys_store jiffies r h iss snt i _ x r' Hi Hrun)).
  - exists bd, (set_cb_buffer g b). split; [by eapply slot_put_buffer|]. rewrite <-Hbs. exact Hload.
Qed.

Lemma stream_struct log i bs off x s :
  stream_holds log i bs s → is_block bs → Forall is_byte x → (off ≤ length bs)%nat →
  Z.of_nat (off + length x) ≤ sizeof_channel_buffer →
  ∃ s', fill_struct i (Z.of_nat off) x s = Done (tt, s') ∧
    stream_holds log i (overwrite off (take (length bs - off) x) bs) s' ∧
    ∃ b', ring_chan s' = put_buffer i b' (ring_chan s) ∧
      current_buffer_id (ss_ring s') = current_buffer_id (ss_ring s).
Proof.
  intros ([Hok Hl] & Hi & bd & b & Hs & Hbs) Hblk Hx Hoff Hle. unfold is_block in Hblk.
  destruct (store_one_data off x b) as (b' & Hb' & Hdata); [lia|done|].
  replace (Z.to_nat BUFFER_SIZE) with (length bs) in Hdata by lia.
  destruct s as [r h iss snt]. unfold ring_chan in *. cbn [ss_ring ss_held ss_issued] in *.
  set (r' := mk_ring (put_buffer i b' (rg_driver r)) (buffer_count r) (current_buffer_id r)).
  assert (on_driver (store_struct i (Z.of_nat off) x) r = Done (tt, r')) as Hrun.
  { apply on_driver_run. rewrite (store_struct_run i _ x _ bd b Hs) by lia. by rewrite Hb'. }
  exists (mk_sys r' h iss snt). split; [by apply on_ring_run|]. split; [|by exists b'].
  split; [split; [|done]|split; [done|]].
  - apply (sys_step_ok jiffies _ _ Hok), (sys_store_struct jiffies r h iss snt i (Z.of_nat off) x r' Hi); [lia|lia|exact Hrun].
  - exists bd, b'. split; [by eapply slot_put_buffer|]. by rewrite Hdata, Hbs.
Qed.

Lemma stream_bound log i bs off x s :
  stream_holds log i bs s → (off ≤ length bs)%nat → (length bs < off + length x)%nat →
  fill_buffer i (Z.of_nat off) x s = Fault OutOfBounds.
Proof.
  intros ([Hok Hl] & Hi & bd & b & Hs & Hbs) Hoff Hlt.
  rewrite <-Hbs in Hoff, Hlt. apply zoom_fault, zoom_fault.
  fold (ring_chan s). rewrite (store_buffer_run i off x _ bd b Hs), (store_data_past off x) by done. done.
Qed.

Lemma stream_write log i bs n s :
  stream_holds log i bs s → is_block bs → 0 ≤ n ≤ BUFFER_SIZE →
  ∃ s', io_write_stream_device i n s = Done (tt, s') ∧ stream_idle (log ++ [take (Z.to_nat n) bs]) s'.
Proof.
  intros ([Hok Hl] & Hi & bd & b & Hs & Hbs) Hlen Hsz. destruct (so_held _ _ Hok i Hi) as [Hlt Hf].
  pose proof Hok as [Hr Hq _ _]. destruct s as [r h iss snt]. unfold ring_chan in *.
  cbn [ss_ring ss_held ss_issued] in *.
  destruct (write_ring_run r i n Hr Hlt) as (r' & Hrun & _).
  destruct (write_queue jiffies r i bd b n _ r' Hr Hq Hlt Hf Hs Hrun)
    as (Hr' & Hq' & _ & new & Hc & Hcase).
  eexists. split.
  { cbn. unfold start_stream. eapply bind_done; [reflexivity|].
    eapply bind_done; [by apply on_ring_run|]. reflexivity. }
  split; [exact (sys_step_ok jiffies _ _ Hok (sys_write jiffies r h iss snt i _ _ r' Hi Hsz Hrun))|].
  cbn [ss_issued]. unfold ring_chan. cbn [ss_ring]. rewrite Hc, drop_app_length, Hl.
  destruct Hcase as [(_ & _ & Href)|(c & _ & ->)]; [by destruct (healthy_accepts Href)|].
  rewrite <-Hbs, take_buffer_data; [done|]. lia.
Qed.

(** Synchronising waits until the hardware has sent everything. *)
Lemma sync_drains r :
  wf_ring r → queue_ok (rg_driver r) →
  ∃ r', io_finish_stream_local r = Done (tt, r') ∧ wf_ring r' ∧ queue_ok (rg_driver r') ∧
    progress (rg_driver r) (rg_driver r') ∧ contents (rg_driver r') = [].
Proof.
  intros Hr Hq.
  assert (wp io_finish_stream_local (λ _ r', wf_ring r' ∧
    ∀ i, (i < BUFFER_COUNT)%nat → ∃ st, status_at (rg_driver r') i = Some st ∧ in_use st = false) r) as Hwp.
  { unfold io_finish_stream_local. wp_step. rewrite (wr_count r Hr), Nat2Z.id.
    apply (wp_for (λ n r', wf_ring r' ∧
      ∀ i, (i < n)%nat → ∃ st, status_at (rg_driver r') i = Some st ∧ in_use st = false)).
    - intros k r1 Hk (Hr1 & Hall).
      destruct (law_status (rg_driver r1) k (wr_ok r1 Hr1) Hk) as [st Hst].
      destruct (finish_run r1 k st Hr1 Hk Hst) as (r2 & st2 & Hrun & Hr2 & _ & Hst2 & Hset & Ho).
      destruct (busy_woken jiffies r1 r2 k st Hr1 Hk) as [Hnt _]; [|done|exact Hrun|].
      { intros pc ret pc' Hw%healthy_wait. lia. }
      apply wp_bind. eapply wp_done; [by apply status_of_run|].
      eapply wp_done; [exact Hrun|]. split; [done|].
      intros i Hi. destruct (decide (i = k)) as [->|Hne].
      + exists st2. split; [exact Hst2|].
        change (status_at (rg_driver r2) k = Some st2) in Hst2. rewrite Hst2 in Hnt. by destruct st2.
      + destruct (Hall i ltac:(lia)) as (st3 & Hst3 & Hu). exists st3. split; [|done].
        rewrite <-Hst3. exact (Ho i Hne).
    - split; [done|]. lia. }
  apply wp_run in Hwp as ([] & r' & Hrun & Hr' & Hall). exists r'. split; [exact Hrun|].
  destruct (sync_progress jiffies r r' Hr Hq Hrun) as (_ & Hq' & Hp). do 3 (split; [done|]).
  unfold contents. destruct (in_flight (channel_p (rg_driver r'))) as [|x l] eqn:Eq; [done|]. exfalso.
  destruct (Hq' x ltac:(rewrite Eq; apply list_elem_of_here)) as (j & d & b & Hs & _ & _ & Hu).
  destruct (slot_view _ _ _ _ Hs) as [_ Hst].
  destruct (Hall j) as (st & Hst' & Hu').
  { rewrite <-(wf_bds _ (wr_ok r' Hr')). eapply lookup_lt_Some, (proj1 Hs). }
  congruence.
Qed.

(** After a synchronisation everything that was started has been sent. *)
Lemma stream_sync log s :
  stream_idle log s →
  ∃ s', io_sync_stream_device s = Done (tt, s') ∧ stream_idle log s' ∧ ss_sent s' = log.
Proof.
  intros [Hok Hl]. pose proof Hok as [Hr Hq _ _]. destruct s as [r h iss snt]. cbn in Hl. subst iss.
  destruct (sync_drains r Hr Hq) as (r' & Hrun & _ & _ & _ & Hc).
  pose proof (sys_step_ok jiffies _ _ Hok (sys_sync jiffies r h log snt r' Hrun)) as Hok'.
  eexists. split.
  { cbn. unfold sync_stream. eapply bind_done; [reflexivity|].
    eapply bind_done; [by apply on_ring_run|]. reflexivity. }
  split; [by split|]. pose proof (so_log _ _ Hok') as Hlog. unfold ring_chan in *.
  cbn [ss_ring ss_sent ss_issued] in *. by rewrite Hc, app_nil_r in Hlog.
Qed.

#[export] Instance local_sink : StreamSink dev := {
  idle := stream_idle;
  holds := stream_holds;
  sink_get := stream_get;
  sink_fill := stream_fill;
  sink_bound := stream_bound;
  sink_write := stream_write
}.

#[export] Instance local_struct_sink : StructSink dev.
Proof.
  split. intros log b bs off x d Hh Hb Hx Hoff Hle.
  destruct (stream_struct log b bs off x d Hh Hb Hx Hoff Hle) as (d' & Hr & Hh' & _). by exists d'.
Qed.

End Sink.

(** ** Dispatch *)

(** The function pointers of an [io_stream_device]; [sync_stream] may be NULL. *)
Record stream_channel (D : Type) := mk_stream_channel {
  ch_alloc_buffer : Z → M D (option nat);
  ch_write_stream : nat → Z → M D unit;
  ch_read_stream : nat → Z → M D unit;
  ch_sync_stream : option (M D unit)
}.
Arguments mk_stream_channel {D}.
Arguments ch_alloc_buffer {D}.
Arguments ch_write_stream {D}.
Arguments ch_read_stream {D}.
Arguments ch_sync_stream {D}.

Section Dispatch.
Context {D : Type} (ch : stream_channel D).

Definition dispatch_get_buffer : M D (option nat) := ch_alloc_buffer ch 0.
Definition dispatch_write (data : nat) (size : Z) : M D unit := ch_write_stream ch data size.
Definition dispatch_read (data : nat) (size : Z) : M D unit := ch_read_stream ch data size.
Definition dispatch_sync : M D unit :=
  match ch_sync_stream ch with
  | Some sync => sync
  | None => mret tt
  end.

End Dispatch.

(** The pointers a local stream device is opened with: reading and writing are
    the same function. *)
Definition local_channel {E} `{EngineQueue E} (jiffies : Z) : stream_channel (stream_sys E) :=
  mk_stream_channel (λ _, alloc_buffer jiffies) (start_stream jiffies) (start_stream jiffies)
    (Some (sync_stream jiffies)).

(** ** Properties *)

(** C2: A client that writes to a stream of a remote machine writes into that
    machine's hardware: the server, serving the bytes the client sent from the
    local device's ring, starts transfers of exactly 128 KiB whose contents
    together with the bytes left in the current buffer are the client's packets
    in order; and what the engine has sent and what it will still send of the
    transfers in flight is exactly what was started. *)
Theorem remote_stream_reaches_hardware `{Stack} {E} `{EngineQueue E}
    `{!DmaEngineLaws E, !TransmitEngine E, !HealthyEngine E}
    jiffies p ps segss k fuel inner mem (s : stream_sys E) :
  let dev := local_stream_device jiffies in
  sys_init jiffies s → Forall2 packet_segs (p :: ps) segss → Forall (Forall is_byte) (p :: ps) →
  aligned 0 (p :: ps) → (length (p :: ps) ≤ k)%nat → (k < fuel)%nat → BUFFER_SIZE < Z.of_nat inner →
  let wire := [6] :: concat segss in
  ∃ client server s' cur,
    client_writes (p :: ps) (fresh_net_stream (mk_socket [] 0 [] None) mem) = Done (tt, client) ∧
    tx (ns_fd client) = concat wire ∧
    (_ ← on_conn (recv_into (garbage 1)); client_cmd_write_stream_inf fuel inner)
      (mk_session (mk_socket wire 0 [] (Some k)) s) = Done (0, mk_session server s') ∧
    Forall is_block (ss_issued s') ∧ Z.of_nat (length cur) < BUFFER_SIZE ∧
    concat (ss_issued s') ++ cur = concat (p :: ps) ∧
    ss_sent s' ++ contents (ring_chan s') = ss_issued s'.
Proof.
  intros dev Hinit Hps Hby Ha Hk Hf Hin wire.
  assert (stream_idle jiffies [] s) as Hidle.
  { split; [by apply sys_init_ok|]. by destruct Hinit as (? & ? & ? & ? & ? & ? & ? & ? & ? & Hi & _). }
  destruct (@serve_writes _ _ _ (local_sink jiffies) (p :: ps) segss k fuel inner s)
    as (server & s' & log & cur & b & bs & Hr & ([Hok Hl] & _) & _ & Hblocks & Hcur & Hcat); try done.
  do 2 eexists. exists s', cur. split; [by apply client_writes_first|]. rewrite Hl.
  split; [|split; [exact Hr|]].
  { unfold wire. cbn [ns_fd tx set_tx app concat]. f_equal. exact (wire_bytes (p :: ps) segss Hps). }
  do 3 (split; [done|]). by rewrite (so_log _ _ Hok).
Qed.

(** ** Concrete runs *)

#[export] Instance queue_engine_healthy : HealthyEngine (queue_engine Finishes).
Proof.
  split.
  - intros (sg & dir & i & e & Href). simpl in Href. unfold dma_submit_error in Href.
    apply Z.ltb_lt in Href. lia.
  - intros bd j pc r pc'. simpl. intros [= <- _]. lia.
Qed.

Lemma remote_stream_reaches_hardware_witness :
  let dev := local_stream_device 300 in
  ∃ server s',
    (_ ← on_conn (recv_into (garbage 1)); client_cmd_write_stream_inf 4 (Z.to_nat (BUFFER_SIZE + 1)))
      (mk_session (mk_socket ([6] :: [[6] ++ le_bytes 4 3 ++ [1]; [2; 3]; [6]; le_bytes 4 1 ++ [4]]) 0 [] (Some 3%nat))
         (mk_sys (stream_opened Finishes) ∅ [] [])) = Done (0, mk_session server s') ∧
    ss_sent s' ++ contents (ring_chan s') = ss_issued s'.
Proof.
  intros dev.
  destruct (remote_stream_reaches_hardware 300 [1; 2; 3] [[4]]
    [[[6] ++ le_bytes 4 3 ++ [1]; [2; 3]]; [[6]; le_bytes 4 1 ++ [4]]] 3 4 (Z.to_nat (BUFFER_SIZE + 1)) []
    (mk_sys (stream_opened Finishes) ∅ [] [])) as (c & se & s' & cur & _ & _ & Hr & _ & _ & _ & Hl).
  - exact (opened_init Finishes).
  - constructor; [|constructor; [|constructor]].
    + exists [1], [[2; 3]]. split; [by repeat constructor|]. split; [reflexivity|]. by left.
    + exists [4], []. split; [constructor|]. split; [reflexivity|]. by right.
  - repeat constructor; lia.
  - rewrite <-(Nat2Z.id 0). simpl. rewrite BUFFER_SIZE_val. simpl. lia.
  - simpl. lia.
  - lia.
  - rewrite Z2Nat.id by (rewrite BUFFER_SIZE_val; lia). lia.
  - exists se, s'. split; [exact Hr|exact Hl].
Defined.
