(* ===== verification/Context.v ===== *)
(** * Context: contexts and their device tables

    [src/lib/bbio/src/bbio_core.c] and [bbio_utils.c]: a context owns a
    NULL-terminated array of device pointers and the functions of a backend.
    Contexts, arrays and devices are heap objects; a pointer that was freed is
    never used again for another object, so a stale pointer is always caught.
    The backend is the class [Backend]; [LocalBackend] is its instance. *)
From Stdlib Require Import ZArith Lia.
From stdpp Require Import base list numbers option gmap.
From S2P Require Import Prelude DmaChannel Devices LocalBackend.

Definition MAX_DEVICE : nat := 4.

(** [enum IO_DEVICE_TYPE]. *)
Inductive IO_DEVICE_TYPE := MAPPED_DEVICE | STREAM_DEVICE.

#[export] Instance device_type_eq_dec : EqDecision IO_DEVICE_TYPE.
Proof. solve_decision. Defined.

(** The functions of [io_backend] and of the channel of a register device, on
    the state [W] behind them; [P] is what a backend keeps in a device.  A NULL
    result of an open is [None]. *)
Class Backend (P W : Type) := {
  open_mapped : list Z → Z → M W (option P);
  open_stream : list Z → M W (option P);
  close_mapped : P → M W unit;
  close_stream : P → M W unit;
  ch_write : P → Z → Z → M W unit;
  ch_read : P → Z → M W Z;
  device_fd : P → Z
}.

(** [post_context_close]: NULL, the function of the local backend, or never
    assigned. *)
Inductive post_close := PostNull | PostLocal | PostUnassigned.

Record io_device (P : Type) := mk_device {
  dv_type : IO_DEVICE_TYPE;
  dv_path : list Z;
  dv_ctx : option Z;
  dv_private : P
}.
Arguments mk_device {P}.
Arguments dv_type {P}.
Arguments dv_path {P}.
Arguments dv_ctx {P}.
Arguments dv_private {P}.

Record io_context := mk_context { cx_devices : Z; cx_post : post_close }.

Record world (P W : Type) := mk_world {
  contexts : gmap Z io_context;
  arrays : gmap Z (list (option Z));
  devices : gmap Z (io_device P);
  next_ptr : Z;
  backend : W
}.
Arguments mk_world {P W}.
Arguments contexts {P W}.
Arguments arrays {P W}.
Arguments devices {P W}.
Arguments next_ptr {P W}.
Arguments backend {P W}.

Section Operations.
Context {P W : Type} `{Backend P W}.
Abbreviation wd := (world P W).

Definition set_contexts (m : gmap Z io_context) (w : wd) : wd :=
  mk_world m (arrays w) (devices w) (next_ptr w) (backend w).
Definition set_arrays (m : gmap Z (list (option Z))) (w : wd) : wd :=
  mk_world (contexts w) m (devices w) (next_ptr w) (backend w).
Definition set_devices (m : gmap Z (io_device P)) (w : wd) : wd :=
  mk_world (contexts w) (arrays w) m (next_ptr w) (backend w).
Definition set_next_ptr (n : Z) (w : wd) : wd :=
  mk_world (contexts w) (arrays w) (devices w) n (backend w).
Definition set_backend (b : W) (w : wd) : wd :=
  mk_world (contexts w) (arrays w) (devices w) (next_ptr w) b.

Definition fresh : M wd Z := λ w, Done (next_ptr w, set_next_ptr (next_ptr w + 1) w).
Definition on_backend {A} (m : M W A) : M wd A := zoom backend set_backend m.

Definition context_at (ctx : Z) : M wd io_context :=
  w ← get; require UseAfterFree (contexts w !! ctx).
Definition array_at (arr : Z) : M wd (list (option Z)) :=
  w ← get; require UseAfterFree (arrays w !! arr).
Definition device_at (dev : Z) : M wd (io_device P) :=
  w ← get; require UseAfterFree (devices w !! dev).

Definition new_array (l : list (option Z)) : M wd Z :=
  p ← fresh; modify (λ w, set_arrays (<[p := l]> (arrays w)) w) ;; mret p.
Definition new_device (d : io_device P) : M wd Z :=
  p ← fresh; modify (λ w, set_devices (<[p := d]> (devices w)) w) ;; mret p.
Definition free_array (p : Z) : M wd unit := modify (λ w, set_arrays (delete p (arrays w)) w).
Definition free_device (p : Z) : M wd unit := modify (λ w, set_devices (delete p (devices w)) w).
Definition free_context (p : Z) : M wd unit := modify (λ w, set_contexts (delete p (contexts w)) w).

(** ** bbio_utils.c *)

(** [while (dev[i]) i++]: running off the array without a NULL is [None]. *)
Fixpoint count_to_null (l : list (option Z)) : option nat :=
  match l with
  | [] => None
  | None :: _ => Some 0%nat
  | Some _ :: l' => S <$> count_to_null l'
  end.

Definition io_count_devices (ctx : Z) : M wd nat :=
  c ← context_at ctx;
  l ← array_at (cx_devices c);
  require OutOfBounds (count_to_null l).

Definition io_append_device (ctx device : Z) : M wd Z :=
  current_devices ← io_count_devices ctx;
  new_devices ← new_array (replicate (current_devices + 2) None);
  if (current_devices <? MAX_DEVICE)%nat then
    c ← context_at ctx;
    for_ current_devices (λ i,
      old ← array_at (cx_devices c);
      p ← require OutOfBounds (old !! i);
      new ← array_at new_devices;
      modify (λ w, set_arrays (<[new_devices := <[i := p]> new]> (arrays w)) w)) ;;
    new ← array_at new_devices;
    modify (λ w, set_arrays (<[new_devices :=
      <[S current_devices := None]> (<[current_devices := Some device]> new)]> (arrays w)) w) ;;
    d ← device_at device;
    modify (λ w, set_devices (<[device := mk_device (dv_type d) (dv_path d) (Some ctx) (dv_private d)]>
                                (devices w)) w) ;;
    free_array (cx_devices c) ;;
    modify (λ w, set_contexts (<[ctx := mk_context new_devices (cx_post c)]> (contexts w)) w) ;;
    mret (Z.of_nat current_devices + 1)
  else mret (-1).

(** ** bbio_core.c *)

Definition io_create_context : M wd Z :=
  ctx ← fresh;
  arr ← new_array [None];
  modify (λ w, set_contexts (<[ctx := mk_context arr PostLocal]> (contexts w)) w) ;;
  mret ctx.

Definition io_post_context_close_local (ctx : Z) : M wd unit :=
  c ← context_at ctx;
  free_array (cx_devices c) ;;
  free_context ctx.

(** Both backends free the device after closing it. *)
Definition close_device (p : Z) : M wd unit :=
  d ← device_at p;
  on_backend (match dv_type d with
              | STREAM_DEVICE => close_stream (dv_private d)
              | MAPPED_DEVICE => close_mapped (dv_private d)
              end) ;;
  free_device p.

Fixpoint close_devices (l : list (option Z)) : M wd unit :=
  match l with
  | [] => raise OutOfBounds
  | None :: _ => mret tt
  | Some p :: l' => close_device p ;; close_devices l'
  end.

Definition io_close_context (ctx : Z) : M wd unit :=
  io_count_devices ctx ;;
  c ← context_at ctx;
  l ← array_at (cx_devices c);
  close_devices l ;;
  match cx_post c with
  | PostNull => mret tt
  | PostLocal => io_post_context_close_local ctx
  | PostUnassigned => raise WildPointer
  end.

(** The part the two add functions share: NULL is dereferenced at once, and a
    device that finds no place is freed without being closed. *)
Definition add_device (ctx : Z) (type : IO_DEVICE_TYPE) (path : list Z) (opened : option P) :
    M wd (option Z) :=
  p ← require NullDeref opened;
  device ← new_device (mk_device type path None p);
  n ← io_append_device ctx device;
  if n <=? 0 then free_device device ;; mret None
  else mret (Some device).

Definition io_add_mapped_device (ctx : Z) (path : list Z) : M wd (option Z) :=
  context_at ctx ;;
  opened ← on_backend (open_mapped path 512);
  add_device ctx MAPPED_DEVICE path opened.

Definition io_add_stream_device (ctx : Z) (path : list Z) : M wd (option Z) :=
  context_at ctx ;;
  opened ← on_backend (open_stream path);
  add_device ctx STREAM_DEVICE path opened.

(** Register access dispatches on the device; the write checks its type, the
    read does not. *)
Definition core_write_mapped (device addr value : Z) : M wd unit :=
  d ← device_at device;
  if bool_decide (dv_type d = MAPPED_DEVICE) then on_backend (ch_write (dv_private d) addr value)
  else mret tt.

Definition core_read_mapped (device addr : Z) : M wd Z :=
  d ← device_at device;
  on_backend (ch_read (dv_private d) addr).

(** A device of the table as the command handlers use it. *)
Definition context_device (device : Z) : MappedDevice wd := {|
  io_write_mapped_device := core_write_mapped device;
  io_read_mapped_device := core_read_mapped device
|}.

End Operations.

(** ** The local backend *)

Inductive local_device (C : Type) :=
| LocalMapped (d : mapped_dev)
| LocalStream (d : stream_dev) (r : ring C).
Arguments LocalMapped {C}.
Arguments LocalStream {C}.

(** [fresh_driver] is the driver's channel as an open finds it.  A stream
    device reached through the register functions would be called with a
    register number for a data pointer; no path of the library closes a device
    through the other type's function. *)
Definition local_backend {C} `{DmaDriver C} (fresh_driver : C) : Backend (local_device C) local_os := {|
  open_mapped := λ _ size, d ← io_open_mapped_local size; mret (LocalMapped <$> d);
  open_stream := λ _,
    d ← io_open_stream_local fresh_driver;
    mret ((λ '(d, r), LocalStream d r) <$> d);
  close_mapped := λ p,
    match p with
    | LocalMapped d => io_close_mapped_local (Some d) ;; mret tt
    | LocalStream _ _ => raise WildPointer
    end;
  close_stream := λ p,
    match p with
    | LocalStream d _ => io_close_stream_local (Some d) ;; mret tt
    | LocalMapped _ => raise WildPointer
    end;
  ch_write := λ p a v,
    match p with
    | LocalMapped d => io_write_local d a v
    | LocalStream _ _ => raise WildPointer
    end;
  ch_read := λ p a,
    match p with
    | LocalMapped d => io_read_local d a
    | LocalStream _ _ => raise WildPointer
    end;
  device_fd := λ p, match p with LocalMapped d => md_fd d | LocalStream d _ => sd_fd d end
|}.

(** ** Well-formed contexts *)

Section Wf.
Context {P W : Type}.
Abbreviation wd := (world P W).
Implicit Types (w : wd).

(** No object lies at or past the next fresh pointer. *)
Record wf_heap w : Prop := {
  wh_contexts : ∀ p, is_Some (contexts w !! p) → p < next_ptr w;
  wh_arrays : ∀ p, is_Some (arrays w !! p) → p < next_ptr w;
  wh_devices : ∀ p, is_Some (devices w !! p) → p < next_ptr w
}.

(** What the table says of a device: its pointer, its type, what it holds. *)
Definition entry : Type := Z * IO_DEVICE_TYPE * P.

Definition entry_ok w (e : entry) : Prop :=
  let '(p, t, x) := e in ∃ d, devices w !! p = Some d ∧ dv_type d = t ∧ dv_private d = x.

Definition entry_ptr (e : entry) : Z := e.1.1.

(** [rep w ctx post es]: the context at [ctx] holds the devices [es], in order. *)
Record rep w (ctx : Z) (post : post_close) (es : list entry) : Prop := {
  rp_array : ∃ arr, contexts w !! ctx = Some (mk_context arr post) ∧
                    arrays w !! arr = Some ((Some <$> (entry_ptr <$> es)) ++ [None]);
  rp_entries : Forall (entry_ok w) es;
  rp_nodup : NoDup (entry_ptr <$> es)
}.

Lemma count_to_null_table (ptrs : list Z) :
  count_to_null ((Some <$> ptrs) ++ [None]) = Some (length ptrs).
Proof.
  induction ptrs as [|p ptrs IH]; [done|].
  change (S <$> count_to_null ((Some <$> ptrs) ++ [None]) = Some (S (length ptrs))). by rewrite IH.
Qed.

(** An entry survives changes to other objects. *)
Lemma entries_frame w w' es :
  (∀ e, e ∈ es → devices w' !! entry_ptr e = devices w !! entry_ptr e) →
  Forall (entry_ok w) es → Forall (entry_ok w') es.
Proof.
  rewrite !Forall_forall. intros Hd Hes [[p t] x] He. specialize (Hes _ He). specialize (Hd _ He).
  unfold entry_ok, entry_ptr in *. simpl in *. by rewrite Hd.
Qed.

End Wf.

Section Lemmas.
Context {P W : Type} `{Backend P W}.
Abbreviation wd := (world P W).
Implicit Types (w : wd) (es : list (entry (P:=P))).

Lemma count_devices_run w ctx post es :
  rep w ctx post es → io_count_devices ctx w = Done (length es, w).
Proof.
  intros [(arr & Hc & Ha) _ _]. unfold io_count_devices, context_at, array_at.
  eapply bind_done; [eapply bind_done; [done|]; by rewrite Hc|].
  eapply bind_done; [eapply bind_done; [done|]; cbn [cx_devices]; by rewrite Ha|].
  by rewrite count_to_null_table, length_fmap.
Qed.

(** The new table, filled by the copy loop. *)
Lemma copy_loop (ptrs : list Z) arr new w :
  arrays w !! arr = Some ((Some <$> ptrs) ++ [None]) → arr ≠ new →
  arrays w !! new = Some (replicate (length ptrs + 2) None) →
  for_ (length ptrs) (λ i,
      old ← array_at arr;
      p ← require OutOfBounds (old !! i);
      l ← array_at new;
      modify (λ w, set_arrays (<[new := <[i := p]> l]> (arrays w)) w)) w =
    Done (tt, set_arrays (<[new := (Some <$> ptrs) ++ [None; None]]> (arrays w)) w).
Proof.
  intros Ha Hne Hn.
  set (filled i := (Some <$> take i ptrs) ++ replicate (length ptrs + 2 - i) None).
  assert (wp (for_ (length ptrs) (λ i,
      old ← array_at arr;
      p ← require OutOfBounds (old !! i);
      l ← array_at new;
      modify (λ w, set_arrays (<[new := <[i := p]> l]> (arrays w)) w)))
    (λ _ w', w' = set_arrays (<[new := filled (length ptrs)]> (arrays w)) w) w) as Hwp.
  { apply (wp_for (λ i w', w' = set_arrays (<[new := filled i]> (arrays w)) w)).
    - intros i w' Hi ->. destruct (lookup_lt_is_Some_2 ptrs i Hi) as [q Hq].
      apply wp_bind. eapply wp_done.
      { eapply bind_done; [done|]. simpl. rewrite lookup_insert_ne by done. by rewrite Ha. }
      cbv beta. apply wp_bind. eapply wp_done.
      { rewrite lookup_app_l by (by rewrite length_fmap). by rewrite list_lookup_fmap, Hq. }
      apply wp_bind. eapply wp_done.
      { eapply bind_done; [done|]. simpl. by rewrite lookup_insert_eq. }
      apply wp_modify. unfold set_arrays. simpl. rewrite insert_insert_eq. do 2 f_equal.
      unfold filled. erewrite (take_S_r ptrs i q) by done. rewrite fmap_app, <-app_assoc.
      replace (length ptrs + 2 - i)%nat with (S (length ptrs + 2 - S i)) by lia.
      rewrite insert_app_r_alt by (rewrite length_fmap, length_take; lia).
      rewrite length_fmap, length_take, Nat.min_l, Nat.sub_diag by lia. done.
    - unfold filled. rewrite take_0. simpl. rewrite Nat.sub_0_r.
      rewrite insert_id by done. by destruct w. }
  apply wp_run in Hwp as ([] & w' & Hr & ->). rewrite Hr. unfold filled.
  rewrite take_ge by lia. by replace (length ptrs + 2 - length ptrs)%nat with 2%nat by lia.
Qed.

(** The heap after a device was appended to a table with room. *)
Definition appended ctx post arr es device (d : io_device P) w : wd :=
  let new := next_ptr w in
  mk_world (<[ctx := mk_context new post]> (contexts w))
    (delete arr (<[new := (Some <$> ((entry_ptr <$> es) ++ [device])) ++ [None]]> (arrays w)))
    (<[device := mk_device (dv_type d) (dv_path d) (Some ctx) (dv_private d)]> (devices w))
    (new + 1) (backend w).

Lemma append_room w ctx post es arr device d :
  wf_heap w → rep w ctx post es → contexts w !! ctx = Some (mk_context arr post) →
  devices w !! device = Some d → (length es < MAX_DEVICE)%nat →
  io_append_device ctx device w =
    Done (Z.of_nat (length es) + 1, appended ctx post arr es device d w).
Proof.
  intros Hwf Hrep Hc Hd Hl. pose proof Hrep as [(arr' & Hc' & Ha) _ _]. rewrite Hc in Hc'. injection Hc' as <-.
  set (new := next_ptr w). set (ptrs := entry_ptr <$> es) in *.
  assert (arr ≠ new) as Hne by (pose proof (wh_arrays w Hwf arr ltac:(by rewrite Ha)); unfold new; lia).
  assert (length ptrs = length es) as Hlp by apply length_fmap.
  unfold io_append_device. eapply bind_done; [by eapply count_devices_run|].
  eapply bind_done; [eapply bind_done; [reflexivity|]; eapply bind_done; reflexivity|].
  rewrite (proj2 (Nat.ltb_lt _ _)) by done.
  eapply bind_done; [eapply bind_done; [reflexivity|]; cbn; by rewrite Hc|].
  eapply bind_done.
  { rewrite <-Hlp. cbn [cx_devices]. apply (copy_loop ptrs arr new); cbn.
    - by rewrite lookup_insert_ne.
    - done.
    - by rewrite lookup_insert_eq. }
  eapply bind_done; [eapply bind_done; [reflexivity|]; cbn; by rewrite lookup_insert_eq|].
  eapply bind_done; [reflexivity|].
  eapply bind_done; [eapply bind_done; [reflexivity|]; cbn; by rewrite Hd|].
  eapply bind_done; [reflexivity|]. eapply bind_done; [reflexivity|]. eapply bind_done; [reflexivity|].
  unfold mret, M_ret. do 2 f_equal. unfold appended, set_contexts, set_arrays, set_devices, set_next_ptr. cbn.
  fold new ptrs. rewrite !insert_insert_eq. do 3 f_equal. rewrite fmap_app, <-app_assoc.
  rewrite <-Hlp. rewrite insert_app_r_alt by (by rewrite length_fmap).
  rewrite length_fmap, Nat.sub_diag. simpl.
  rewrite insert_app_r_alt by (rewrite length_fmap; lia).
  rewrite length_fmap. by replace (S (length ptrs) - length ptrs)%nat with 1%nat by lia.
Qed.

Lemma append_full w ctx post es device :
  rep w ctx post es → (MAX_DEVICE ≤ length es)%nat →
  io_append_device ctx device w =
    Done (-1, set_arrays (<[next_ptr w := replicate (length es + 2) None]> (arrays w))
                (set_next_ptr (next_ptr w + 1) w)).
Proof.
  intros Hrep Hl. unfold io_append_device. eapply bind_done; [by eapply count_devices_run|].
  eapply bind_done; [eapply bind_done; [reflexivity|]; eapply bind_done; reflexivity|].
  by rewrite (proj2 (Nat.ltb_ge _ _)) by done.
Qed.

(** A new device cell is fresh for the table. *)
Lemma rep_new_device w ctx post es (d : io_device P) :
  wf_heap w → rep w ctx post es →
  let w' := set_devices (<[next_ptr w := d]> (devices w)) (set_next_ptr (next_ptr w + 1) w) in
  wf_heap w' ∧ rep w' ctx post es ∧ next_ptr w ∉ entry_ptr <$> es.
Proof.
  intros Hwf [(arr & Hc & Ha) He Hn] w'.
  assert (next_ptr w ∉ entry_ptr <$> es) as Hfresh.
  { intros (e & Hp & Hin)%list_elem_of_fmap. rewrite Forall_forall in He. specialize (He e Hin).
    destruct e as [[p t] x]. destruct He as (d' & Hd & _). unfold entry_ptr in Hp. simpl in Hp. subst p.
    pose proof (wh_devices w Hwf _ (mk_is_Some _ _ Hd)). lia. }
  split; [|split; [|done]].
  - destruct Hwf as [H1 H2 H3]. split; simpl; intros p Hp.
    + specialize (H1 p Hp). lia.
    + specialize (H2 p Hp). lia.
    + apply lookup_insert_is_Some in Hp as [->|[_ Hp]]; [lia|]. specialize (H3 p Hp). lia.
  - split; [by exists arr| |done]. eapply entries_frame; [|done].
    intros e Hin. simpl. apply lookup_insert_ne. intros Heq. apply Hfresh. rewrite Heq.
    by apply list_elem_of_fmap_2.
Qed.

Lemma rep_appended w ctx post es arr device d :
  wf_heap w → rep w ctx post es → contexts w !! ctx = Some (mk_context arr post) →
  devices w !! device = Some d → device ∉ entry_ptr <$> es →
  wf_heap (appended ctx post arr es device d w) ∧
  rep (appended ctx post arr es device d w) ctx post (es ++ [(device, dv_type d, dv_private d)]).
Proof.
  intros Hwf [(arr' & Hc' & Ha) He Hn] Hc Hd Hfresh. rewrite Hc in Hc'. injection Hc' as <-. split.
  - destruct Hwf as [H1 H2 H3]. split; simpl; intros p Hp.
    + apply lookup_insert_is_Some' in Hp as [->|Hp]; [specialize (H1 p ltac:(by rewrite Hc))|specialize (H1 p Hp)]; lia.
    + apply lookup_delete_is_Some in Hp as [_ Hp].
      apply lookup_insert_is_Some' in Hp as [->|Hp]; [lia|]. specialize (H2 p Hp). lia.
    + apply lookup_insert_is_Some' in Hp as [->|Hp]; [specialize (H3 p ltac:(by rewrite Hd))|specialize (H3 p Hp)]; lia.
  - split.
    + exists (next_ptr w). simpl. split; [apply lookup_insert_eq|].
      rewrite lookup_delete_ne, lookup_insert_eq; [by rewrite (fmap_app entry_ptr)|].
      pose proof (wh_arrays w Hwf arr ltac:(by rewrite Ha)). lia.
    + apply Forall_app. split.
      * eapply entries_frame; [|done]. intros e Hin. simpl. apply lookup_insert_ne.
        intros ->. apply Hfresh. by apply list_elem_of_fmap_2.
      * constructor; [|done]. simpl. eexists. split; [apply lookup_insert_eq|]. done.
    + rewrite fmap_app. apply NoDup_app. split; [done|]. split; [|apply NoDup_singleton].
      intros x Hx [->|[]%not_elem_of_nil]%elem_of_cons. done.
Qed.

End Lemmas.

(** ** Closing *)

Section Closing.
Context {P W : Type} `{Backend P W}.
Abbreviation wd := (world P W).
Implicit Types (w : wd) (es : list (entry (P:=P))).

(** What closing the devices of a table means to the backend. *)
Fixpoint close_all es : M W unit :=
  match es with
  | [] => mret tt
  | (_, t, x) :: es' =>
      (match t with STREAM_DEVICE => close_stream x | MAPPED_DEVICE => close_mapped x end) ;;
      close_all es'
  end.

Definition forget es (m : gmap Z (io_device P)) : gmap Z (io_device P) :=
  foldl (λ m e, delete (entry_ptr e) m) m es.

Lemma close_devices_run es w b :
  Forall (entry_ok w) es → NoDup (entry_ptr <$> es) → close_all es (backend w) = Done (tt, b) →
  close_devices ((Some <$> (entry_ptr <$> es)) ++ [None]) w =
    Done (tt, set_backend b (set_devices (forget es (devices w)) w)).
Proof.
  revert w. induction es as [|[[p t] x] es IH]; intros w He Hn Hb.
  - injection Hb as <-. by destruct w.
  - apply Forall_cons_1 in He as [(d & Hd & <- & <-) He]. apply NoDup_cons in Hn as [Hp Hn].
    apply bind_inv in Hb as ([] & b1 & Hb1 & Hb).
    set (w1 := set_devices (delete p (devices w)) (set_backend b1 w)).
    change (close_devices ((Some <$> (entry_ptr <$> (p, dv_type d, dv_private d) :: es)) ++ [None])) with
      (close_device p ;; close_devices ((Some <$> (entry_ptr <$> es)) ++ [None]) : M wd unit).
    eapply (bind_done _ _ _ tt w1).
    { unfold close_device. eapply bind_done; [eapply bind_done; [reflexivity|]; by rewrite Hd|].
      eapply (bind_done _ _ _ tt (set_backend b1 w)); [|reflexivity].
      unfold on_backend. apply zoom_done. by destruct (dv_type d). }
    rewrite (IH w1); [by destruct w| |done|done].
    eapply entries_frame; [|done]. intros e Hin. unfold w1. simpl. apply lookup_delete_ne.
    intros Heq. apply Hp. change (p ∈ entry_ptr <$> es). rewrite Heq. by apply list_elem_of_fmap_2.
Qed.

Lemma close_context_run w ctx es arr b :
  rep w ctx PostLocal es → contexts w !! ctx = Some (mk_context arr PostLocal) →
  close_all es (backend w) = Done (tt, b) →
  io_close_context ctx w =
    Done (tt, mk_world (delete ctx (contexts w)) (delete arr (arrays w)) (forget es (devices w)) (next_ptr w) b).
Proof.
  intros Hrep Hc Hb. pose proof Hrep as [(arr' & Hc' & Ha) He Hn]. rewrite Hc in Hc'. injection Hc' as <-.
  unfold io_close_context. eapply bind_done; [by eapply count_devices_run|].
  eapply bind_done; [eapply bind_done; [reflexivity|]; by rewrite Hc|].
  eapply bind_done; [eapply bind_done; [reflexivity|]; cbn [cx_devices]; by rewrite Ha|].
  eapply bind_done; [by apply close_devices_run|]. cbn [cx_post].
  unfold io_post_context_close_local.
  eapply bind_done; [eapply bind_done; [reflexivity|]; cbn; by rewrite Hc|].
  eapply bind_done; reflexivity.
Qed.

(** What an add with room in the table does. *)
Lemma add_room w ctx post es type path x arr :
  wf_heap w → rep w ctx post es → contexts w !! ctx = Some (mk_context arr post) →
  (length es < MAX_DEVICE)%nat →
  ∃ w', add_device ctx type path (Some x) w = Done (Some (next_ptr w), w') ∧ wf_heap w' ∧
    rep w' ctx post (es ++ [(next_ptr w, type, x)]) ∧ backend w' = backend w ∧
    contexts w' = <[ctx := mk_context (next_ptr w + 1) post]> (contexts w) ∧
    (∃ l, arrays w' = delete arr (<[next_ptr w + 1 := l]> (arrays w))) ∧
    devices w' = <[next_ptr w := mk_device type path (Some ctx) x]> (devices w).
Proof.
  intros Hwf Hrep Hc Hl. set (d := mk_device type path None x).
  destruct (rep_new_device w ctx post es d Hwf Hrep) as (Hwf1 & Hrep1 & Hfresh).
  set (w1 := set_devices (<[next_ptr w := d]> (devices w)) (set_next_ptr (next_ptr w + 1) w)) in *.
  assert (devices w1 !! next_ptr w = Some d) as Hd by apply lookup_insert_eq.
  destruct (rep_appended w1 ctx post es arr (next_ptr w) d Hwf1 Hrep1 Hc Hd Hfresh) as [Hwf2 Hrep2].
  eexists. split; [|split; [exact Hwf2|split; [exact Hrep2|split; [done|split; [done|split; [by eexists|]]]]]].
  - unfold add_device. eapply bind_done; [reflexivity|].
    eapply bind_done; [eapply bind_done; [reflexivity|]; eapply bind_done; reflexivity|].
    eapply bind_done; [by eapply (append_room w1 ctx post es arr (next_ptr w) d)|].
    by rewrite (proj2 (Z.leb_gt _ _)) by lia.
  - simpl. by rewrite insert_insert_eq.
Qed.

(** A context in use: apart from its own objects the heap is that of [w0]. *)
Record opened w0 w (ctx : Z) es : Prop := {
  od_heap : wf_heap w;
  od_rep : rep w ctx PostLocal es;
  od_ctx : ∃ arr l, contexts w = <[ctx := mk_context arr PostLocal]> (contexts w0) ∧
             arrays w = <[arr := l]> (arrays w0) ∧ arrays w0 !! arr = None;
  od_fresh : contexts w0 !! ctx = None;
  od_devices : forget es (devices w) = devices w0
}.

(** The heap after [io_create_context]. *)
Definition created w : wd :=
  match io_create_context w with Done (_, w') => w' | Fault _ => w end.

Lemma create_run w : io_create_context w = Done (next_ptr w, created w).
Proof. done. Qed.

Lemma create_opened w : wf_heap w → opened w (created w) (next_ptr w) [].
Proof.
  intros Hwf. pose proof Hwf as [H1 H2 H3]. split; simpl.
  - split; simpl; intros p Hp.
    + apply lookup_insert_is_Some in Hp as [->|[_ Hp]]; [lia|]. specialize (H1 p Hp). lia.
    + apply lookup_insert_is_Some in Hp as [->|[_ Hp]]; [lia|]. specialize (H2 p Hp). lia.
    + specialize (H3 p Hp). lia.
  - split; [|constructor|constructor]. exists (next_ptr w + 1). simpl. split; apply lookup_insert_eq.
  - exists (next_ptr w + 1), [None]. split; [done|]. split; [done|].
    apply eq_None_not_Some. intros Hs. specialize (H2 _ Hs). lia.
  - apply eq_None_not_Some. intros Hs. specialize (H1 _ Hs). lia.
  - done.
Qed.

(** The backend's own steps leave the heap alone. *)
Lemma opened_backend w0 w ctx es b : opened w0 w ctx es → opened w0 (set_backend b w) ctx es.
Proof. intros [[] [] ? ? ?]. by split. Qed.

Lemma forget_insert es p (d : io_device P) m :
  p ∉ entry_ptr <$> es → m !! p = None →
  forget (es ++ [(p, dv_type d, dv_private d)]) (<[p := d]> m) = forget es m.
Proof.
  intros Hp Hm. unfold forget. rewrite foldl_app. simpl. unfold entry_ptr at 1. simpl.
  revert m Hm. induction es as [|e es IH]; intros m Hm; simpl; [by rewrite delete_insert_id|].
  rewrite fmap_cons in Hp. apply not_elem_of_cons in Hp as [Hne Hp].
  rewrite delete_insert_ne by done. apply IH; [done|]. by rewrite lookup_delete_ne.
Qed.

Lemma add_opened w0 w ctx es type path x :
  opened w0 w ctx es → (length es < MAX_DEVICE)%nat →
  ∃ p w', add_device ctx type path (Some x) w = Done (Some p, w') ∧
    opened w0 w' ctx (es ++ [(p, type, x)]) ∧ backend w' = backend w.
Proof.
  intros [Hwf Hrep (arr & l & Hc & Ha & Hn) Hfr Hd] Hl.
  assert (contexts w !! ctx = Some (mk_context arr PostLocal)) as Hctx by (rewrite Hc; apply lookup_insert_eq).
  destruct (add_room w ctx PostLocal es type path x arr)
    as (w2 & Hadd & Hwf2 & Hrep2 & Hb2 & Hc2 & [l2 Ha2] & Hd2); [done..|].
  exists (next_ptr w), w2. split; [exact Hadd|]. split; [|exact Hb2]. split; [done|done| |done|].
  - exists (next_ptr w + 1), l2. rewrite Hc2, Ha2, Hc, Ha. split; [by rewrite insert_insert_eq|].
    assert (arrays w0 !! (next_ptr w + 1) = None) as Hnew.
    { apply eq_None_not_Some. intros Hs.
      assert (is_Some (arrays w !! (next_ptr w + 1))) as Hs' by (rewrite Ha; apply lookup_insert_is_Some'; by right).
      pose proof (wh_arrays w Hwf _ Hs'). lia. }
    split; [|done]. assert (arr < next_ptr w) as Hlt.
    { apply (wh_arrays w Hwf). rewrite Ha, lookup_insert_eq. by eexists. }
    rewrite delete_insert_ne by lia. by rewrite delete_insert_id.
  - rewrite Hd2, <-Hd.
    assert (devices w !! next_ptr w = None) as Hnone.
    { apply eq_None_not_Some. intros Hs. pose proof (wh_devices w Hwf _ Hs). lia. }
    apply (forget_insert es (next_ptr w) (mk_device type path (Some ctx) x)); [|done].
    intros (e & Hp & Hin)%list_elem_of_fmap. destruct Hrep as [_ He _]. rewrite Forall_forall in He.
    specialize (He e Hin). destruct e as [[p t] y]. destruct He as (d' & Hd' & _).
    unfold entry_ptr in Hp. simpl in Hp. subst p. congruence.
Qed.

Lemma opened_at w0 w ctx es p type x :
  opened w0 w ctx es → (p, type, x) ∈ es →
  ∃ d, devices w !! p = Some d ∧ dv_type d = type ∧ dv_private d = x.
Proof. intros [_ [_ He _] _ _ _] Hin. rewrite Forall_forall in He. exact (He _ Hin). Qed.

Lemma context_at_opened w0 w ctx es : opened w0 w ctx es → ∃ c, context_at ctx w = Done (c, w).
Proof.
  intros [_ _ (arr & l & Hc & _) _ _]. eexists. unfold context_at. eapply bind_done; [done|].
  by rewrite Hc, lookup_insert_eq.
Qed.

(** Opening a device through the backend. *)
Lemma add_mapped_opened w0 w ctx es path x b :
  opened w0 w ctx es → (length es < MAX_DEVICE)%nat → open_mapped path 512 (backend w) = Done (Some x, b) →
  ∃ p w', io_add_mapped_device ctx path w = Done (Some p, w') ∧
    opened w0 w' ctx (es ++ [(p, MAPPED_DEVICE, x)]) ∧ backend w' = b.
Proof.
  intros Hod Hl Ho. destruct (context_at_opened w0 w ctx es Hod) as [c Hc].
  destruct (add_opened w0 (set_backend b w) ctx es MAPPED_DEVICE path x) as (p & w' & Hadd & Hod' & Hb);
    [by apply opened_backend|done|].
  exists p, w'. split; [|by split]. unfold io_add_mapped_device.
  eapply bind_done; [exact Hc|]. eapply bind_done; [by apply zoom_done|exact Hadd].
Qed.

Lemma add_stream_opened w0 w ctx es path x b :
  opened w0 w ctx es → (length es < MAX_DEVICE)%nat → open_stream path (backend w) = Done (Some x, b) →
  ∃ p w', io_add_stream_device ctx path w = Done (Some p, w') ∧
    opened w0 w' ctx (es ++ [(p, STREAM_DEVICE, x)]) ∧ backend w' = b.
Proof.
  intros Hod Hl Ho. destruct (context_at_opened w0 w ctx es Hod) as [c Hc].
  destruct (add_opened w0 (set_backend b w) ctx es STREAM_DEVICE path x) as (p & w' & Hadd & Hod' & Hb);
    [by apply opened_backend|done|].
  exists p, w'. split; [|by split]. unfold io_add_stream_device.
  eapply bind_done; [exact Hc|]. eapply bind_done; [by apply zoom_done|exact Hadd].
Qed.

(** An open that fails is dereferenced. *)
Lemma add_mapped_missing w0 w ctx es path b :
  opened w0 w ctx es → open_mapped path 512 (backend w) = Done (None, b) →
  io_add_mapped_device ctx path w = Fault NullDeref.
Proof.
  intros Hod Ho. destruct (context_at_opened w0 w ctx es Hod) as [c Hc]. unfold io_add_mapped_device.
  eapply bind_done; [exact Hc|]. eapply bind_done; [by apply zoom_done|]. done.
Qed.

Lemma add_stream_missing w0 w ctx es path b :
  opened w0 w ctx es → open_stream path (backend w) = Done (None, b) →
  io_add_stream_device ctx path w = Fault NullDeref.
Proof.
  intros Hod Ho. destruct (context_at_opened w0 w ctx es Hod) as [c Hc]. unfold io_add_stream_device.
  eapply bind_done; [exact Hc|]. eapply bind_done; [by apply zoom_done|]. done.
Qed.

(** Closing it gives the heap of before. *)
Lemma close_opened w0 w ctx es b :
  opened w0 w ctx es → close_all es (backend w) = Done (tt, b) →
  ∃ w', io_close_context ctx w = Done (tt, w') ∧ backend w' = b ∧
    contexts w' = contexts w0 ∧ arrays w' = arrays w0 ∧ devices w' = devices w0.
Proof.
  intros [Hwf Hrep (arr & l & Hc & Ha & Hn) Hfr Hd] Hcl. eexists. split.
  { apply (close_context_run w ctx es arr b Hrep); [rewrite Hc; apply lookup_insert_eq|done]. }
  simpl. split; [done|]. split; [by rewrite Hc, delete_insert_id|]. split; [by rewrite Ha, delete_insert_id|done].
Qed.

End Closing.

(** ** Resources of a backend *)

(** [owns xs b]: behind [b] exactly the resources of the open devices [xs] are
    held. *)
Class BackendOwns (P W : Type) `{Backend P W} := {
  owns : list P → W → Prop;
  open_owns : ∀ xs b path x b', owns xs b → open_mapped path 512 b = Done (Some x, b') → owns (xs ++ [x]) b';
  close_owns : ∀ x xs b, owns (x :: xs) b → ∃ b', close_mapped x b = Done (tt, b') ∧ owns xs b'
}.

Section Lifecycle.
Context {P W : Type} `{BackendOwns P W}.
Abbreviation wd := (world P W).
Implicit Types (w : wd) (es : list (entry (P:=P))).

Fixpoint add_all (ctx : Z) (paths : list (list Z)) : M wd (list Z) :=
  match paths with
  | [] => mret []
  | path :: paths' =>
      d ← io_add_mapped_device ctx path;
      match d with
      | None => mret []
      | Some p => ps ← add_all ctx paths'; mret (p :: ps)
      end
  end.

(** Its devices are register devices, and they are all the backend holds. *)
Record lives w0 w (ctx : Z) es : Prop := {
  lv_opened : opened w0 w ctx es;
  lv_mapped : Forall (λ e, e.1.2 = MAPPED_DEVICE) es;
  lv_owns : owns (snd <$> es) (backend w)
}.

Lemma create_lives w0 :
  wf_heap w0 → owns [] (backend w0) →
  ∃ ctx w, io_create_context w0 = Done (ctx, w) ∧ lives w0 w ctx [].
Proof.
  intros Hwf Ho. exists (next_ptr w0), (created w0). split; [reflexivity|].
  split; [by apply create_opened|constructor|done].
Qed.

Lemma add_lives w0 w ctx es path r w' :
  lives w0 w ctx es → (length es < MAX_DEVICE)%nat → io_add_mapped_device ctx path w = Done (r, w') →
  ∃ e, r = Some (entry_ptr e) ∧ lives w0 w' ctx (es ++ [e]).
Proof.
  intros [Hod Hm Ho] Hl Hr. destruct (context_at_opened w0 w ctx es Hod) as [c Hctx].
  destruct (open_mapped path 512 (backend w)) as [[[x|] b]|f] eqn:Eo.
  - destruct (add_mapped_opened w0 w ctx es path x b Hod Hl Eo) as (p & w2 & Hadd & Hod2 & Hb2).
    rewrite Hadd in Hr. injection Hr as <- <-. exists (p, MAPPED_DEVICE, x). split; [done|].
    split; [done|apply Forall_app; split; [done|by constructor]|].
    rewrite fmap_app, Hb2. by eapply open_owns.
  - apply bind_inv in Hr as (? & ? & Hc & Hr). rewrite Hctx in Hc. injection Hc as <- <-.
    apply bind_inv in Hr as (o & w1 & Hopen & Hr). unfold on_backend, zoom in Hopen. rewrite Eo in Hopen.
    by injection Hopen as <- <-.
  - apply bind_inv in Hr as (? & ? & Hc & Hr). rewrite Hctx in Hc. injection Hc as <- <-.
    apply bind_inv in Hr as (o & w1 & Hopen & Hr). unfold on_backend, zoom in Hopen. by rewrite Eo in Hopen.
Qed.

Lemma add_all_lives w0 ctx paths w es ps w' :
  lives w0 w ctx es → (length es + length paths ≤ MAX_DEVICE)%nat →
  add_all ctx paths w = Done (ps, w') → ∃ es', lives w0 w' ctx es' ∧ length ps = length paths.
Proof.
  revert w es ps. induction paths as [|path paths IH]; intros w es ps Hlv Hl Hr.
  - injection Hr as <- <-. by exists es.
  - simpl in Hl. apply bind_inv in Hr as (r & w1 & Ha & Hr).
    destruct (add_lives w0 w ctx es path r w1 Hlv) as (e & -> & Hlv1); [lia|done|].
    apply bind_inv in Hr as (ps' & w2 & Hr & [= <- <-]).
    destruct (IH w1 (es ++ [e]) ps' Hlv1) as (es' & Hlv' & Hlen); [rewrite length_app; simpl; lia|done|].
    exists es'. split; [done|]. simpl. by rewrite Hlen.
Qed.

Lemma close_all_owns es b :
  Forall (λ e : entry, e.1.2 = MAPPED_DEVICE) es → owns (snd <$> es) b →
  ∃ b', close_all es b = Done (tt, b') ∧ owns [] b'.
Proof.
  revert b. induction es as [|[[p t] x] es IH]; intros b Hm Ho; [by exists b|].
  apply Forall_cons_1 in Hm as [Ht Hm]. simpl in Ht. subst t.
  destruct (close_owns x _ b Ho) as (b1 & Hc & Ho1).
  destruct (IH b1 Hm Ho1) as (b2 & Hr & Ho2). exists b2. split; [|done].
  simpl. eapply bind_done; [exact Hc|exact Hr].
Qed.

End Lifecycle.

(** ** Properties *)

Section Properties.
Context {P W : Type} `{Backend P W}.
Abbreviation wd := (world P W).
Implicit Types (w : wd) (es : list (entry (P:=P))).

(** C32: Adding a device, on every outcome: an open that fails is dereferenced
    unchecked; with fewer than four devices in the table the device is appended
    and its pointer returned; with four the table is unchanged and NULL
    returned, but the device is not closed and the array made for the new table
    is lost. *)
Theorem add_device_outcomes w ctx post es path o b :
  wf_heap w → rep w ctx post es → open_mapped path 512 (backend w) = Done (o, b) →
  match o with
  | None => io_add_mapped_device ctx path w = Fault NullDeref
  | Some x =>
      ∃ w', io_add_mapped_device ctx path w =
              Done (if (length es <? MAX_DEVICE)%nat then Some (next_ptr w) else None, w') ∧
        wf_heap w' ∧ backend w' = b ∧
        if (length es <? MAX_DEVICE)%nat
        then rep w' ctx post (es ++ [(next_ptr w, MAPPED_DEVICE, x)])
        else rep w' ctx post es ∧ contexts w' = contexts w ∧
             arrays w !! (next_ptr w + 1) = None ∧ is_Some (arrays w' !! (next_ptr w + 1))
  end.
Proof.
  intros Hwf Hrep Ho. pose proof Hrep as [(arr & Hc & Ha) _ _].
  assert (∀ r, add_device ctx MAPPED_DEVICE path o (set_backend b w) = r → io_add_mapped_device ctx path w = r) as Hadd.
  { intros r Hr. unfold io_add_mapped_device.
    eapply bind_done; [eapply bind_done; [reflexivity|]; rewrite Hc; reflexivity|].
    eapply bind_done; [by apply zoom_done|]. exact Hr. }
  destruct o as [x|]; [|by apply Hadd].
  assert (wf_heap (set_backend b w)) as Hwf' by (by destruct Hwf).
  assert (rep (set_backend b w) ctx post es) as Hrep' by (by destruct Hrep).
  destruct (Nat.ltb_spec (length es) MAX_DEVICE) as [Hl|Hl].
  - destruct (add_room (set_backend b w) ctx post es MAPPED_DEVICE path x arr) as (w2 & Hr & Hwf2 & Hrep2 & Hb & _);
      try done. exists w2. split; [by apply Hadd|]. done.
  - set (d := mk_device MAPPED_DEVICE path None x).
    destruct (rep_new_device (set_backend b w) ctx post es d Hwf' Hrep') as (Hwf1 & Hrep1 & Hfresh).
    set (w1 := set_devices _ _) in Hwf1, Hrep1.
    eexists. split.
    { apply Hadd. unfold add_device. eapply bind_done; [reflexivity|].
      eapply bind_done; [eapply bind_done; [reflexivity|]; eapply bind_done; reflexivity|]. fold d w1.
      eapply bind_done; [by eapply (append_full w1)|]. reflexivity. }
    assert (arrays w !! (next_ptr w + 1) = None) as Hnone.
    { apply eq_None_not_Some. intros Hs. pose proof (wh_arrays w Hwf _ Hs). lia. }
    assert (devices w !! next_ptr w = None) as Hdn.
    { apply eq_None_not_Some. intros Hs. pose proof (wh_devices w Hwf _ Hs). lia. }
    destruct Hwf as [W1 W2 W3]. split; [|split; [done|split; [|split; [done|split; [done|]]]]].
    + split; simpl; intros p Hp.
      * specialize (W1 p Hp). lia.
      * apply lookup_insert_is_Some' in Hp as [->|Hp]; [lia|]. specialize (W2 p Hp). lia.
      * rewrite delete_insert_id in Hp by done. specialize (W3 p Hp). lia.
    + destruct Hrep as [_ He Hn]. split; [|by apply (entries_frame w);
        [intros e _; simpl; by rewrite delete_insert_id|]|done].
      exists arr. simpl. split; [done|]. rewrite lookup_insert_ne; [done|].
      intros Heq. rewrite <-Heq, Hnone in Ha. done.
    + simpl. rewrite lookup_insert_eq. by eexists.
Qed.

(** Closing a context closes its devices in table order, frees them, the
    table and the context; closing it again is a use after free. *)
Theorem close_context_closes w ctx es arr b :
  rep w ctx PostLocal es → contexts w !! ctx = Some (mk_context arr PostLocal) →
  close_all es (backend w) = Done (tt, b) →
  ∃ w', io_close_context ctx w = Done (tt, w') ∧ backend w' = b ∧
    contexts w' = delete ctx (contexts w) ∧ arrays w' = delete arr (arrays w) ∧
    devices w' = forget es (devices w) ∧
    io_close_context ctx w' = Fault UseAfterFree.
Proof.
  intros Hrep Hc Hb. eexists. split; [by apply close_context_run|].
  repeat (split; [done|]). unfold io_close_context, io_count_devices.
  do 2 apply bind_fault. unfold context_at. eapply bind_done; [reflexivity|].
  cbn. by rewrite lookup_delete_eq.
Qed.

End Properties.

Section ResourceProperties.
Context {P W : Type} `{BackendOwns P W}.

(** C14: Nothing is left behind: after a context was created and up to four
    register devices were opened in it, closing it succeeds and leaves the heap
    of before and a backend that holds no resource. *)
Theorem context_lifecycle_releases (w0 : world P W) paths :
  wf_heap w0 → owns [] (backend w0) → (length paths ≤ MAX_DEVICE)%nat →
  ∃ ctx w1, io_create_context w0 = Done (ctx, w1) ∧
    ∀ ps w2, add_all ctx paths w1 = Done (ps, w2) →
      length ps = length paths ∧
      ∃ w3, io_close_context ctx w2 = Done (tt, w3) ∧ owns [] (backend w3) ∧
        contexts w3 = contexts w0 ∧ arrays w3 = arrays w0 ∧ devices w3 = devices w0.
Proof.
  intros Hwf Ho Hl. destruct (create_lives w0 Hwf Ho) as (ctx & w1 & Hcr & Hlv).
  exists ctx, w1. split; [done|]. intros ps w2 Hadd.
  destruct (add_all_lives w0 ctx paths w1 [] ps w2 Hlv Hl Hadd) as (es & [Hod Hm Ho2] & Hlen).
  split; [done|]. destruct (close_all_owns es (backend w2) Hm Ho2) as (b & Hcl & Hob).
  destruct (close_opened w0 w2 ctx es b Hod Hcl) as (w3 & Hrun & Hb & Hc & Ha & Hd).
  exists w3. split; [exact Hrun|]. rewrite Hb. by repeat (split; [done|]).
Qed.

End ResourceProperties.

(** ** The local backend owns its descriptors and mappings *)

Section LocalOwns.
Context {C : Type} `{DmaDriver C} (fresh_driver : C).

#[local] Instance local : Backend (local_device C) local_os := local_backend fresh_driver.

Definition mapping (d : mapped_dev) : Z * Z := (ch_start d, pages (ch_end d - ch_start d)).

(** The process holds the descriptors and the mappings of [ds] and nothing else;
    [open] will hand out fresh descriptors other than 0, and [mmap] will
    succeed for each of them. *)
Record local_owns (ds : list mapped_dev) (w : local_os) : Prop := {
  ow_fds : lo_fds w = list_to_set (md_fd <$> ds);
  ow_fresh : NoDup ((md_fd <$> ds) ++ lo_opens w);
  ow_opens : Forall (λ fd, 1 ≤ fd) (lo_opens w);
  ow_mmaps : ∃ n, lo_mmaps w = replicate n true ∧ (length (lo_opens w) ≤ n)%nat;
  ow_maps : lo_maps w = list_to_map (mapping <$> ds);
  ow_starts : NoDup (ch_start <$> ds);
  ow_next : 0 < lo_next w ∧ Forall (λ d, ch_start d < lo_next w) ds
}.

Lemma mapping_keys ds : (mapping <$> ds).*1 = ch_start <$> ds.
Proof. by rewrite <-list_fmap_compose. Qed.

Lemma local_open_owns ds w d w' :
  local_owns ds w → io_open_mapped_local 512 w = Done (Some d, w') → local_owns (ds ++ [d]) w'.
Proof.
  intros [Hf Hfr Ho (n & Hm & Hn) Hmap Hst [Hnx Hlt]] Hr.
  destruct (lo_opens w) as [|fd l] eqn:El.
  { apply bind_inv in Hr as (x & w1 & Hs & Hr). unfold sys_open in Hs. rewrite El in Hs.
    injection Hs as <- <-. done. }
  destruct n as [|n]; [simpl in Hn; lia|]. apply Forall_cons_1 in Ho as [Hfd Ho].
  rewrite (open_mapped_run w fd l true (replicate n true) 512) in Hr by done.
  injection Hr as <- <-.
  assert (lo_next w ∉ ch_start <$> ds) as Hnew.
  { intros (d & Hd & Hin)%list_elem_of_fmap. rewrite Forall_forall in Hlt. specialize (Hlt d Hin). lia. }
  assert (pages (512 * 4) = 4096) as Hpg by reflexivity.
  split; simpl.
  - rewrite fmap_app, list_to_set_app_L, Hf. simpl. set_solver.
  - rewrite fmap_app, <-app_assoc. done.
  - done.
  - exists n. simpl in Hn. split; [done|lia].
  - assert (mapping (mk_mapped_dev (lo_next w) (lo_next w + 512 * 4) fd) = (lo_next w, pages (512 * 4))) as Hmp
      by (unfold mapping; cbn [ch_start ch_end]; do 2 f_equal; lia).
    rewrite fmap_app, Hmap. cbn [fmap list_fmap]. rewrite Hmp.
    by rewrite list_to_map_snoc by (by rewrite mapping_keys).
  - rewrite fmap_app. apply NoDup_app. split; [done|]. split; [|apply NoDup_singleton].
    intros x Hx [->|[]%not_elem_of_nil]%elem_of_cons. done.
  - unfold PAGE. split; [lia|]. apply Forall_app. split; [|constructor; [simpl; lia|done]].
    eapply Forall_impl; [exact Hlt|]. simpl. lia.
Qed.

Lemma local_close_owns d ds w :
  local_owns (d :: ds) w →
  ∃ w', io_close_mapped_local (Some d) w = Done (0, w') ∧ local_owns ds w'.
Proof.
  intros [Hf Hfr Ho Hm Hmap Hst [Hnx Hlt]]. cbn [fmap list_fmap] in Hf, Hfr, Hmap, Hst.
  apply NoDup_cons in Hst as [Hs Hst]. apply Forall_cons_1 in Hlt as [Hd Hlt].
  simpl in Hfr. apply NoDup_cons in Hfr as [Hfd Hfr]. rewrite not_elem_of_app in Hfd. destruct Hfd as [Hfd1 Hfd2].
  assert ((list_to_map (mapping <$> ds) : gmap Z Z) !! ch_start d = None) as Hnone.
  { apply not_elem_of_list_to_map_1. by rewrite mapping_keys. }
  eexists. split.
  { unfold io_close_mapped_local. eapply bind_done.
    { unfold sys_munmap. rewrite Hmap. simpl. rewrite lookup_insert_eq, Z.ltb_irrefl. reflexivity. }
    eapply bind_done; [reflexivity|]. eapply bind_done; reflexivity. }
  split; simpl; try done.
  - rewrite Hf. simpl. set_solver.
  - by rewrite delete_insert_id.
Qed.

#[export, refine] Instance local_backend_owns : BackendOwns (local_device C) local_os := {
  owns := λ xs w, ∃ ds, xs = LocalMapped <$> ds ∧ local_owns ds w
}.
Proof.
  - intros xs b path x b' (ds & -> & Ho) Hr. simpl in Hr.
    apply bind_inv in Hr as (o & w1 & Hr & [= Hx <-]). destruct o as [d|]; [|done]. injection Hx as <-.
    exists (ds ++ [d]). split; [by rewrite fmap_app|]. by eapply local_open_owns.
  - intros x xs b (ds & Hx & Ho). destruct ds as [|d ds]; [done|]. injection Hx as -> ->.
    destruct (local_close_owns d ds b Ho) as (w' & Hr & Ho'). exists w'.
    split; [simpl; eapply bind_done; [exact Hr|done]|]. by exists ds.
Defined.

End LocalOwns.

(** ** Concrete runs *)

#[local] Instance demo_backend : Backend (local_device (dma_proxy_channel script)) local_os :=
  @local_backend _ (channel_driver 300) (fresh_channel demo_engine 4096).

#[local] Instance demo_owns : BackendOwns (local_device (dma_proxy_channel script)) local_os :=
  @local_backend_owns _ (channel_driver 300) (fresh_channel demo_engine 4096).

(** A process that has opened nothing; five opens will succeed. *)
Definition demo_process : local_os := mk_os [3; 4; 5; 6; 7] (replicate 5 true) ∅ ∅ ∅ 65536 0.
Definition demo_world : world (local_device (dma_proxy_channel script)) local_os :=
  mk_world ∅ ∅ ∅ 1 demo_process.

Lemma demo_world_wf : wf_heap demo_world.
Proof. split; intros p [x Hx]; done. Qed.

Definition demo_context : world (local_device (dma_proxy_channel script)) local_os :=
  match io_create_context demo_world with Done (_, w) => w | Fault _ => demo_world end.

Lemma demo_context_rep : rep demo_context 1 PostLocal [].
Proof. split; [|constructor|constructor]. exists 2. split; reflexivity. Qed.

Lemma demo_context_wf : wf_heap demo_context.
Proof.
  split; intros p Hp; simpl in Hp.
  - apply lookup_insert_is_Some in Hp as [<-|[_ [x Hx]]]; [reflexivity|done].
  - apply lookup_insert_is_Some in Hp as [<-|[_ [x Hx]]]; [reflexivity|done].
  - by destruct Hp as [x Hx].
Qed.

Lemma add_device_outcomes_witness :
  ∃ w', io_add_mapped_device 1 [47] demo_context = Done (Some 3, w') ∧ wf_heap w'.
Proof.
  destruct (io_open_mapped_local 512 demo_process) as [[[d|] b]|] eqn:Eo; [|discriminate Eo|discriminate Eo].
  assert (open_mapped [47] 512 (backend demo_context) = Done (Some (LocalMapped d), b)) as Hr.
  { simpl. eapply bind_done; [exact Eo|reflexivity]. }
  destruct (add_device_outcomes demo_context 1 PostLocal [] [47] _ b demo_context_wf demo_context_rep Hr)
    as (w' & H1 & H2 & _). exists w'. split; [exact H1|exact H2].
Defined.

Lemma close_context_closes_witness :
  ∃ w', io_close_context 1 demo_context = Done (tt, w') ∧ io_close_context 1 w' = Fault UseAfterFree.
Proof.
  destruct (close_context_closes demo_context 1 [] 2 demo_process demo_context_rep eq_refl eq_refl)
    as (w' & H1 & _ & _ & _ & _ & H2). exists w'. split; [exact H1|exact H2].
Defined.

Lemma context_lifecycle_releases_witness :
  ∃ ps w2 w3, add_all 1 [[47]; [48]] demo_context = Done (ps, w2) ∧
    io_close_context 1 w2 = Done (tt, w3) ∧ owns [] (backend w3) ∧ devices w3 = ∅.
Proof.
  destruct (context_lifecycle_releases demo_world [[47]; [48]] demo_world_wf) as (ctx & w1 & Hc & Hall).
  - exists []. split; [reflexivity|]. split; try reflexivity.
    + apply (bool_decide_unpack _). vm_compute. exact I.
    + repeat (constructor; [lia|]). constructor.
    + exists 5%nat. split; [reflexivity|simpl; lia].
    + constructor.
    + split; [simpl; lia|constructor].
  - unfold MAX_DEVICE. simpl. lia.
  - assert (io_create_context demo_world = Done (1, demo_context)) as Hcr by reflexivity.
    rewrite Hcr in Hc. injection Hc as <- <-.
    destruct (add_all 1 [[47]; [48]] demo_context) as [[ps w2]|f] eqn:Ea; [|discriminate Ea].
    destruct (Hall ps w2 eq_refl) as (_ & w3 & Hr & Ho & _ & _ & Hd).
    exists ps, w2, w3. split; [reflexivity|]. split; [exact Hr|]. split; [exact Ho|]. rewrite Hd. reflexivity.
Defined.
