(* ===== verification/BackendContext.v ===== *)
(** * BackendContext: what the I/O server does for one connection

    [src/userspace/io_backend/src/io_backend.c] without the process set-up: the
    table of opened contexts and the frames that open and close them
    ([handle_context], [start_task]), and the older per-device channel
    ([client_mapped_channel]) that the server no longer calls. *)
From Stdlib Require Import ZArith Lia.
From stdpp Require Import base list numbers option gmap.
From S2P Require Import Prelude Socket DmaChannel Devices BackendCall LocalBackend Context.

Definition MAX_CONTEXT_COUNT : nat := 5.

(** A task's connection, the global [opened_ctx_list] and the heap with the
    contexts. *)
Record server (P W : Type) := mk_server {
  sv_conn : socket;
  opened_ctx_list : list (option Z);
  sv_world : world P W
}.
Arguments mk_server {P W}.
Arguments sv_conn {P W}.
Arguments opened_ctx_list {P W}.
Arguments sv_world {P W}.

Section Frames.
Context `{Stack} {P W : Type} `{Backend P W}.
Abbreviation srv := (server P W).

Definition on_client {A} (m : M socket A) : M srv A :=
  zoom sv_conn (λ s sv, mk_server s (opened_ctx_list sv) (sv_world sv)) m.
Definition on_world {A} (m : M (world P W) A) : M srv A :=
  zoom sv_world (λ w sv, mk_server (sv_conn sv) (opened_ctx_list sv) w) m.

Definition slot_at (i : nat) : M srv (option Z) :=
  sv ← get; require OutOfBounds (opened_ctx_list sv !! i).
Definition set_slot (i : nat) (c : option Z) : M srv unit :=
  modify (λ sv, mk_server (sv_conn sv) (<[i := c]> (opened_ctx_list sv)) (sv_world sv)).

(** The body of the [for] loop over the slots; [Some r] leaves the function
    with [r]. *)
Definition open_slot (i : nat) : M srv (option Z) :=
  c ← slot_at i;
  match c with
  | Some _ => mret None
  | None =>
      this_ctx ← on_world io_create_context;
      ret ← on_client (send (frame_ctx_bytes (garbage 3)
              (FRAME_WITH_CTX (FRAME (Z.lor FRAME_OP_OPEN FRAME_DEV_CTX)) (Z.of_nat i))));
      if ret <? 0 then
        on_world (io_close_context this_ctx) ;; set_slot i None ;; mret (Some ret)
      else set_slot i (Some this_ctx) ;; mret (Some 0)
  end.

(** [for (i = 0; i < 4; i++)]. *)
Fixpoint open_slots (i n : nat) : M srv Z :=
  match n with
  | O => mret (-1)
  | S n' =>
      r ← open_slot i;
      match r with
      | Some ret => mret ret
      | None => open_slots (S i) n'
      end
  end.

Definition handle_context (frame : frame_top) : M srv Z :=
  if Z.land (op frame) 15 =? FRAME_OP_OPEN then open_slots 0 4
  else if Z.land (op frame) 15 =? FRAME_OP_CLOS then
    '(ret, bs) ← on_client (recv_into (garbage sizeof_frame_ctx_top));
    if ret <? 0 then mret (-1)
    else
      let id := ctx_id (frame_ctx_of bs) in
      if id <? Z.of_nat MAX_CONTEXT_COUNT then
        c ← slot_at (Z.to_nat id);
        match c with
        | Some this_ctx => on_world (io_close_context this_ctx) ;; mret 0
        | None => mret (-1)
        end
      else mret (-1)
  else mret (-1).

(** [while (handle_context(...) >= 0) { recv the next frame_top }]; the variable
    keeps the bytes a short receive did not write. *)
Definition task_body (frame : list Z) : M srv (list Z + unit) :=
  r ← handle_context (frame_top_of frame);
  if r <? 0 then mret (inr tt)
  else
    '(ret, bs) ← on_client (recv_into frame);
    mret (if ret <=? 0 then inr tt else inl bs).

Definition start_task (fuel : nat) : M srv unit :=
  '(ret, bs) ← on_client (recv_peek sizeof_frame_top);
  if ret <? 0 then mret tt
  else
    let frame := bs ++ drop (length bs) (garbage sizeof_frame_top) in
    if Z.land (op (frame_top_of frame)) 240 =? FRAME_DEV_CTX then iterate fuel task_body frame
    else mret tt.

End Frames.

(** ** The channel of one register device *)

Section Channel.
Context `{Stack} {P W : Type} `{Backend P W}.
Abbreviation ses := (session (world P W)).

Definition client_finish_handshake : M ses Z := on_conn (send (le_bytes 4 HANDSHAKE_HEADER)).

(** A C string in a block of memory ends at its first zero byte. *)
Fixpoint c_string (block : list Z) : option (list Z) :=
  match block with
  | [] => None
  | b :: block' => if b =? 0 then Some [] else cons b <$> c_string block'
  end.

(** [client_deivce_option]: the path is received into a block of exactly its
    length and then printed as a string. *)
Definition client_deivce_option : M ses (list Z * Z) :=
  '(_, path_len) ← on_conn (recv_into (garbage 4));
  '(_, dev_path) ← on_conn (recv_into (garbage (Z.to_nat (le_val path_len))));
  '(_, map_size) ← on_conn (recv_into (garbage 8));
  path ← require OutOfBounds (c_string dev_path);
  mret (path, le_val map_size).

Definition client_mapped_channel (fuel : nat) : M ses Z :=
  ctx ← on_dev io_create_context;
  r ← client_finish_handshake;
  if r =? 0 then mret (-1)
  else
    '(path, _) ← client_deivce_option;
    device ← on_dev (io_add_mapped_device ctx path);
    match device with
    | None => mret tt
    | Some p =>
        d ← on_dev (device_at p);
        on_conn (send (le_bytes 4 (u32 (device_fd (dv_private d))))) ;;
        @mapped_cmd_loop _ _ (context_device p) fuel
    end ;;
    on_dev (io_close_context ctx) ;;
    mret 0.

End Channel.

(** ** Lemmas: the context table *)

Section FrameLemmas.
Context `{Stack} {P W : Type} `{Backend P W}.
Implicit Types (sv : server P W) (w : world P W).

Lemma on_client_run {A} (m : M socket A) sv a s :
  m (sv_conn sv) = Done (a, s) → on_client m sv = Done (a, mk_server s (opened_ctx_list sv) (sv_world sv)).
Proof. intros Hm. unfold on_client, zoom. by rewrite Hm. Qed.

Lemma on_world_run {A} (m : M (world P W) A) sv a w :
  m (sv_world sv) = Done (a, w) → on_world m sv = Done (a, mk_server (sv_conn sv) (opened_ctx_list sv) w).
Proof. intros Hm. unfold on_world, zoom. by rewrite Hm. Qed.

Definition open_reply (i : nat) : list Z :=
  frame_ctx_bytes (garbage 3) (FRAME_WITH_CTX FRAME_OPEN_CTX (Z.of_nat i)).

Lemma open_slot_free sv i :
  opened_ctx_list sv !! i = Some None → sends_left (sv_conn sv) = None →
  open_slot i sv = Done (Some 0,
    mk_server (set_tx (tx (sv_conn sv) ++ open_reply i) None (sv_conn sv))
      (<[i := Some (next_ptr (sv_world sv))]> (opened_ctx_list sv)) (created (sv_world sv))).
Proof.
  intros Hi Hs. unfold open_slot, slot_at.
  eapply bind_done; [eapply bind_done; [reflexivity|]; by rewrite Hi|].
  eapply bind_done; [apply on_world_run, create_run|].
  eapply bind_done; [apply on_client_run; by apply send_ok|]. cbn [sv_conn].
  by rewrite (proj2 (Z.ltb_ge _ _)) by lia.
Qed.

Lemma open_slot_taken sv i c :
  opened_ctx_list sv !! i = Some (Some c) → open_slot i sv = Done (None, sv).
Proof.
  intros Hi. unfold open_slot, slot_at.
  eapply bind_done; [eapply bind_done; [reflexivity|]; by rewrite Hi|]. done.
Qed.

(** The loop over the slots from [i] on, when the first free one is [j]. *)
Lemma open_slots_run sv i n j :
  (∀ k, (i ≤ k < j)%nat → ∃ c, opened_ctx_list sv !! k = Some (Some c)) → (i ≤ j)%nat →
  if (j <? i + n)%nat then
    opened_ctx_list sv !! j = Some None → sends_left (sv_conn sv) = None →
    open_slots i n sv = Done (0,
      mk_server (set_tx (tx (sv_conn sv) ++ open_reply j) None (sv_conn sv))
        (<[j := Some (next_ptr (sv_world sv))]> (opened_ctx_list sv)) (created (sv_world sv)))
  else open_slots i n sv = Done (-1, sv).
Proof.
  revert i. induction n as [|n IH]; intros i Hk Hij.
  - by rewrite (proj2 (Nat.ltb_ge _ _)) by lia.
  - destruct (decide (i = j)) as [->|Hne].
    + rewrite (proj2 (Nat.ltb_lt _ _)) by lia. intros Hf Hs. simpl.
      eapply bind_done; [by apply open_slot_free|]. done.
    + destruct (Hk i ltac:(lia)) as [c Hc].
      specialize (IH (S i) ltac:(intros k Hk'; apply Hk; lia) ltac:(lia)).
      replace (S i + n)%nat with (i + S n)%nat in IH by lia.
      destruct (j <? i + S n)%nat; intros; simpl;
        (eapply bind_done; [by eapply open_slot_taken|]); auto.
Qed.

End FrameLemmas.

(** ** Lemmas: one register channel *)

Section ChannelLemmas.
Context {P W : Type} `{Backend P W}.

(** The register functions of one device, on the backend alone. *)
Definition payload_device (x : P) : MappedDevice W := {|
  io_write_mapped_device := ch_write x;
  io_read_mapped_device := ch_read x
|}.

(** Through the device table the operations act on the backend only. *)
Lemma local_ops_context ops p d (w : world P W) rs b :
  devices w !! p = Some d → dv_type d = MAPPED_DEVICE →
  @local_ops _ (payload_device (dv_private d)) ops (backend w) = Done (rs, b) →
  @local_ops _ (context_device p) ops w = Done (rs, set_backend b w).
Proof.
  intros Hd Ht. revert w rs Hd. induction ops as [|o ops IH]; intros w rs Hd Hr.
  - injection Hr as <- <-. by destruct w.
  - assert (device_at p w = Done (d, w)) as Hat
      by (unfold device_at; eapply bind_done; [reflexivity|]; by rewrite Hd).
    destruct o as [a v|a].
    + apply bind_inv in Hr as ([] & b1 & Hw & Hr).
      simpl. eapply bind_done.
      { unfold core_write_mapped. eapply bind_done; [exact Hat|].
        rewrite bool_decide_eq_true_2 by done. unfold on_backend. by apply zoom_done. }
      by rewrite (IH (set_backend b1 w) rs) by done.
    + apply bind_inv in Hr as (r & b1 & Hrd & Hr). apply bind_inv in Hr as (rs' & b2 & Hr & [= <- <-]).
      simpl. eapply bind_done.
      { unfold core_read_mapped. eapply bind_done; [exact Hat|]. unfold on_backend. by apply zoom_done. }
      eapply bind_done; [by apply (IH (set_backend b1 w) rs')|]. done.
Qed.

End ChannelLemmas.

Lemma c_string_terminated path rest :
  Forall (λ b, b ≠ 0) path → c_string (path ++ 0 :: rest) = Some path.
Proof.
  induction 1 as [|b path Hb _ IH]; [done|]. simpl.
  rewrite (proj2 (Z.eqb_neq _ _)) by done. by rewrite IH.
Qed.

Lemma c_string_open path : Forall (λ b, b ≠ 0) path → c_string path = None.
Proof.
  induction 1 as [|b path Hb _ IH]; [done|]. simpl.
  rewrite (proj2 (Z.eqb_neq _ _)) by done. by rewrite IH.
Qed.

Section RequestLemmas.
Context `{Stack} {P W : Type} `{Backend P W}.
Implicit Types (w : world P W) (s : socket).

(** A request whose path is terminated. *)
Lemma device_option_run path size more segs s w :
  Forall (λ c, c ≠ 0) path → Z.of_nat (length path) + 1 < 2 ^ 32 →
  carries segs ([le_bytes 4 (Z.of_nat (length path) + 1); path ++ [0]; le_bytes 8 size] ++ more) →
  rx s = segs →
  ∃ segs', carries segs' more ∧
    client_deivce_option (mk_session s w) =
      Done ((path, le_val (le_bytes 8 size)), mk_session (set_rx segs' s) w).
Proof.
  intros Hpath Hlen Hc Hrx.
  destruct (recv_field (garbage 4) _ _ _ s Hc Hrx) as (g1 & Hg1 & R1); [by rewrite garbage_length, length_le_bytes|].
  destruct (recv_field (garbage (length (path ++ [0]))) _ _ _ (set_rx g1 s) Hg1 eq_refl) as (g2 & Hg2 & R2);
    [by rewrite garbage_length|].
  destruct (recv_field (garbage 8) _ _ _ (set_rx g2 (set_rx g1 s)) Hg2 eq_refl) as (g3 & Hg3 & R3);
    [by rewrite garbage_length, length_le_bytes|].
  exists g3. split; [done|].
  unfold client_deivce_option. eapply bind_done; [apply on_conn_run; exact R1|]. cbv beta iota.
  rewrite le_val_bytes by (simpl; lia).
  replace (Z.to_nat (Z.of_nat (length path) + 1)) with (length (path ++ [0])) by (rewrite length_app; simpl; lia).
  eapply bind_done; [apply on_conn_run; exact R2|]. cbv beta iota.
  eapply bind_done; [apply on_conn_run; exact R3|]. cbv beta iota.
  rewrite (c_string_terminated path []) by done. eapply bind_done; reflexivity.
Qed.

(** A new context with one opened device in it, and closing it again. *)
Lemma one_device w0 type path x b1 :
  wf_heap w0 →
  ∃ p d w2, add_device (next_ptr w0) type path (Some x) (set_backend b1 (created w0)) = Done (Some p, w2) ∧
    device_at p w2 = Done (d, w2) ∧ devices w2 !! p = Some d ∧ dv_type d = type ∧
    dv_private d = x ∧ backend w2 = b1 ∧
    ∀ b2 b3,
      (match type with STREAM_DEVICE => close_stream x | MAPPED_DEVICE => close_mapped x end) b2 = Done (tt, b3) →
      ∃ w3, io_close_context (next_ptr w0) (set_backend b2 w2) = Done (tt, w3) ∧
        backend w3 = b3 ∧ contexts w3 = contexts w0 ∧ devices w3 = devices w0.
Proof.
  intros Hwf. set (ctx := next_ptr w0).
  assert (opened w0 (set_backend b1 (created w0)) ctx []) as Hod by (by apply opened_backend, create_opened).
  destruct (add_opened w0 _ ctx [] type path x Hod) as (p & w2 & Hadd & Hod2 & Hb2); [unfold MAX_DEVICE; simpl; lia|].
  destruct (opened_at w0 w2 ctx _ p type x Hod2) as (d & Hdp & Ht & Hx); [by apply list_elem_of_here|].
  exists p, d, w2. split; [exact Hadd|].
  split; [unfold device_at; eapply bind_done; [reflexivity|]; by rewrite Hdp|].
  do 4 (split; [done|]). intros b2 b3 Hclose.
  destruct (close_opened w0 (set_backend b2 w2) ctx [(p, type, x)] b3) as (w3 & Hrun & Hb & Hc & _ & Hd);
    [by apply opened_backend|by eapply bind_done|].
  exists w3. by repeat (split; [done|]).
Qed.

(** The add functions reach [add_device] in a new context. *)
Lemma created_context w0 :
  context_at (next_ptr w0) (created w0) = Done (mk_context (next_ptr w0 + 1) PostLocal, created w0).
Proof.
  unfold context_at. eapply bind_done; [reflexivity|].
  assert (contexts (created w0) !! next_ptr w0 = Some (mk_context (next_ptr w0 + 1) PostLocal)) as Hc
    by apply lookup_insert_eq.
  by rewrite Hc.
Qed.

Lemma add_mapped_run w0 path x b1 r :
  open_mapped path 512 (backend w0) = Done (Some x, b1) →
  add_device (next_ptr w0) MAPPED_DEVICE path (Some x) (set_backend b1 (created w0)) = r →
  io_add_mapped_device (next_ptr w0) path (created w0) = r.
Proof.
  intros Hopen <-. unfold io_add_mapped_device.
  eapply bind_done; [by apply created_context|].
  eapply bind_done; [by apply zoom_done|]. done.
Qed.

Lemma add_stream_run w0 path x b1 r :
  open_stream path (backend w0) = Done (Some x, b1) →
  add_device (next_ptr w0) STREAM_DEVICE path (Some x) (set_backend b1 (created w0)) = r →
  io_add_stream_device (next_ptr w0) path (created w0) = r.
Proof.
  intros Hopen <-. unfold io_add_stream_device.
  eapply bind_done; [by apply created_context|].
  eapply bind_done; [by apply zoom_done|]. done.
Qed.

End RequestLemmas.

(** ** Lemmas: the frames are representable *)

Lemma frame_ok o : 0 ≤ o < 256 → frame_top_ok (FRAME o).
Proof. intros Ho. split; [vm_compute; split; congruence|done]. Qed.

(** ** Lemmas: a task that only opens contexts *)

Section TaskLemmas.
Context `{Stack} {P W : Type} `{Backend P W}.
Implicit Types (sv : server P W).

Definition open_frame : list Z := frame_top_bytes (garbage 3) FRAME_OPEN_CTX.

Lemma open_frame_decodes : frame_top_of open_frame = FRAME_OPEN_CTX ∧ length open_frame = 8%nat.
Proof.
  destruct (frame_top_roundtrip (garbage 3) FRAME_OPEN_CTX) as [Hl Hd].
  - by apply frame_ok.
  - apply garbage_length.
  - done.
Qed.

(** Slots below [i] taken, the others free. *)
Definition filled (i : nat) (slots : list (option Z)) : Prop :=
  length slots = MAX_CONTEXT_COUNT ∧
  (∀ k, (k < i)%nat → ∃ c, slots !! k = Some (Some c)) ∧
  ∀ k, (i ≤ k < MAX_CONTEXT_COUNT)%nat → slots !! k = Some None.

Lemma filled_next i c slots :
  filled i slots → (i < MAX_CONTEXT_COUNT)%nat → filled (S i) (<[i := Some c]> slots).
Proof.
  intros (Hl & Ht & Hf) Hi. split; [by rewrite length_insert|]. split.
  - intros k Hk. destruct (decide (k = i)) as [->|Hne].
    + exists c. apply list_lookup_insert_eq. lia.
    + rewrite list_lookup_insert_ne by done. apply Ht. lia.
  - intros k Hk. rewrite list_lookup_insert_ne by lia. apply Hf. lia.
Qed.

Lemma handle_open i sv :
  filled i (opened_ctx_list sv) → (i < 4)%nat → sends_left (sv_conn sv) = None →
  handle_context FRAME_OPEN_CTX sv = Done (0,
    mk_server (set_tx (tx (sv_conn sv) ++ open_reply i) None (sv_conn sv))
      (<[i := Some (next_ptr (sv_world sv))]> (opened_ctx_list sv)) (created (sv_world sv))).
Proof.
  intros (_ & Ht & Hf) Hi Hs.
  pose proof (open_slots_run sv 0 4 i ltac:(intros k Hk; apply Ht; lia) ltac:(lia)) as Hrun.
  rewrite (proj2 (Nat.ltb_lt _ _)) in Hrun by lia.
  apply Hrun; [|done]. apply Hf. unfold MAX_CONTEXT_COUNT. lia.
Qed.

(** The loop of a task, with [n] more open frames to receive. *)
Lemma task_loop n fuel i sv segs :
  filled i (opened_ctx_list sv) → (i + n < 4)%nat → sends_left (sv_conn sv) = None →
  carries segs (replicate n open_frame) → rx (sv_conn sv) = segs → rx_end (sv_conn sv) ≤ 0 →
  (n < fuel)%nat →
  ∃ sv', iterate fuel task_body open_frame sv = Done (tt, sv') ∧
    filled (i + n + 1) (opened_ctx_list sv') ∧
    tx (sv_conn sv') = tx (sv_conn sv) ++ concat (open_reply <$> seq i (n + 1)).
Proof.
  destruct open_frame_decodes as [Hdec Hlen].
  revert fuel i sv segs. induction n as [|n IH]; intros fuel i sv segs Hfi Hi Hs Hc Hrx He Hfu;
    (destruct fuel as [|fuel]; [lia|]); rewrite iterate_unfold;
    pose proof (handle_open i sv Hfi ltac:(lia) Hs) as Hh; set (sv1 := mk_server _ _ _) in Hh;
    assert (filled (S i) (opened_ctx_list sv1)) as Hfi1
      by (apply filled_next; [done|unfold MAX_CONTEXT_COUNT; lia]).
  - inversion Hc; subst. exists sv1. split; [|split; [by rewrite Nat.add_0_r, Nat.add_1_r|]].
    + eapply bind_done.
      { unfold task_body. rewrite Hdec. eapply bind_done; [exact Hh|]. simpl.
        eapply bind_done; [apply on_client_run, recv_into_end; [done|lia]|]. reflexivity. }
      simpl. by rewrite (proj2 (Z.leb_le _ _)) by done.
    + simpl. by rewrite app_nil_r.
  - destruct (recv_field open_frame open_frame (replicate n open_frame) segs (sv_conn sv1)) as (segs' & Hc' & Hr);
      [done|done|done|].
    destruct (IH fuel (S i) (mk_server (set_rx segs' (sv_conn sv1)) (opened_ctx_list sv1) (sv_world sv1)) segs')
      as (sv2 & Hrun & Hfi2 & Htx); try done; [lia|lia|].
    exists sv2. split; [|split].
    + eapply bind_done.
      { unfold task_body. rewrite Hdec. eapply bind_done; [exact Hh|]. simpl.
        eapply bind_done; [apply on_client_run; exact Hr|]. rewrite Hlen. reflexivity. }
      exact Hrun.
    + by replace (i + S n + 1)%nat with (S i + n + 1)%nat by lia.
    + rewrite Htx. simpl. by rewrite <-app_assoc.
Qed.

End TaskLemmas.

(** ** Properties *)

Section Properties.
Context `{Stack} {P W : Type} `{Backend P W}.
Implicit Types (sv : server P W) (w : world P W).

(** An open frame takes the first free slot of the first four, stores the new
    context there and answers with a frame that carries that slot's number;
    when these four are taken it is refused and nothing changes (the fifth slot
    is never used). *)
Theorem open_frame_takes_first_free frame sv j :
  Z.land (op frame) 15 = FRAME_OP_OPEN → (j ≤ 4)%nat →
  (∀ k, (k < j)%nat → ∃ c, opened_ctx_list sv !! k = Some (Some c)) →
  (j < 4 → opened_ctx_list sv !! j = Some None)%nat → sends_left (sv_conn sv) = None →
  if (j <? 4)%nat then
    ∃ sv', handle_context frame sv = Done (0, sv') ∧
      opened_ctx_list sv' = <[j := Some (next_ptr (sv_world sv))]> (opened_ctx_list sv) ∧
      is_Some (contexts (sv_world sv') !! next_ptr (sv_world sv)) ∧
      ∃ reply, tx (sv_conn sv') = tx (sv_conn sv) ++ reply ∧
        frame_ctx_of reply = FRAME_WITH_CTX FRAME_OPEN_CTX (Z.of_nat j)
  else handle_context frame sv = Done (-1, sv).
Proof.
  intros Hop Hj Ht Hf Hs.
  pose proof (open_slots_run sv 0 4 j ltac:(intros k Hk; apply Ht; lia) ltac:(lia)) as Hrun.
  unfold handle_context. rewrite Hop. simpl Nat.add in Hrun.
  destruct (Nat.ltb_spec j 4) as [Hlt|]; [|exact Hrun].
  eexists. split; [by apply Hrun; [apply Hf|]|]. split; [done|]. split.
  { unfold created. simpl. by rewrite lookup_insert_eq. }
  eexists. split; [reflexivity|]. apply frame_ctx_roundtrip; [|apply garbage_length].
  split; [by apply frame_ok|simpl; lia].
Qed.

(** A task peeks at its first frame and then receives it again, so a client
    that sends [n] open frames (up to three) gets [n + 1] contexts and
    [n + 1] answers. *)
Theorem opens_create_one_more n fuel sv segs :
  (0 < n ≤ 3)%nat → opened_ctx_list sv = replicate MAX_CONTEXT_COUNT None →
  sends_left (sv_conn sv) = None → rx_end (sv_conn sv) ≤ 0 →
  carries segs (replicate n open_frame) → rx (sv_conn sv) = segs → (n < fuel)%nat →
  ∃ sv', start_task fuel sv = Done (tt, sv') ∧
    filled (n + 1) (opened_ctx_list sv') ∧
    tx (sv_conn sv') = tx (sv_conn sv) ++ concat (open_reply <$> seq 0 (n + 1)).
Proof.
  intros Hn Hsl Hs He Hc Hrx Hf. destruct open_frame_decodes as [Hdec Hlen].
  assert (filled 0 (opened_ctx_list sv)) as Hfi.
  { rewrite Hsl. split; [apply length_replicate|]. split; [lia|]. intros k Hk. apply lookup_replicate_2; lia. }
  destruct (task_loop n fuel 0 sv segs Hfi) as (sv' & Hrun & Hfi' & Htx); try done; [lia|].
  exists sv'. split; [|split; [done|done]].
  destruct n as [|n]; [lia|]. simpl in Hc.
  apply carries_cons_inv in Hc as (_ & more & segs0 & Hseg & _).
  unfold start_task. eapply bind_done.
  { apply on_client_run. unfold recv_peek. replace sizeof_frame_top with (length open_frame) by (by rewrite Hlen).
    rewrite (recv_whole open_frame more segs0);
      [reflexivity|by rewrite Hrx|lia]. }
  cbv beta iota zeta. rewrite Hlen. cbv iota. change (Z.of_nat 8 <? 0) with false. cbv iota.
  rewrite drop_ge by (by rewrite garbage_length). rewrite app_nil_r, Hdec.
  destruct sv. exact Hrun.
Qed.

(** A close frame closes the context its number names but leaves the slot
    occupied: the next close frame for the same number closes freed memory, and
    the slot is never available again. *)
Theorem close_frame_leaves_slot frame sv ctx arr es b i segs :
  Z.land (op frame) 15 = FRAME_OP_CLOS → (i < MAX_CONTEXT_COUNT)%nat →
  opened_ctx_list sv !! i = Some (Some ctx) →
  rep (sv_world sv) ctx PostLocal es → contexts (sv_world sv) !! ctx = Some (mk_context arr PostLocal) →
  close_all es (backend (sv_world sv)) = Done (tt, b) →
  let close := frame_ctx_bytes (garbage 3) (FRAME_WITH_CTX FRAME_CLOSE_CTX (Z.of_nat i)) in
  carries segs [close; close] → rx (sv_conn sv) = segs →
  ∃ sv', handle_context frame sv = Done (0, sv') ∧ opened_ctx_list sv' !! i = Some (Some ctx) ∧
    contexts (sv_world sv') !! ctx = None ∧ backend (sv_world sv') = b ∧
    handle_context frame sv' = Fault UseAfterFree.
Proof.
  intros Hop Hi Hslot Hrep Hctx Hb close Hc Hrx. unfold MAX_CONTEXT_COUNT in Hi.
  destruct (frame_ctx_roundtrip (garbage 3) (FRAME_WITH_CTX FRAME_CLOSE_CTX (Z.of_nat i))) as [Hlen Hdec].
  { split; [by apply frame_ok|simpl; lia]. }
  { apply garbage_length. }
  fold close in Hlen, Hdec.
  destruct (recv_field (garbage sizeof_frame_ctx_top) close [close] segs (sv_conn sv) Hc Hrx)
    as (segs1 & Hc1 & Hr1); [by rewrite garbage_length, Hlen|].
  set (w' := mk_world (delete ctx (contexts (sv_world sv))) (delete arr (arrays (sv_world sv)))
    (forget es (devices (sv_world sv))) (next_ptr (sv_world sv)) b).
  set (sv' := mk_server (set_rx segs1 (sv_conn sv)) (opened_ctx_list sv) w').
  assert (∀ sv1 sv2 bs, on_client (recv_into (garbage sizeof_frame_ctx_top)) sv1 = Done ((12, bs), sv2) →
    bs = close → opened_ctx_list sv2 !! i = Some (Some ctx) →
    handle_context frame sv1 = (on_world (io_close_context ctx) ;; mret 0) sv2) as Hstep.
  { intros sv1 sv2 bs Hr -> Hs2. unfold handle_context. rewrite Hop.
    change (FRAME_OP_CLOS =? FRAME_OP_OPEN) with false. rewrite Z.eqb_refl. cbv iota.
    eapply bind_done; [exact Hr|]. cbv beta iota zeta. change (12 <? 0) with false. cbv iota.
    rewrite Hdec. cbn [ctx_id FRAME_WITH_CTX]. unfold MAX_CONTEXT_COUNT.
    rewrite (proj2 (Z.ltb_lt _ _)) by lia. rewrite Nat2Z.id.
    eapply bind_done; [unfold slot_at; eapply bind_done; [reflexivity|]; by rewrite Hs2|]. done. }
  exists sv'. split; [|split; [done|split; [apply lookup_delete_eq|split; [done|]]]].
  - rewrite (Hstep sv (mk_server (set_rx segs1 (sv_conn sv)) (opened_ctx_list sv) (sv_world sv)) close); [|apply on_client_run; rewrite Hr1, Hlen; reflexivity|done|done].
    eapply bind_done; [apply on_world_run; by apply (close_context_run _ ctx es arr b)|]. done.
  - destruct (recv_field (garbage sizeof_frame_ctx_top) close [] segs1 (sv_conn sv') Hc1 eq_refl)
      as (segs2 & _ & Hr2); [by rewrite garbage_length, Hlen|].
    rewrite (Hstep sv' (mk_server (set_rx segs2 (sv_conn sv')) (opened_ctx_list sv') (sv_world sv')) close); [|apply on_client_run; rewrite Hr2, Hlen; reflexivity|done|done].
    apply bind_fault. unfold on_world, zoom. cbn [sv_world sv'].
    unfold io_close_context, io_count_devices, context_at.
    erewrite bind_fault; [done|]. apply bind_fault. eapply bind_done; [reflexivity|].
    cbn. by rewrite lookup_delete_eq.
Qed.

(** C21: A whole register channel, against a client that terminates the path: the
    server acknowledges, reports the descriptor, runs the commands on the device
    and closes everything; the answers are the values the operations on the
    device give, and the heap is as before. *)
Theorem mapped_channel_session w0 s path size ops segs x b1 b2 b3 rs :
  wf_heap w0 → Forall (λ c, c ≠ 0) path →
  open_mapped path 512 (backend w0) = Done (Some x, b1) →
  Forall reg_op_ok ops → @local_ops _ (payload_device x) ops b1 = Done (rs, b2) →
  close_mapped x b2 = Done (tt, b3) →
  carries segs ([le_bytes 4 (Z.of_nat (length path) + 1); path ++ [0]; le_bytes 8 size] ++
                concat (op_fields <$> ops)) →
  Z.of_nat (length path) + 1 < 2 ^ 32 →
  rx s = segs → rx_end s = 0 → sends_left s = None →
  ∃ s' w', client_mapped_channel (S (length ops)) (mk_session s w0) = Done (0, mk_session s' w') ∧
    tx s' = tx s ++ le_bytes 4 HANDSHAKE_HEADER ++ le_bytes 4 (u32 (device_fd x)) ++ concat (le_bytes 4 <$> rs) ∧
    backend w' = b3 ∧ contexts w' = contexts w0 ∧ devices w' = devices w0.
Proof.
  intros Hwf Hpath Hopen Hok Hops Hclose Hc Hlen Hrx He Hs.
  destruct (one_device w0 MAPPED_DEVICE path x b1 Hwf) as (p & d & w2 & Hadd & Hat & Hdp & Ht & <- & <- & Hend).
  set (s0 := set_tx (tx s ++ le_bytes 4 HANDSHAKE_HEADER) None s).
  destruct (device_option_run path size _ segs s0 (created w0) Hpath Hlen Hc Hrx) as (segs' & Hc' & Hopt).
  set (s1 := set_tx (tx s0 ++ le_bytes 4 (u32 (device_fd (dv_private d)))) None (set_rx segs' s0)).
  pose proof (local_ops_context ops p d w2 rs b2 Hdp Ht Hops) as Hlocal.
  pose proof (@loop_ops _ _ (context_device p) ops (S (length ops)) segs' s1 w2 rs (set_backend b2 w2)
    Hok Hlocal Hc' eq_refl He eq_refl ltac:(lia)) as Hloop.
  destruct (Hend b2 b3 Hclose) as (w3 & Hcl & Hb & Hcx & Hdv).
  do 2 eexists. split; [|split; [|split; [exact Hb|split; [exact Hcx|exact Hdv]]]].
  - unfold client_mapped_channel. eapply bind_done; [apply on_dev_run, create_run|].
    eapply bind_done; [apply on_conn_run; by apply send_ok|]. cbn [conn dev]. fold s0.
    rewrite length_le_bytes. cbn [Z.eqb Z.of_nat].
    eapply bind_done; [exact Hopt|]. cbv beta iota.
    eapply bind_done; [apply on_dev_run; by eapply add_mapped_run|]. cbv beta iota.
    eapply bind_done.
    { eapply bind_done; [apply on_dev_run; exact Hat|].
      eapply bind_done; [apply on_conn_run; by apply send_ok|]. exact Hloop. }
    eapply bind_done; [apply on_dev_run; exact Hcl|reflexivity].
  - unfold s1, s0. cbn [tx set_tx set_rx]. by rewrite <-!app_assoc.
Qed.

(** The library's client sends the path without its terminator, and the
    server reads it as a string: it runs off the end of the block. *)
Theorem mapped_channel_unterminated w0 s path size more segs fuel :
  Forall (λ c, c ≠ 0) path → Z.of_nat (length path) < 2 ^ 32 →
  carries segs ([le_bytes 4 (Z.of_nat (length path)); path; le_bytes 8 size] ++ more) →
  rx s = segs → sends_left s = None →
  client_mapped_channel fuel (mk_session s w0) = Fault OutOfBounds.
Proof.
  intros Hpath Hlen Hc Hrx Hs. set (s0 := set_tx (tx s ++ le_bytes 4 HANDSHAKE_HEADER) None s).
  destruct (recv_field (garbage 4) _ _ _ s0 Hc Hrx) as (g1 & Hg1 & R1); [by rewrite garbage_length, length_le_bytes|].
  destruct (recv_field (garbage (length path)) _ _ _ (set_rx g1 s0) Hg1 eq_refl) as (g2 & Hg2 & R2);
    [by rewrite garbage_length|].
  destruct (recv_field (garbage 8) _ _ _ (set_rx g2 (set_rx g1 s0)) Hg2 eq_refl) as (g3 & Hg3 & R3);
    [by rewrite garbage_length, length_le_bytes|].
  unfold client_mapped_channel. eapply bind_done; [apply on_dev_run, create_run|].
  eapply bind_done; [apply on_conn_run; by apply send_ok|]. cbn [conn dev]. fold s0.
  rewrite length_le_bytes. cbn [Z.eqb Z.of_nat]. apply bind_fault.
  unfold client_deivce_option. eapply bind_done; [apply on_conn_run; exact R1|]. cbv beta iota.
  rewrite le_val_bytes by (simpl; lia). rewrite Nat2Z.id.
  eapply bind_done; [apply on_conn_run; exact R2|]. cbv beta iota.
  eapply bind_done; [apply on_conn_run; exact R3|]. cbv beta iota.
  rewrite c_string_open by done. by apply bind_fault.
Qed.

End Properties.

(** ** Concrete runs *)

#[local] Instance demo_backend : Backend (local_device (dma_proxy_channel script)) local_os :=
  @local_backend _ (channel_driver 300) (fresh_channel demo_engine 4096).

(** A server before its first connection, and a client's [segs]. *)
Definition demo_server (segs : list (list Z)) : server _ local_os :=
  mk_server (mk_socket segs 0 [] None) (replicate MAX_CONTEXT_COUNT None) demo_world.

Lemma open_frame_takes_first_free_witness :
  ∃ sv', handle_context FRAME_OPEN_CTX (demo_server []) = Done (0, sv') ∧
    opened_ctx_list sv' = [Some 1; None; None; None; None].
Proof.
  destruct (open_frame_takes_first_free FRAME_OPEN_CTX (demo_server []) 0) as (sv' & Hr & Hs & _).
  - reflexivity.
  - lia.
  - intros k Hk. lia.
  - reflexivity.
  - reflexivity.
  - exists sv'. split; [exact Hr|exact Hs].
Defined.

Lemma opens_create_one_more_witness :
  ∃ sv', start_task 3 (demo_server [open_frame ++ open_frame]) = Done (tt, sv') ∧
    filled 3 (opened_ctx_list sv').
Proof.
  destruct (opens_create_one_more 2 3 (demo_server [open_frame ++ open_frame]) [open_frame ++ open_frame])
    as (sv' & Hr & Hs & _).
  - lia.
  - reflexivity.
  - reflexivity.
  - simpl. lia.
  - apply carries_merge; [done|]. apply carries_whole; [done|]. apply carries_nil.
  - reflexivity.
  - lia.
  - exists sv'. split; [exact Hr|exact Hs].
Defined.

Lemma close_frame_leaves_slot_witness :
  let close := frame_ctx_bytes (garbage 3) (FRAME_WITH_CTX FRAME_CLOSE_CTX 0) in
  let sv := mk_server (mk_socket [close; close] 0 [] None) [Some 1; None; None; None; None] demo_context in
  ∃ sv', handle_context FRAME_CLOSE_CTX sv = Done (0, sv') ∧
    handle_context FRAME_CLOSE_CTX sv' = Fault UseAfterFree.
Proof.
  intros close sv.
  destruct (close_frame_leaves_slot FRAME_CLOSE_CTX sv 1 2 [] demo_process 0 [close; close])
    as (sv' & H1 & _ & _ & _ & H2).
  - reflexivity.
  - unfold MAX_CONTEXT_COUNT. lia.
  - reflexivity.
  - exact demo_context_rep.
  - reflexivity.
  - reflexivity.
  - apply carries_whole; [done|]. apply carries_whole; [done|]. apply carries_nil.
  - reflexivity.
  - exists sv'. split; [exact H1|exact H2].
Defined.

Lemma mapped_channel_session_witness :
  ∃ s' w', client_mapped_channel 3
      (mk_session (mk_socket [le_bytes 4 2; [47; 0]; le_bytes 8 4096; [2] ++ le_bytes 4 1; le_bytes 4 7 ++ [3];
                              le_bytes 4 1] 0 [] None) demo_world) = Done (0, mk_session s' w') ∧
    tx s' = le_bytes 4 HANDSHAKE_HEADER ++ le_bytes 4 3 ++ le_bytes 4 7 ∧ devices w' = ∅.
Proof.
  destruct (io_open_mapped_local 512 demo_process) as [[[d|] b1]|] eqn:Eo; [|discriminate Eo|discriminate Eo].
  pose proof Eo as Ev. vm_compute in Ev. injection Ev as Hd Hb.
  assert (open_mapped [47] 512 (backend demo_world) = Done (Some (LocalMapped d), b1)) as Ho.
  { simpl. eapply bind_done; [exact Eo|reflexivity]. }
  destruct (@local_ops _ (payload_device (LocalMapped d)) [RegWrite 1 7; RegRead 1] b1)
    as [[rs b2]|] eqn:Er; [|subst; discriminate Er].
  pose proof Er as Er'. rewrite <-Hd, <-Hb in Er'. vm_compute in Er'. injection Er' as Hrs Hb2.
  destruct (close_mapped (LocalMapped d) b2) as [[[] b3]|] eqn:Ec; [|subst; discriminate Ec].
  destruct (mapped_channel_session demo_world
    (mk_socket [le_bytes 4 2; [47; 0]; le_bytes 8 4096; [2] ++ le_bytes 4 1; le_bytes 4 7 ++ [3]; le_bytes 4 1]
       0 [] None) [47] 4096 [RegWrite 1 7; RegRead 1]
    [le_bytes 4 2; [47; 0]; le_bytes 8 4096; [2] ++ le_bytes 4 1; le_bytes 4 7 ++ [3]; le_bytes 4 1] (LocalMapped d) b1 b2 b3 rs demo_world_wf)
    as (s' & w' & Hr & Ht & _ & _ & Hdv).
  - repeat constructor. lia.
  - exact Ho.
  - repeat constructor; lia.
  - exact Er.
  - exact Ec.
  - repeat (apply carries_nil || (apply carries_whole; [done|]) || (apply carries_merge; [done|])).
  - simpl. lia.
  - reflexivity.
  - reflexivity.
  - reflexivity.
  - exists s', w'. split; [exact Hr|]. split; [|exact Hdv]. rewrite Ht, <-Hrs, <-Hd. reflexivity.
Defined.

Lemma mapped_channel_unterminated_witness :
  client_mapped_channel 1 (mk_session (mk_socket [le_bytes 4 1; [47]; le_bytes 8 4096] 0 [] None) demo_world) =
    Fault OutOfBounds.
Proof.
  apply (mapped_channel_unterminated demo_world _ [47] 4096 [] [le_bytes 4 1; [47]; le_bytes 8 4096]).
  - repeat constructor. lia.
  - simpl. lia.
  - repeat (apply carries_nil || (apply carries_whole; [done|])).
  - reflexivity.
  - reflexivity.
Defined.
