(* ===== verification/Server.v ===== *)
(** * Server: the I/O server process

    [src/userspace/io_backend/src/io_backend.c] from [main] to the worker
    threads: the command line ([parse_opt]), the set-up of the listening socket
    and the accept loop ([server_main]) running next to the thread pool of
    [ThreadPool], the signal handler ([sigint]), and several tasks that open
    contexts at the same time ([handle_context] step by step). *)
From Stdlib Require Import ZArith Lia.
From stdpp Require Import base list numbers option gmap.
From S2P Require Import Prelude JobQueue ThreadPool.

(** ** The command line *)

(** [server_options]: the address and the port in host byte order. *)
Record server_options := mk_options { sin_addr : Z; sin_port : Z; dev_path : list Z }.

Definition set_addr (a : Z) (o : server_options) : server_options := mk_options a (sin_port o) (dev_path o).
Definition set_port (p : Z) (o : server_options) : server_options := mk_options (sin_addr o) p (dev_path o).
Definition set_path (d : list Z) (o : server_options) : server_options := mk_options (sin_addr o) (sin_port o) d.

(** The characters of a C string, as bytes. *)
Definition is_space (c : Z) : bool := (c =? 32) || ((9 <=? c) && (c <=? 13)).
Definition is_digit (c : Z) : bool := (48 <=? c) && (c <=? 57).

Fixpoint digits (acc : Z) (l : list Z) : Z :=
  match l with
  | c :: l' => if is_digit c then digits (10 * acc + (c - 48)) l' else acc
  | [] => acc
  end.

Fixpoint skip_spaces (l : list Z) : list Z :=
  match l with
  | c :: l' => if is_space c then skip_spaces l' else l
  | [] => []
  end.

(** [strtol] in base 10 stops at the range of a long. *)
Definition strtol (l : list Z) : Z :=
  let v := match skip_spaces l with
           | 45 :: l' => - digits 0 l'
           | 43 :: l' => digits 0 l'
           | l' => digits 0 l'
           end in
  Z.max (- 2 ^ 63) (Z.min v (2 ^ 63 - 1)).

(** [atoi] is [strtol] cast to int. *)
Definition atoi (l : list Z) : Z := s32 (strtol l).

Section Options.
(** [inet_pton(AF_INET, ...)]: the address, or nothing when it is malformed. *)
Context (inet_pton : list Z → option Z).

(** [parse_opt]: [inl] is the exit status of [argp_failure]. *)
Definition parse_opt (key : Z) (arg : list Z) (options : server_options) : Z + server_options :=
  if key =? 108 (* 'l' *) then
    match inet_pton arg with
    | Some a => inr (set_addr a options)
    | None => inl 1
    end
  else if key =? 112 (* 'p' *) then
    let input_port := atoi arg in
    if (input_port <=? 65535) && (0 <? input_port) then inr (set_port (u16 (atoi arg)) options)
    else inl 1
  else if key =? 100 (* 'd' *) then inr (set_path arg options)
  else inr options.

(** [argp_parse] calls [parse_opt] for every option in turn. *)
Fixpoint parse_options (args : list (Z * list Z)) (options : server_options) : Z + server_options :=
  match args with
  | [] => inr options
  | (key, arg) :: args' =>
      match parse_opt key arg options with
      | inl status => inl status
      | inr options' => parse_options args' options'
      end
  end.

End Options.

(** The options [main] starts from. *)
Definition default_options : server_options := mk_options 0 12345 [47; 100; 101; 118; 47; 116; 99].

(** ** The process *)

(** Where the main thread is.  [PExited] is the exit status. *)
Inductive phase :=
| PInit                (* in [thpool_init] *)
| PSetup               (* about to create the listening socket *)
| PTest                (* at [while (!stop)] *)
| PAccept              (* in [accept] *)
| PSubmit (fd : Z)     (* about to call [thpool_add_work] *)
| PWait                (* in [thpool_wait] *)
| PDestroy             (* in [thpool_destroy] *)
| PReturned            (* [server_main] returned *)
| PExited (status : Z).

(** [error]: print the message and exit. *)
Definition error_exit : phase := PExited 1.

(** The system calls before the loop: the results of [socket], of
    [setsockopt(SO_REUSEADDR)] and of [bind]; that of [listen] is ignored. *)
Definition server_setup (sockfd reuse bound : Z) : phase + Z :=
  if reuse <? 0 then inl error_exit
  else if sockfd <? 0 then inl error_exit
  else if bound <? 0 then inl error_exit
  else inr sockfd.

Definition NUM_THREADS : Z := 4.

Section Process.
Context {Q : Type} `{JobQueueSpec Q (Z * Z)} (start_task_p : Z).
Abbreviation pool := (@pool Q (Z * Z)).

(** [ps_listening]: the listening socket is open.  [ps_accepted] and [ps_lost]
    record the connections accepted and those whose job could not be
    allocated. *)
Record process := mk_process {
  ps_phase : phase;
  ps_stop : bool;
  ps_listening : bool;
  ps_pool : pool;
  ps_accepted : list Z;
  ps_lost : list Z
}.

Definition task (fd : Z) : Z * Z := (start_task_p, fd).

Definition set_phase ph (s : process) : process :=
  mk_process ph (ps_stop s) (ps_listening s) (ps_pool s) (ps_accepted s) (ps_lost s).
Definition set_pool p (s : process) : process :=
  mk_process (ps_phase s) (ps_stop s) (ps_listening s) p (ps_accepted s) (ps_lost s).

(** The signal handler. *)
Definition sigint (s : process) : process :=
  mk_process (ps_phase s) true false (ps_pool s) (ps_accepted s) (ps_lost s).

(** The controller part of the pool steps. *)
Definition with_shared (sh' : shared) (s : process) : process := set_pool (mk_pool sh' (workers (ps_pool s))) s.

Definition alive (ph : phase) : Prop :=
  match ph with PReturned | PExited _ => False | _ => True end.

Inductive server_step : process → process → Prop :=
| sv_ready s sh' : ps_phase s = PInit → main_step NUM_THREADS (sh (ps_pool s)) sh' →
    server_step s (set_phase PSetup (with_shared sh' s))
| sv_setup s sockfd reuse bound : ps_phase s = PSetup →
    server_step s
      match server_setup sockfd reuse bound with
      | inl ph => set_phase ph s
      | inr _ => mk_process PTest (ps_stop s) true (ps_pool s) (ps_accepted s) (ps_lost s)
      end
| sv_test s : ps_phase s = PTest →
    server_step s (set_phase (if ps_stop s then PWait else PAccept) s)
| sv_accept s fd : ps_phase s = PAccept → 0 ≤ fd →
    server_step s (mk_process (PSubmit fd) (ps_stop s) (ps_listening s) (ps_pool s)
                     (ps_accepted s ++ [fd]) (ps_lost s))
| sv_accept_error s : ps_phase s = PAccept → server_step s (set_phase error_exit s)
| sv_submit s fd sh' : ps_phase s = PSubmit fd → add_step (sh (ps_pool s)) sh' →
    added sh' = added (sh (ps_pool s)) ++ [task fd] →
    server_step s (set_phase PTest (with_shared sh' s))
| sv_submit_error s fd : ps_phase s = PSubmit fd →
    server_step s (mk_process PTest (ps_stop s) (ps_listening s) (ps_pool s) (ps_accepted s)
                     (ps_lost s ++ [fd]))
| sv_wait s sh' : ps_phase s = PWait → main_step NUM_THREADS (sh (ps_pool s)) sh' →
    main sh' ≠ MDestroy → main sh' ≠ MIdle → server_step s (with_shared sh' s)
| sv_waited s l : ps_phase s = PWait → main (sh (ps_pool s)) = MReturned l →
    server_step s (set_phase PDestroy (with_shared (set_main MIdle (sh (ps_pool s))) s))
| sv_destroy s sh' : ps_phase s = PDestroy → main_step NUM_THREADS (sh (ps_pool s)) sh' →
    main sh' ≠ MLocked →
    server_step s (set_phase (match main sh' with MFreed => PReturned | _ => PDestroy end) (with_shared sh' s))
| sv_sigint s : alive (ps_phase s) →
    server_step s (sigint s)
| sv_worker s sh' w w' l1 l2 : alive (ps_phase s) → workers (ps_pool s) = l1 ++ w :: l2 →
    worker_step (sh (ps_pool s)) w sh' w' →
    server_step s (set_pool (mk_pool sh' (l1 ++ w' :: l2)) s).

(** A process that has just called [thpool_init(4)]. *)
Definition server_init (s : process) : Prop :=
  init_states NUM_THREADS (ps_pool s) ∧ ps_phase s = PInit ∧ ps_stop s = false ∧ ps_listening s = false ∧
  ps_accepted s = [] ∧ ps_lost s = [].

Definition server_reachable : process → Prop := reachable server_init server_step.

(** The connection between [accept] and [thpool_add_work]. *)
Definition pending (ph : phase) : list Z := match ph with PSubmit fd => [fd] | _ => [] end.

End Process.

(** ** Lemmas: the process's invariant *)

Section Invariant.
Context {Q : Type} `{JobQueueSpec Q (Z * Z)} (start_task_p : Z).
Abbreviation pool := (@pool Q (Z * Z)).
Abbreviation process := (@process Q).
Abbreviation task := (task start_task_p).
Implicit Types (s : process).

Lemma signal_idle_frame (x : shared (Q:=Q) (W:=Z*Z)) :
  added (signal_idle x) = added x ∧ finished (signal_idle x) = finished x ∧
  (main (signal_idle x) = main x ∨ main x = MSleep ∧ main (signal_idle x) = MWoken).
Proof. unfold signal_idle. destruct (main x) eqn:Hm; auto. Qed.

Lemma worker_frame (x x' : shared (Q:=Q) (W:=Z*Z)) w w' :
  worker_step x w x' w' →
  added x' = added x ∧ finished x ⊆+ finished x' ∧
  (main x' = main x ∨ main x = MSleep ∧ main x' = MWoken).
Proof.
  intros Hs. destruct Hs; try (split; [done|split; [done|by left]]).
  - split; [done|]. split; [|by left]. cbn. by apply submseteq_inserts_r.
  - destruct (_ =? 0); [|split; [done|split; [done|by left]]].
    destruct (signal_idle_frame s') as (-> & -> & Hm). split; [done|]. split; [done|]. exact Hm.
Qed.

Lemma main_frame n (x x' : shared (Q:=Q) (W:=Z*Z)) :
  main_step n x x' → added x' = added x ∧ finished x' = finished x.
Proof. intros Hs. by destruct Hs. Qed.

(** What the main thread's place says of the pool. *)
Definition phase_inv s : Prop :=
  let x := sh (ps_pool s) in
  match ps_phase s with
  | PInit => main x = MInit
  | PSetup | PTest | PAccept | PSubmit _ => main x = MIdle
  | PWait => match main x with
             | MIdle | MLocked | MSleep | MWoken => True
             | MChecked l | MReturned l => l = added x
             | _ => False
             end
  | PDestroy => (main x = MIdle ∨ main x = MDestroy) ∧ added x ⊆+ finished x
  | PReturned => main x = MFreed ∧ added x ⊆+ finished x
  | PExited _ => True
  end.

Record server_inv s : Prop := {
  si_pool : pool_reachable NUM_THREADS (ps_pool s);
  si_jobs : task <$> ps_accepted s ≡ₚ added (sh (ps_pool s)) ++ (task <$> ps_lost s ++ pending (ps_phase s));
  si_phase : phase_inv s
}.

Lemma reachable_step p p' :
  pool_reachable NUM_THREADS p → pool_step NUM_THREADS p p' → pool_reachable (Q:=Q) (W:=Z*Z) NUM_THREADS p'.
Proof.
  intros (p0 & Hi & Hs) Hstep. exists p0. split; [done|]. eapply star_trans; [exact Hs|]. by apply star_one.
Qed.

Lemma pool_eta (p : pool) : p = mk_pool (sh p) (workers p).
Proof. by destruct p. Qed.

Lemma reachable_main p x' :
  pool_reachable NUM_THREADS p → main_step NUM_THREADS (sh p) x' →
  pool_reachable (Q:=Q) (W:=Z*Z) NUM_THREADS (mk_pool x' (workers p)).
Proof.
  intros Hr Hm. eapply reachable_step; [exact Hr|]. rewrite (pool_eta p) at 1. by apply p_main.
Qed.

Lemma phase_inv_worker s x' w w' l1 l2 :
  phase_inv s → worker_step (sh (ps_pool s)) w x' w' →
  phase_inv (set_pool (mk_pool x' (l1 ++ w' :: l2)) s).
Proof.
  intros Hi Hs. destruct (worker_frame _ _ _ _ Hs) as (Ha & Hf & Hm).
  unfold phase_inv in *. cbn [ps_phase ps_pool set_pool sh].
  destruct (ps_phase s); rewrite ?Ha; try (by destruct Hm as [->|[Hm _]]; congruence); try done.
  - destruct Hm as [->|[Hm ->]]; [|by rewrite Hm in Hi]. done.
  - destruct Hi as [Hi Hs2]. split; [|by etrans]. destruct Hm as [->|[Hm _]]; [done|]. rewrite Hm in Hi. by destruct Hi.
  - destruct Hi as [Hi Hs2]. split; [|by etrans]. destruct Hm as [->|[Hm _]]; [done|]. by rewrite Hm in Hi.
Qed.

Lemma server_init_inv s : server_init s → server_inv s.
Proof.
  intros (Hp & Hph & _ & _ & Ha & Hl). split.
  - exists (ps_pool s). split; [done|]. apply star_refl.
  - rewrite Ha, Hl, Hph. destruct Hp as (q & _ & ->). done.
  - unfold phase_inv. rewrite Hph. by destruct Hp as (q & _ & ->).
Qed.

Lemma server_step_inv s s' : server_inv s → server_step start_task_p s s' → server_inv s'.
Proof.
  intros [Hr Hj Hi] Hs. unfold phase_inv in Hi. destruct Hs as
    [s x' Hph Hm|s a b c Hph|s Hph|s fd Hph Hfd|s Hph|s fd x' Hph Ha Had|s fd Hph|s x' Hph Hm Hnd Hni
    |s l Hph Hm|s x' Hph Hm Hnl|s Hal|s x' w w' l1 l2 Hal Hw Hs]; rewrite ?Hph in Hi, Hj.
  - destruct (main_frame _ _ _ Hm) as [Had Hfi].
    split; unfold phase_inv; cbn; [by apply reachable_main|by rewrite Had|].
    destruct Hm; cbn; congruence.
  - unfold server_setup. destruct (b <? 0); [by split|]. destruct (a <? 0); [by split|].
    destruct (c <? 0); by split.
  - split; unfold phase_inv; cbn; [done| |]; destruct (ps_stop s); cbn; try done; by rewrite Hi.
  - split; unfold phase_inv; cbn; [done| |done]. rewrite fmap_app, Hj, app_nil_r, fmap_app, app_assoc. done.
  - by split.
  - split; unfold phase_inv; cbn.
    + eapply reachable_step; [exact Hr|]. rewrite (pool_eta (ps_pool s)) at 1. by apply p_add.
    + rewrite Hj, Had, app_nil_r, fmap_app, <-app_assoc. f_equiv. cbn. apply Permutation_app_comm.
    + by destruct Ha.
  - split; unfold phase_inv; cbn; [done| |done]. by rewrite Hj, app_nil_r.
  - destruct (main_frame _ _ _ Hm) as [Had Hfi].
    split; unfold phase_inv; cbn; rewrite ?Hph; [by apply reachable_main|by rewrite Had|].
    destruct Hm; cbn in *; try done; try congruence;
      try (match goal with Hx : main _ = _ |- _ => rewrite Hx in Hi end; done).
  - split; unfold phase_inv; cbn; [by apply reachable_main; [|econstructor]|done|].
    rewrite Hm in Hi. split; [by left|]. rewrite <-Hi. by eapply wait_barrier.
  - destruct (main_frame _ _ _ Hm) as [Had Hfi]. destruct Hi as [Hi Hsub].
    split; unfold phase_inv; cbn; [by apply reachable_main| |].
    + rewrite Had. by destruct (main x').
    + rewrite Had, Hfi. destruct Hm; cbn in *; try (destruct Hi; congruence); auto.
      match goal with Hx : main _ = MDestroy |- _ => rewrite Hx end. auto.
  - by split.
  - split; [|cbn; destruct (worker_frame _ _ _ _ Hs) as [-> _]; done|by eapply phase_inv_worker].
    cbn. eapply reachable_step; [exact Hr|]. rewrite (pool_eta (ps_pool s)), Hw. by apply p_worker.
Qed.

Lemma server_reachable_inv s : server_reachable start_task_p s → server_inv s.
Proof. apply reachable_invariant; [apply server_init_inv|apply server_step_inv]. Qed.

End Invariant.

(** ** Several tasks opening contexts

    [handle_context] on an open frame, one access to [opened_ctx_list] at a
    time, as the worker threads run it: nothing protects the list. *)
Inductive opener :=
| OScan (i : nat)              (* at [if (opened_ctx_list[i] == NULL)] *)
| OCreate (i : nat)            (* about to create a context *)
| OSend (i : nat) (ctx : Z)    (* about to answer with number [i] *)
| OStore (i : nat) (ctx : Z)   (* about to store the context *)
| OClose (i : nat)             (* the answer failed and the context is closed; about to clear the slot *)
| ODone (ret : Z).

Record context_table := mk_table {
  ct_slots : list (option Z);
  ct_next : Z;                 (* names the contexts created *)
  ct_replies : list nat        (* the numbers answered *)
}.

Inductive opener_step : context_table → opener → context_table → opener → Prop :=
| os_taken t i c : (i < 4)%nat → ct_slots t !! i = Some (Some c) → opener_step t (OScan i) t (OScan (S i))
| os_free t i : (i < 4)%nat → ct_slots t !! i = Some None → opener_step t (OScan i) t (OCreate i)
| os_full t : opener_step t (OScan 4) t (ODone (-1))
| os_create t i :
    opener_step t (OCreate i) (mk_table (ct_slots t) (ct_next t + 1) (ct_replies t)) (OSend i (ct_next t))
| os_send t i c :
    opener_step t (OSend i c) (mk_table (ct_slots t) (ct_next t) (ct_replies t ++ [i])) (OStore i c)
| os_send_error t i c : opener_step t (OSend i c) t (OClose i)
| os_store t i c :
    opener_step t (OStore i c) (mk_table (<[i := Some c]> (ct_slots t)) (ct_next t) (ct_replies t)) (ODone 0)
| os_clear t i :
    opener_step t (OClose i) (mk_table (<[i := None]> (ct_slots t)) (ct_next t) (ct_replies t)) (ODone (-1)).

Inductive openers_step : context_table * list opener → context_table * list opener → Prop :=
| ops_one t t' o o' l1 l2 : opener_step t o t' o' → openers_step (t, l1 ++ o :: l2) (t', l1 ++ o' :: l2).

Definition openers_init (n : nat) (st : context_table * list opener) : Prop :=
  st = (mk_table (replicate 5 None) 0 [], replicate n (OScan 0)).

(** ** Properties *)

Section Properties.
Context {Q : Type} `{JobQueueSpec Q (Z * Z)} (start_task_p : Z).
Implicit Types (s : process (Q:=Q)).

(** C24: Every accepted connection is in exactly one place: in every reachable
    state of the process the tasks of the accepted connections are, as a
    multiset, those finished, those being run, those the queue holds, those
    whose job could not be allocated (the server drops them) and the one the
    main thread is about to add.  So none is served twice, and the ones not yet
    served are named. *)
Theorem connections_accounted s :
  server_reachable start_task_p s →
  ∃ js, q_rep (pool_queue (sh (ps_pool s))) js ∧
    task start_task_p <$> ps_accepted s ≡ₚ
      finished (sh (ps_pool s)) ++ running (workers (ps_pool s)) ++ js ++
      (task start_task_p <$> ps_lost s ++ pending (ps_phase s)).
Proof.
  intros [Hr Hj _]%server_reachable_inv. destruct (jobs_conserved _ _ Hr) as (js & Hq & Hp).
  exists js. split; [done|]. rewrite Hj, Hp. by rewrite <-!app_assoc.
Qed.

(** C25: When [server_main] returns (it left its loop because of [stop]), the task
    of every accepted connection whose job could be allocated is finished, and
    no other task ran; every worker has returned or is at its last unlock. *)
Theorem shutdown_finishes_jobs s :
  server_reachable start_task_p s → ps_phase s = PReturned →
  task start_task_p <$> ps_accepted s ≡ₚ finished (sh (ps_pool s)) ++ (task start_task_p <$> ps_lost s) ∧
  Forall (λ w, w = WLeave ∨ w = WDead) (workers (ps_pool s)).
Proof.
  intros [Hr Hj Hi]%server_reachable_inv Hph. unfold phase_inv in Hi. rewrite Hph in Hi, Hj.
  destruct Hi as [Hm Hsub]. split; [|by apply (freed_dead NUM_THREADS)].
  destruct (jobs_conserved _ _ Hr) as (js & _ & Hp). rewrite Hj. cbn [pending]. rewrite app_nil_r. f_equiv.
  symmetry. apply submseteq_length_Permutation; [by rewrite Hp; apply submseteq_inserts_r|].
  by apply submseteq_length.
Qed.

(** But a failing [accept] does not lead there: the process exits with status 1
    and does nothing more, whatever the pool still holds.  This is what follows
    a signal that the main thread gets inside [accept]: the handler has closed
    the listening socket.  (When a worker gets it, the [accept] under way can
    still return a connection.) *)
Theorem failing_accept_exits s :
  ps_phase s = PAccept →
  ∃ s', server_step start_task_p s s' ∧ ps_phase s' = PExited 1 ∧ ps_pool s' = ps_pool s ∧
    ∀ s'', star (server_step start_task_p) s' s'' → s'' = s'.
Proof.
  intros Hph. exists (set_phase error_exit s). split; [by constructor|]. split; [done|]. split; [done|].
  intros s'' Hs. inversion Hs as [|x y z Hst _ Hx]; [done|]. subst. by inversion Hst.
Qed.

End Properties.

Lemma parse_options_invariant inet_pton (P : server_options → Prop) args o o' :
  (∀ key arg o1 o2, P o1 → parse_opt inet_pton key arg o1 = inr o2 → P o2) →
  P o → parse_options inet_pton args o = inr o' → P o'.
Proof.
  intros Hstep. revert o. induction args as [|[key arg] args IH]; intros o Ho; simpl; [by intros [= <-]|].
  destruct (parse_opt inet_pton key arg o) as [|o1] eqn:He; [done|]. intros Hr. eapply IH; [|exact Hr].
  by eapply Hstep.
Qed.

Lemma parse_bad_port inet_pton arg o :
  atoi arg ≤ 0 ∨ 65535 < atoi arg → parse_opt inet_pton 112 arg o = inl 1.
Proof.
  intros Ha. unfold parse_opt. change (112 =? 108) with false. change (112 =? 112) with true. cbv iota zeta.
  destruct (Z.leb_spec (atoi arg) 65535), (Z.ltb_spec 0 (atoi arg)); done || lia.
Qed.

(** C36: The port the server listens on is always valid, 1 to 65535, whatever the
    command line; a port argument outside this range (after the conversion of
    [atoi] to a 32-bit int) ends the program with status 1. *)
Theorem parsed_port_valid inet_pton args o :
  parse_options inet_pton args default_options = inr o →
  1 ≤ sin_port o ≤ 65535 ∧
  ∀ arg, atoi arg ≤ 0 ∨ 65535 < atoi arg →
    parse_options inet_pton (args ++ [(112, arg)]) default_options = inl 1.
Proof.
  intros Hr. split.
  - eapply (parse_options_invariant inet_pton (λ o, 1 ≤ sin_port o ≤ 65535) args default_options); [| |exact Hr]; [|unfold default_options; cbn [sin_port]; lia].
    intros key arg o1 o2 Ho1. unfold parse_opt.
    destruct (key =? 108); [destruct (inet_pton arg); [|done]; by intros [= <-]|].
    destruct (key =? 112).
    + destruct (Z.leb_spec (atoi arg) 65535); [|done]. destruct (Z.ltb_spec 0 (atoi arg)); [|done].
      intros [= <-]. cbn [sin_port set_port]. rewrite (uwrap_small 16) by lia. lia.
    + destruct (key =? 100); by intros [= <-].
  - intros arg Ha. revert Hr. generalize default_options.
    induction args as [|[key a] args IH]; intros o0; cbn [app parse_options].
    + intros _. by rewrite parse_bad_port.
    + destruct (parse_opt inet_pton key a o0); [done|]. apply IH.
Qed.

(** Two tasks can both find the first slot free: both clients are told number 0,
    and the context of one of them is in no slot any more. *)
Theorem openers_race :
  ∃ st, reachable (openers_init 2) openers_step st ∧
    snd st = [ODone 0; ODone 0] ∧ ct_replies (fst st) = [0%nat; 0%nat] ∧ ct_next (fst st) = 2 ∧
    ct_slots (fst st) = [Some 1; None; None; None; None].
Proof.
  eexists. split.
  - eexists. split; [reflexivity|]. cbn [replicate].
    eapply star_step; [eapply (ops_one _ _ _ _ [] [OScan 0]), os_free; [lia|reflexivity]|].
    eapply star_step; [eapply (ops_one _ _ _ _ [OCreate 0] []), os_free; [lia|reflexivity]|].
    eapply star_step; [eapply (ops_one _ _ _ _ [] [OCreate 0]), os_create|].
    eapply star_step; [eapply (ops_one _ _ _ _ [OSend 0 0] []), os_create|].
    eapply star_step; [eapply (ops_one _ _ _ _ [] [OSend 0 1]), os_send|].
    eapply star_step; [eapply (ops_one _ _ _ _ [OStore 0 0] []), os_send|].
    eapply star_step; [eapply (ops_one _ _ _ _ [] [OStore 0 1]), os_store|].
    eapply star_step; [eapply (ops_one _ _ _ _ [ODone 0] []), os_store|]. apply star_refl.
  - done.
Qed.

(** ** A concrete run: one connection is accepted and served, then SIGINT *)

Ltac server_norm :=
  cbv [set_keepalive set_alive set_working set_leaving leaving set_queue set_main set_added set_finished signal_idle
       threads_keepalive num_threads_alive num_threads_working pool_queue main added finished sh workers
       set_pool set_phase sigint with_shared ps_phase ps_stop ps_listening ps_pool ps_accepted ps_lost]; cbn.

Ltac server_worker i :=
  lazymatch goal with
  | |- star _ ?s _ =>
      let ws := eval cbn in (workers (ps_pool s)) in
      let l1 := eval cbv in (take i ws) in
      let l2 := eval cbv in (drop (S i) ws) in
      eapply star_step;
      [eapply (sv_worker _ s _ _ _ l1 l2);
       [exact I|reflexivity|econstructor; first [split; [exact I|reflexivity]|vm_compute; reflexivity]]|]; server_norm
  end.

Definition demo_process : process (Q := jobqueue) :=
  mk_process PInit false false (pool_init NUM_THREADS empty_queue) [] [].

Lemma demo_process_init : server_init demo_process.
Proof.
  split; [|done]. exists empty_queue. split; [exists []; exact empty_queue_rep|reflexivity].
Qed.

Ltac server_moves := eapply star_step.

(** The server waits for a second connection. *)
Lemma demo_accepting :
  ∃ s, server_reachable 7 s ∧ ps_phase s = PAccept ∧ ps_listening s = false ∧ ps_accepted s = [5] ∧
       added (sh (ps_pool s)) = [(7, 5)].
Proof.
  eexists. split.
  - exists demo_process. split; [exact demo_process_init|].
    unfold demo_process, pool_init, NUM_THREADS. cbn.
    server_worker 0%nat. server_worker 1%nat. server_worker 2%nat. server_worker 3%nat.
    server_moves; [eapply sv_ready; [reflexivity|apply m_ready; reflexivity]|]. server_norm.
    server_moves; [apply (sv_setup _ _ 3 0 0); reflexivity|]. server_norm.
    server_moves; [apply sv_test; reflexivity|]. server_norm.
    server_moves; [apply (sv_accept _ _ 5); [reflexivity|lia]|]. server_norm.
    server_moves; [eapply sv_submit; [reflexivity|apply (a_add _ (7, 5)); [discriminate..| |]|reflexivity];
                   vm_compute; reflexivity|]. server_norm.
    server_moves; [apply sv_test; reflexivity|]. server_norm.
    server_moves; [apply sv_sigint; exact I|]. server_norm. apply star_refl.
  - done.
Qed.

Lemma demo_returned :
  ∃ s : process (Q := jobqueue), server_reachable 7 s ∧ ps_phase s = PReturned ∧ ps_accepted s = [5] ∧
       ps_lost s = [].
Proof.
  eexists. split.
  - exists demo_process. split; [exact demo_process_init|].
    unfold demo_process, pool_init, NUM_THREADS. cbn.
    server_worker 0%nat. server_worker 1%nat. server_worker 2%nat. server_worker 3%nat.
    server_moves; [eapply sv_ready; [reflexivity|apply m_ready; reflexivity]|]. server_norm.
    server_moves; [apply (sv_setup _ _ 3 0 0); reflexivity|]. server_norm.
    server_moves; [apply sv_test; reflexivity|]. server_norm.
    server_moves; [apply (sv_accept _ _ 5); [reflexivity|lia]|]. server_norm.
    server_moves; [eapply sv_submit; [reflexivity|apply (a_add _ (7, 5)); [discriminate..| |]|reflexivity];
                   vm_compute; reflexivity|]. server_norm.
    do 7 server_worker 0%nat.
    server_moves; [apply sv_sigint; exact I|]. server_norm.
    server_moves; [apply sv_test; reflexivity|]. server_norm.
    server_moves; [eapply sv_wait; [reflexivity|apply m_lock; reflexivity|discriminate|discriminate]|]. server_norm.
    server_moves; [eapply sv_wait; [reflexivity|apply m_len_zero; reflexivity|discriminate|discriminate]|]. server_norm.
    server_moves; [eapply sv_wait; [reflexivity|eapply m_working_zero; reflexivity|discriminate|discriminate]|]. server_norm.
    server_moves; [eapply sv_waited; reflexivity|]. server_norm.
    server_moves; [eapply sv_destroy; [reflexivity|apply m_destroy; reflexivity|discriminate]|]. server_norm.
    do 3 server_worker 0%nat. do 3 server_worker 1%nat. do 3 server_worker 2%nat. do 2 server_worker 3%nat.
    server_moves; [eapply sv_destroy; [reflexivity|apply m_free; reflexivity|discriminate]|]. server_norm.
    apply star_refl.
  - done.
Qed.

Lemma connections_accounted_witness :
  ∃ (s : process (Q := jobqueue)) js, ps_accepted s = [5] ∧ [(7, 5)] ≡ₚ
    finished (sh (ps_pool s)) ++ running (workers (ps_pool s)) ++ js ++
    (task 7 <$> ps_lost s ++ pending (ps_phase s)).
Proof.
  destruct demo_accepting as (s & Hr & Hph & _ & Ha & _).
  destruct (connections_accounted 7 s Hr) as (js & _ & Hp). rewrite Ha in Hp.
  exists s, js. split; [exact Ha|exact Hp].
Defined.

Lemma shutdown_finishes_jobs_witness :
  ∃ s : process (Q := jobqueue), ps_accepted s = [5] ∧ [(7, 5)] ≡ₚ finished (sh (ps_pool s)).
Proof.
  destruct demo_returned as (s & Hr & Hph & Ha & Hl).
  destruct (shutdown_finishes_jobs 7 s Hr Hph) as [Hp _]. rewrite Ha, Hl in Hp.
  exists s. split; [exact Ha|]. rewrite app_nil_r in Hp. exact Hp.
Defined.

Lemma failing_accept_exits_witness :
  ∃ s s' : process (Q := jobqueue), added (sh (ps_pool s)) = [(7, 5)] ∧ server_step 7 s s' ∧ ps_phase s' = PExited 1.
Proof.
  destruct demo_accepting as (s & _ & Hph & _ & _ & Hadd). exists s.
  destruct (failing_accept_exits 7 s Hph) as (s' & Hs & Hx & _).
  exists s'. split; [exact Hadd|]. split; [exact Hs|exact Hx].
Defined.

(** ["-p 80"] and ["-p 99999"]. *)
Lemma parsed_port_valid_witness :
  ∃ o, parse_options (λ _, None) [(112, [56; 48])] default_options = inr o ∧ 1 ≤ sin_port o ≤ 65535 ∧
    parse_options (λ _, None) [(112, [56; 48]); (112, [57; 57; 57; 57; 57])] default_options = inl 1.
Proof.
  exists (mk_options 0 80 (dev_path default_options)). split; [reflexivity|].
  destruct (parsed_port_valid (λ _, None) [(112, [56; 48])] (mk_options 0 80 (dev_path default_options)) eq_refl)
    as [Hp Hbad].
  split; [exact Hp|]. apply (Hbad [57; 57; 57; 57; 57]). right. vm_compute. reflexivity.
Defined.
