(* ===== verification/TestApp.v ===== *)
(** * TestApp: the applications that drive a stream

    [src/userspace/test_app/src] and [src/userspace/io_client/src]: programs that
    fill transfer buffers with a pattern and check what comes back.  They are
    written against the stream functions of [bbio_core.c], here the class
    [StreamDevice].  A buffer starts with the 12 bytes of [struct buffer_header]
    (the programs are built with [BUFFER_WITH_CONFIG]). *)
From Stdlib Require Import ZArith Lia.
From stdpp Require Import base list numbers option.
From S2P Require Import Prelude DmaChannel Devices.

(** ** buffer.h *)

Definition sizeof_header : Z := 12.
Definition BUFFER_IN_BYTES (packet_length : Z) : Z := packet_length * 4 + sizeof_header.

(** The bytes of a header and of words behind it. *)
Definition header_bytes (dts tts len : Z) : list Z := le_bytes 4 dts ++ le_bytes 4 tts ++ le_bytes 4 len.
Definition word_bytes (ws : list Z) : list Z := concat (le_bytes 4 <$> ws).
Definition words_at (off n : nat) (bs : list Z) : list Z :=
  (λ k, le_val (take 4 (drop (off + 4 * k) bs))) <$> seq 0 n.
Definition words_of : nat → list Z → list Z := words_at 12.

(** A device that reads a stream in, as the applications use it: a transfer is
    started on a buffer whose header was set, and after a sync the buffer holds
    the next block. *)
Class StreamReader (D : Type) `{StreamDevice D} := {
  receives : list (list Z) → D → Prop;
  reader_round : ∀ blk blocks d, receives (blk :: blocks) d → is_block blk →
    ∃ b d1, io_stream_get_buffer d = Done (Some b, d1) ∧
      ∀ x y, length x = 4%nat → length y = 4%nat →
        ∃ d2 d3 d4 d5,
          fill_buffer b 0 x d1 = Done (tt, d2) ∧ fill_buffer b 4 y d2 = Done (tt, d3) ∧
          io_read_stream_device b BUFFER_SIZE d3 = Done (tt, d4) ∧
          io_sync_stream_device d4 = Done (tt, d5) ∧
          (∀ n, Z.of_nat n ≤ BUFFER_SIZE → buffer_bytes b n d5 = Done (take n blk, d5)) ∧
          receives blocks d5
}.

Section Apps.
Context {D : Type} `{StreamDevice D}.

(** Asking for a buffer; none of the loops below tests for NULL before the
    first access. *)
Definition get_buffer : M D nat :=
  b ← io_stream_get_buffer;
  require NullDeref b.

Definition put_word (b : nat) (off v : Z) : M D unit := fill_buffer b off (le_bytes 4 v).

(** The body all senders share: the header fields, the words, the transfer. *)
Definition fill_packet (b : nat) (dts tts len : Z) (n : nat) (word : nat → Z) : M D unit :=
  put_word b 0 dts ;;
  put_word b 4 tts ;;
  put_word b 8 len ;;
  for_ n (λ i, put_word b (12 + 4 * Z.of_nat i) (word i)).

Definition send_packet (dts tts : Z) (packet_size : nat) (word : nat → Z) : M D unit :=
  b ← get_buffer;
  fill_packet b dts tts (Z.of_nat packet_size) packet_size word ;;
  io_write_stream_device b (u32 (BUFFER_IN_BYTES (Z.of_nat packet_size))).

(** ** txrx_test_thread.c *)

Record thread_config := mk_config { cf_packet_size : Z; cf_total_size : Z }.

(** [total_size], an [uint32_t]. *)
Definition total_size (packet_loops packet_size : Z) : Z := u32 (packet_loops * packet_size).
Definition config_loops (c : thread_config) : Z := cf_total_size c / cf_packet_size c.

(** What word [i] of packet [j] is. *)
Definition tx_word (start packet_size : Z) (j i : nat) : Z :=
  u32 (start + Z.of_nat i + Z.of_nat j * packet_size + 1).

(** [stop j] is the value of [stop_tx] read before packet [j]; the result is the
    number of packets sent. *)
Fixpoint tx_loop (stop : nat → bool) (start : Z) (packet_size : nat) (n j : nat) : M D nat :=
  match n with
  | O => mret j
  | S n' =>
      if stop j then mret j
      else
        send_packet 321 (u32 (Z.of_nat j + 1)) packet_size (tx_word start (Z.of_nat packet_size) j) ;;
        tx_loop stop start packet_size n' (S j)
  end.

Definition tx_thread (stop : nat → bool) (c : thread_config) : M D nat :=
  tx_loop stop 0 (Z.to_nat (cf_packet_size c)) (Z.to_nat (config_loops c)) 0.

(** The first word of a packet that is not the expected one, with what was
    expected. *)
Fixpoint verify_words (i : Z) (ws : list Z) : option (Z * Z) :=
  match ws with
  | [] => None
  | w :: ws' => if u32 (i + 1) =? w then verify_words (i + 1) ws' else Some (u32 (i + 1), w)
  end.

(** What [select] said: an error, a timeout, or readable or not. *)
Inductive select_result := SelError | SelTimeout | SelReady (readable : bool).

(** The receiver's buffer is marked before the transfer. *)
Definition rx_mark : M D nat :=
  b ← get_buffer;
  put_word b 0 (u32 (-1)) ;;
  put_word b 4 (u32 (-1)) ;;
  mret b.

(** One received packet: the header's length and the words behind it. *)
Definition receive_packet : M D (Z * list Z) :=
  b ← rx_mark;
  io_read_stream_device b (128 * 1024) ;;
  io_sync_stream_device ;;
  header ← buffer_bytes b 12;
  let len := le_val (drop 8 header) in
  bytes ← buffer_bytes b (12 + 4 * Z.to_nat len);
  mret (len, words_of (Z.to_nat len) bytes).

(** The loop ends at the first timeout; the mismatches reported are collected.
    [i] counts the words received so far; [verify] is the global flag, 0 in the
    program. *)
Fixpoint rx_loop (verify : bool) (sel : list select_result) (i : Z) : M D (list (Z * Z)) :=
  match sel with
  | [] => raise OutOfFuel
  | SelError :: sel' => rx_loop verify sel' i
  | SelTimeout :: _ => mret []
  | SelReady false :: sel' => rx_loop verify sel' i
  | SelReady true :: sel' =>
      '(len, ws) ← receive_packet;
      rs ← rx_loop verify sel' (u32 (i + len));
      mret (match (if verify then verify_words i ws else None) with Some r => r :: rs | None => rs end)
  end.

Definition rx_thread (verify : bool) (sel : list select_result) : M D (list (Z * Z)) :=
  rx_loop verify sel 0.

(** ** tc_test.c *)

(** [main_txrx_test], the sender's buffer before its words are stored: it is first
    filled with ones over as many bytes as the length in its memory says, which may
    be more than its data, and more than its struct. *)
Definition txrx_fill (start j : Z) (packet_size : nat) : M D nat :=
  b ← get_buffer;
  header ← buffer_bytes b 12;
  fill_struct b 0 (replicate (Z.to_nat (BUFFER_IN_BYTES (le_val (drop 8 header)))) 255) ;;
  put_word b 0 start ;;
  put_word b 4 j ;;
  put_word b 8 (Z.of_nat packet_size) ;;
  mret b.

Definition txrx_send (b : nat) (start j : Z) (packet_size : nat) : M D unit :=
  for_ packet_size (λ i, put_word b (12 + 4 * Z.of_nat i) (u32 (start + Z.of_nat i + j * Z.of_nat packet_size))) ;;
  io_write_stream_device b (u32 (BUFFER_IN_BYTES (Z.of_nat packet_size))).

(** [main_tx_test]: a phase that goes up by 256 with every word. *)
Definition phase_word (packet_size j i : nat) : Z :=
  Z.land (u32 (1 + 256 * Z.of_nat (j * packet_size + i))) 65535.

Fixpoint tx_test_loop (packet_size n j : nat) : M D unit :=
  match n with
  | O => io_sync_stream_device
  | S n' =>
      send_packet (Z.of_nat j) (Z.of_nat j + 1) packet_size (phase_word packet_size j) ;;
      tx_test_loop packet_size n' (S j)
  end.

(** [main_tx_file]: the chunk's words are copied behind the header (the last ones
    of a full chunk to the fields behind the data), but the length handed over
    does not count the header. *)
Definition file_packet_size : nat := 1024 * 32.

Definition tx_chunk (chunk : list Z) : M D unit :=
  b ← get_buffer;
  fill_struct b sizeof_header (word_bytes chunk) ;;
  io_write_stream_device b (Z.of_nat (length chunk) * 4).

(** A full chunk is read from the fields behind the data too; there [buffer_bytes]
    ends, so more than 32765 words of a chunk are outside the model. *)
Definition rx_chunk (n : nat) : M D (list Z) :=
  b ← get_buffer;
  io_read_stream_device b (Z.of_nat file_packet_size * 4) ;;
  io_sync_stream_device ;;
  bytes ← buffer_bytes b (12 + 4 * n);
  mret (words_of n bytes).

End Apps.

(** The programs between opening their devices and closing the context.  The
    three devices are parts of one state [G]; the functions below say how. *)
Section Programs.
Context {P T R G : Type} `{MappedDevice P} `{StreamDevice T} `{StreamDevice R}.
Context (at_map : ∀ {A}, M P A → M G A) (at_tx : ∀ {A}, M T A → M G A) (at_rx : ∀ {A}, M R A → M G A).
#[local] Arguments at_map {A} _.
#[local] Arguments at_tx {A} _.
#[local] Arguments at_rx {A} _.

(** The registers of the test design: reset held, then the sizes and the data
    selection, then reset released. *)
Fixpoint write_registers (l : list (Z * Z)) : M P unit :=
  match l with
  | [] => mret tt
  | (addr, v) :: l' => io_write_mapped_device addr v ;; write_registers l'
  end.

Definition hold_reset : M G unit := at_map (io_write_mapped_device 5 3).

(** [main_txrx_test]: every packet is sent and one is received; the last headers
    are only printed. *)
Definition txrx_round (start : Z) (packet_size : nat) (j : nat) : M G unit :=
  b ← at_tx (txrx_fill start (Z.of_nat j) packet_size);
  brx ← at_rx rx_mark;
  at_tx (txrx_send b start (Z.of_nat j) packet_size) ;;
  at_rx (io_read_stream_device brx (128 * 1024)) ;;
  at_tx io_sync_stream_device ;;
  at_rx io_sync_stream_device.

Definition txrx_test_body (time : Z) : M G unit :=
  at_map (write_registers [(5, 3); (6, 1024 * 16); (7, 16); (5, 0)]) ;;
  for_ 1000 (txrx_round (u16 time) (1024 * 16)) ;;
  hold_reset.

(** [malloc] allocates the array behind [data_copy]; it is filled with a sine and
    neither read nor freed. *)
Definition tx_test_body (malloc : M G unit) : M G unit :=
  at_map (write_registers [(5, 3); (4, 1); (6, 1024); (7, 0); (5, 0)]) ;;
  malloc ;;
  at_tx (tx_test_loop (1024 * 2) (Z.to_nat 2000000) 0) ;;
  hold_reset.


(** [while (data_size > 0)]: every round takes at least one word. *)
Fixpoint tx_file_loop (fuel : nat) (input : list Z) : M G (list Z) :=
  match input with
  | [] => mret []
  | _ =>
      match fuel with
      | O => raise OutOfFuel
      | S fuel' =>
          let tx_size := Nat.min file_packet_size (length input) in
          at_tx (tx_chunk (take tx_size input)) ;;
          out ← at_rx (rx_chunk tx_size);
          rest ← tx_file_loop fuel' (drop tx_size input);
          mret (out ++ rest)
      end
  end.

Definition tx_file (input : list Z) : M G (list Z) :=
  output ← tx_file_loop (length input) input;
  at_tx io_sync_stream_device ;;
  at_rx io_sync_stream_device ;;
  mret output.

(** The summary printed first loads the first word, which an empty file does not
    have; [malloc] allocates the array behind [output_temp]. *)
Definition tx_file_body (malloc : M G unit) (input : list Z) : M G (list Z) :=
  at_map (write_registers [(5, 3); (6, Z.of_nat file_packet_size); (7, 0); (5, 0)]) ;;
  require OutOfBounds (head input) ;;
  malloc ;;
  output ← tx_file input;
  hold_reset ;;
  mret output.

End Programs.

(** Three devices that share nothing. *)
Section Apart.
Context {P T R : Type}.

Definition on_map {A} (m : M P A) : M (P * T * R) A := zoom (fst ∘ fst) (λ p s, (p, snd (fst s), snd s)) m.
Definition on_tx {A} (m : M T A) : M (P * T * R) A := zoom (snd ∘ fst) (λ t s, (fst (fst s), t, snd s)) m.
Definition on_rx {A} (m : M R A) : M (P * T * R) A := zoom snd (λ r s, (fst s, r)) m.

End Apart.

(** Reading the input file: each line is what [sscanf] makes of it.  The first
    pass counts the lines or fails, the second stores the values. *)
Fixpoint count_lines (lines : list (option Z)) : option nat :=
  match lines with
  | [] => Some 0%nat
  | Some _ :: lines' => S <$> count_lines lines'
  | None :: _ => None
  end.

Definition read_values (lines : list (option Z)) : option (list Z) :=
  n ← count_lines lines;
  Some (take n (omap id lines)).

(** [arg_parse.c]. *)
Record arguments := mk_arguments { input_file_path : option (list Z); output_file_path : option (list Z) }.

Definition ARGP_ERR_UNKNOWN : Z := 7.

Definition arg_parse_opt (key : Z) (arg : list Z) (a : arguments) : Z * arguments :=
  if key =? 105 (* 'i' *) then (0, mk_arguments (Some arg) (output_file_path a))
  else if key =? 111 (* 'o' *) then (0, mk_arguments (input_file_path a) (Some arg))
  else (ARGP_ERR_UNKNOWN, a).

(** ** client_test.c *)

(** [validate_data]: the words as ints; the first one that is not [i << 1]. *)
Fixpoint validate_from (i : Z) (ws : list Z) : option (Z * Z) :=
  match ws with
  | [] => None
  | w :: ws' => if s32 w =? s32 (Z.shiftl i 1) then validate_from (i + 1) ws' else Some (i, w)
  end.

Definition validate_data (test_size : nat) (ws : list Z) : Z :=
  match validate_from 0 (take test_size ws) with Some _ => -1 | None => 0 end.

(** The client is built without [BUFFER_WITH_CONFIG]: its words start at the
    first byte of a buffer. *)
Definition MAX_SAMPLES : Z := BUFFER_SIZE / 4.

Inductive rx_end := RxDone | RxNoBuffer | RxInvalid.

Section Client.
Context {T R G : Type} `{StreamDevice T} `{StreamDevice R}.
Context (at_tx : ∀ {A}, M T A → M G A) (at_rx : ∀ {A}, M R A → M G A).
#[local] Arguments at_tx {A} _.
#[local] Arguments at_rx {A} _.

(** [main_tx] sends its buffers as they are. *)
Definition main_tx_loop : M T unit :=
  for_ 10000 (λ _, b ← get_buffer; io_write_stream_device b (MAX_SAMPLES * 4)).

(** One pass of the inner loop: the received words are checked before the
    transfer is waited for; [None] goes on. *)
Definition client_round (test_size : nat) : M G (option rx_end) :=
  at_tx io_stream_get_buffer ;;
  at_rx
    (brx ← io_stream_get_buffer;
     match brx with
     | None => mret (Some RxNoBuffer)
     | Some b =>
         fill_buffer b 0 (replicate (4 * test_size) 254) ;;
         io_read_stream_device b (4 * Z.of_nat test_size) ;;
         bytes ← buffer_bytes b (4 * test_size);
         if validate_data test_size (words_at 0 test_size bytes) <? 0
         then mret (Some RxInvalid) else mret None
     end).

(** [while ((i < loop_times) && !stop)]; the inner loop runs once unless the
    second look at [stop] says otherwise. *)
Fixpoint client_loop (stop : nat → bool) (test_size n i : nat) : M G rx_end :=
  match n with
  | O => mret RxDone
  | S n' =>
      if stop (2 * i)%nat then mret RxDone
      else
        r ← (if stop (2 * i + 1)%nat then mret None else client_round test_size);
        match r with
        | Some e => mret e
        | None =>
            at_rx io_sync_stream_device ;;
            client_loop stop test_size n' (S i)
        end
  end.

End Client.

(** ** Lemmas: packets *)

Definition packet_bytes (dts tts : Z) (ws : list Z) : list Z :=
  header_bytes dts tts (Z.of_nat (length ws)) ++ word_bytes ws.

Lemma length_header dts tts len : length (header_bytes dts tts len) = 12%nat.
Proof. unfold header_bytes. by rewrite !length_app, !length_le_bytes. Qed.

Lemma word_bytes_cons w ws : word_bytes (w :: ws) = le_bytes 4 w ++ word_bytes ws.
Proof. unfold word_bytes. by rewrite fmap_cons. Qed.

Lemma length_word_bytes ws : length (word_bytes ws) = (4 * length ws)%nat.
Proof.
  unfold word_bytes. induction ws as [|w ws IH]; [done|]. rewrite fmap_cons. cbn [concat].
  rewrite length_app, length_le_bytes, IH. simpl. lia.
Qed.

Lemma word_bytes_app ws ws' : word_bytes (ws ++ ws') = word_bytes ws ++ word_bytes ws'.
Proof. unfold word_bytes. by rewrite fmap_app, concat_app. Qed.

Lemma word_bytes_snoc ws w : word_bytes (ws ++ [w]) = word_bytes ws ++ le_bytes 4 w.
Proof. rewrite word_bytes_app, word_bytes_cons. unfold word_bytes at 2. cbn [fmap list_fmap concat]. by rewrite app_nil_r. Qed.

Lemma word_bytes_bytes ws : Forall is_byte (word_bytes ws).
Proof.
  unfold word_bytes. induction ws as [|w ws IH]; [constructor|]. rewrite fmap_cons. cbn [concat].
  apply Forall_app. split; [apply le_bytes_bytes|done].
Qed.

Lemma fmap_seq_snoc {A} (f : nat → A) n : f <$> seq 0 (S n) = (f <$> seq 0 n) ++ [f n].
Proof. by rewrite seq_S, fmap_app. Qed.

(** Reading words back. *)
Lemma words_of_packet hdr ws tail :
  length hdr = 12%nat → Forall (λ w, 0 ≤ w < 2 ^ 32) ws →
  words_of (length ws) (hdr ++ word_bytes ws ++ tail) = ws.
Proof.
  intros Hh Hws. unfold words_of, words_at. apply list_eq_same_length with (length ws);
    [done|by rewrite length_fmap, length_seq|].
  intros k x y Hk Hx Hy. rewrite list_lookup_fmap, lookup_seq_lt in Hx by done.
  assert (x = le_val (take 4 (drop (12 + 4 * k) (hdr ++ word_bytes ws ++ tail)))) as -> by (by injection Hx).
  rewrite <-drop_drop. rewrite (drop_app_length' hdr) by done.
  apply list_elem_of_split_length in Hy as (l1 & l2 & -> & Hl).
  apply Forall_app in Hws as [_ [Hy _]%Forall_cons_1]. rewrite word_bytes_app, <-app_assoc.
  rewrite drop_app_length' by (rewrite length_word_bytes; lia).
  rewrite word_bytes_cons, <-app_assoc.
  rewrite take_app_length' by (by rewrite length_le_bytes).
  apply le_val_bytes. done.
Qed.

Section SinkLemmas.
Context {D : Type} `{StreamSink D}.
Implicit Types (d : D).

Lemma sink_buffer log d :
  idle log d → ∃ b bs d', get_buffer d = Done (b, d') ∧ holds log b bs d' ∧ is_block bs.
Proof.
  intros Hi. destruct (sink_get log d Hi) as (b & bs & d' & Hg & Hh & Hb).
  exists b, bs, d'. split; [|done]. eapply bind_done; [exact Hg|done].
Qed.

(** Storing one more field behind those already stored. *)
Lemma put_next log b bs done v d :
  holds log b (overwrite 0 done bs) d → (length done + 4 ≤ length bs)%nat →
  ∃ d', put_word b (Z.of_nat (length done)) v d = Done (tt, d') ∧
    holds log b (overwrite 0 (done ++ le_bytes 4 v) bs) d'.
Proof.
  intros Hh Hl.
  destruct (sink_fill log b (overwrite 0 done bs) (length done) (le_bytes 4 v) d Hh) as (d' & Hf & Hh').
  - apply le_bytes_bytes.
  - rewrite length_overwrite, length_le_bytes by lia. lia.
  - exists d'. split; [exact Hf|]. rewrite <-overwrite_extend; [done|]. rewrite length_le_bytes. lia.
Qed.

Lemma fill_packet_run log b bs dts tts n word d :
  holds log b bs d → (12 + 4 * n ≤ length bs)%nat →
  ∃ d', fill_packet b dts tts (Z.of_nat n) n word d = Done (tt, d') ∧
    holds log b (overwrite 0 (packet_bytes dts tts (word <$> seq 0 n)) bs) d'.
Proof.
  intros Hh Hl. rewrite <-(overwrite_nil 0 bs) in Hh.
  destruct (put_next log b bs [] dts d Hh) as (d1 & H1 & Hh1); [simpl; lia|].
  destruct (put_next log b bs (le_bytes 4 dts) tts d1 Hh1) as (d2 & H2 & Hh2); [rewrite length_le_bytes; lia|].
  destruct (put_next log b bs (le_bytes 4 dts ++ le_bytes 4 tts) (Z.of_nat n) d2 Hh2) as (d3 & H3 & Hh3).
  { rewrite length_app, !length_le_bytes. lia. }
  rewrite length_le_bytes in H2. rewrite length_app, !length_le_bytes in H3. rewrite <-app_assoc in Hh3.
  fold (header_bytes dts tts (Z.of_nat n)) in Hh3.
  assert (wp (for_ n (λ i, put_word b (12 + 4 * Z.of_nat i) (word i)))
    (λ _, holds log b (overwrite 0 (header_bytes dts tts (Z.of_nat n) ++ word_bytes (word <$> seq 0 n)) bs)) d3) as Hwp.
  { apply (wp_for (λ k, holds log b
      (overwrite 0 (header_bytes dts tts (Z.of_nat n) ++ word_bytes (word <$> seq 0 k)) bs))).
    - intros i s' Hi Hs. destruct (put_next _ _ _ _ (word i) _ Hs) as (s2 & Hr & Hs2).
      { rewrite length_app, length_header, length_word_bytes, length_fmap, length_seq. lia. }
      rewrite length_app, length_header, length_word_bytes, length_fmap, length_seq in Hr.
      rewrite fmap_seq_snoc, word_bytes_snoc, app_assoc.
      replace (Z.of_nat (12 + 4 * i)) with (12 + 4 * Z.of_nat i) in Hr by lia. by eapply wp_done.
    - change (word_bytes (word <$> seq 0 0)) with (@nil Z). by rewrite app_nil_r. }
  apply wp_run in Hwp as ([] & d4 & Hr & Hh4). exists d4. split.
  - unfold fill_packet. eapply bind_done; [exact H1|]. eapply bind_done; [exact H2|].
    eapply bind_done; [exact H3|exact Hr].
  - unfold packet_bytes. by rewrite length_fmap, length_seq.
Qed.

(** A packet that fits is sent: its header and its words, and nothing else. *)
Lemma send_packet_run log dts tts n word d :
  idle log d → BUFFER_IN_BYTES (Z.of_nat n) ≤ BUFFER_SIZE →
  ∃ d', send_packet dts tts n word d = Done (tt, d') ∧
    idle (log ++ [packet_bytes dts tts (word <$> seq 0 n)]) d'.
Proof.
  intros Hi Hn. destruct (sink_buffer log d Hi) as (b & bs & d1 & Hg & Hh & Hb).
  unfold BUFFER_IN_BYTES, sizeof_header in *. pose proof Hb as Hlb. unfold is_block in Hlb.
  destruct (fill_packet_run log b bs dts tts n word d1 Hh) as (d2 & Hf & Hh2); [lia|].
  set (p := packet_bytes dts tts (word <$> seq 0 n)) in *.
  assert (length p = 12 + 4 * n)%nat as Hp.
  { unfold p, packet_bytes. rewrite length_app, length_header, length_word_bytes, length_fmap, length_seq. done. }
  destruct (sink_write log b (overwrite 0 p bs) (Z.of_nat n * 4 + 12) d2 Hh2) as (d3 & Hw & Hi3).
  { unfold is_block. rewrite length_overwrite; [done|]. lia. }
  { lia. }
  exists d3. split.
  - unfold send_packet. eapply bind_done; [exact Hg|]. eapply bind_done; [exact Hf|].
    unfold BUFFER_IN_BYTES, sizeof_header. rewrite (uwrap_small 32); [exact Hw|]. unfold BUFFER_SIZE in Hn. lia.
  - replace (Z.to_nat (Z.of_nat n * 4 + 12)) with (length p) in Hi3 by lia. by rewrite take_overwrite in Hi3.
Qed.

End SinkLemmas.

(** ** Lemmas: the check of the receiver *)

Definition pattern (i : Z) (n : nat) : list Z := (λ k, u32 (i + Z.of_nat k + 1)) <$> seq 0 n.

Lemma pattern_cons i n : pattern i (S n) = u32 (i + 1) :: pattern (i + 1) n.
Proof.
  unfold pattern. cbn [seq]. rewrite fmap_cons. f_equal; [f_equal; lia|].
  rewrite <-fmap_S_seq, <-list_fmap_compose. apply list_fmap_ext. intros _ k _. simpl. f_equal. lia.
Qed.

Lemma pattern_app i n m : pattern i (n + m) = pattern i n ++ pattern (i + Z.of_nat n) m.
Proof.
  revert i. induction n as [|n IH]; intros i; [by rewrite Z.add_0_r|].
  cbn [Nat.add]. rewrite !pattern_cons, IH. cbn [app]. do 3 f_equal. lia.
Qed.

Lemma pattern_wrap i n : pattern (u32 i) n = pattern i n.
Proof.
  unfold pattern, uwrap. apply list_fmap_ext. intros _ k _.
  rewrite <-Z.add_assoc, Z.add_mod_idemp_l by done. f_equal. lia.
Qed.

Lemma length_pattern i n : length (pattern i n) = n.
Proof. unfold pattern. by rewrite length_fmap, length_seq. Qed.

(** A packet passes exactly when it is the pattern. *)
Lemma verify_exact i ws : verify_words i ws = None ↔ ws = pattern i (length ws).
Proof.
  revert i. induction ws as [|w ws IH]; intros i; [done|]. cbn [verify_words length]. rewrite pattern_cons.
  destruct (Z.eqb_spec (u32 (i + 1)) w) as [<-|Hne].
  - rewrite IH. split; [by intros <-|by intros [= <-]].
  - split; [done|]. by intros [= Hw _].
Qed.

(** The receiver's reports on a sequence of packets. *)
Fixpoint reports (i : Z) (packets : list (list Z)) : list (Z * Z) :=
  match packets with
  | [] => []
  | ws :: packets' =>
      let rs := reports (u32 (i + Z.of_nat (length ws))) packets' in
      match verify_words i ws with Some r => r :: rs | None => rs end
  end.

Lemma reports_exact i packets :
  reports i packets = [] ↔ concat packets = pattern i (length (concat packets)).
Proof.
  revert i. induction packets as [|ws packets IH]; intros i; [done|]. cbn [reports concat].
  rewrite length_app, pattern_app. pose proof (verify_exact i ws) as Hv. specialize (IH (u32 (i + Z.of_nat (length ws)))).
  rewrite pattern_wrap in IH.
  destruct (verify_words i ws) as [r|].
  - split; [done|]. intros He. apply app_inj_1 in He as [He _]; [|by rewrite length_pattern].
    exfalso. by apply Hv in He.
  - rewrite IH. destruct Hv as [Hv _]. specialize (Hv eq_refl). rewrite <-Hv. split; [by intros <-|].
    by intros ?%app_inv_head.
Qed.

(** ** Lemmas: the receiver on a reader *)

Section ReaderLemmas.
Context {D : Type} `{StreamReader D}.
Implicit Types (d : D).

(** A block that carries a packet: its header holds the number of its words. *)
Definition carries_packet (ws blk : list Z) : Prop :=
  ∃ dts tts tail, is_block blk ∧ blk = packet_bytes dts tts ws ++ tail ∧
    Forall (λ w, 0 ≤ w < 2 ^ 32) ws.

Lemma carried_length ws blk :
  carries_packet ws blk → (12 + 4 * length ws ≤ length blk)%nat ∧ Z.of_nat (length blk) = BUFFER_SIZE.
Proof.
  intros (dts & tts & tail & Hb & -> & _). split; [|exact Hb]. unfold packet_bytes.
  rewrite !length_app, length_header, length_word_bytes. lia.
Qed.

Lemma receive_packet_run ws blk blocks d :
  carries_packet ws blk → receives (blk :: blocks) d →
  ∃ d', receive_packet d = Done ((Z.of_nat (length ws), ws), d') ∧ receives blocks d'.
Proof.
  intros Hc Hr. destruct (carried_length ws blk Hc) as [Hlen Hsz].
  destruct Hc as (dts & tts & tail & Hb & He & Hws).
  destruct (reader_round blk blocks d Hr Hb) as (b & d1 & Hg & Hround).
  destruct (Hround (le_bytes 4 (u32 (-1))) (le_bytes 4 (u32 (-1)))) as (d2 & d3 & d4 & d5 & H1 & H2 & H3 & H4 & Hbytes & Hr5);
    [apply length_le_bytes..|].
  assert (Z.of_nat (length ws) < 2 ^ 32) as Hn by (unfold BUFFER_SIZE in Hsz; lia).
  assert (drop 8 (take 12 blk) = le_bytes 4 (Z.of_nat (length ws))) as Hdrop.
  { rewrite He. unfold packet_bytes. rewrite <-app_assoc, take_app_length' by (by rewrite length_header).
    unfold header_bytes. rewrite app_assoc, drop_app_length'; [done|]. by rewrite length_app, !length_le_bytes. }
  exists d5. split; [|exact Hr5]. unfold receive_packet.
  eapply bind_done.
  { eapply bind_done; [eapply bind_done; [exact Hg|reflexivity]|].
    eapply bind_done; [exact H1|]. eapply bind_done; [exact H2|reflexivity]. }
  eapply bind_done; [exact H3|]. eapply bind_done; [exact H4|].
  eapply bind_done; [apply Hbytes; lia|]. cbv zeta. rewrite Hdrop, le_val_bytes by (simpl; lia). rewrite Nat2Z.id.
  eapply bind_done; [apply Hbytes; lia|]. unfold mret, M_ret. do 3 f_equal.
  rewrite He. unfold packet_bytes. rewrite <-app_assoc, app_assoc.
  rewrite take_app_length' by (rewrite length_app, length_header, length_word_bytes; lia).
  rewrite <-(app_nil_r (word_bytes ws)). apply words_of_packet; [apply length_header|done].
Qed.

(** How often [select] said there is data before its first timeout. *)
Fixpoint ready_count (sel : list select_result) : option nat :=
  match sel with
  | [] => None
  | SelTimeout :: _ => Some 0%nat
  | SelReady true :: sel' => S <$> ready_count sel'
  | _ :: sel' => ready_count sel'
  end.

Lemma rx_loop_run verify sel i packets blocks d :
  Forall2 carries_packet packets blocks → receives blocks d → ready_count sel = Some (length packets) →
  ∃ d', rx_loop verify sel i d = Done (if verify then reports i packets else [], d') ∧ receives [] d'.
Proof.
  revert i packets blocks d. induction sel as [|r sel IH]; intros i packets blocks d Hp Hr Hn; [done|].
  destruct r as [| |[]]; simpl in Hn |- *.
  - by apply (IH i packets blocks).
  - destruct packets; [|done]. apply Forall2_nil_inv_l in Hp as ->. exists d. by destruct verify.
  - destruct (ready_count sel) as [n|] eqn:En; [|done]. injection Hn as Hn.
    destruct packets as [|ws packets]; [done|]. injection Hn as Hn.
    apply Forall2_cons_inv_l in Hp as (blk & blocks' & Hc & Hp & ->).
    destruct (receive_packet_run ws blk blocks' d Hc Hr) as (d1 & Hrun & Hr1).
    destruct (IH (u32 (i + Z.of_nat (length ws))) packets blocks' d1 Hp Hr1) as (d2 & Hrun2 & Hr2); [by subst|].
    exists d2. split; [|done]. eapply bind_done; [exact Hrun|]. cbv beta iota.
    eapply bind_done; [exact Hrun2|]. by destruct verify.
  - by apply (IH i packets blocks).
Qed.

End ReaderLemmas.

(** ** Properties *)

(** The packets [tx_thread] sends. *)
Definition tx_packet (packet_size j : nat) : list Z :=
  packet_bytes 321 (u32 (Z.of_nat j + 1)) (pattern (Z.of_nat (j * packet_size)) packet_size).

Section Sender.
Context {D : Type} `{StreamSink D}.
Implicit Types (d : D).

Lemma tx_packet_words packet_size j :
  packet_bytes 321 (u32 (Z.of_nat j + 1)) (tx_word 0 (Z.of_nat packet_size) j <$> seq 0 packet_size) =
  tx_packet packet_size j.
Proof.
  unfold tx_packet, pattern, tx_word. f_equal. apply list_fmap_ext. intros _ k _. f_equal. lia.
Qed.

Lemma tx_loop_run stop packet_size n j log d :
  idle log d → BUFFER_IN_BYTES (Z.of_nat packet_size) ≤ BUFFER_SIZE →
  ∃ m d', tx_loop stop 0 packet_size n j d = Done ((j + m)%nat, d') ∧ (m ≤ n)%nat ∧
    idle (log ++ (tx_packet packet_size <$> seq j m)) d' ∧
    (m = n ∨ stop (j + m)%nat = true) ∧ ∀ l, (l < m)%nat → stop (j + l)%nat = false.
Proof.
  revert j log d. induction n as [|n IH]; intros j log d Hi Hs; simpl.
  - exists 0%nat, d. rewrite Nat.add_0_r, app_nil_r. split; [done|]. split; [lia|]. split; [done|].
    split; [by left|]. lia.
  - destruct (stop j) eqn:Hj.
    + exists 0%nat, d. rewrite Nat.add_0_r, app_nil_r. split; [done|]. split; [lia|]. split; [done|].
      split; [by right|]. lia.
    + destruct (send_packet_run log 321 (u32 (Z.of_nat j + 1)) packet_size
        (tx_word 0 (Z.of_nat packet_size) j) d Hi Hs) as (d1 & Hr & Hi1).
      rewrite tx_packet_words in Hi1.
      destruct (IH (S j) _ d1 Hi1 Hs) as (m & d2 & Hr2 & Hm & Hi2 & Hend & Hno).
      exists (S m), d2. split; [eapply bind_done; [exact Hr|]; rewrite Hr2; do 2 f_equal; lia|]. split; [lia|].
      split; [|split].
      * rewrite <-app_assoc in Hi2. exact Hi2.
      * destruct Hend as [->|Hend]; [by left|right]. rewrite <-Hend. f_equal. lia.
      * intros l Hl. destruct l as [|l]; [by rewrite Nat.add_0_r|].
        rewrite <-(Hno l) by lia. f_equal. lia.
Qed.

(** What [main_tx_test] sends. *)
Definition tx_test_packet (packet_size j : nat) : list Z :=
  packet_bytes (Z.of_nat j) (Z.of_nat j + 1) (phase_word packet_size j <$> seq 0 packet_size).

Lemma tx_test_loop_run packet_size n j log d :
  idle log d → BUFFER_IN_BYTES (Z.of_nat packet_size) ≤ BUFFER_SIZE →
  ∃ d', idle (log ++ (tx_test_packet packet_size <$> seq j n)) d' ∧
    tx_test_loop packet_size n j d = io_sync_stream_device d'.
Proof.
  revert j log d. induction n as [|n IH]; intros j log d Hi Hs.
  - exists d. by rewrite app_nil_r.
  - destruct (send_packet_run log (Z.of_nat j) (Z.of_nat j + 1) packet_size (phase_word packet_size j) d Hi Hs)
      as (d1 & Hr & Hi1).
    destruct (IH (S j) _ d1 Hi1 Hs) as (d2 & Hi2 & Hr2). exists d2. rewrite <-app_assoc in Hi2. split; [exact Hi2|].
    rewrite <-Hr2. simpl. unfold mbind, M_bind. by rewrite Hr.
Qed.

(** The sending thread sends its pattern: packets of [packet_size] words, each
    with its header, that together count up from 1 modulo 2^32; it stops only
    when the configured number of packets was sent or it was told to, and the
    packets before are complete. *)
Theorem tx_thread_sends stop (c : thread_config) log d :
  idle log d → 0 ≤ cf_packet_size c → BUFFER_IN_BYTES (cf_packet_size c) ≤ BUFFER_SIZE →
  let packet_size := Z.to_nat (cf_packet_size c) in
  ∃ m d', tx_thread stop c d = Done (m, d') ∧
    idle (log ++ (tx_packet packet_size <$> seq 0 m)) d' ∧
    concat ((λ j, pattern (Z.of_nat (j * packet_size)) packet_size) <$> seq 0 m) = pattern 0 (m * packet_size) ∧
    (m = Z.to_nat (config_loops c) ∨ (m < Z.to_nat (config_loops c))%nat ∧ stop m = true).
Proof.
  intros Hi Hpos Hs ps.
  destruct (tx_loop_run stop ps (Z.to_nat (config_loops c)) 0 log d Hi) as (m & d' & Hr & Hm & Hi' & Hend & _).
  { unfold ps. by rewrite Z2Nat.id. }
  exists m, d'. split; [exact Hr|]. split; [exact Hi'|]. split.
  - clear. induction m as [|m IH]; [done|]. rewrite seq_S, fmap_app, concat_app, IH. cbn [fmap list_fmap concat].
    rewrite app_nil_r, Nat.add_0_l. replace (S m * ps)%nat with (m * ps + ps)%nat by lia.
    by rewrite pattern_app, Z.add_0_l.
  - destruct Hend as [->|Hend]; [by left|]. destruct (decide (m = Z.to_nat (config_loops c))); [by left|].
    right. split; [lia|done].
Qed.

(** Sending a file loses words: the length of a chunk is handed over without
    the 12 bytes of the header in front of its words, so a chunk's last three
    words are not sent, though those of a full chunk were stored to the status,
    the length and the padding behind the data. *)
Theorem tx_chunk_loses_tail `{!StructSink D} chunk log d :
  idle log d → (3 ≤ length chunk ≤ file_packet_size)%nat →
  ∃ d' header, tx_chunk chunk d = Done (tt, d') ∧ length header = 12%nat ∧
    idle (log ++ [header ++ word_bytes (take (length chunk - 3) chunk)]) d'.
Proof.
  intros Hi Hlen. destruct (sink_buffer log d Hi) as (b & bs & d1 & Hg & Hh & Hb). pose proof Hb as Hbl.
  unfold is_block in Hbl. assert (Z.of_nat file_packet_size = 32768) as Hmax by (unfold file_packet_size; lia).
  assert (sizeof_channel_buffer = 132096) as Hsz by reflexivity. unfold BUFFER_SIZE in Hbl.
  destruct (sink_struct log b bs 12 (word_bytes chunk) d1 Hh Hb) as (d2 & Hf & Hh2);
    [apply word_bytes_bytes|lia|rewrite length_word_bytes; lia|].
  set (x := take (length bs - 12) (word_bytes chunk)) in *.
  assert (length x ≤ length bs - 12)%nat as Hx by (unfold x; rewrite length_take; lia).
  destruct (sink_write log b (overwrite 12 x bs) (Z.of_nat (length chunk) * 4) d2 Hh2)
    as (d3 & Hw & Hi3).
  { unfold is_block, BUFFER_SIZE. rewrite length_overwrite; [done|lia]. }
  { unfold BUFFER_SIZE. lia. }
  exists d3, (take 12 bs). split; [|split; [rewrite length_take; lia|]].
  - unfold tx_chunk. eapply bind_done; [exact Hg|]. eapply bind_done; [exact Hf|]. exact Hw.
  - assert (take (Z.to_nat (Z.of_nat (length chunk) * 4)) (overwrite 12 x bs) =
            take 12 bs ++ word_bytes (take (length chunk - 3) chunk)) as <-; [|done].
    assert (∃ y, x = word_bytes (take (length chunk - 3) chunk) ++ y) as [y ->].
    { unfold x. exists (take (length bs - 12 - 4 * (length chunk - 3)) (word_bytes (drop (length chunk - 3) chunk))).
      rewrite <-(take_drop (length chunk - 3) chunk) at 1. rewrite word_bytes_app, take_app.
      rewrite take_ge by (rewrite length_word_bytes, length_take; lia). f_equal.
      rewrite length_word_bytes, length_take. f_equal. lia. }
    unfold overwrite. rewrite <-!app_assoc, app_assoc, take_app_length'; [done|].
    rewrite length_app, length_word_bytes, !length_take. lia.
Qed.

End Sender.

(** The receiving thread ends at the first timeout of [select] with every
    packet received.  Its check, when it is on, is exact: on any division of the
    received words into packets nothing is reported if and only if the words
    are the sender's pattern.  When it is off, as the program leaves it,
    nothing is ever reported. *)
Theorem rx_thread_exact {D} `{StreamReader D} verify sel packets blocks (d : D) :
  Forall2 carries_packet packets blocks → receives blocks d → ready_count sel = Some (length packets) →
  ∃ rs d', rx_thread verify sel d = Done (rs, d') ∧ receives [] d' ∧
    (rs = [] ↔ verify = false ∨ concat packets = pattern 0 (length (concat packets))).
Proof.
  intros Hp Hr Hn. destruct (rx_loop_run verify sel 0 packets blocks d Hp Hr Hn) as (d' & Hrun & Hr').
  exists (if verify then reports 0 packets else []), d'. split; [exact Hrun|]. split; [done|].
  destruct verify; [|split; [by left|done]]. rewrite reports_exact. split; [by right|by intros [?|?]].
Qed.

(** The number of packets to send wraps: the total size is computed in 32 bits,
    so with packets of 2^14 words only the number of loops modulo 2^18 is
    sent. *)
Theorem total_size_wraps packet_loops :
  0 ≤ packet_loops →
  config_loops (mk_config (2 ^ 14) (total_size packet_loops (2 ^ 14))) = packet_loops mod 2 ^ 18.
Proof.
  intros Hl. unfold config_loops, total_size, uwrap. cbn [cf_total_size cf_packet_size].
  change (2 ^ 32) with (2 ^ 18 * 2 ^ 14). rewrite Z.mul_mod_distr_r by lia. by apply Z.div_mul.
Qed.

(** The in-memory device reads a stream in. *)
#[export, refine] Instance mem_reader : StreamReader mem_device := {
  receives := λ blocks d, md_incoming d = blocks ∧ is_block (md_buffer d)
}.
Proof.
  intros blk blocks d [Hi Hd] Hb. exists 0%nat, d. split; [done|]. intros x y Hx Hy.
  unfold is_block, BUFFER_SIZE in Hd, Hb.
  assert (∀ off z (e : mem_device), length z = 4%nat → 0 ≤ off ≤ 4 → Z.of_nat (length (md_buffer e)) = 128 * 1024 →
    fill_buffer 0 off z e = Done (tt, mk_mem_device (md_regs e) (overwrite (Z.to_nat off) z (md_buffer e))
                                  (md_written e) (md_incoming e))) as Hfill.
  { intros off z e Hz Ho He. simpl. rewrite Hz, He.
    by rewrite (proj2 (Z.leb_le 0 _)), (proj2 (Z.leb_le _ _)) by lia. }
  do 4 eexists. split; [by apply Hfill; [|lia|]|].
  split; [apply Hfill; [done|lia|]; cbn; rewrite length_overwrite; [done|simpl; lia]|].
  split; [done|]. split; [cbn; rewrite Hi; reflexivity|]. split; [done|]. by split.
Defined.

(** ** Concrete runs *)

Definition test_device (incoming : list (list Z)) : mem_device :=
  mk_mem_device [] (replicate (Z.to_nat BUFFER_SIZE) 0) [] incoming.

Lemma replicate_block v : is_block (replicate (Z.to_nat BUFFER_SIZE) v).
Proof. unfold is_block. rewrite length_replicate. apply Z2Nat.id. unfold BUFFER_SIZE. lia. Qed.

Lemma tx_thread_sends_witness :
  ∃ m d', tx_thread (λ _, false) (mk_config 4 8) (test_device []) = Done (m, d') ∧ m = 2%nat ∧
    md_written d' = tx_packet 4 <$> seq 0 2.
Proof.
  destruct (tx_thread_sends (λ _, false) (mk_config 4 8) [] (test_device [])) as (m & d' & Hr & [Hw _] & _ & Hend).
  - split; [reflexivity|apply replicate_block].
  - simpl. lia.
  - unfold BUFFER_IN_BYTES, sizeof_header, BUFFER_SIZE. cbn [cf_packet_size]. lia.
  - exists m, d'. split; [exact Hr|]. destruct Hend as [->|[_ Hend]]; [|discriminate].
    split; [reflexivity|exact Hw].
Defined.

Lemma tx_chunk_loses_tail_witness :
  ∃ d' header, tx_chunk [1; 2; 3; 4] (test_device []) = Done (tt, d') ∧
    md_written d' = [header ++ word_bytes [1]].
Proof.
  pose proof (tx_chunk_loses_tail [1; 2; 3; 4] [] (test_device [])) as Hx.
  destruct Hx as (d' & header & Hr & _ & [Hw _]);
    [split; [reflexivity|apply replicate_block]|cbn [length]; unfold file_packet_size; lia|].
  exists d', header. split; [exact Hr|exact Hw].
Defined.

Definition demo_packet (ws : list Z) : list Z :=
  packet_bytes 1 2 ws ++ replicate (Z.to_nat BUFFER_SIZE - (12 + 4 * length ws)) 0.

Lemma demo_carries ws :
  Forall (λ w, 0 ≤ w < 2 ^ 32) ws → BUFFER_IN_BYTES (Z.of_nat (length ws)) ≤ BUFFER_SIZE →
  carries_packet ws (demo_packet ws).
Proof.
  intros Hws Hl. exists 1, 2, (replicate (Z.to_nat BUFFER_SIZE - (12 + 4 * length ws)) 0).
  split; [|by split]. unfold is_block, demo_packet, packet_bytes, BUFFER_IN_BYTES, sizeof_header in *.
  rewrite !length_app, length_header, length_word_bytes, length_replicate. lia.
Qed.

Lemma rx_thread_exact_witness :
  ∃ rs d', rx_thread true [SelReady true; SelError; SelReady true; SelTimeout]
      (test_device [demo_packet [1; 2]; demo_packet [3]]) = Done (rs, d') ∧ rs = [].
Proof.
  destruct (rx_thread_exact true [SelReady true; SelError; SelReady true; SelTimeout] [[1; 2]; [3]]
    [demo_packet [1; 2]; demo_packet [3]] (test_device [demo_packet [1; 2]; demo_packet [3]]))
    as (rs & d' & Hr & _ & Hrs).
  - constructor; [|constructor; [|constructor]]; apply demo_carries;
      try (repeat constructor; lia); unfold BUFFER_IN_BYTES, sizeof_header, BUFFER_SIZE; simpl; lia.
  - split; [reflexivity|apply replicate_block].
  - reflexivity.
  - exists rs, d'. split; [exact Hr|]. apply Hrs. right. reflexivity.
Defined.

(** A million packets are asked for, 213568 are sent. *)
Lemma total_size_wraps_witness :
  config_loops (mk_config (2 ^ 14) (total_size 1000000 (2 ^ 14))) = 213568.
Proof. rewrite (total_size_wraps 1000000 ltac:(lia)). reflexivity. Defined.
