(* ===== verification/Threads.v ===== *)
(** * Threads: the two threads of the test application

    [txrx_test_thread] of [src/userspace/test_app/src/txrx_test_thread.c] runs a
    sender and a receiver at the same time.  Here the text of a thread is a tree
    of the calls it makes on its stream device ([prog]); run alone on a device
    it is the loop of [TestApp], and [interleave] runs two of them one call at a
    time in the order of any schedule. *)
From Stdlib Require Import ZArith Lia.
From stdpp Require Import base list numbers option.
From S2P Require Import Prelude DmaChannel Devices TestApp.

Create HintDb implements discriminated.

(** ** Programs as trees of calls *)

(** What a program does to a stream device, with the type of the result. *)
Inductive call : Type → Type :=
| CGet : call (option nat)
| CFill (b : nat) (off : Z) (x : list Z) : call unit
| CStruct (b : nat) (off : Z) (x : list Z) : call unit
| CBytes (b n : nat) : call (list Z)
| CWrite (b : nat) (n : Z) : call unit
| CRead (b : nat) (n : Z) : call unit
| CSync : call unit.

Definition exec {D} `{StreamDevice D} {B} (c : call B) : M D B :=
  match c with
  | CGet => io_stream_get_buffer
  | CFill b off x => fill_buffer b off x
  | CStruct b off x => fill_struct b off x
  | CBytes b n => buffer_bytes b n
  | CWrite b n => io_write_stream_device b n
  | CRead b n => io_read_stream_device b n
  | CSync => io_sync_stream_device
  end.

Inductive prog (A : Type) : Type :=
| Ret (a : A)
| Crash (f : fault)
| Call {B : Type} (c : call B) (k : B → prog A).
Arguments Ret {A} a.
Arguments Crash {A} f.
Arguments Call {A B} c k.

Fixpoint prog_then {A B} (k : A → prog B) (p : prog A) : prog B :=
  match p with
  | Ret a => k a
  | Crash f => Crash f
  | Call c k' => Call c (λ o, prog_then k (k' o))
  end.

#[export] Instance prog_ret : MRet prog := λ A, Ret.
#[export] Instance prog_bind : MBind prog := λ A B, prog_then.

Definition perform {B} (c : call B) : prog B := Call c Ret.

Fixpoint prog_for (lo n : nat) (body : nat → prog unit) : prog unit :=
  match n with
  | O => mret tt
  | S n' => body lo ;; prog_for (S lo) n' body
  end.

(** Running a program; [calls] says what a call does to the state. *)
Fixpoint run {G A} (calls : ∀ B, call B → M G B) (p : prog A) : M G A :=
  match p with
  | Ret a => mret a
  | Crash f => raise f
  | Call c k => o ← calls _ c; run calls (k o)
  end.

(** ** The threads *)

Definition get_buffer_prog : prog nat :=
  b ← perform CGet;
  match b with Some b => mret b | None => Crash NullDeref end.

Definition put_word_prog (b : nat) (off v : Z) : prog unit := perform (CFill b off (le_bytes 4 v)).

Definition send_packet_prog (dts tts : Z) (packet_size : nat) (word : nat → Z) : prog unit :=
  b ← get_buffer_prog;
  (put_word_prog b 0 dts ;;
   put_word_prog b 4 tts ;;
   put_word_prog b 8 (Z.of_nat packet_size) ;;
   prog_for 0 packet_size (λ i, put_word_prog b (12 + 4 * Z.of_nat i) (word i))) ;;
  perform (CWrite b (u32 (BUFFER_IN_BYTES (Z.of_nat packet_size)))).

Fixpoint tx_loop_prog (stop : nat → bool) (start : Z) (packet_size : nat) (n j : nat) : prog nat :=
  match n with
  | O => mret j
  | S n' =>
      if stop j then mret j
      else
        send_packet_prog 321 (u32 (Z.of_nat j + 1)) packet_size (tx_word start (Z.of_nat packet_size) j) ;;
        tx_loop_prog stop start packet_size n' (S j)
  end.

Definition tx_thread_prog (stop : nat → bool) (c : thread_config) : prog nat :=
  tx_loop_prog stop 0 (Z.to_nat (cf_packet_size c)) (Z.to_nat (config_loops c)) 0.

Definition receive_packet_prog : prog (Z * list Z) :=
  b ← (b ← get_buffer_prog;
       put_word_prog b 0 (u32 (-1)) ;;
       put_word_prog b 4 (u32 (-1)) ;;
       mret b);
  perform (CRead b (128 * 1024)) ;;
  perform CSync ;;
  header ← perform (CBytes b 12);
  let len := le_val (drop 8 header) in
  bytes ← perform (CBytes b (12 + 4 * Z.to_nat len));
  mret (len, words_of (Z.to_nat len) bytes).

Fixpoint rx_loop_prog (verify : bool) (sel : list select_result) (i : Z) : prog (list (Z * Z)) :=
  match sel with
  | [] => Crash OutOfFuel
  | SelError :: sel' => rx_loop_prog verify sel' i
  | SelTimeout :: _ => mret []
  | SelReady false :: sel' => rx_loop_prog verify sel' i
  | SelReady true :: sel' =>
      p ← receive_packet_prog;
      rs ← rx_loop_prog verify sel' (u32 (i + fst p));
      mret (match (if verify then verify_words i (snd p) else None) with Some r => r :: rs | None => rs end)
  end.

Definition rx_thread_prog (verify : bool) (sel : list select_result) : prog (list (Z * Z)) :=
  rx_loop_prog verify sel 0.

(** ** Two threads

    At each element of the schedule the first ([true]) or the second thread makes
    its next call, if it has one; behind the schedule the first runs to its end
    and then the second. *)
Fixpoint interleave {G A B} (tx rx : ∀ C, call C → M G C) (sched : list bool) (a : prog A) (b : prog B) :
    M G (A * B) :=
  match sched with
  | [] => x ← run tx a; y ← run rx b; mret (x, y)
  | true :: sched' =>
      match a with
      | Ret _ => interleave tx rx sched' a b
      | Crash f => raise f
      | Call c k => o ← tx _ c; interleave tx rx sched' (k o) b
      end
  | false :: sched' =>
      match b with
      | Ret _ => interleave tx rx sched' a b
      | Crash f => raise f
      | Call c k => o ← rx _ c; interleave tx rx sched' a (k o)
      end
  end.

Section Body.
Context {P T R G : Type} `{MappedDevice P} `{StreamDevice T} `{StreamDevice R}.
Context (at_map : ∀ {A}, M P A → M G A) (at_tx : ∀ {A}, M T A → M G A) (at_rx : ∀ {A}, M R A → M G A).
#[local] Arguments at_map {A} _.
#[local] Arguments at_tx {A} _.
#[local] Arguments at_rx {A} _.

(** The body of [txrx_test_thread] between opening and closing: the registers,
    the two threads, and the reset once both were joined. *)
Definition thread_test_body (verify : bool) (stop : nat → bool) (sel : list select_result) (sched : list bool) :
    M G (nat * list (Z * Z)) :=
  at_map (write_registers [(5, 3); (6, 1024 * 4); (7, 16); (5, 0)]) ;;
  r ← interleave (λ _ c, at_tx (exec c)) (λ _ c, at_rx (exec c)) sched
        (tx_thread_prog stop (mk_config (1024 * 16) (total_size 1000000 (1024 * 16))))
        (rx_thread_prog verify sel);
  hold_reset (@at_map) ;;
  mret r.

End Body.

(** ** Lemmas: a thread alone is the loop of [TestApp] *)

Section Alone.
Context {D : Type} `{StreamDevice D}.

(** On the device the program does what the computation does. *)
Definition implements {A} (p : prog A) (m : M D A) : Prop := run (@exec D _) p ≡ m.

Lemma implements_ret {A} (a : A) : implements (mret a) (mret a).
Proof. by intros s. Qed.

Lemma implements_perform {B} (c : call B) : implements (perform c) (exec c).
Proof. intros s. simpl. unfold mbind, M_bind. by destruct (exec c s) as [[]|]. Qed.

Lemma implements_crash {A} f : implements (Crash (A:=A) f) (raise f).
Proof. by intros s. Qed.

Lemma implements_bind {A B} (p : prog A) m (k : A → prog B) k' :
  implements p m → (∀ a, implements (k a) (k' a)) → implements (p ≫= k) (m ≫= k').
Proof.
  intros Hp Hk s.
  transitivity ((run (@exec D _) p ≫= λ a, run (@exec D _) (k a)) s).
  - clear Hp. revert s. induction p as [a|f|C c k0 IH]; intros s; [done|done|].
    simpl. unfold mbind, M_bind. destruct (exec c s) as [[o s']|f]; [|done]. apply IH.
  - specialize (Hp s). unfold mbind, M_bind. rewrite Hp. destruct (m s) as [[a s']|f]; [apply Hk|done].
Qed.

Lemma implements_for n body body' lo :
  (∀ i, implements (body i) (body' i)) → implements (prog_for lo n body) (for_from lo n body').
Proof. intros Hb. revert lo. induction n as [|n IH]; intros lo; [apply implements_ret|]. by apply implements_bind. Qed.

Hint Resolve implements_ret implements_crash implements_bind implements_for : implements.
Hint Extern 1 (implements (perform ?c) _) => exact (implements_perform c) : implements.

Lemma implements_get_buffer : implements get_buffer_prog get_buffer.
Proof. apply implements_bind; [exact (implements_perform CGet)|]. intros [b|]; auto with implements. Qed.

Lemma implements_put_word b off v : implements (put_word_prog b off v) (put_word b off v).
Proof. exact (implements_perform (CFill b off (le_bytes 4 v))). Qed.

Hint Resolve implements_get_buffer implements_put_word : implements.

Lemma implements_send_packet dts tts packet_size word :
  implements (send_packet_prog dts tts packet_size word) (send_packet dts tts packet_size word).
Proof.
  apply implements_bind; [auto with implements|]. intros b.
  apply implements_bind; [unfold fill_packet; auto 10 with implements|]. intros _.
  exact (implements_perform (CWrite b _)).
Qed.

Lemma implements_tx_loop stop start packet_size n j :
  implements (tx_loop_prog stop start packet_size n j) (tx_loop stop start packet_size n j).
Proof.
  revert j. induction n as [|n IH]; intros j; [apply implements_ret|]. cbn [tx_loop_prog tx_loop].
  destruct (stop j); [apply implements_ret|]. apply implements_bind; [apply implements_send_packet|]. by intros [].
Qed.

Lemma implements_receive_packet : implements receive_packet_prog receive_packet.
Proof.
  apply implements_bind; [unfold rx_mark; auto 10 with implements|]. intros b.
  apply implements_bind; [exact (implements_perform (CRead b _))|]. intros _.
  apply implements_bind; [exact (implements_perform CSync)|]. intros _.
  apply implements_bind; [exact (implements_perform (CBytes b _))|]. intros header. cbv zeta.
  apply implements_bind; [exact (implements_perform (CBytes b _))|]. intros bytes. apply implements_ret.
Qed.

Lemma implements_rx_loop verify sel i : implements (rx_loop_prog verify sel i) (rx_loop verify sel i).
Proof.
  revert i. induction sel as [|[| |[]] sel IH]; intros i; cbn [rx_loop_prog rx_loop]; auto with implements.
  apply implements_bind; [apply implements_receive_packet|]. intros [len ws].
  apply implements_bind; [apply IH|]. intros rs. apply implements_ret.
Qed.

Lemma implements_tx_thread stop c : implements (tx_thread_prog stop c) (tx_thread stop c).
Proof. apply implements_tx_loop. Qed.

Lemma implements_rx_thread verify sel : implements (rx_thread_prog verify sel) (rx_thread verify sel).
Proof. apply implements_rx_loop. Qed.

End Alone.

(** ** Lemmas: threads on different devices *)

Section Apart.
Context {G T R : Type} `{StreamDevice T} `{StreamDevice R}.
Context (tx rx : ∀ C, call C → M G C) (emb : T → R → G).

(** A call of a thread concerns its own device only. *)
Hypothesis tx_apart : ∀ C (c : call C) t r,
  tx C c (emb t r) = match exec c t with Done (o, t') => Done (o, emb t' r) | Fault f => Fault f end.
Hypothesis rx_apart : ∀ C (c : call C) t r,
  rx C c (emb t r) = match exec c r with Done (o, r') => Done (o, emb t r') | Fault f => Fault f end.

Lemma run_tx {A} (a : prog A) t r :
  run tx a (emb t r) = match run (@exec T _) a t with Done (x, t') => Done (x, emb t' r) | Fault f => Fault f end.
Proof.
  revert t. induction a as [x|f|C c k IH]; intros t; [done|done|]. simpl. unfold mbind, M_bind.
  rewrite tx_apart. destruct (exec c t) as [[o t']|f]; [apply IH|done].
Qed.

Lemma run_rx {B} (b : prog B) t r :
  run rx b (emb t r) = match run (@exec R _) b r with Done (y, r') => Done (y, emb t r') | Fault f => Fault f end.
Proof.
  revert r. induction b as [y|f|C c k IH]; intros r; [done|done|]. simpl. unfold mbind, M_bind.
  rewrite rx_apart. destruct (exec c r) as [[o r']|f]; [apply IH|done].
Qed.

(** Whatever the schedule, both threads end as if they had run alone. *)
Lemma interleave_run {A B} sched (a : prog A) (b : prog B) t r x t' y r' :
  run (@exec T _) a t = Done (x, t') → run (@exec R _) b r = Done (y, r') →
  interleave tx rx sched a b (emb t r) = Done ((x, y), emb t' r').
Proof.
  revert a b t r. induction sched as [|[] sched IH]; intros a b t r Ha Hb.
  - simpl. eapply bind_done; [by rewrite run_tx, Ha|]. eapply bind_done; [by rewrite run_rx, Hb|done].
  - destruct a as [x0|f|C c k]; [by apply IH|done|]. simpl in Ha |- *.
    apply bind_inv in Ha as (o & t1 & Hc & Ha). eapply bind_done; [by rewrite tx_apart, Hc|]. by apply IH.
  - destruct b as [y0|f|C c k]; [by apply IH|done|]. simpl in Hb |- *.
    apply bind_inv in Hb as (o & r1 & Hc & Hb). eapply bind_done; [by rewrite rx_apart, Hc|]. by apply IH.
Qed.

(** A thread that faults takes the process with it, whatever the schedule. *)
Lemma interleave_fault {A B} sched (a : prog A) (b : prog B) t r x t' f :
  run (@exec T _) a t = Done (x, t') → run (@exec R _) b r = Fault f →
  interleave tx rx sched a b (emb t r) = Fault f.
Proof.
  revert a b t r. induction sched as [|[] sched IH]; intros a b t r Ha Hb.
  - simpl. eapply bind_done; [by rewrite run_tx, Ha|]. apply bind_fault. by rewrite run_rx, Hb.
  - destruct a as [x0|g|C c k]; [by apply IH|done|]. simpl in Ha |- *.
    apply bind_inv in Ha as (o & t1 & Hc & Ha). eapply bind_done; [by rewrite tx_apart, Hc|]. by apply IH.
  - destruct b as [y0|g|C c k]; [done|simpl in *; by injection Hb as ->|].
    destruct (exec c r) as [[o r1]|g] eqn:Hc; simpl in Hb |- *; unfold mbind, M_bind in *;
      rewrite ?rx_apart, Hc in *; [by apply IH|by injection Hb as ->].
Qed.

End Apart.
