(* ===== verification/LocalReceive.v ===== *)
(** * LocalReceive: a local stream device the hardware writes into

    The receiving direction of [src/lib/bbio/src/bbio_backend_local.c]: the ring
    of [LocalBackend] on the channel of [DmaChannel], next to an engine that
    stores the blocks of a stream into the buffers whose transfer is in flight.
    The device keeps the contracts the programs are written against
    ([TestApp.StreamReader] and [Devices.StreamSource]), so the receiving thread
    of the test application checks what the hardware received, and the server's
    command handler, which the server as it is starts for nobody
    ([StreamChannel]), sends a client what is in this machine's DMA buffers. *)
From Stdlib Require Import ZArith Lia.
From stdpp Require Import base list numbers option gmap sets.
From S2P Require Import Prelude Socket NetClient DmaChannel BufferData Devices BackendCall Remote LocalBackend ZeroCopy LocalStream TestApp Threads.

(** ** The engine of a receiving channel *)

(** The data of the buffers after the engine stored a received block by a
    transfer: at the transfer's bus address, and no more than its length. *)
Definition dma_store (phys : Z) (sg : Z * Z) (blk : list Z) (t : list (gmap Z Z)) : list (gmap Z Z) :=
  let i := Z.to_nat ((fst sg - phys) / sizeof_channel_buffer) in
  match t !! i with
  | Some g =>
      match store_bytes 0 (take (Z.to_nat (snd sg)) blk) g with
      | Some g' => <[i := g']> t
      | None => t
      end
  | None => t
  end.

(** Transfers take the blocks in order. *)
Fixpoint dma_stores (phys : Z) (sgs : list (Z * Z)) (blks : list (list Z)) (t : list (gmap Z Z)) :
    list (gmap Z Z) :=
  match sgs, blks with
  | sg :: sgs', blk :: blks' => dma_stores phys sgs' blks' (dma_store phys sg blk t)
  | _, _ => t
  end.

(** [incoming e] are the blocks the stream will still deliver.  While a thread
    waits, [k] transfers finish: the oldest ones, each with the next block.  The
    wait is woken when a block comes for its transfer, and the engine says of a
    transfer that left its queue that it is complete. *)
Class ReceiveEngine (E : Type) `{EngineQueue E} := {
  incoming : E → list (list Z);
  receive_prep : ∀ sg dir e ds e1, device_prep_slave_sg sg dir e = (ds, e1) →
    is_Some ds ∧ incoming e1 = incoming e;
  receive_submit : ∀ ds i e c e1 sg, prepared e ds = Some sg → dmaengine_submit ds i e = (c, e1) →
    dma_submit_error c = false ∧ incoming e1 = incoming e;
  receive_issue : ∀ e, incoming (dma_async_issue_pending e) = incoming e;
  receive_wait : ∀ bd jiffies pc r pc' d,
    wait_for_completion_interruptible_timeout bd jiffies pc = Done (r, pc') →
    bdtable pc !! bd = Some d →
    let queue := in_flight (channel_p pc) in
    let inc := incoming (channel_p pc) in
    (∃ k, (k ≤ length queue)%nat ∧ (k ≤ length inc)%nat ∧
       in_flight (channel_p pc') = drop k queue ∧ incoming (channel_p pc') = drop k inc ∧
       datas pc' = dma_stores (buffer_phys_addr pc) (snd <$> take k queue) (take k inc) <$> datas pc) ∧
    ∀ q1 sg q2, queue = q1 ++ (cookie d, sg) :: q2 → cookie d ∉ q2.*1 →
      (length q1 < length inc)%nat → 0 < r;
  receive_complete : ∀ c e, c ∉ (in_flight e).*1 → dma_async_is_tx_complete c e = DMA_COMPLETE
}.

(** ** The device *)

(** [device->ch] as [io_open_stream_local] fills it: reading and writing are the
    same function. *)
Definition ring_device {E} `{DmaEngine E} (jiffies : Z) : StreamDevice (ring (dma_proxy_channel E)) :=
  let D := channel_driver jiffies in {|
    io_stream_get_buffer := io_stream_zc_buffer_local;
    fill_buffer := λ i off x, on_driver (store_buffer i off x);
    buffer_bytes := λ i n, on_driver (load_buffer i n);
    io_write_stream_device := λ i n, io_write_stream_local i n ;; mret tt;
    io_read_stream_device := λ i n, io_write_stream_local i n ;; mret tt;
    fill_struct := λ i off x, on_driver (store_struct i off x);
    io_sync_stream_device := io_finish_stream_local
  |}.

(** ** Lemmas: one command *)

Section Commands.
Context {E : Type} `{ReceiveEngine E} `{!DmaEngineLaws E} (jiffies : Z).
Abbreviation chan := (dma_proxy_channel E).
Implicit Types (pc : chan) (d : proxy_bd) (b : channel_buffer).

Abbreviation queue pc := (in_flight (channel_p pc)).
Abbreviation stream pc := (incoming (channel_p pc)).

Lemma datas_lookup pc t i : datas pc = Some t → t !! i = data_at pc i.
Proof.
  unfold datas, data_at. destruct (buffer_table_p pc) as [l|]; [|done].
  intros Hd. injection Hd as <-. simpl. by rewrite list_lookup_fmap.
Qed.

(** A block received into buffer [i]. *)
Lemma dma_store_block pc i g blk t :
  datas pc = Some t → data_at pc i = Some g → is_block blk → Forall is_byte blk →
  ∃ g', dma_store (buffer_phys_addr pc) (bus_address pc i, BUFFER_SIZE) blk t = <[i := g']> t ∧
        buffer_data g' = blk.
Proof.
  intros Ht Hg Hb Hby. pose proof (length_buffer_data g) as Hl. unfold is_block in Hb.
  destruct (store_data 0 blk g Hby) as (g' & Hs & Hd); [lia|].
  exists g'. unfold dma_store. cbn [fst snd]. rewrite bus_index, Nat2Z.id, (datas_lookup pc t i Ht), Hg.
  rewrite take_ge by lia. change 0 with (Z.of_nat 0). rewrite Hs. split; [done|].
  rewrite Hd. unfold overwrite. rewrite drop_ge by lia. cbn [take app]. apply app_nil_r.
Qed.

(** A wait for the only transfer in flight, when a block comes for it. *)
Lemma wait_receives i d pc blk inc ret pc' :
  wf_channel pc → bdtable pc !! i = Some d → queue pc = [(cookie d, (bus_address pc i, BUFFER_SIZE))] →
  stream pc = blk :: inc → wait_for_completion_interruptible_timeout i jiffies pc = Done (ret, pc') →
  queue pc' = [] ∧ stream pc' = inc ∧
  final_status (u64 ret) (dma_async_is_tx_complete (cookie d) (channel_p pc')) = PROXY_NO_ERROR ∧
  datas pc' = dma_store (buffer_phys_addr pc) (bus_address pc i, BUFFER_SIZE) blk <$> datas pc.
Proof.
  intros Hwf Hbd Hq Hinc Hw.
  destruct (wait_returns i jiffies pc (wf_count _ Hwf)) as (ret' & pc2 & Hw2 & Hrange & _).
  rewrite Hw in Hw2. injection Hw2 as <- <-.
  destruct (receive_wait _ _ _ _ _ d Hw Hbd) as [(k & Hk1 & Hk2 & Hq1 & Hi1 & Hd1) Hpos].
  destruct (queue_wait _ _ _ _ _ d Hw Hbd) as [_ Hgone]. rewrite Hq, Hinc in *.
  assert (0 < ret) as Hret.
  { apply (Hpos [] (bus_address pc i, BUFFER_SIZE) []); [done|apply not_elem_of_nil|simpl; lia]. }
  specialize (Hgone Hret (bus_address pc i, BUFFER_SIZE)).
  assert (k = 1%nat) as ->.
  { simpl in Hk1. destruct k as [|[|k]]; [|done|lia]. exfalso. apply Hgone. rewrite Hq1. by apply list_elem_of_singleton. }
  split; [done|]. split; [done|]. split; [|exact Hd1].
  rewrite receive_complete by (rewrite Hq1; apply not_elem_of_nil). unfold final_status.
  rewrite uwrap_small by lia. rewrite (proj2 (Z.eqb_neq _ _)) by lia. by rewrite bool_decide_eq_true_2.
Qed.

(** Finishing the only transfer in flight stores its block. *)
Lemma finish_receives i d b blk inc pc r pc' :
  wf_channel pc → (i < BUFFER_COUNT)%nat → slot pc i d b →
  queue pc = [(cookie d, (bus_address pc i, BUFFER_SIZE))] → stream pc = blk :: inc →
  is_block blk → Forall is_byte blk →
  channel_ioctl jiffies FINISH_XFER (Z.of_nat i) pc = Done (r, pc') →
  queue pc' = [] ∧ stream pc' = inc ∧ status_at pc' i = Some PROXY_NO_ERROR ∧
  ∃ g', datas pc' = (<[i := g']>) <$> datas pc ∧ buffer_data g' = blk.
Proof.
  intros Hwf Hi Hs0 Hq Hinc Hblk Hby Hw0%finish_inv; [|done].
  set (pc0 := set_bdindex (Z.of_nat i) pc) in *.
  assert (slot pc0 i d b) as Hs by exact Hs0.
  assert (wf_channel pc0) as Hwf0 by (by apply wf_set_bdindex).
  destruct (wait_run pc0 i d b jiffies Hwf0 eq_refl Hs) as (pc1 & ret & n & b1 & Hw & _ & Hs1 & _ & Hr).
  rewrite Hw0 in Hr. injection Hr as Hr.
  set (p0 := put_buffer i (set_cb_status PROXY_BUSY b) pc0) in *.
  assert (channel_p p0 = channel_p pc) as Hc0 by exact (chan_put_buffer i _ pc0).
  assert (buffer_phys_addr p0 = buffer_phys_addr pc) as Hp0 by exact (phys_put_buffer i _ pc0).
  assert (datas p0 = datas pc) as Hd0 by exact (datas_put_buffer pc0 i d b (set_cb_status PROXY_BUSY b) Hs eq_refl).
  destruct (wait_receives i d p0 blk inc ret pc1) as (Hq1 & Hi1 & Hst & Hd1).
  { by apply wf_put_buffer. }
  { exact (proj1 (slot_put_buffer pc0 i d b _ Hs)). }
  { unfold bus_address. rewrite Hc0, Hp0. exact Hq. }
  { by rewrite Hc0. }
  { exact Hw. }
  rewrite Hst, bool_decide_eq_true_2 in Hr by done.
  set (pc3 := put_buffer i (set_cb_status PROXY_NO_ERROR b1) pc1) in Hr.
  assert (channel_p pc3 = channel_p pc1) as Hc3 by (unfold pc3; apply chan_put_buffer).
  destruct (slot_view pc3 i _ _ (slot_put_buffer pc1 i _ _ (set_cb_status PROXY_NO_ERROR b1) Hs1)) as [_ Hst3].
  rewrite Hr. split; [cbn; by rewrite Hc3|]. split; [cbn; by rewrite Hc3|]. split; [exact Hst3|].
  assert (datas pc3 = datas pc1) as Hd3
    by exact (datas_put_buffer pc1 i (set_cmp_done n d) b1 (set_cb_status PROXY_NO_ERROR b1) Hs1 eq_refl).
  destruct (datas pc) as [t|] eqn:Ht;
    [|destruct Hs0 as (_ & l & Hl & _); unfold datas in Ht; by rewrite Hl in Ht].
  destruct (dma_store_block pc i (cb_buffer b) blk t Ht) as (g' & Hg' & Hdata); [by eapply slot_data|done|done|].
  exists g'. split; [|exact Hdata]. transitivity (datas pc3); [done|].
  rewrite Hd3, Hd1, Hd0. cbn [fmap option_fmap option_map]. unfold bus_address in *. by rewrite Hp0, Hg'.
Qed.

(** Starting the transfer of a buffer on a channel with nothing in flight. *)
Lemma start_receives i d b pc r pc' :
  wf_channel pc → (i < BUFFER_COUNT)%nat → slot pc i d b → queue pc = [] →
  channel_ioctl jiffies START_XFER (Z.of_nat i) pc = Done (r, pc') →
  ∃ d' b', slot pc' i d' b' ∧ cb_status b' = PROXY_QUEUED ∧
    queue pc' = [(cookie d', (bus_address pc' i, cb_length b))] ∧ stream pc' = stream pc ∧
    datas pc' = datas pc.
Proof.
  intros Hwf Hi Hs0 Hq Hw0%start_inv; [|done].
  set (pc0 := set_bdindex (Z.of_nat i) pc) in *.
  assert (slot pc0 i d b) as Hs by exact Hs0.
  pose proof (start_keeps_data pc0 i d b pc' eq_refl Hs Hw0) as Hd.
  rewrite (start_run pc0 i d b eq_refl Hs) in Hw0.
  destruct (device_prep_slave_sg _ _ _) as [o e1] eqn:Ep.
  destruct (receive_prep _ _ _ _ _ Ep) as [[ds ->] Hi1]. apply queue_prep in Ep as [Hq1 Hds].
  specialize (Hds ds eq_refl). destruct (dmaengine_submit ds i e1) as [c e2] eqn:Es.
  destruct (receive_submit _ _ _ _ _ _ Hds Es) as [Hc Hi2]. apply (queue_submit _ _ _ _ _ _ Hds) in Es.
  rewrite Hc in Es, Hw0. cbn [channel_p pc0 set_bdindex] in Hq1, Hi1. rewrite Hq1, Hq in Es.
  injection Hw0 as Hw0.
  pose proof (slot_submitted pc0 i d b c e2 Hs) as Hs1.
  do 2 eexists. split; [rewrite <-Hw0; eapply slot_set_engine, slot_put_buffer, Hs1|].
  split; [done|]. rewrite <-Hw0. cbn [channel_p set_engine]. rewrite queue_issue, receive_issue.
  split; [|split; [by rewrite Hi2, Hi1|rewrite Hw0; exact Hd]].
  rewrite Es. cbn [app cookie set_cookie]. unfold bus_address. cbn [buffer_phys_addr set_engine].
  rewrite phys_put_buffer. cbn [buffer_phys_addr submitted set_engine put_bd set_bdtable pc0 set_bdindex].
  do 3 f_equal. exact (slot_bus pc i d b Hwf Hs0).
Qed.

End Commands.

(** ** The states of a receiving ring *)

(** The blocks of a stream: each fills a buffer. *)
Definition good_blocks (blks : list (list Z)) : Prop := Forall (λ blk, is_block blk ∧ Forall is_byte blk) blks.

Section States.
Context {E : Type} `{ReceiveEngine E} `{!DmaEngineLaws E} (jiffies : Z).
Abbreviation chan := (dma_proxy_channel E).
Implicit Types (pc : chan) (r : ring chan).

#[local] Instance driver : DmaDriver chan := channel_driver jiffies.
#[local] Instance driver_laws : DmaDriverLaws chan := channel_driver_laws jiffies.

(** The buffer [j] places behind the next one, and what the buffers hold from
    the next one on. *)
Definition at_ring r (j : nat) : nat := ((Z.to_nat (current_buffer_id r) + j) mod BUFFER_COUNT)%nat.

Definition ring_blocks r : list (list Z) :=
  (λ j, buffer_data (default ∅ (data_at (rg_driver r) (at_ring r j)))) <$> seq 0 BUFFER_COUNT.

(** No transfer is outstanding. *)
Record receive_idle (inc : list (list Z)) r : Prop := {
  ri_ring : wf_ring r;
  ri_status : ∀ i, (i < BUFFER_COUNT)%nat → status_at (rg_driver r) i = Some PROXY_NO_ERROR;
  ri_queue : in_flight (channel_p (rg_driver r)) = [];
  ri_stream : incoming (channel_p (rg_driver r)) = inc;
  ri_good : good_blocks inc
}.

(** The transfer of buffer [i] is in flight and no other. *)
Record receive_pending (i : nat) (inc : list (list Z)) r : Prop := {
  rp_ring : wf_ring r;
  rp_index : (i < BUFFER_COUNT)%nat;
  rp_queue : ∃ d b, slot (rg_driver r) i d b ∧ cb_status b = PROXY_QUEUED ∧
    in_flight (channel_p (rg_driver r)) = [(cookie d, (bus_address (rg_driver r) i, BUFFER_SIZE))];
  rp_status : ∀ j, (j < BUFFER_COUNT)%nat → j ≠ i → status_at (rg_driver r) j = Some PROXY_NO_ERROR;
  rp_stream : incoming (channel_p (rg_driver r)) = inc;
  rp_good : good_blocks inc
}.

(** ** Lemmas: the calls *)

Lemma data_insert pc pc' i g :
  wf_channel pc → (i < BUFFER_COUNT)%nat → datas pc' = (<[i := g]>) <$> datas pc →
  data_at pc' i = Some g ∧ ∀ j, j ≠ i → data_at pc' j = data_at pc j.
Proof.
  intros Hwf Hi Hd. destruct (wf_buffers pc Hwf) as (l & Hl & Hlen).
  assert (datas pc = Some (cb_buffer <$> l)) as Ht by (unfold datas; by rewrite Hl).
  rewrite Ht in Hd. cbn [fmap option_fmap option_map] in Hd.
  split; [|intros j Hj]; rewrite <-(datas_lookup pc' _ _ Hd).
  - apply list_lookup_insert_eq. rewrite length_fmap. lia.
  - rewrite list_lookup_insert_ne by done. by apply datas_lookup.
Qed.

Lemma get_ready r :
  wf_ring r → status_at (rg_driver r) (Z.to_nat (current_buffer_id r)) = Some PROXY_NO_ERROR →
  io_stream_zc_buffer_local r =
    Done (Some (Z.to_nat (current_buffer_id r)),
          mk_ring (rg_driver r) (buffer_count r) ((current_buffer_id r + 1) mod Z.of_nat BUFFER_COUNT)).
Proof.
  intros Hr Hst. pose proof (wr_current r Hr) as Hc. unfold io_stream_zc_buffer_local.
  assert (status_of (current_buffer_id r) r = Done (PROXY_NO_ERROR, r)) as Hs.
  { rewrite <-(Z2Nat.id (current_buffer_id r)) by lia. by apply status_of_run. }
  eapply bind_done; [done|]. eapply bind_done; [exact Hs|]. rewrite bool_decide_eq_true_2 by done.
  eapply bind_done; [done|]. eapply bind_done; [exact Hs|]. rewrite bool_decide_eq_false_2 by done.
  eapply bind_done; [done|]. rewrite (wr_count r Hr), uwrap_small; [done|]. unfold BUFFER_COUNT in Hc. lia.
Qed.

Lemma sync_ready r :
  wf_ring r → (∀ i, (i < BUFFER_COUNT)%nat → status_at (rg_driver r) i = Some PROXY_NO_ERROR) →
  io_finish_stream_local r = Done (tt, r).
Proof.
  intros Hr Hst. assert (wp io_finish_stream_local (λ _ r', r' = r) r) as Hwp.
  { unfold io_finish_stream_local. wp_step. rewrite (wr_count r Hr), Nat2Z.id.
    apply (wp_for (λ _ r', r' = r)); [|done]. intros k r1 Hk ->.
    apply wp_bind. eapply wp_done; [apply status_of_run; by apply Hst|]. by rewrite bool_decide_eq_true_2. }
  apply wp_run in Hwp as ([] & r' & Hrun & ->). exact Hrun.
Qed.

(** Waiting for the buffer in flight. *)
Lemma sync_pending i blk inc r :
  receive_pending i (blk :: inc) r →
  ∃ r' g, io_finish_stream_local r = Done (tt, r') ∧ receive_idle inc r' ∧
    current_buffer_id r' = current_buffer_id r ∧
    datas (rg_driver r') = (<[i := g]>) <$> datas (rg_driver r) ∧ buffer_data g = blk.
Proof.
  intros [Hr Hi (d & b & Hs & Hb & Hq) Hst Hinc Hgood].
  apply Forall_cons in Hgood as [[Hblk Hby] Hgood].
  set (post := λ r', receive_idle inc r' ∧ current_buffer_id r' = current_buffer_id r ∧
    ∃ g, datas (rg_driver r') = (<[i := g]>) <$> datas (rg_driver r) ∧ buffer_data g = blk).
  assert (wp io_finish_stream_local (λ _, post) r) as Hwp.
  { unfold io_finish_stream_local. wp_step. rewrite (wr_count r Hr), Nat2Z.id.
    eapply wp_mono; [apply (wp_for (λ k r', (k ≤ i)%nat ∧ r' = r ∨ (i < k)%nat ∧ post r'))|].
    - intros k r1 Hk [[Hle ->]|[Hlt Hp]]; apply wp_bind.
      + destruct (decide (k = i)) as [->|Hne].
        * eapply wp_done; [apply (status_of_run r i PROXY_QUEUED); rewrite <-Hb; by apply (slot_view _ i d b)|].
          destruct (law_finish (rg_driver r) i (wr_ok r Hr) Hi) as (c & st & Hio & Hok & _ & _ & Ho).
          destruct (finish_receives jiffies i d b blk inc (rg_driver r) 0 c) as (Hq' & Hi' & Hst' & g & Hd & Hg);
            try done; [apply (wr_ok r Hr)|].
          apply wp_bind. eapply wp_done; [by apply on_driver_run|]. right. split; [lia|].
          split; [split|split; [done|by exists g]]; try done; [by apply wf_ring_driver|].
          intros j Hj. destruct (decide (j = i)) as [->|Hne]; [done|]. specialize (Ho j Hne).
          change (status_at c j = status_at (rg_driver r) j) in Ho. cbn [rg_driver]. rewrite Ho. by apply Hst.
        * eapply wp_done; [apply status_of_run; by apply Hst|]. rewrite bool_decide_eq_true_2 by done.
          left. split; [lia|done].
      + eapply wp_done; [apply status_of_run; by apply (ri_status _ _ (proj1 Hp))|].
        rewrite bool_decide_eq_true_2 by done. right. split; [lia|done].
    - left. split; [lia|done].
    - intros [] r' [[Hle _]|[_ Hp]]; [lia|done]. }
  apply wp_run in Hwp as ([] & r' & Hrun & Hidle & Hcur & g & Hd & Hg). by exists r', g.
Qed.

(** Starting the transfer of a whole buffer. *)
Lemma read_idle i inc r :
  receive_idle inc r → (i < BUFFER_COUNT)%nat →
  ∃ r', (io_write_stream_local i BUFFER_SIZE ;; mret tt) r = Done (tt, r') ∧
    receive_pending i inc r' ∧ current_buffer_id r' = current_buffer_id r ∧
    datas (rg_driver r') = datas (rg_driver r).
Proof.
  intros [Hr Hst Hq Hinc Hgood] Hi. set (pc := rg_driver r) in *.
  destruct (slot_exists pc i (wr_ok r Hr) Hi) as (d & b & Hs).
  destruct (write_ring_run r i BUFFER_SIZE Hr Hi) as (r' & Hrun & Hr' & Hcur & Ho).
  exists r'. split; [by eapply bind_done|].
  apply bind_inv in Hrun as ([] & r1 & H1' & Hrun). apply on_driver_inv in H1' as [H1' _]. fold pc in H1'.
  change (drv_set_length i BUFFER_SIZE) with (update_buffer (E:=E) (Z.of_nat i) (set_cb_length BUFFER_SIZE)) in H1'.
  erewrite update_buffer_run in H1' by exact Hs. injection H1' as H1'.
  apply bind_inv in Hrun as (x & r2 & H2 & Hrun). apply on_driver_inv in H2 as [H2 _].
  unfold mret, M_ret in Hrun. injection Hrun as <-. rewrite <-H1' in H2.
  set (b1 := set_cb_length BUFFER_SIZE b) in *. set (pc1 := put_buffer i b1 pc) in *.
  assert (wf_channel pc1) as Hwf1 by (apply wf_put_buffer, (wr_ok r Hr)).
  assert (slot pc1 i d b1) as Hs1 by exact (slot_put_buffer pc i d b b1 Hs).
  destruct (start_receives jiffies i d b1 pc1 x (rg_driver r2)) as (d' & b' & Hs' & Hb' & Hq' & Hi' & Hd');
    [done|done|done|unfold pc1; by rewrite queue_put_buffer|exact H2|].
  split; [|split; [done|rewrite Hd'; by apply (datas_put_buffer pc i d b)]].
  split; try done.
  - exists d', b'. split; [done|]. split; [done|]. exact Hq'.
  - intros j Hj Hne. specialize (Ho j Hne).
    change (status_at (rg_driver r2) j = status_at pc j) in Ho. rewrite Ho. by apply Hst.
  - rewrite Hi'. unfold pc1. by rewrite chan_put_buffer.
Qed.

End States.

(** ** Lemmas: the application's accesses *)

Section Accesses.
Context {E : Type} `{ReceiveEngine E} `{!DmaEngineLaws E} (jiffies : Z).
Abbreviation chan := (dma_proxy_channel E).
Implicit Types (pc : chan) (r : ring chan).

#[local] Instance driver2 : DmaDriver chan := channel_driver jiffies.
#[local] Instance driver2_laws : DmaDriverLaws chan := channel_driver_laws jiffies.
#[local] Instance device : StreamDevice (ring chan) := ring_device jiffies.

(** Storing into any words succeeds inside the buffer. *)
Lemma store_bytes_some off bs g :
  0 ≤ off → off + Z.of_nat (length bs) ≤ BUFFER_SIZE → is_Some (store_bytes off bs g).
Proof.
  revert off g. induction bs as [|b bs IH]; intros off g Hoff Hle; [done|].
  cbn [store_bytes length] in *. rewrite (proj2 (Z.ltb_lt _ _)) by lia. apply IH; lia.
Qed.

Lemma fill_idle i off x inc r :
  receive_idle jiffies inc r → (i < BUFFER_COUNT)%nat → 0 ≤ off → off + Z.of_nat (length x) ≤ BUFFER_SIZE →
  ∃ r' g, fill_buffer i off x r = Done (tt, r') ∧ receive_idle jiffies inc r' ∧
    current_buffer_id r' = current_buffer_id r ∧
    datas (rg_driver r') = (<[i := g]>) <$> datas (rg_driver r).
Proof.
  intros [Hr Hst Hq Hinc Hgood] Hi Hoff Hle. destruct (slot_exists _ i (wr_ok r Hr) Hi) as (d & b & Hs).
  destruct (store_bytes_some off x (cb_buffer b) Hoff Hle) as [g Hg].
  set (pc' := put_buffer i (set_cb_buffer g b) (rg_driver r)).
  exists (mk_ring pc' (buffer_count r) (current_buffer_id r)), g.
  pose proof (slot_put_buffer _ i d b (set_cb_buffer g b) Hs) as Hs'.
  split; [apply on_driver_run; rewrite <-(Z2Nat.id off) by lia;
    rewrite (store_buffer_run i _ x _ d b Hs), Z2Nat.id, Hg by lia; done|].
  split; [|split; [done|]].
  - split; [apply wf_ring_driver; [done|by apply wf_put_buffer, (wr_ok r Hr)]| | | |done].
    + intros j Hj. cbn [rg_driver]. unfold pc'. destruct (decide (j = i)) as [->|Hne].
      * destruct (slot_view _ _ _ _ Hs') as [_ Hv]. rewrite Hv. cbn [cb_status set_cb_buffer].
        destruct (slot_view _ _ _ _ Hs) as [_ Hv']. rewrite <-Hv'. by apply Hst.
      * rewrite <-(Hst j Hj). apply (frame_status i); [apply (wr_ok r Hr)|by apply wf_put_buffer, (wr_ok r Hr)| |done].
        by eapply frame_put_buffer.
    + cbn [rg_driver]. unfold pc'. by rewrite chan_put_buffer.
    + cbn [rg_driver]. unfold pc'. by rewrite chan_put_buffer.
  - cbn [rg_driver]. unfold pc', put_buffer, datas. destruct Hs as (_ & l & Hl & _). rewrite Hl.
    cbn [buffer_table_p set_buffers fmap option_fmap option_map]. by rewrite list_fmap_insert.
Qed.

Lemma bytes_run i g n r :
  wf_ring r → (i < BUFFER_COUNT)%nat → data_at (rg_driver r) i = Some g → Z.of_nat n ≤ BUFFER_SIZE →
  buffer_bytes i n r = Done (take n (buffer_data g), r).
Proof.
  intros Hr Hi Hg Hn. destruct (slot_exists _ i (wr_ok r Hr) Hi) as (d & b & Hs).
  rewrite (slot_data _ i d b Hs) in Hg. injection Hg as <-.
  rewrite take_buffer_data by lia. destruct r as [pc c k].
  change (on_driver (load_buffer i n) (mk_ring pc c k) = Done (load n (cb_buffer b), mk_ring pc c k)).
  apply (on_driver_run (load_buffer i n) (mk_ring pc c k)). unfold load_buffer.
  eapply bind_done; [by eapply read_buffer_run|]. by rewrite (proj2 (Z.leb_le _ _)).
Qed.

Lemma data_defined i r : wf_ring r → (i < BUFFER_COUNT)%nat → is_Some (data_at (rg_driver r) i).
Proof.
  intros Hr Hi. destruct (slot_exists _ i (wr_ok r Hr) Hi) as (d & b & Hs).
  rewrite (slot_data _ i d b Hs). done.
Qed.

(** ** Lemmas: once around the ring *)

Lemma at_ring_lt r j : (at_ring r j < BUFFER_COUNT)%nat.
Proof. apply Nat.mod_upper_bound. unfold BUFFER_COUNT. lia. Qed.

Lemma at_ring_current r : wf_ring r → Z.to_nat (current_buffer_id r) = at_ring r 0.
Proof. intros [_ _ Hc]. unfold at_ring. rewrite Nat.add_0_r, Nat.mod_small; [done|lia]. Qed.

Lemma at_ring_inj r j k :
  (j < BUFFER_COUNT)%nat → (k < BUFFER_COUNT)%nat → at_ring r j = at_ring r k → j = k.
Proof.
  unfold at_ring. intros Hj Hk He. set (c := Z.to_nat (current_buffer_id r)) in *.
  unfold BUFFER_COUNT in *.
  pose proof (Nat.div_mod_eq (c + j) 32). pose proof (Nat.div_mod_eq (c + k) 32). lia.
Qed.

Lemma at_ring_next r (d : chan) n j :
  wf_ring r → at_ring (mk_ring d n ((current_buffer_id r + 1) mod Z.of_nat BUFFER_COUNT)) j = at_ring r (S j).
Proof.
  intros [_ _ Hc]. unfold at_ring. cbn [current_buffer_id].
  rewrite Z2Nat.inj_mod by lia. rewrite Nat2Z.id, Z2Nat.inj_add by lia.
  rewrite Nat.Div0.add_mod_idemp_l. f_equal. lia.
Qed.

(** One round of the ring ends where it began. *)
Lemma at_ring_round r : at_ring r BUFFER_COUNT = at_ring r 0.
Proof.
  unfold at_ring. rewrite Nat.add_0_r. replace BUFFER_COUNT with (1 * BUFFER_COUNT)%nat at 1 by lia.
  apply Nat.Div0.mod_add.
Qed.

Lemma length_ring_blocks r : length (ring_blocks r) = BUFFER_COUNT.
Proof. unfold ring_blocks. by rewrite length_fmap, length_seq. Qed.

Lemma ring_blocks_lookup r j :
  (j < BUFFER_COUNT)%nat → ring_blocks r !! j = Some (buffer_data (default ∅ (data_at (rg_driver r) (at_ring r j)))).
Proof. intros Hj. unfold ring_blocks. by rewrite list_lookup_fmap, lookup_seq_lt. Qed.

Lemma ring_blocks_good r : Forall is_block (ring_blocks r).
Proof. apply Forall_fmap, Forall_forall. intros j _. unfold compose, is_block. apply length_buffer_data. Qed.

(** Only the buffer behind the next one may differ: all others keep their place. *)
Lemma ring_blocks_last r r' g :
  wf_ring r → current_buffer_id r' = current_buffer_id r →
  datas (rg_driver r') = (<[at_ring r 31 := g]>) <$> datas (rg_driver r) →
  ring_blocks r' = take 31 (ring_blocks r) ++ [buffer_data g].
Proof.
  intros Hr Hc Hd. destruct (data_insert _ _ (at_ring r 31) g (wr_ok r Hr) (at_ring_lt r 31) Hd) as [Hg Ho].
  assert (∀ j, at_ring r' j = at_ring r j) as Ha by (intros j; unfold at_ring; by rewrite Hc).
  assert (length (take 31 (ring_blocks r)) = 31%nat) as Hlen by (by rewrite length_take, (length_ring_blocks r)).
  apply list_eq_same_length with BUFFER_COUNT; [rewrite length_app, Hlen; reflexivity|exact (length_ring_blocks r')|].
  intros j x y Hj Hx Hy. rewrite (ring_blocks_lookup r') in Hx by done. apply (inj Some) in Hx as <-. rewrite Ha.
  destruct (decide (j = 31%nat)) as [->|Hne].
  - rewrite lookup_app_r in Hy by (by rewrite Hlen).
    rewrite Hlen in Hy. change (31 - 31)%nat with 0%nat in Hy.
    apply (inj Some) in Hy as <-. by rewrite Hg.
  - assert (j < 31)%nat by (unfold BUFFER_COUNT in Hj; lia).
    rewrite lookup_app_l in Hy by (by rewrite Hlen).
    rewrite lookup_take_lt, ring_blocks_lookup in Hy by done. apply (inj Some) in Hy as <-. rewrite Ho; [done|].
    intros He%at_ring_inj; [done|done|unfold BUFFER_COUNT; lia].
Qed.

Lemma ring_blocks_next r n :
  wf_ring r →
  ring_blocks (mk_ring (rg_driver r) n ((current_buffer_id r + 1) mod Z.of_nat BUFFER_COUNT)) =
    drop 1 (ring_blocks r) ++ take 1 (ring_blocks r).
Proof.
  intros Hr. set (r' := mk_ring _ _ _).
  assert (length (drop 1 (ring_blocks r)) = 31%nat) as Hlen by (by rewrite length_drop, (length_ring_blocks r)).
  assert (length (take 1 (ring_blocks r)) = 1%nat) as Hlen1 by (by rewrite length_take, (length_ring_blocks r)).
  apply list_eq_same_length with BUFFER_COUNT; [rewrite length_app, Hlen, Hlen1; reflexivity|exact (length_ring_blocks r')|].
  intros j x y Hj Hx Hy. rewrite (ring_blocks_lookup r') in Hx by done. apply (inj Some) in Hx as <-.
  unfold r'. rewrite at_ring_next by done. cbn [rg_driver].
  destruct (decide (j = 31%nat)) as [->|Hne].
  - rewrite lookup_app_r in Hy by (by rewrite Hlen).
    rewrite Hlen in Hy. change (31 - 31)%nat with 0%nat in Hy.
    rewrite lookup_take_lt, ring_blocks_lookup in Hy by (unfold BUFFER_COUNT; lia). apply (inj Some) in Hy as <-.
    change 32%nat with BUFFER_COUNT. by rewrite at_ring_round.
  - assert (j < 31)%nat by (unfold BUFFER_COUNT in Hj; lia).
    rewrite lookup_app_l in Hy by (by rewrite Hlen).
    rewrite lookup_drop, ring_blocks_lookup in Hy by (unfold BUFFER_COUNT; lia). by apply (inj Some) in Hy as <-.
Qed.

End Accesses.

(** ** The contracts *)

Section Contracts.
Context {E : Type} `{ReceiveEngine E} `{!DmaEngineLaws E} (jiffies : Z).
Abbreviation chan := (dma_proxy_channel E).
Implicit Types (pc : chan) (r : ring chan).

#[local] Instance driver3 : DmaDriver chan := channel_driver jiffies.
#[local] Instance driver3_laws : DmaDriverLaws chan := channel_driver_laws jiffies.
#[local] Instance device3 : StreamDevice (ring chan) := ring_device jiffies.

Abbreviation idle_ring := (receive_idle jiffies).
Abbreviation pending_ring := (receive_pending jiffies).

(** The ring moves on to the next buffer without waiting. *)
Definition advance r : ring chan :=
  mk_ring (rg_driver r) (buffer_count r) ((current_buffer_id r + 1) mod Z.of_nat BUFFER_COUNT).

Lemma wf_advance r : wf_ring r → wf_ring (advance r).
Proof. intros [Ho Hc Hi]. split; [done|done|]. cbn [current_buffer_id advance]. apply Z.mod_pos_bound. unfold BUFFER_COUNT. lia. Qed.

Lemma get_advance r :
  wf_ring r → status_at (rg_driver r) (at_ring r 0) = Some PROXY_NO_ERROR →
  io_stream_get_buffer r = Done (Some (at_ring r 0), advance r).
Proof.
  intros Hr Hst. rewrite <-(at_ring_current jiffies r Hr) in *. by apply get_ready.
Qed.

Lemma idle_advance inc r : idle_ring inc r → idle_ring inc (advance r).
Proof. intros [Hr Hst Hq Hinc Hg]. split; [by apply wf_advance|done..]. Qed.

Lemma pending_advance i inc r : pending_ring i inc r → pending_ring i inc (advance r).
Proof. intros [Hr Hi Hq Hst Hinc Hg]. split; [by apply wf_advance|done..]. Qed.

(** One received packet of an application. *)
Lemma receive_round blk blocks r :
  idle_ring (blk :: blocks) r → is_block blk →
  ∃ b r1, io_stream_get_buffer r = Done (Some b, r1) ∧
    ∀ x y, length x = 4%nat → length y = 4%nat →
      ∃ r2 r3 r4 r5,
        fill_buffer b 0 x r1 = Done (tt, r2) ∧ fill_buffer b 4 y r2 = Done (tt, r3) ∧
        io_read_stream_device b BUFFER_SIZE r3 = Done (tt, r4) ∧
        io_sync_stream_device r4 = Done (tt, r5) ∧
        (∀ n, Z.of_nat n ≤ BUFFER_SIZE → buffer_bytes b n r5 = Done (take n blk, r5)) ∧
        idle_ring blocks r5.
Proof.
  intros Hidle _. pose proof (at_ring_lt r 0) as Hb. set (b := at_ring r 0) in *.
  exists b, (advance r). split; [apply get_advance; [apply Hidle|by apply Hidle]|]. intros x y Hx Hy.
  apply idle_advance in Hidle.
  destruct (fill_idle jiffies b 0 x _ _ Hidle Hb) as (r2 & g2 & Hr2 & Hi2 & _); [lia|unfold BUFFER_SIZE; lia|].
  destruct (fill_idle jiffies b 4 y _ _ Hi2 Hb) as (r3 & g3 & Hr3 & Hi3 & _); [lia|unfold BUFFER_SIZE; lia|].
  destruct (read_idle jiffies b _ _ Hi3 Hb) as (r4 & Hr4 & Hp4 & _).
  destruct (sync_pending jiffies b blk blocks r4 Hp4) as (r5 & g & Hr5 & Hi5 & _ & Hd & Hg).
  destruct (data_insert _ _ b g (wr_ok r4 (rp_ring _ _ _ _ Hp4)) Hb Hd) as [Hg5 _].
  exists r2, r3, r4, r5. do 4 (split; [done|]). split; [|done].
  intros n Hn. rewrite <-Hg. apply bytes_run; [apply Hi5|done|done|done].
Qed.

#[export] Instance receive_reader : StreamReader (ring chan) := {
  receives := idle_ring;
  reader_round := receive_round
}.

(** Clearing the buffer just sent and starting its transfer again. *)
Lemma clear_and_start inc r x :
  idle_ring inc r → is_block x →
  ∃ r1 r2, fill_buffer (at_ring r 31) 0 x r = Done (tt, r1) ∧
    io_read_stream_device (at_ring r 31) BUFFER_SIZE r1 = Done (tt, r2) ∧
    pending_ring (at_ring r2 31) inc r2 ∧ take 31 (ring_blocks r2) = take 31 (ring_blocks r).
Proof.
  intros Hidle Hx. pose proof (at_ring_lt r 31) as Hb. set (b := at_ring r 31) in *.
  destruct (fill_idle jiffies b 0 x _ _ Hidle Hb) as (r1 & g & Hr1 & Hi1 & Hc1 & Hd1); [lia|unfold is_block in Hx; lia|].
  destruct (read_idle jiffies b _ _ Hi1 Hb) as (r2 & Hr2 & Hp2 & Hc2 & Hd2).
  exists r1, r2. do 2 (split; [done|]).
  assert (at_ring r2 31 = b) as -> by (unfold at_ring; by rewrite Hc2, Hc1). split; [done|].
  rewrite (ring_blocks_last jiffies r r2 g); [|apply Hidle|congruence|by rewrite Hd2].
  rewrite take_app_length'; [done|]. by rewrite length_take, (length_ring_blocks r).
Qed.

(** The blocks the server's loop finds: what the buffers hold from the next one
    on, then what is received; every block but the first is read after a
    transfer was waited for. *)
Definition ring_delivers (blocks : list (list Z)) r : Prop :=
  ∃ inc,
    idle_ring inc r ∧ blocks `prefix_of` ring_blocks r ++ inc ∧ (length blocks ≤ S (length inc))%nat ∨
    pending_ring (at_ring r 31) inc r ∧ blocks `prefix_of` take 31 (ring_blocks r) ++ inc ∧
      (length blocks ≤ length inc)%nat.


(** The rest of a round of the server's loop, once nothing is in flight. *)
Lemma serve_last inc l blk r :
  idle_ring inc r → ring_blocks r = l ++ [blk] → length l = 31%nat →
  (∀ n, Z.of_nat n ≤ BUFFER_SIZE → buffer_bytes (at_ring r 31) n r = Done (take n blk, r)) ∧
  ∀ x, is_block x → ∃ r1 r2,
    fill_buffer (at_ring r 31) 0 x r = Done (tt, r1) ∧
    io_read_stream_device (at_ring r 31) BUFFER_SIZE r1 = Done (tt, r2) ∧
    pending_ring (at_ring r2 31) inc r2 ∧ take 31 (ring_blocks r2) = l.
Proof.
  intros Hidle HC Hl. pose proof (at_ring_lt r 31) as Hb.
  destruct (data_defined jiffies _ r (ri_ring _ _ _ Hidle) Hb) as [g Hg].
  assert (blk = buffer_data g) as ->.
  { pose proof (ring_blocks_lookup r 31 ltac:(unfold BUFFER_COUNT; lia)) as Hx.
    rewrite HC, lookup_app_r, Hl, Hg in Hx by (rewrite Hl; lia).
    change (31 - 31)%nat with 0%nat in Hx. by apply (inj Some) in Hx. }
  split.
  - intros n Hn. by apply bytes_run; [apply Hidle|..].
  - intros x Hx. destruct (clear_and_start inc r x Hidle Hx) as (r1 & r2 & H1' & H2 & H3 & H4).
    exists r1, r2. do 3 (split; [done|]). rewrite H4, HC. by apply take_app_length'.
Qed.

(** A round of the server's loop on buffer [b]. *)
Definition server_round (b : nat) (blk : list Z) (post : ring chan → Prop) r : Prop :=
  ∃ r1 r2,
    io_stream_get_buffer r = Done (Some b, r1) ∧
    io_sync_stream_device r1 = Done (tt, r2) ∧
    (∀ n, Z.of_nat n ≤ BUFFER_SIZE → buffer_bytes b n r2 = Done (take n blk, r2)) ∧
    ∀ x, is_block x → ∃ r3 r4,
      fill_buffer b 0 x r2 = Done (tt, r3) ∧
      io_read_stream_device b BUFFER_SIZE r3 = Done (tt, r4) ∧ post r4.

Lemma at_ring_advance r j : wf_ring r → at_ring (advance r) j = at_ring r (S j).
Proof. intros Hr. unfold advance. by rewrite (at_ring_next jiffies). Qed.

Lemma ring_blocks_advance r blk rest :
  wf_ring r → ring_blocks r = blk :: rest → ring_blocks (advance r) = rest ++ [blk].
Proof. intros Hr HC. unfold advance. by rewrite (ring_blocks_next jiffies r _ Hr), HC. Qed.

(** What is left of a round once the transfers are waited for. *)
Lemma round_rest inc l blk r r2 :
  wf_ring r → io_stream_get_buffer r = Done (Some (at_ring r 0), advance r) →
  io_sync_stream_device (advance r) = Done (tt, r2) →
  idle_ring inc r2 → current_buffer_id r2 = current_buffer_id (advance r) →
  ring_blocks r2 = l ++ [blk] → length l = 31%nat →
  server_round (at_ring r 0) blk (λ r4, pending_ring (at_ring r4 31) inc r4 ∧ take 31 (ring_blocks r4) = l) r.
Proof.
  intros Hr Hg Hs Hidle Hc HC Hl. exists (advance r), r2. split; [exact Hg|]. split; [exact Hs|].
  destruct (serve_last inc l blk r2 Hidle HC Hl) as [Hby Hre].
  assert (at_ring r2 31 = at_ring r 0) as He.
  { transitivity (at_ring (advance r) 31); [unfold at_ring; by rewrite Hc|].
    rewrite at_ring_advance by done. apply (at_ring_round r). }
  by rewrite He in Hby, Hre.
Qed.

Lemma round_idle inc blk rest r :
  idle_ring inc r → ring_blocks r = blk :: rest → length rest = 31%nat →
  server_round (at_ring r 0) blk (λ r4, pending_ring (at_ring r4 31) inc r4 ∧ take 31 (ring_blocks r4) = rest) r.
Proof.
  intros Hidle HC Hl. pose proof (ri_ring _ _ _ Hidle) as Hr. pose proof (idle_advance inc r Hidle) as Hi1.
  apply (round_rest inc rest blk r (advance r)); try done.
  - apply get_advance; [done|by apply Hidle, at_ring_lt].
  - apply sync_ready; apply Hi1.
  - by apply ring_blocks_advance.
Qed.

Lemma round_pending b0 inc blk rest r :
  pending_ring (at_ring r 31) (b0 :: inc) r → take 31 (ring_blocks r) = blk :: rest → length rest = 30%nat →
  server_round (at_ring r 0) blk
    (λ r4, pending_ring (at_ring r4 31) inc r4 ∧ take 31 (ring_blocks r4) = rest ++ [b0]) r.
Proof.
  intros Hpend HC Hl. pose proof (rp_ring _ _ _ _ Hpend) as Hr.
  destruct (sync_pending jiffies _ b0 inc (advance r) (pending_advance _ _ _ Hpend))
    as (r2 & g & Hs2 & Hi2 & Hc2 & Hd2 & Hg).
  assert (at_ring r 0 ≠ at_ring r 31) as Hne
    by (intros He%at_ring_inj; [done|unfold BUFFER_COUNT; lia..]).
  apply (round_rest inc (rest ++ [b0]) blk r r2); try done.
  - apply get_advance; [done|by apply (rp_status _ _ _ _ Hpend), Hne; apply at_ring_lt].
  - set (r' := mk_ring (rg_driver r2) (buffer_count r) (current_buffer_id r)).
    transitivity (ring_blocks (advance r')); [unfold ring_blocks, at_ring; by rewrite Hc2|].
    apply ring_blocks_advance; [destruct Hr; split; [apply (ri_ring _ _ _ Hi2)|done..]|].
    by rewrite (ring_blocks_last jiffies r r' g Hr eq_refl Hd2), HC, Hg.
  - rewrite length_app, Hl. done.
Qed.

Lemma ring_delivers_round blk blocks r :
  ring_delivers (blk :: blocks) r → is_block blk → ∃ b, server_round b blk (ring_delivers blocks) r.
Proof.
  intros [inc Hd] _. exists (at_ring r 0).
  assert (∀ P Q : ring chan → Prop, (∀ r, P r → Q r) → server_round (at_ring r 0) blk P r →
    server_round (at_ring r 0) blk Q r) as Hmono.
  { intros P Q HPQ (r1 & r2 & Hg & Hs & Hby & Hre). exists r1, r2. do 3 (split; [done|]).
    intros x Hx. destruct (Hre x Hx) as (r3 & r4 & Hf & Hst & HP). exists r3, r4. eauto. }
  pose proof (length_ring_blocks r) as HC.
  destruct Hd as [(Hidle & Hpre & Hlen)|(Hpend & Hpre & Hlen)].
  - destruct (ring_blocks r) as [|c rest] eqn:EC; [done|]. injection HC as HC.
    apply prefix_cons_inv_1 in Hpre as Hc. subst c. apply prefix_cons_inv_2 in Hpre.
    eapply Hmono; [|by apply (round_idle inc blk rest)]. intros r4 [Hp Ht].
    exists inc. right. split; [done|]. rewrite Ht. split; [exact Hpre|]. simpl in Hlen. lia.
  - destruct inc as [|b0 inc]; [simpl in Hlen; lia|].
    assert (length (take 31 (ring_blocks r)) = 31%nat) as HT by (by rewrite length_take, HC).
    destruct (take 31 (ring_blocks r)) as [|c rest] eqn:EC; [done|]. injection HT as HT.
    apply prefix_cons_inv_1 in Hpre as Hc. subst c. apply prefix_cons_inv_2 in Hpre.
    eapply Hmono; [|by apply (round_pending b0 inc blk rest)]. intros r4 [Hp Ht].
    exists inc. right. split; [done|]. rewrite Ht, <-app_assoc. split; [exact Hpre|]. simpl in Hlen. lia.
Qed.

#[export] Instance receive_source : StreamSource (ring chan) := {
  delivers := ring_delivers;
  source_round := ring_delivers_round
}.

End Contracts.

(** ** A stream just opened *)

Section Opened.
Context {E : Type} `{ReceiveEngine E} `{!DmaEngineLaws E} (jiffies : Z).
Abbreviation chan := (dma_proxy_channel E).
Implicit Types (r : ring chan).

#[local] Instance driver4 : DmaDriver chan := channel_driver jiffies.
#[local] Instance driver4_laws : DmaDriverLaws chan := channel_driver_laws jiffies.

(** The driver has just opened the channel and the library the device; the
    hardware will deliver the blocks [inc]. *)
Definition receive_opened (inc : list (list Z)) r : Prop :=
  ∃ pc0 pc w dev w',
    wf_channel pc0 ∧ local_open pc0 = Done (0, pc) ∧
    io_open_stream_local pc w = Done (Some (dev, r), w') ∧
    incoming (channel_p pc) = inc ∧ good_blocks inc.

Lemma opened_idle inc r : receive_opened inc r → receive_idle jiffies inc r.
Proof.
  intros (pc0 & pc & w & dev & w' & Hwf0 & Hop & Hst & Hinc & Hgood).
  apply bind_inv in Hop as ([] & pc1 & Hm & Hop). unfold modify in Hm. injection Hm as <-.
  apply bind_inv in Hop as ([] & pc2 & Hc & Hop). unfold mret, M_ret in Hop. injection Hop as <-.
  pose proof (clear_statuses_run _ (wf_set_engine pc0 (device_terminate_all (channel_p pc0)) Hwf0)) as Hrun.
  unfold wp in Hrun. rewrite Hc in Hrun. destruct Hrun as (Hwf2 & _ & He2 & _).
  destruct (open_stream_inv jiffies _ _ _ _ _ Hst) as (u & pc3 & Hfor & Hr).
  pose proof (clear_buffers_run jiffies pc2 Hwf2) as Hrun. unfold wp in Hrun. rewrite Hfor in Hrun.
  destruct Hrun as (Hwf3 & He3 & Hst3). rewrite Hr. split; cbn [rg_driver]; [|done| | |done].
  - split; [exact Hwf3|done|cbn; unfold BUFFER_COUNT; lia].
  - rewrite He3, He2. apply queue_terminate.
  - by rewrite He3.
Qed.

End Opened.

(** ** Properties *)

(** C3: A client that reads a stream of a remote machine gets what that machine's
    hardware received, late: the server starts no transfer before its loop, so the
    first 32 packets are what the buffers held when the stream was opened, and
    packet 32 + j is the first 8 KiB of the j-th block the hardware received. *)
Theorem remote_stream_from_hardware {E} `{ReceiveEngine E} `{!DmaEngineLaws E}
    jiffies inc segss k fuel cfuel mem (r : ring (dma_proxy_channel E)) :
  let dev := ring_device jiffies in
  receive_opened jiffies inc r → (k ≤ length inc)%nat → (k < fuel)%nat →
  let ps := (stream_packet <$> take k (ring_blocks r)) ++ (stream_packet <$> take (k - BUFFER_COUNT) inc) in
  Forall2 read_packet_segs ps segss → send_size ≤ Z.of_nat (length mem) → send_size < Z.of_nat cfuel →
  ∃ client server r',
    client_cmd_read_stream_inf fuel (mk_session (mk_socket [] 0 [] (Some k)) r) =
      Done (0, mk_session server r') ∧
    tx server = concat (concat segss) ∧
    client_reads k cfuel (fresh_net_stream (mk_socket (concat segss) 0 [] None) mem) = Done (ps, client).
Proof.
  intros dev Hop Hk Hf ps. pose proof (opened_idle jiffies inc r Hop) as Hidle.
  set (blocks := take (S k) (ring_blocks r ++ inc)).
  assert (length blocks = S k) as Hlen.
  { unfold blocks. rewrite length_take, length_app, (length_ring_blocks r). unfold BUFFER_COUNT. lia. }
  assert (ps = stream_packet <$> take k blocks) as ->.
  { unfold ps, blocks. rewrite take_take, Nat.min_l, take_app, (length_ring_blocks r), fmap_app by lia. done. }
  apply (@serve_reads _ dev (receive_source jiffies)); [|unfold blocks|lia|done].
  - exists inc. left. split; [done|]. split; [by apply prefix_take|lia].
  - apply Forall_take, Forall_app. split; [apply ring_blocks_good|].
    eapply Forall_impl; [apply (ri_good _ _ _ Hidle)|]. by intros blk [? _].
Qed.

(** The two threads of the test program on this machine's channels, each on its
    own device: what the engine sends is the sender's packets in order, complete
    and without copying, 213568 of them or up to the stop; and the receiver, with
    its check on, reports nothing if and only if the words the hardware received
    are the pattern. *)
Lemma threads_on_hardware
    {E1} `{EngineQueue E1} `{!DmaEngineLaws E1, !TransmitEngine E1, !HealthyEngine E1}
    {E2} `{ReceiveEngine E2} `{!DmaEngineLaws E2}
    jiffies verify stop sel packets inc (t : stream_sys E1) (r : ring (dma_proxy_channel E2)) :
  let tx := local_stream_device jiffies in let rx := ring_device jiffies in
  sys_init jiffies t → receive_opened jiffies inc r →
  Forall2 carries_packet packets inc → ready_count sel = Some (length packets) →
  ∃ m rs t' r',
    run (@exec _ tx) (tx_thread_prog stop (mk_config (1024 * 16) (total_size 1000000 (1024 * 16)))) t = Done (m, t') ∧
    run (@exec _ rx) (rx_thread_prog verify sel) r = Done (rs, r') ∧
    ss_sent t' ++ contents (ring_chan t') = tx_packet (Z.to_nat (2 ^ 14)) <$> seq 0 m ∧
    (Z.of_nat m = 213568 ∨ Z.of_nat m < 213568 ∧ stop m = true) ∧
    (rs = [] ↔ verify = false ∨ concat packets = pattern 0 (length (concat packets))).
Proof.
  intros tx rx Hinit Hop Hp Hn.
  assert (stream_idle jiffies [] t) as Hidle.
  { split; [by apply sys_init_ok|]. by destruct Hinit as (? & ? & ? & ? & ? & ? & ? & ? & ? & Hi & _). }
  pose (c := mk_config (1024 * 16) (total_size 1000000 (1024 * 16))).
  destruct (@tx_loop_run _ tx (local_sink jiffies) stop (Z.to_nat (2 ^ 14)) (Z.to_nat (config_loops c)) 0 [] t Hidle)
    as (m & t' & Ht & Hm & [Hok Hl] & Hend & _).
  { rewrite Z2Nat.id by lia. vm_compute. congruence. }
  destruct (@rx_loop_run _ rx (receive_reader jiffies) verify sel 0 packets inc r Hp (opened_idle jiffies inc r Hop) Hn)
    as (r' & Hr & _).
  exists m. do 2 eexists. exists r'.
  split; [etransitivity; [apply (@implements_tx_thread _ tx stop c t)|exact Ht]|].
  split; [etransitivity; [apply (@implements_rx_thread _ rx verify sel r)|exact Hr]|].
  split; [by rewrite (so_log _ _ Hok), Hl|].
  assert (config_loops c = 213568) as Hc by reflexivity. rewrite Hc in Hm, Hend.
  split.
  - destruct Hend as [->|Hend]; [left; by rewrite Z2Nat.id by lia|].
    destruct (decide (Z.of_nat m = 213568)); [by left|right]. split; [lia|exact Hend].
  - destruct verify; [|split; [by left|done]]. rewrite reports_exact. split; [by right|by intros [?|?]].
Qed.

(** ** A concrete engine

    While a thread waits it stores every block that came, as far as transfers
    are in flight. *)
Record block_engine := mk_block_engine {
  be_flight : list (Z * (Z * Z));
  be_prepared : option (Z * Z);
  be_next : Z;
  be_incoming : list (list Z)
}.

Definition set_datas {E} (t : list (gmap Z Z)) (pc : dma_proxy_channel E) : dma_proxy_channel E :=
  match buffer_table_p pc with
  | Some l => set_buffers (zip_with set_cb_buffer t l) pc
  | None => pc
  end.

Definition block_wait (bd : nat) (pc : dma_proxy_channel block_engine) : Z * dma_proxy_channel block_engine :=
  let e := channel_p pc in
  let k := Nat.min (length (be_flight e)) (length (be_incoming e)) in
  let rest := drop k (be_flight e) in
  let e' := mk_block_engine rest (be_prepared e) (be_next e) (drop k (be_incoming e)) in
  let t := dma_stores (buffer_phys_addr pc) (snd <$> take k (be_flight e)) (take k (be_incoming e))
             (default [] (datas pc)) in
  ((if bool_decide (Some true = (λ d, bool_decide (cookie d ∈ rest.*1)) <$> bdtable pc !! bd) then 0 else 1),
   set_engine e' (set_datas t pc)).

#[export] Instance block_engine_ops : DmaEngine block_engine := {
  device_prep_slave_sg := λ sg _ e, (Some 1, mk_block_engine (be_flight e) (Some sg) (be_next e) (be_incoming e));
  dmaengine_submit := λ _ _ e,
    match be_prepared e with
    | Some sg => (Z.abs (be_next e),
                  mk_block_engine (be_flight e ++ [(Z.abs (be_next e), sg)]) (Some sg) (be_next e + 1) (be_incoming e))
    | None => (-1, e)
    end;
  dma_async_issue_pending := λ e, e;
  dma_async_is_tx_complete := λ c e,
    if bool_decide (c ∈ (be_flight e).*1) then DMA_IN_PROGRESS else DMA_COMPLETE;
  device_terminate_all := λ e, mk_block_engine [] None (be_next e) (be_incoming e);
  wait_for_completion_interruptible_timeout := λ bd _ pc, Done (block_wait bd pc)
}.

Lemma length_dma_stores phys sgs blks t : length (dma_stores phys sgs blks t) = length t.
Proof.
  revert blks t. induction sgs as [|sg sgs IH]; intros [|blk blks] t; try done. simpl. rewrite IH.
  unfold dma_store. destruct (t !! _); [|done]. destruct (store_bytes _ _ _); [|done]. apply length_insert.
Qed.

Lemma datas_set_datas {E} t (pc : dma_proxy_channel E) t0 :
  datas pc = Some t0 → length t = length t0 → datas (set_datas t pc) = Some t ∧ metas (set_datas t pc) = metas pc.
Proof.
  unfold datas, metas, set_datas. destruct (buffer_table_p pc) as [l|]; [|done].
  cbn [fmap option_fmap option_map set_buffers buffer_table_p]. intros [= <-] Hlen. rewrite length_fmap in Hlen.
  split; apply (f_equal Some); revert l Hlen;
    (induction t as [|g t IH]; intros [|b l] Hlen; [done..|]; cbn [zip_with fmap list_fmap];
     apply (f_equal2 cons); [done|apply IH; simpl in Hlen; lia]).
Qed.

Lemma block_wait_datas bd pc :
  let k := Nat.min (length (be_flight (channel_p pc))) (length (be_incoming (channel_p pc))) in
  datas (snd (block_wait bd pc)) =
    dma_stores (buffer_phys_addr pc) (snd <$> take k (be_flight (channel_p pc))) (take k (be_incoming (channel_p pc)))
      <$> datas pc ∧
  metas (snd (block_wait bd pc)) = metas pc.
Proof.
  intros k. unfold block_wait. fold k. cbn [snd]. destruct (datas pc) as [t0|] eqn:Ht.
  - cbn [default]. destruct (datas_set_datas (dma_stores (buffer_phys_addr pc) (snd <$> take k (be_flight (channel_p pc)))
      (take k (be_incoming (channel_p pc))) t0) pc t0 Ht (length_dma_stores _ _ _ _)) as [Hd Hm].
    split; [exact Hd|exact Hm].
  - unfold datas, set_datas, metas in *. destruct (buffer_table_p pc) eqn:El; [done|]. cbn. by rewrite El.
Qed.

#[export] Instance block_engine_laws : DmaEngineLaws block_engine.
Proof.
  split. intros bd j pc Hc. exists (fst (block_wait bd pc)), (snd (block_wait bd pc)).
  split; [by rewrite <-surjective_pairing|].
  split; [unfold block_wait; cbn [fst]; by destruct (bool_decide _)|].
  destruct (block_wait_datas bd pc) as [_ Hm].
  split; [exact Hm|..]; unfold block_wait, set_datas; cbn [snd]; by destruct (buffer_table_p pc).
Qed.

Lemma block_wait_engine bd pc :
  let e := channel_p pc in let k := Nat.min (length (be_flight e)) (length (be_incoming e)) in
  channel_p (snd (block_wait bd pc)) =
    mk_block_engine (drop k (be_flight e)) (be_prepared e) (be_next e) (drop k (be_incoming e)).
Proof. done. Qed.

#[export, refine] Instance block_engine_queue : EngineQueue block_engine := {
  in_flight := be_flight;
  prepared := λ e _, be_prepared e
}.
Proof.
  - intros sg dir e ds e1 [= <- <-]. split; [done|]. by intros x [= <-].
  - intros ds i e c e1 sg Hp. simpl. rewrite Hp. intros [= <- <-]. simpl.
    unfold dma_submit_error. rewrite (proj2 (Z.ltb_ge _ _)); [done|lia].
  - done.
  - done.
  - intros bd j pc r pc' d Hrun Hd.
    assert (r = fst (block_wait bd pc) ∧ pc' = snd (block_wait bd pc)) as [-> ->]
      by (cbn in Hrun; destruct (block_wait bd pc); by injection Hrun as <- <-).
    rewrite block_wait_engine. split; [by eexists|]. unfold block_wait. cbn [fst be_flight]. rewrite Hd. cbn [fmap option_fmap option_map].
    intros Hpos sg Hin. rewrite bool_decide_eq_true_2 in Hpos; [lia|].
    rewrite bool_decide_eq_true_2; [done|]. apply list_elem_of_fmap. by exists (cookie d, sg).
Defined.

#[export, refine] Instance block_engine_receive : ReceiveEngine block_engine := { incoming := be_incoming }.
Proof.
  - intros sg dir e ds e1 [= <- <-]. by split.
  - intros ds i e c e1 sg Hp. cbn in Hp |- *. rewrite Hp. intros [= <- <-].
    unfold dma_submit_error. split; [apply Z.ltb_ge; lia|done].
  - done.
  - intros bd j pc r pc' d Hrun Hd.
    assert (r = fst (block_wait bd pc) ∧ pc' = snd (block_wait bd pc)) as [-> ->]
      by (cbn in Hrun; destruct (block_wait bd pc); by injection Hrun as <- <-).
    destruct (block_wait_datas bd pc) as [Hdat _]. cbn [in_flight block_engine_queue]. split.
    + rewrite block_wait_engine. eexists. split; [|split; [|split; [|split]]];
        [..|exact Hdat]; [lia|lia|done|done].
    + intros q1 sg q2 Hq Hc Hlt. unfold block_wait. cbn [fst]. rewrite Hd, Hq.
      cbn [fmap option_fmap option_map].
      assert (bool_decide (cookie d ∈ (drop (length (q1 ++ (cookie d, sg) :: q2) `min` length (be_incoming (channel_p pc)))
        (q1 ++ (cookie d, sg) :: q2)).*1) = false) as ->; [|by rewrite bool_decide_eq_false_2].
      apply bool_decide_eq_false_2. rewrite length_app. cbn [length].
      set (k := (_ `min` _)%nat). replace k with (length q1 + S (k - S (length q1)))%nat by (unfold k; lia).
      rewrite <-drop_drop, drop_app_length. cbn [drop]. intros (x & He & Hx)%list_elem_of_fmap.
      apply Hc, list_elem_of_fmap. exists x. split; [done|]. by eapply (subseteq_drop _).
  - intros c e Hc. cbn in Hc |- *. by rewrite bool_decide_eq_false_2.
Defined.

(** ** Concrete runs *)

Lemma whole_segments ps :
  Forall (λ p, Z.of_nat (length p) = send_size) ps →
  Forall2 read_packet_segs ps ((λ p, [packet_header send_size ++ p]) <$> ps).
Proof.
  induction 1 as [|p ps Hp _ IH]; [constructor|]. constructor; [|exact IH].
  exists p, []. split; [constructor|]. split; [by rewrite app_nil_r|]. by rewrite Hp.
Qed.

Section Demo.
Context (inc : list (list Z)).
Abbreviation chan := (dma_proxy_channel block_engine).

#[local] Instance demo_receive_driver : DmaDriver chan := channel_driver 300.
#[local] Instance demo_receive_driver_laws : DmaDriverLaws chan := channel_driver_laws 300.

Definition receive_chan : chan := after local_open (fresh_channel (mk_block_engine [(9, (4096, 8))] None 10 inc) 4096).

Definition receive_ring : ring chan :=
  match io_open_stream_local receive_chan (demo_os true) with
  | Done (Some (_, r), _) => r
  | _ => mk_ring receive_chan 32 0
  end.

Lemma receive_ring_opened : good_blocks inc → receive_opened 300 inc receive_ring.
Proof.
  intros Hgood. exists (fresh_channel (mk_block_engine [(9, (4096, 8))] None 10 inc) 4096), receive_chan, (demo_os true).
  do 2 eexists. split; [apply wf_fresh_channel|]. split; [vm_compute; reflexivity|].
  split; [vm_compute; reflexivity|]. split; [vm_compute; reflexivity|exact Hgood].
Qed.

End Demo.

#[local] Opaque receive_chan receive_ring.

Lemma remote_stream_from_hardware_witness :
  let blk := replicate (Z.to_nat BUFFER_SIZE) 7 in
  let r := receive_ring (replicate 33 blk) in
  let ps := (stream_packet <$> take 33 (ring_blocks r)) ++ [stream_packet blk] in
  ∃ client, client_reads 33 (Z.to_nat (send_size + 1))
    (fresh_net_stream (mk_socket (concat ((λ p, [packet_header send_size ++ p]) <$> ps)) 0 [] None)
       (replicate (Z.to_nat send_size) 9)) = Done (ps, client).
Proof.
  intros blk r ps.
  assert (is_block blk) as Hblk.
  { unfold is_block, blk. rewrite length_replicate. apply buffer_size_nat. }
  assert (good_blocks (replicate 33 blk)) as Hgood.
  { apply Forall_replicate. split; [exact Hblk|]. apply Forall_replicate. unfold is_byte. lia. }
  destruct (remote_stream_from_hardware 300 (replicate 33 blk) ((λ p, [packet_header send_size ++ p]) <$> ps)
    33 34 (Z.to_nat (send_size + 1)) (replicate (Z.to_nat send_size) 9) r) as (c & _ & _ & _ & _ & Hr).
  - by apply receive_ring_opened.
  - rewrite length_replicate. lia.
  - lia.
  - apply whole_segments. apply Forall_app. split.
    + apply Forall_fmap. eapply Forall_impl; [apply Forall_take, ring_blocks_good|]. exact stream_packet_length.
    + constructor; [by apply stream_packet_length|constructor].
  - rewrite length_replicate, Z2Nat.id; [lia|vm_compute; congruence].
  - rewrite Z2Nat.id by (vm_compute; congruence). lia.
  - exists c. exact Hr.
Defined.

Lemma demo_packet_bytes ws : Forall is_byte (demo_packet ws).
Proof.
  unfold demo_packet, TestApp.packet_bytes, header_bytes, word_bytes. rewrite !Forall_app.
  split; [split; [repeat split; apply le_bytes_bytes|]|apply Forall_replicate; unfold is_byte; lia].
  apply Forall_concat, Forall_fmap, Forall_forall. intros w _. apply le_bytes_bytes.
Qed.
