(* ===== verification/PoolLife.v ===== *)
(** * PoolLife: creating, freeing, pausing and resuming the pool

    What [ThreadPool] leaves out of [src/userspace/io_backend/src/thpool.c]:
    the allocations of [thpool_init] and their failures, what [thpool_destroy]
    frees, and the signals of [thpool_pause] and [thpool_resume], as an
    extension of the pool's transition system.  A worker that is interrupted
    inside a section of [thcount_lock] counts as being before or behind it, except
    at its last unlock, which is a state of its own in [ThreadPool].  What the
    signal does to a job that is in a blocking call (EINTR) is not modelled. *)
From Stdlib Require Import ZArith Lia.
From stdpp Require Import base list numbers option gmap.
From S2P Require Import Prelude JobQueue ThreadPool.

(** ** Creating and freeing *)

(** The allocations of one pool. *)
Inductive block := BPool | BSemaphore | BThreads | BThread (i : nat).

#[export] Instance block_eq_dec : EqDecision block.
Proof. solve_decision. Defined.

(** [grants] says which [malloc] succeeds and [creates] which
    [pthread_create]; [live] holds the blocks not yet freed. *)
Record heap := mk_heap {
  grants : block → bool;
  creates : nat → bool;
  live : list block;
  queue : jobqueue
}.

Definition malloc (b : block) : M heap bool := λ h,
  Done (grants h b, if grants h b then mk_heap (grants h) (creates h) (b :: live h) (queue h) else h).

Definition free (b : block) : M heap unit := λ h,
  if decide (b ∈ live h)
  then Done (tt, mk_heap (grants h) (creates h) (filter (λ c, c ≠ b) (live h)) (queue h))
  else Fault UseAfterFree.

Definition on_queue {A} (m : M jobqueue A) : M heap A :=
  zoom queue (λ q h, mk_heap (grants h) (creates h) (live h) q) m.

(** A slot of [threads]: NULL, or a thread that runs or could not be created
    (the result of [pthread_create] is not looked at; [pthread_detach] then gets a
    handle nothing was stored to, whose effect is not modelled). *)
Inductive slot := SlotNull | SlotThread (runs : bool).

#[export] Instance slot_eq_dec : EqDecision slot.
Proof. solve_decision. Defined.

(** [thread_init] returns 0 or -1; the slot is its out parameter. *)
Definition thread_init (id : nat) : M heap (Z * slot) :=
  r ← malloc (BThread id);
  if negb r then mret (-1, SlotNull)
  else h ← get; mret (0, SlotThread (creates h id)).

Fixpoint thread_inits (id n : nat) : M heap (list slot) :=
  match n with
  | O => mret []
  | S n' =>
      '(_, t) ← thread_init id;
      ts ← thread_inits (S id) n';
      mret (t :: ts)
  end.

(** [jobqueue_init] and [jobqueue_destroy] with their semaphore. *)
Definition queue_init : M heap Z :=
  r ← malloc BSemaphore;
  on_queue (jobqueue_init r).

Definition queue_destroy (fuel : nat) : M heap unit :=
  on_queue (jobqueue_destroy fuel) ;;
  free BSemaphore.

(** [thpool_init] up to its final loop, which is [m_ready] of [ThreadPool];
    [None] is NULL. *)
Definition thpool_init (fuel : nat) (num_threads : Z) : M heap (option (list slot)) :=
  let num_threads := if num_threads <? 0 then 0 else num_threads in
  p ← malloc BPool;
  if negb p then mret None
  else
    r ← queue_init;
    if r =? -1 then free BPool ;; mret None
    else
      t ← malloc BThreads;
      if negb t then queue_destroy fuel ;; free BPool ;; mret None
      else
        threads ← thread_inits 0 (Z.to_nat num_threads);
        mret (Some threads).

(** [free(NULL)] does nothing. *)
Definition thread_destroy (id : nat) (t : slot) : M heap unit :=
  match t with
  | SlotNull => mret tt
  | SlotThread _ => free (BThread id)
  end.

(** What [thpool_destroy] does once the workers are gone: [threads_total] is the
    number of threads that were alive when it was called. *)
Definition thpool_release (fuel threads_total : nat) (threads : list slot) : M heap unit :=
  queue_destroy fuel ;;
  for_ threads_total (λ n, t ← require OutOfBounds (threads !! n); thread_destroy n t) ;;
  free BThreads ;;
  free BPool.

(** The pool the threads find. *)
Definition running_threads (threads : list slot) : nat :=
  length (filter (λ t, t = SlotThread true) threads).

(** ** Lemmas: the allocations *)

(** The blocks a heap holds. *)
Definition holds_blocks (h : heap) (P : block → Prop) : Prop := ∀ b, b ∈ live h ↔ P b.

Lemma free_block_run b h P :
  holds_blocks h P → P b →
  ∃ h', free b h = Done (tt, h') ∧ holds_blocks h' (λ c, P c ∧ c ≠ b) ∧ queue h' = queue h.
Proof.
  intros Hh Hb. unfold free. rewrite decide_True by (by apply Hh). eexists. split; [done|]. split; [|done].
  intros c. cbn [live]. rewrite list_elem_of_filter, (Hh c). tauto.
Qed.

Lemma holds_weaken h P Q : holds_blocks h P → (∀ b, P b ↔ Q b) → holds_blocks h Q.
Proof. intros Hh He b. by rewrite (Hh b). Qed.

Lemma holds_none h P : holds_blocks h P → (∀ b, ¬ P b) → live h = [].
Proof.
  intros Hh Hn. destruct (live h) as [|b l] eqn:E; [done|]. exfalso. apply (Hn b), Hh. rewrite E. by left.
Qed.

(** The slot of thread [i]. *)
Definition slot_of (h : heap) (i : nat) : slot :=
  if grants h (BThread i) then SlotThread (creates h i) else SlotNull.

Lemma thread_inits_run id n h P :
  holds_blocks h P →
  ∃ h', thread_inits id n h = Done (slot_of h <$> seq id n, h') ∧
    grants h' = grants h ∧ creates h' = creates h ∧ queue h' = queue h ∧
    holds_blocks h' (λ b, P b ∨ ∃ i, (id ≤ i < id + n)%nat ∧ b = BThread i ∧ grants h b = true).
Proof.
  revert id h P. induction n as [|n IH]; intros id h P Hh.
  - exists h. repeat (split; [done|]). eapply holds_weaken; [done|]. intros b. split; [by left|].
    intros [?|(i & Hi & _)]; [done|lia].
  - set (h1 := if grants h (BThread id) then mk_heap (grants h) (creates h) (BThread id :: live h) (queue h) else h).
    assert (thread_init id h = Done ((if grants h (BThread id) then 0 else -1, slot_of h id), h1)) as Hr.
    { unfold thread_init, slot_of, h1. eapply bind_done; [reflexivity|]. by destruct (grants h (BThread id)). }
    destruct (IH (S id) h1 (λ b, P b ∨ b = BThread id ∧ grants h b = true)) as (h2 & Hr2 & Hg & Hc & Hq & Hh2).
    { intros b. unfold h1. destruct (grants h (BThread id)) eqn:Hgr; cbn [live].
      - rewrite elem_of_cons, (Hh b). split; [intros [->|?]; auto|intros [?|[-> _]]; auto].
      - rewrite (Hh b). split; [by left|]. intros [?|[-> ?]]; [done|congruence]. }
    assert (grants h1 = grants h ∧ creates h1 = creates h ∧ queue h1 = queue h) as (E1 & E2 & E3)
      by (unfold h1; by destruct (grants h (BThread id))).
    exists h2. split.
    { cbn [thread_inits]. eapply bind_done; [exact Hr|]. cbv beta iota. eapply bind_done; [exact Hr2|].
      unfold mret, M_ret. do 3 f_equal. cbn [seq]. rewrite fmap_cons. f_equal. apply list_fmap_ext.
      intros _ i _. unfold slot_of. by rewrite E1, E2. }
    rewrite Hg, Hc, Hq, E1, E2, E3. repeat (split; [done|]). eapply holds_weaken; [exact Hh2|].
    intros b. rewrite E1. split.
    + intros [[?|[-> ?]]|(i & Hi & Hb & ?)]; [by left| |right; exists i; split; [lia|done]].
      right. exists id. split; [lia|done].
    + intros [?|(i & Hi & -> & ?)]; [by left; left|]. destruct (decide (i = id)) as [->|]; [left; by right|].
      right. exists i. split; [lia|done].
Qed.

(** Destroying the queue frees its jobs and its semaphore. *)
Lemma queue_destroy_run fuel ls ws h P :
  holds_blocks h P → P BSemaphore → queue_rep (queue h) ls ws → (length ws < fuel)%nat →
  ∃ h', queue_destroy fuel h = Done (tt, h') ∧ holds_blocks h' (λ b, P b ∧ b ≠ BSemaphore) ∧ jobs (queue h') = ∅.
Proof.
  intros Hh Hb Hrep Hf. rewrite <-(Forall2_length _ _ _ (qr_work _ _ _ Hrep)) in Hf.
  destruct (wp_run _ _ _ (clear_rep _ ls ws fuel Hrep Hf)) as ([] & q' & Hrun & _ & _ & Hj).
  destruct (free_block_run BSemaphore (mk_heap (grants h) (creates h) (live h) q') P Hh Hb) as (h' & Hfr & Hh' & Hq).
  exists h'. split; [|split; [exact Hh'|by rewrite Hq]].
  unfold queue_destroy. eapply bind_done; [|exact Hfr].
  unfold on_queue. erewrite zoom_done; [reflexivity|exact Hrun].
Qed.

Lemma thread_destroys_run ts n h P :
  holds_blocks h (λ b, P b ∨ ∃ i r, b = BThread i ∧ ts !! i = Some (SlotThread r)) →
  (∀ i, ¬ P (BThread i)) → n = length ts →
  ∃ h', for_ n (λ k, t ← require OutOfBounds (ts !! k); thread_destroy k t) h = Done (tt, h') ∧
    holds_blocks h' P ∧ queue h' = queue h.
Proof.
  intros Hh HP ->.
  assert (wp (for_ (length ts) (λ k, t ← require OutOfBounds (ts !! k); thread_destroy k t))
    (λ _ h', holds_blocks h' (λ b, P b ∨ ∃ i r, b = BThread i ∧ (length ts ≤ i)%nat ∧ ts !! i = Some (SlotThread r)) ∧
             queue h' = queue h) h) as Hwp.
  { apply (wp_for (λ k h', holds_blocks h' (λ b, P b ∨ ∃ i r, b = BThread i ∧ (k ≤ i)%nat ∧ ts !! i = Some (SlotThread r)) ∧
             queue h' = queue h)).
    - intros k h1 Hk [Hh1 Hq]. destruct (lookup_lt_is_Some_2 ts k Hk) as [t Ht].
      assert ((t' ← require OutOfBounds (ts !! k); thread_destroy k t') h1 = thread_destroy k t h1) as Hs
        by (rewrite Ht; reflexivity).
      destruct t as [|r].
      + eapply wp_done; [rewrite Hs; reflexivity|]. split; [|done]. eapply holds_weaken; [exact Hh1|].
        intros b. split; (intros [?|(i & r & -> & Hi & He)]; [by left|right; exists i, r]); [|by auto with lia].
        split; [done|]. split; [|done]. destruct (decide (i = k)) as [->|]; [congruence|lia].
      + destruct (free_block_run (BThread k) h1 _ Hh1) as (h2 & Hfr & Hh2 & Hq2); [right; by exists k, r|].
        eapply wp_done; [rewrite Hs; exact Hfr|]. split; [|by rewrite Hq2]. eapply holds_weaken; [exact Hh2|].
        intros b. cbv beta. split.
        * intros [[?|(i & r' & -> & Hi & He)] Hne]; [by left|right]. exists i, r'. split; [done|]. split; [|done].
          destruct (decide (i = k)) as [->|]; [done|lia].
        * intros [Hb|(i & r' & -> & Hi & He)].
          -- split; [by left|]. intros ->. by apply (HP k).
          -- split; [|intros [= ->]; lia]. right. exists i, r'. split; [done|]. split; [lia|done].
    - split; [|done]. eapply holds_weaken; [exact Hh|]. intros b. split.
      + intros [?|(i & r & -> & ?)]; [by left|right; exists i, r; auto with lia].
      + intros [?|(i & r & -> & _ & ?)]; [by left|right; by exists i, r]. }
  apply wp_run in Hwp as ([] & h' & Hr & Hh' & Hq). exists h'. split; [exact Hr|]. split; [|done].
  eapply holds_weaken; [exact Hh'|]. intros b. split; [|by left].
  intros [?|(i & r & _ & Hi & He)]; [done|]. apply lookup_lt_Some in He. lia.
Qed.

Lemma queue_init_run h P :
  holds_blocks h P → jobs (queue h) = ∅ →
  ∃ h', queue_init h = Done (if grants h BSemaphore then 0 else -1, h') ∧
    grants h' = grants h ∧ creates h' = creates h ∧
    if grants h BSemaphore then holds_blocks h' (λ b, b = BSemaphore ∨ P b) ∧ queue_rep (queue h') [] []
    else holds_blocks h' P.
Proof.
  intros Hh Hj. unfold queue_init, malloc. destruct (grants h BSemaphore) eqn:G.
  - eexists. split; [eapply bind_done; [rewrite G; reflexivity|reflexivity]|]. split; [done|]. split; [done|].
    split; [intros b; cbn [live]; by rewrite elem_of_cons, (Hh b)|].
    split; cbn; try done; [apply NoDup_nil_2|by rewrite Hj|by intros l ?%not_elem_of_nil].
  - eexists. split; [eapply bind_done; [rewrite G; reflexivity|reflexivity]|]. by split.
Qed.

(** The slots of [thread_inits] are the threads that stay allocated. *)
Lemma thread_inits_slots n h P :
  holds_blocks h P → (∀ i, ¬ P (BThread i)) →
  ∃ ts h', thread_inits 0 n h = Done (ts, h') ∧ length ts = n ∧ queue h' = queue h ∧
    holds_blocks h' (λ b, P b ∨ ∃ i r, b = BThread i ∧ ts !! i = Some (SlotThread r)).
Proof.
  intros Hh HP. destruct (thread_inits_run 0 n h P Hh) as (h' & Hr & _ & _ & Hq & Hh').
  exists (slot_of h <$> seq 0 n), h'. split; [exact Hr|]. split; [by rewrite length_fmap, length_seq|].
  split; [done|]. eapply holds_weaken; [exact Hh'|]. intros b. apply or_iff_compat_l. split.
  - intros (i & Hi & -> & Hg). exists i, (creates h i). split; [done|].
    rewrite list_lookup_fmap, lookup_seq_lt by lia. simpl. unfold slot_of. by rewrite Hg.
  - intros (i & r & -> & Hi). rewrite list_lookup_fmap in Hi. apply fmap_Some in Hi as (k & Hk & Hs).
    apply lookup_seq in Hk as [-> Hlt]. exists i. split; [lia|]. split; [done|].
    unfold slot_of in Hs. simpl in Hs. by destruct (grants h (BThread i)).
Qed.

(** The blocks of a pool with the slots [ts]. *)
Definition pool_blocks (ts : list slot) (b : block) : Prop :=
  (b = BThreads ∨ b = BSemaphore ∨ b = BPool) ∨ ∃ i r, b = BThread i ∧ ts !! i = Some (SlotThread r).

Lemma release_run fuel ts h ls ws :
  holds_blocks h (pool_blocks ts) → queue_rep (queue h) ls ws → (length ws < fuel)%nat →
  ∃ h', thpool_release fuel (length ts) ts h = Done (tt, h') ∧ live h' = [] ∧ jobs (queue h') = ∅.
Proof.
  intros Hh Hq Hf.
  destruct (queue_destroy_run fuel ls ws h _ Hh) as (h1 & R1 & Hh1 & Hj1); [by left; right; left|done|done|].
  destruct (thread_destroys_run ts (length ts) h1 (λ b, b = BThreads ∨ b = BPool)) as (h2 & R2 & Hh2 & Hq2);
    [|by intros i [?|?]|done|].
  { eapply holds_weaken; [exact Hh1|]. intros b. unfold pool_blocks. split.
    - intros [[[?|[?|?]]|Ht] Hne]; [by left; left|done|by left; right|by right].
    - intros [[->| ->]|(i & r & -> & Hi)]; [by split; [left; left|]|by split; [left; right; right|]|].
      split; [right; by exists i, r|done]. }
  destruct (free_block_run BThreads h2 _ Hh2) as (h3 & R3 & Hh3 & Hq3); [by left|].
  destruct (free_block_run BPool h3 _ Hh3) as (h4 & R4 & Hh4 & Hq4); [split; [by right|done]|].
  exists h4. split; [|split; [|by rewrite Hq4, Hq3, Hq2]].
  - unfold thpool_release. eapply bind_done; [exact R1|]. eapply bind_done; [exact R2|].
    eapply bind_done; [exact R3|exact R4].
  - eapply holds_none; [exact Hh4|]. cbv beta. intuition congruence.
Qed.

(** Every outcome of [thpool_init]. *)
Lemma thpool_init_run fuel num h :
  live h = [] → jobs (queue h) = ∅ → (0 < fuel)%nat →
  ∃ r h', thpool_init fuel num h = Done (r, h') ∧
    match r with
    | None => live h' = []
    | Some ts => length ts = Z.to_nat num ∧ queue_rep (queue h') [] [] ∧ holds_blocks h' (pool_blocks ts)
    end.
Proof.
  intros Hl Hj Hf. unfold thpool_init. destruct (grants h BPool) eqn:G1.
  2: { exists None, h. split; [|done]. eapply bind_done; [reflexivity|]. by rewrite G1. }
  set (h1 := mk_heap (grants h) (creates h) [BPool] (queue h)).
  assert (malloc BPool h = Done (true, h1)) as R1 by (unfold malloc, h1; by rewrite G1, Hl).
  destruct (queue_init_run h1 (.= BPool)) as (h2 & R2 & Eg & Ec & H2); [intros b; cbn; set_solver|done|].
  change (grants h1) with (grants h) in *. destruct (grants h BSemaphore) eqn:G2.
  2: { destruct (free_block_run BPool h2 _ H2 eq_refl) as (h3 & R & Hh3 & _). exists None, h3. split.
    - eapply bind_done; [exact R1|]. eapply bind_done; [exact R2|]. eapply bind_done; [exact R|done].
    - eapply holds_none; [exact Hh3|]. tauto. }
  destruct H2 as [Hh2 Hq2]. destruct (grants h BThreads) eqn:G3.
  2: { destruct (queue_destroy_run fuel [] [] h2 _ Hh2) as (h3 & R3 & Hh3 & _); [by left|exact Hq2|done|].
    destruct (free_block_run BPool h3 _ Hh3) as (h4 & R4 & Hh4 & _); [split; [by right|done]|].
    exists None, h4. split.
    - eapply bind_done; [exact R1|]. eapply bind_done; [exact R2|].
      eapply bind_done; [unfold malloc; rewrite Eg, G3; reflexivity|]. cbn [negb].
      eapply bind_done; [exact R3|]. eapply bind_done; [exact R4|done].
    - eapply holds_none; [exact Hh4|]. cbv beta. intuition congruence. }
  set (h3 := mk_heap (grants h2) (creates h2) (BThreads :: live h2) (queue h2)).
  destruct (thread_inits_slots (Z.to_nat (if num <? 0 then 0 else num)) h3
    (λ b, b = BThreads ∨ b = BSemaphore ∨ b = BPool)) as (ts & h4 & R4 & Hlen & Hq4 & Hh4);
    [intros b; cbn [live h3]; by rewrite elem_of_cons, (Hh2 b)|naive_solver|].
  exists (Some ts), h4. split.
  - eapply bind_done; [exact R1|]. eapply bind_done; [exact R2|].
    eapply (bind_done _ _ _ true h3); [unfold malloc, h3; by replace (grants h2 BThreads) with true by (by rewrite Eg)|]. cbn [negb].
    eapply bind_done; [exact R4|done].
  - split; [|by rewrite Hq4]. rewrite Hlen. destruct (Z.ltb_spec num 0); lia.
Qed.

(** The slots of a pool that was created. *)
Lemma thpool_init_slots fuel num h ts h' :
  thpool_init fuel num h = Done (Some ts, h') → ts = slot_of h <$> seq 0 (Z.to_nat num).
Proof.
  unfold thpool_init. intros (r1 & h1 & [= <- <-] & Hr)%bind_inv.
  destruct (grants h BPool) eqn:G1; [|done]. apply bind_inv in Hr as (r & h2 & Hq & Hr).
  assert (grants h2 = grants h ∧ creates h2 = creates h) as [Eg Ec].
  { unfold queue_init in Hq. apply bind_inv in Hq as (b & h3 & [= <- <-] & Hq). cbn [grants] in Hq.
    destruct (grants h BSemaphore); by injection Hq as _ <-. }
  destruct (r =? -1); [by apply bind_inv in Hr as (? & ? & _ & [=])|].
  apply bind_inv in Hr as (r3 & h3 & [= <- <-] & Hr). destruct (grants h2 BThreads); [|].
  - apply bind_inv in Hr as (ts' & h4 & Hr & [= <- <-]).
    destruct (thread_inits_run 0 (Z.to_nat (if num <? 0 then 0 else num))
      (mk_heap (grants h2) (creates h2) (BThreads :: live h2) (queue h2)) _ (λ b, iff_refl _)) as (h5 & Hr' & _).
    cbn [negb] in Hr. rewrite Hr' in Hr. injection Hr as <- _.
    replace (Z.to_nat (if num <? 0 then 0 else num)) with (Z.to_nat num) by (destruct (Z.ltb_spec num 0); lia).
    apply list_fmap_ext. intros _ i _. unfold slot_of. cbn [grants creates]. by rewrite Eg, Ec.
  - apply bind_inv in Hr as (? & ? & _ & Hr). by apply bind_inv in Hr as (? & ? & _ & [=]).
Qed.

Lemma running_fewer h n i :
  (i < n)%nat → grants h (BThread i) = false ∨ creates h i = false →
  (running_threads (slot_of h <$> seq 0 n) < n)%nat.
Proof.
  intros Hi Hg. unfold running_threads.
  eapply Nat.lt_le_trans; [apply (length_filter_lt _ _ (slot_of h i))|by rewrite length_fmap, length_seq].
  - apply list_elem_of_fmap. exists i. split; [done|]. apply elem_of_seq. lia.
  - unfold slot_of. destruct Hg as [->| ->]; [done|]. by destruct (grants h (BThread i)).
Qed.

(** ** Pausing and resuming *)

(** What the signal of [thpool_pause] did to a thread: it may be pending, and
    the thread may be in the handler [thread_hold], before its store
    ([HEntered]) or in its loop ([HLooping]).  While the handler runs the signal
    is blocked. *)
Inductive handler := HNone | HEntered | HLooping.
Record hold := mk_hold { sig_pending : bool; in_handler : handler }.

Section Pause.
Context {Q W : Type} `{JobQueueSpec Q W}.
Abbreviation shared := (@shared Q W).
Abbreviation pool := (@pool Q W).

(** [threads_on_hold] is the global; [pausing] is the loop variable of a
    [thpool_pause] that is under way. *)
Record paused_pool := mk_paused {
  the_pool : pool;
  holds : list hold;
  threads_on_hold : bool;
  pausing : option nat
}.
Implicit Types (x : paused_pool).

Definition set_pool p x : paused_pool := mk_paused p (holds x) (threads_on_hold x) (pausing x).
Definition set_holds hs x : paused_pool := mk_paused (the_pool x) hs (threads_on_hold x) (pausing x).
Definition set_on_hold b x : paused_pool := mk_paused (the_pool x) (holds x) b (pausing x).
Definition set_pausing n x : paused_pool := mk_paused (the_pool x) (holds x) (threads_on_hold x) n.

(** [pthread_kill(threads[n]->pthread, SIGUSR1)]. *)
Definition raise_signal (n : nat) (hs : list hold) : list hold :=
  alter (λ h, mk_hold true (in_handler h)) n hs.

(** A pool that may be used: between [thpool_init] and [thpool_destroy]. *)
Definition usable x : Prop :=
  match main (sh (the_pool x)) with MInit | MDestroy | MFreed => False | _ => True end.

(** Everything but [thpool_resume]. *)
Inductive hold_step (nthreads : Z) : paused_pool → paused_pool → Prop :=
| h_worker x s' w w' l1 l2 h : workers (the_pool x) = l1 ++ w :: l2 →
    holds x !! length l1 = Some h → in_handler h = HNone →
    worker_step (sh (the_pool x)) w s' w' →
    hold_step nthreads x (set_pool (mk_pool s' (l1 ++ w' :: l2)) x)
| h_add x s' : add_step (sh (the_pool x)) s' →
    hold_step nthreads x (set_pool (mk_pool s' (workers (the_pool x))) x)
| h_main x s' : main_step nthreads (sh (the_pool x)) s' →
    hold_step nthreads x (set_pool (mk_pool s' (workers (the_pool x))) x)
| h_pause x : usable x → pausing x = None → hold_step nthreads x (set_pausing (Some 0%nat) x)
| h_kill x n : usable x → pausing x = Some n → Z.of_nat n < num_threads_alive (sh (the_pool x)) →
    hold_step nthreads x (set_pausing (Some (S n)) (set_holds (raise_signal n (holds x)) x))
| h_paused x n : pausing x = Some n → num_threads_alive (sh (the_pool x)) ≤ Z.of_nat n →
    hold_step nthreads x (set_pausing None x)
| h_signal x i w : holds x !! i = Some (mk_hold true HNone) →
    workers (the_pool x) !! i = Some w → w ≠ WDead →
    hold_step nthreads x (set_holds (<[i := mk_hold false HEntered]> (holds x)) x)
| h_enter x i b : holds x !! i = Some (mk_hold b HEntered) →
    hold_step nthreads x (set_on_hold true (set_holds (<[i := mk_hold b HLooping]> (holds x)) x))
| h_leave x i b : holds x !! i = Some (mk_hold b HLooping) → threads_on_hold x = false →
    hold_step nthreads x (set_holds (<[i := mk_hold b HNone]> (holds x)) x).

Definition thpool_resume x : paused_pool := set_on_hold false x.

Inductive paused_step (nthreads : Z) : paused_pool → paused_pool → Prop :=
| ps_hold x x' : hold_step nthreads x x' → paused_step nthreads x x'
| ps_resume x : paused_step nthreads x (thpool_resume x).

Definition paused_init (num_threads : Z) x : Prop :=
  init_states num_threads (the_pool x) ∧ threads_on_hold x = false ∧ pausing x = None ∧
  holds x = replicate (length (workers (the_pool x))) (mk_hold false HNone).

Definition paused_reachable (num_threads : Z) : paused_pool → Prop :=
  reachable (paused_init num_threads)
    (paused_step (if num_threads <? 0 then 0 else num_threads)).

(** All threads sit in the loop of the handler. *)
Definition all_held x : Prop :=
  threads_on_hold x = true ∧ length (holds x) = length (workers (the_pool x)) ∧
  Forall (λ h, in_handler h = HLooping) (holds x).

(** ** Lemmas *)

(** Forgetting the signals, a step is a step of the pool or nothing. *)
Lemma hold_step_pool n x x' :
  hold_step n x x' → pool_step n (the_pool x) (the_pool x') ∨ the_pool x' = the_pool x.
Proof.
  intros Hs. destruct Hs as [x s' w w' l1 l2 h Hw _ _ Hst|x s' Hst|x s' Hst|x|x k|x k|x i w|x i b|x i b];
    try (by right); left; destruct (the_pool x) as [s ws]; cbn [sh workers] in *.
  - subst. by apply p_worker.
  - by apply p_add.
  - by apply p_main.
Qed.

Lemma paused_pool_reachable num x : paused_reachable num x → pool_reachable num (the_pool x).
Proof.
  intros (x0 & (Hi & _) & Hs). exists (the_pool x0). split; [done|].
  assert (∀ y, star (pool_step (if num <? 0 then 0 else num)) (the_pool x0) (the_pool y) →
               star (paused_step (if num <? 0 then 0 else num)) y x →
               star (pool_step (if num <? 0 then 0 else num)) (the_pool x0) (the_pool x)) as Hgen.
  { clear Hs. intros y Hy Hr. induction Hr as [|y y' z Hst _ IH]; [done|]. apply IH.
    destruct Hst as [y y' Hst|y]; [|done].
    apply hold_step_pool in Hst as [Hst|Heq]; [by eapply star_trans, star_one|by rewrite Heq]. }
  apply (Hgen x0); [constructor|done].
Qed.

(** The signals are per thread, in the order of the threads. *)
Lemma holds_length num x : paused_reachable num x → length (holds x) = length (workers (the_pool x)).
Proof.
  revert x. apply reachable_invariant.
  - intros x (_ & _ & _ & ->). apply length_replicate.
  - intros x x' Hl Hst. destruct Hst as [y y' Hs|y]; [|done].
    destruct Hs as [y s' w w' l1 l2 h Hw _ _ _|y s' _|y s' _|y|y k|y k|y i w|y i b|y i b];
      cbn [holds the_pool workers set_holds set_pool set_on_hold set_pausing] in *; try done.
    + by rewrite Hl, Hw, !length_app.
    + unfold raise_signal. by rewrite length_alter.
    + by rewrite length_insert.
    + by rewrite length_insert.
    + by rewrite length_insert.
Qed.

(** While all threads are held nothing but the controller and the adders moves. *)
Lemma held_step n x x' :
  all_held x → hold_step n x x' →
  all_held x' ∧ workers (the_pool x') = workers (the_pool x) ∧
  finished (sh (the_pool x')) = finished (sh (the_pool x)) ∧
  num_threads_alive (sh (the_pool x')) = num_threads_alive (sh (the_pool x)).
Proof.
  intros (Hon & Hl & Hall) Hs. rewrite Forall_lookup in Hall.
  destruct Hs as [x s' w w' l1 l2 h Hw Hh Hn _|x s' Hst|x s' Hst|x|x k|x k|x i w Hh|x i b Hh|x i b Hh Hoff];
    unfold all_held; cbn [holds the_pool workers sh threads_on_hold set_holds set_pool set_on_hold set_pausing].
  - apply Hall in Hh. congruence.
  - split; [|by destruct Hst]. split; [done|]. split; [done|]. by apply Forall_lookup.
  - split; [|split; [done|by destruct Hst]]. split; [done|]. split; [done|]. by apply Forall_lookup.
  - split; [|done]. split; [done|]. split; [done|]. by apply Forall_lookup.
  - split; [|done]. split; [done|]. unfold raise_signal. rewrite length_alter. split; [done|].
    apply Forall_lookup. intros j h Hj. destruct (decide (j = k)) as [->|Hne].
    + rewrite list_lookup_alter_eq in Hj. apply fmap_Some in Hj as (h' & Hh' & ->). by apply Hall in Hh'.
    + rewrite list_lookup_alter_ne in Hj by done. by apply Hall in Hj.
  - split; [|done]. split; [done|]. split; [done|]. by apply Forall_lookup.
  - by apply Hall in Hh.
  - by apply Hall in Hh.
  - congruence.
Qed.

End Pause.

(** ** Properties *)

Definition with_queue (q : jobqueue) (h : heap) : heap := mk_heap (grants h) (creates h) (live h) q.

(** C30: [thpool_init] and [thpool_destroy] account for every allocation: when
    any [malloc] before the threads fails, NULL is returned and nothing stays
    allocated; otherwise, whatever jobs the queue then holds, destroying the
    pool frees its threads, their array, the queue with its jobs and the pool. *)
Theorem init_destroy_balanced fuel num h :
  live h = [] → jobs (queue h) = ∅ → (0 < fuel)%nat →
  ∃ r h', thpool_init fuel num h = Done (r, h') ∧
    match r with
    | None => live h' = []
    | Some ts =>
        length ts = Z.to_nat num ∧
        ∀ q ls ws fuel', queue_rep q ls ws → (length ws < fuel')%nat →
          ∃ h'', thpool_release fuel' (length ts) ts (with_queue q h') = Done (tt, h'') ∧
            live h'' = [] ∧ jobs (queue h'') = ∅
    end.
Proof.
  intros Hl Hj Hf. destruct (thpool_init_run fuel num h Hl Hj Hf) as (r & h' & Hr & Hpost).
  exists r, h'. split; [exact Hr|]. destruct r as [ts|]; [|done]. destruct Hpost as (Hlen & _ & Hh').
  split; [done|]. intros q ls ws fuel' Hq Hw. by apply (release_run fuel' ts (with_queue q h') ls ws).
Qed.

Section Properties.
Context {Q W : Type} `{JobQueueSpec Q W}.
Abbreviation pool := (@pool Q W).
Abbreviation paused_pool := (@paused_pool Q W).
Implicit Types (p : pool) (x : paused_pool).

(** The pool in the final loop of [thpool_init]: the threads that run have been
    created. *)
Definition started (threads : list slot) p : Prop :=
  ∃ q, q_rep q [] ∧ p = mk_pool (mk_shared true 0 0 false q MInit [] []) (replicate (running_threads threads) WStart).

(** Fewer workers than the loop waits for. *)
Definition waiting (n : Z) p : Prop :=
  main (sh p) = MInit ∧ num_threads_alive (sh p) = total is_alive (workers p) ∧
  Z.of_nat (length (workers p)) < n.

Lemma alive_le_length (l : list (worker W)) : total is_alive l ≤ Z.of_nat (length l).
Proof. induction l as [|w l IH]; [done|]. pose proof (is_alive_range w). unfold total in *. simpl. lia. Qed.

Lemma waiting_step n p p' : waiting n p → pool_step n p p' → waiting n p'.
Proof.
  unfold waiting. intros (Hm & Hal & Hn) Hs.
  destruct Hs as [s s' w w' l1 l2 Hs|s s' l Hs|s s' l Hs]; cbn [sh workers] in *.
  - rewrite length_app in *. cbn [length] in *. rewrite (total_replace _ l1 w w').
    destruct Hs; pool_simpl; try (repeat split; (done || lia)).
    + destruct (threads_keepalive s); repeat split; (done || simpl; lia).
    + destruct (threads_keepalive s); repeat split; (done || simpl; lia).
    + destruct r; repeat split; (done || simpl; lia).
    + destruct (signal_fields s') as (_ & _ & _ & _ & _ & E & _).
      destruct (_ =? 0); rewrite ?main_signal, ?E; unfold s'; pool_simpl; rewrite Hm; repeat split; (done || simpl; lia).
  - destruct Hs. congruence.
  - pose proof (alive_le_length l). destruct Hs; pool_simpl; try congruence. lia.
Qed.

(** C33: [thpool_init] does not return when a thread could not be allocated or
    created: the results of [thread_init] and [pthread_create] are not looked
    at, and its final loop waits for a number of live threads that is never
    reached. *)
Theorem failed_thread_hangs_init fuel num h threads h' i p :
  thpool_init fuel num h = Done (Some threads, h') →
  (i < Z.to_nat num)%nat → grants h (BThread i) = false ∨ creates h i = false →
  reachable (started threads) (pool_step num) p → main (sh p) = MInit.
Proof.
  intros ->%thpool_init_slots Hi Hg Hr. pose proof (running_fewer h _ i Hi Hg) as Hn.
  cut (waiting num p); [by intros []|]. revert p Hr. apply reachable_invariant.
  - intros p (q & _ & ->). unfold waiting. cbn [sh workers main num_threads_alive].
    rewrite length_replicate. split; [done|]. split; [|lia].
    clear. induction (running_threads _) as [|k IH]; [done|]. unfold total in *. simpl. lia.
  - intros p p'. apply waiting_step.
Qed.

(** A paused pool stands still: once all threads are in the handler's loop no
    job starts or ends until [thpool_resume] is called, and a [thpool_destroy]
    does not return. *)
Theorem paused_stands_still n x x' :
  all_held x → star (hold_step n) x x' →
  all_held x' ∧ workers (the_pool x') = workers (the_pool x) ∧
  finished (sh (the_pool x')) = finished (sh (the_pool x)) ∧
  (num_threads_alive (sh (the_pool x)) ≠ 0 → main (sh (the_pool x)) ≠ MFreed →
   main (sh (the_pool x')) ≠ MFreed).
Proof.
  intros Hh Hs. induction Hs as [x|x y z Hst _ IH]; [done|].
  destruct (held_step n x y Hh Hst) as (Hy & Hw & Hf & Ha). destruct (IH Hy) as (Hz & Hw' & Hf' & Hm).
  split; [done|]. split; [congruence|]. split; [congruence|]. intros Hn Hx. apply Hm; [congruence|].
  clear -Hst Hn Hx Hh. destruct Hst as [x s' w w' l1 l2 h Hw Hl Hnone _|x s' Hst|x s' Hst| | | | | |]; try done.
  - destruct Hh as (_ & _ & Hall). rewrite Forall_lookup in Hall. apply Hall in Hl. congruence.
  - by destruct Hst.
  - destruct Hst; cbn in *; congruence.
Qed.

(** A thread in the handler's loop stays there while the flag is set. *)
Lemma looping_stays n x x' i :
  star (hold_step n) x x' → threads_on_hold x = true → (∃ b, holds x !! i = Some (mk_hold b HLooping)) →
  threads_on_hold x' = true ∧ ∃ b, holds x' !! i = Some (mk_hold b HLooping).
Proof.
  induction 1 as [x|x y z Hst _ IH]; [done|]. intros Hon (b & Hi). apply IH.
  - destruct Hst; done.
  - destruct Hst as [| | | |x k|x k|x j w Hj|x j c Hj|x j c Hj Hoff]; try (by exists b);
      cbn [holds set_holds set_on_hold set_pausing] in *.
    + unfold raise_signal. destruct (decide (i = k)) as [->|Hne].
      * exists true. by rewrite list_lookup_alter_eq, Hi.
      * exists b. by rewrite list_lookup_alter_ne.
    + exists b. rewrite list_lookup_insert_ne; [done|congruence].
    + exists b. rewrite list_lookup_insert_ne; [done|congruence].
    + congruence.
Qed.

(** C35: A resume can be lost: a thread whose signal is still pending when
    [thpool_resume] clears the flag can enter the handler afterwards, which
    sets the flag again: it then stays in the handler's loop, whatever the
    other threads do, until the next [thpool_resume].  The witness reaches such
    a state from the created pool. *)
Theorem resume_lost n x i w :
  holds x !! i = Some (mk_hold true HNone) → workers (the_pool x) !! i = Some w → w ≠ WDead →
  ∃ x', star (hold_step n) (thpool_resume x) x' ∧ holds x' !! i = Some (mk_hold false HLooping) ∧
    ∀ x'', star (hold_step n) x' x'' → ∃ b, holds x'' !! i = Some (mk_hold b HLooping).
Proof.
  intros Hi Hw Hd. pose proof (lookup_lt_Some _ _ _ Hi) as Hlt. eexists. split.
  - eapply star_step; [by eapply h_signal|]. apply star_one.
    apply (h_enter _ _ i false). cbn. by apply list_lookup_insert_eq.
  - cbn. rewrite list_insert_insert_eq. split; [by apply list_lookup_insert_eq|].
    intros x'' Hs. apply (looping_stays n _ x'' i) in Hs; [by destruct Hs|done|].
    exists false. cbn. by apply list_lookup_insert_eq.
Qed.

End Properties.

(** ** Concrete runs *)

Definition demo_heap (creates : nat → bool) : heap := mk_heap (λ _, true) creates [] empty_queue.

Lemma init_destroy_balanced_witness :
  ∃ ts h', thpool_init 1 2 (demo_heap (λ _, true)) = Done (Some ts, h') ∧ length ts = 2%nat.
Proof.
  destruct (init_destroy_balanced 1 2 (demo_heap (λ _, true)) eq_refl eq_refl ltac:(lia)) as ([ts|] & h' & Hr & Hpost).
  - exists ts, h'. split; [exact Hr|exact (proj1 Hpost)].
  - discriminate.
Defined.

Definition demo_started : pool (Q := jobqueue) (W := Z * Z) :=
  mk_pool (mk_shared true 0 0 false empty_queue MInit [] []) [WStart].

Lemma failed_thread_hangs_init_witness :
  ∃ ts h', thpool_init 1 2 (demo_heap (λ i, bool_decide (i = 1%nat))) = Done (Some ts, h') ∧
    started ts demo_started ∧ main (sh demo_started) = MInit.
Proof.
  do 2 eexists. split; [reflexivity|]. split; [exists empty_queue; split; [exists []; exact empty_queue_rep|reflexivity]|].
  eapply (failed_thread_hangs_init 1 2 (demo_heap (λ i, bool_decide (i = 1%nat))) _ _ 0);
    [reflexivity|simpl; lia|by right|].
  exists demo_started. split; [exists empty_queue; split; [exists []; exact empty_queue_rep|reflexivity]|apply star_refl].
Defined.

Definition demo_paused (m : controller (Z * Z)) (h : hold) (on_hold : bool) : paused_pool (Q := jobqueue) (W := Z * Z) :=
  mk_paused (mk_pool (mk_shared true 1 0 false empty_queue m [] []) [WTop]) [h] on_hold None.

Lemma paused_stands_still_witness :
  finished (sh (the_pool (demo_paused MLocked (mk_hold false HLooping) true))) = [].
Proof.
  apply (paused_stands_still 1 (demo_paused MIdle (mk_hold false HLooping) true)).
  - split; [reflexivity|]. split; [reflexivity|]. by repeat constructor.
  - eapply star_one, (h_main _ (demo_paused MIdle (mk_hold false HLooping) true)). by apply m_lock.
Defined.

(** One worker is waiting for a job when it is paused; the pause has returned and
    its signal has not arrived yet. *)
Definition demo_pending : paused_pool (Q := jobqueue) (W := Z * Z) :=
  mk_paused (mk_pool (mk_shared true 1 0 false empty_queue MIdle [] []) [WTop]) [mk_hold true HNone] false None.

Lemma demo_pending_reachable : paused_reachable 1 demo_pending.
Proof.
  exists (mk_paused demo_pool [mk_hold false HNone] false None).
  split; [split; [exact demo_init|by split]|]. cbn.
  eapply star_step; [apply ps_hold, (h_worker _ _ (set_alive 1 (sh demo_pool)) WStart WTop [] [] (mk_hold false HNone));
    [reflexivity..|]; apply (w_start (sh demo_pool)); split; [exact I|reflexivity]|].
  eapply star_step; [apply ps_hold, h_main; by apply m_ready|].
  eapply star_step; [apply ps_hold, h_pause; [exact I|reflexivity]|].
  eapply star_step; [apply ps_hold, (h_kill _ _ 0); [exact I|reflexivity|vm_compute; reflexivity]|].
  eapply star_step; [apply ps_hold, (h_paused _ _ 1); [reflexivity|vm_compute; discriminate]|].
  apply star_refl.
Qed.

Lemma resume_lost_witness :
  paused_reachable 1 demo_pending ∧
  ∃ x', star (hold_step 1) (thpool_resume demo_pending) x' ∧
    holds x' !! 0%nat = Some (mk_hold false HLooping) ∧
    ∀ x'', star (hold_step 1) x' x'' → ∃ b, holds x'' !! 0%nat = Some (mk_hold b HLooping).
Proof.
  split; [exact demo_pending_reachable|].
  exact (resume_lost 1 demo_pending 0 WTop eq_refl eq_refl ltac:(discriminate)).
Defined.
