(* ===== verification/StreamChannel.v ===== *)
(** * StreamChannel: a stream device served over a connection

    [client_stream_channel] of [src/userspace/io_backend/src/io_backend.c]: a
    context with one stream device, opened by the path the client names, and
    the stream commands run on it through the device table.  The functions a
    backend puts into a stream device are a parameter; the device behind the
    table keeps the contract of [Devices.StreamSink] when they do.  The function is
    there but not reached: its only call is in the block of [main] that is
    commented out ([io_backend.c], 381-384). *)
From Stdlib Require Import ZArith Lia.
From stdpp Require Import base list numbers option gmap.
From S2P Require Import Prelude Socket NetClient DmaChannel Devices BackendCall Remote LocalBackend Context BackendContext.

(** ** A stream device of a context *)

Section Device.
Context {P W : Type} `{Backend P W} (ops : P → StreamDevice W).
Abbreviation wd := (world P W).

(** The dispatch functions of [bbio_core.c] on the device at [device]. *)
Definition dispatch {A} (device : Z) (op : StreamDevice W → M W A) : M wd A :=
  d ← device_at device;
  on_backend (op (ops (dv_private d))).

Definition context_stream (device : Z) : StreamDevice wd := {|
  io_stream_get_buffer := dispatch device (@io_stream_get_buffer W);
  fill_buffer := λ b off x, dispatch device (λ o, @fill_buffer W o b off x);
  fill_struct := λ b off x, dispatch device (λ o, @fill_struct W o b off x);
  buffer_bytes := λ b n, dispatch device (λ o, @buffer_bytes W o b n);
  io_write_stream_device := λ b n, dispatch device (λ o, @io_write_stream_device W o b n);
  io_read_stream_device := λ b n, dispatch device (λ o, @io_read_stream_device W o b n);
  io_sync_stream_device := dispatch device (@io_sync_stream_device W)
|}.

Context `{Stack}.

(** [client_stream_channel]; [nodelay] is what [setsockopt] answers, and [None]
    stands for the exit of the process in [error]. *)
Definition client_stream_channel (nodelay : Z) (fuel inner : nat) : M (session wd) (option Z) :=
  ctx ← on_dev io_create_context;
  if nodelay <? 0 then mret None
  else
    r ← client_finish_handshake;
    if r =? 0 then mret (Some (-1))
    else
      '(path, _) ← client_deivce_option;
      device ← on_dev (io_add_stream_device ctx path);
      match device with
      | None => mret tt
      | Some p =>
          d ← on_dev (device_at p);
          on_conn (send (le_bytes 4 (u32 (device_fd (dv_private d))))) ;;
          @client_stream_cmd_handle _ _ (context_stream p) fuel inner ;;
          mret tt
      end ;;
      on_dev (io_close_context ctx) ;;
      mret (Some 0).

End Device.

(** ** Lemmas: the device keeps its contract behind the table *)

Section Sink.
Context {P W : Type} `{Backend P W} (ops : P → StreamDevice W).
Context (w0 : world P W) (p : Z) (d : io_device P) (x : P).
Hypothesis device_there : devices w0 !! p = Some d.
Hypothesis device_payload : dv_private d = x.
#[local] Instance payload : StreamDevice W := ops x.
Context `{!StreamSink W}.

Lemma dispatch_run {A} (op : StreamDevice W → M W A) b a b' :
  op payload b = Done (a, b') →
  dispatch ops p op (set_backend b w0) = Done (a, set_backend b' w0).
Proof.
  intros Hop. unfold dispatch. eapply bind_done.
  { unfold device_at. eapply bind_done; [reflexivity|]. cbn [devices set_backend]. by rewrite device_there. }
  unfold on_backend. rewrite device_payload. by erewrite zoom_done.
Qed.

Lemma dispatch_fault {A} (op : StreamDevice W → M W A) b f :
  op payload b = Fault f → dispatch ops p op (set_backend b w0) = Fault f.
Proof.
  intros Hop. unfold dispatch. eapply bind_done.
  { unfold device_at. eapply bind_done; [reflexivity|]. cbn [devices set_backend]. by rewrite device_there. }
  unfold on_backend. rewrite device_payload. by erewrite zoom_fault.
Qed.

Definition table_idle (log : list (list Z)) (w : world P W) : Prop :=
  ∃ b, w = set_backend b w0 ∧ idle log b.
Definition table_holds (log : list (list Z)) (i : nat) (bs : list Z) (w : world P W) : Prop :=
  ∃ b, w = set_backend b w0 ∧ holds log i bs b.

#[refine] Definition context_sink : @StreamSink (world P W) (context_stream ops p) := {|
  idle := table_idle;
  holds := table_holds
|}.
Proof.
  - intros log w (b & -> & Hi). destruct (sink_get log b Hi) as (i & bs & b' & Hg & Hh & Hb).
    exists i, bs, (set_backend b' w0). split; [by apply dispatch_run|]. split; [by exists b'|done].
  - intros log i bs off y w (b & -> & Hh) Hx Hl.
    destruct (sink_fill log i bs off y b Hh Hx Hl) as (b' & Hf & Hh').
    exists (set_backend b' w0). split; [by apply dispatch_run|]. by exists b'.
  - intros log i bs off y w (b & -> & Hh) Ho Hl. apply dispatch_fault. by apply (sink_bound log i bs).
  - intros log i bs n w (b & -> & Hh) Hb Hn.
    destruct (sink_write log i bs n b Hh Hb Hn) as (b' & Hw & Hi).
    exists (set_backend b' w0). split; [by apply dispatch_run|]. by exists b'.
Defined.

End Sink.

(** ** Lemmas: the requests of a client *)

Section Requests.
Context `{Stack} {D : Type}.

(** A send on a connection that takes [n] more after it. *)
Lemma send_some bs n s :
  sends_left s = Some (S n) → send bs s = Done (Z.of_nat (length bs), set_tx (tx s ++ bs) (Some n) s).
Proof. unfold send. by intros ->. Qed.

(** A request whose fields arrive whole. *)
Lemma recv_field_whole old f rest s :
  rx s = f :: rest → length old = length f → (0 < length f)%nat →
  recv_into old s = Done ((Z.of_nat (length f), f), set_rx rest s).
Proof. intros Hr. apply (recv_into_whole old f []). by rewrite app_nil_r. Qed.

Lemma device_option_whole {P W} `{Backend P W} path size rest s (w : world P W) :
  Forall (λ c, c ≠ 0) path → Z.of_nat (length path) + 1 < 2 ^ 32 →
  rx s = le_bytes 4 (Z.of_nat (length path) + 1) :: (path ++ [0]) :: le_bytes 8 size :: rest →
  client_deivce_option (mk_session s w) = Done ((path, le_val (le_bytes 8 size)), mk_session (set_rx rest s) w).
Proof.
  intros Hpath Hlen Hrx. unfold client_deivce_option.
  eapply bind_done.
  { apply on_conn_run. eapply recv_field_whole; [exact Hrx|by rewrite garbage_length, length_le_bytes|].
    rewrite length_le_bytes. lia. }
  cbv beta iota. rewrite le_val_bytes by (simpl; lia).
  replace (Z.to_nat (Z.of_nat (length path) + 1)) with (length (path ++ [0])) by (rewrite length_app; simpl; lia).
  eapply bind_done.
  { apply on_conn_run. eapply recv_field_whole; [reflexivity|apply garbage_length|]. rewrite length_app. simpl. lia. }
  cbv beta iota. eapply bind_done.
  { apply on_conn_run. eapply recv_field_whole; [reflexivity|by rewrite garbage_length, length_le_bytes|].
    rewrite length_le_bytes. lia. }
  cbv beta iota. rewrite (c_string_terminated path []) by done. eapply bind_done; reflexivity.
Qed.

(** A write command, its stream, and the synchronisation behind it. *)
Lemma stream_handle_run `{StreamDevice D} fuel inner s rest (d d1 d2 : D) server :
  rx s = [call_code CALL_WRITE_STREAM] :: rest →
  client_cmd_write_stream_inf fuel inner (mk_session (set_rx rest s) d) = Done (0, mk_session server d1) →
  io_sync_stream_device d1 = Done (tt, d2) →
  client_stream_cmd_handle fuel inner (mk_session s d) = Done (1, mk_session server d2).
Proof.
  intros Hrx Hrun Hsync. unfold client_stream_cmd_handle. rewrite iterate_unfold.
  eapply bind_done.
  { unfold stream_cmd_body. eapply bind_done.
    { apply on_conn_run. eapply recv_field_whole; [exact Hrx|by rewrite garbage_length|simpl; lia]. }
    cbv beta iota. eapply bind_done; [exact Hrun|]. eapply bind_done; [by apply on_dev_run|]. reflexivity. }
  reflexivity.
Qed.

End Requests.

(** ** A whole session *)

Section Session.
Context `{Stack} {P W : Type} `{Backend P W} (ops : P → StreamDevice W) (x : P).
#[local] Instance opened_stream : StreamDevice W := ops x.
Context {Hsink : StreamSink W}.

(** A whole stream channel, against a client that terminates the path and
    writes packets until its connection breaks: the device is opened, its
    hardware gets blocks of exactly 128 KiB that together with the bytes left in
    the current buffer are the packets, then the transfers are waited for, the
    device is closed and nothing stays on the heap. *)
Lemma stream_channel_run w0 s path size nodelay b1 ps segss k fuel inner :
  wf_heap w0 → 0 ≤ nodelay → Forall (λ c, c ≠ 0) path → Z.of_nat (length path) + 1 < 2 ^ 32 →
  open_stream path (backend w0) = Done (Some x, b1) → idle [] b1 →
  (∀ log i bs b2, holds log i bs b2 → ∃ b3 b4,
     io_sync_stream_device b2 = Done (tt, b3) ∧ close_stream x b3 = Done (tt, b4)) →
  rx s = le_bytes 4 (Z.of_nat (length path) + 1) :: (path ++ [0]) :: le_bytes 8 size :: [6] :: concat segss →
  sends_left s = Some (S (S k)) →
  Forall2 packet_segs ps segss → Forall (Forall is_byte) ps → aligned 0 ps →
  (length ps ≤ k)%nat → (k < fuel)%nat → BUFFER_SIZE < Z.of_nat inner →
  ∃ s' w' log cur i bs b2 b3,
    client_stream_channel ops nodelay fuel inner (mk_session s w0) = Done (Some 0, mk_session s' w') ∧
    holds log i bs b2 ∧ take (length cur) bs = cur ∧ Forall is_block log ∧
    Z.of_nat (length cur) < BUFFER_SIZE ∧ concat log ++ cur = concat ps ∧
    io_sync_stream_device b2 = Done (tt, b3) ∧ close_stream x b3 = Done (tt, backend w') ∧
    contexts w' = contexts w0 ∧ devices w' = devices w0.
Proof.
  intros Hwf Hno Hpath Hlen Hopen Hidle Hclose Hrx Hs Hps Hby Ha Hk Hf Hin.
  destruct (one_device w0 STREAM_DEVICE path x b1 Hwf) as (p & d & w2 & Hadd & Hat & Hdp & Ht & Hx & <- & Hend).
  set (s0 := set_tx (tx s ++ le_bytes 4 HANDSHAKE_HEADER) (Some (S k)) s).
  set (s1 := set_rx ([6] :: concat segss) s0).
  set (s2 := set_tx (tx s1 ++ le_bytes 4 (u32 (device_fd (dv_private d)))) (Some k) s1).
  destruct (@serve_stream _ _ (context_stream ops p) (@context_sink _ _ ops w2 p d x Hdp Hx Hsink) ps segss k fuel inner w2
    (set_rx (concat segss) s2)) as (s3 & w3 & log & cur & i & bs & Hrun & (b2 & -> & Hh) & Hrest);
    try done; [exists (backend w2); split; [by destruct w2|exact Hidle]|].
  destruct (Hclose log i bs b2 Hh) as (b3 & b4 & Hsync & Hcl).
  destruct (Hend b3 b4 Hcl) as (w4 & Hctx & Hb4 & Hcx & Hdv).
  exists s3, w4, log, cur, i, bs, b2, b3. rewrite Hb4. split; [|tauto].
  unfold client_stream_channel. eapply bind_done; [apply on_dev_run, create_run|].
  rewrite (proj2 (Z.ltb_ge _ _)) by done.
  eapply bind_done; [apply on_conn_run; by apply (send_some _ (S k))|]. cbn [conn dev]. fold s0.
  rewrite length_le_bytes. change (Z.of_nat 4 =? 0) with false. cbv iota.
  eapply bind_done; [by apply (device_option_whole path size ([6] :: concat segss) s0)|]. cbv beta iota. fold s1.
  eapply bind_done; [apply on_dev_run; by eapply add_stream_run|]. cbv beta iota.
  eapply bind_done.
  { eapply bind_done; [apply on_dev_run; exact Hat|].
    eapply bind_done; [apply on_conn_run; by apply (send_some _ k)|]. cbn [conn dev]. fold s2.
    eapply bind_done; [|reflexivity].
    apply (@stream_handle_run _ _ (context_stream ops p) fuel inner s2 (concat segss) w2 (set_backend b2 w2)
      (set_backend b3 w2) s3); [reflexivity|exact Hrun|]. by apply (dispatch_run ops w2 p d x Hdp Hx). }
  eapply bind_done; [apply on_dev_run; exact Hctx|reflexivity].
Qed.

End Session.
