(* ===== verification/Machine.v ===== *)
(** * Machine: the process and the driver's channels

    What a program of [src/userspace] runs on: the process of [LocalBackend], the
    transmit channels of the DMA proxy driver as [ZeroCopy] has them, each with
    its engine and what the engine has sent, and its receive channels as
    [LocalReceive] has them.  [machine_backend] opens and closes devices on it,
    [machine_stream] is the table of functions a stream device gets.  A program
    on it is followed by [program_at]: the devices it has open and what the process
    holds for them.  Closing them gives every descriptor and block of memory back;
    of a stream's ring the pages behind the first buffer stay mapped
    ([ring_left]), as [buffer_release] unmaps one buffer only. *)
From Stdlib Require Import ZArith Lia.
From stdpp Require Import base list numbers option gmap sets.
From S2P Require Import Prelude Socket NetClient DmaChannel BufferData Devices LocalBackend ZeroCopy LocalStream Context BackendContext StreamChannel TestApp Threads LocalReceive.

(** ** A device inside a larger state *)

(** A part [D] of a state [G] that may be missing. *)
Record lens (G D : Type) := mk_lens { view : G → option D; put : D → G → G }.
Arguments mk_lens {G D}.
Arguments view {G D}.
Arguments put {G D}.

Class LensLaws {G D} (l : lens G D) : Prop := {
  view_put : ∀ d g, view l (put l d g) = Some d;
  put_put : ∀ d d' g, put l d (put l d' g) = put l d g
}.

Definition through {G D A} (l : lens G D) (m : M D A) : M G A := λ g,
  match view l g with
  | None => Fault WildPointer
  | Some d =>
      match m d with
      | Done (a, d') => Done (a, put l d' g)
      | Fault f => Fault f
      end
  end.

Section Lens.
Context {G D : Type} (l : lens G D) `{!LensLaws l} `{StreamDevice D}.

Definition lens_device : StreamDevice G := {|
  io_stream_get_buffer := through l io_stream_get_buffer;
  fill_buffer := λ b off x, through l (fill_buffer b off x);
  fill_struct := λ b off x, through l (fill_struct b off x);
  buffer_bytes := λ b n, through l (buffer_bytes b n);
  io_write_stream_device := λ b n, through l (io_write_stream_device b n);
  io_read_stream_device := λ b n, through l (io_read_stream_device b n);
  io_sync_stream_device := through l io_sync_stream_device
|}.

Lemma through_done {A} (m : M D A) d a d' g :
  m d = Done (a, d') → through l m (put l d g) = Done (a, put l d' g).
Proof. intros Hm. unfold through. rewrite view_put, Hm. by rewrite put_put. Qed.

Lemma through_fault {A} (m : M D A) d f g : m d = Fault f → through l m (put l d g) = Fault f.
Proof. intros Hm. unfold through. by rewrite view_put, Hm. Qed.

(** Everything else of the state stays what it is in [g0]. *)
#[refine] Definition lens_sink (g0 : G) `{!StreamSink D} : @StreamSink G lens_device := {|
  idle := λ log g, ∃ d, g = put l d g0 ∧ idle log d;
  holds := λ log i bs g, ∃ d, g = put l d g0 ∧ holds log i bs d
|}.
Proof.
  - intros log g (d & -> & Hi). destruct (sink_get log d Hi) as (i & bs & d' & Hg & Hh & Hb).
    exists i, bs, (put l d' g0). split; [by apply through_done|]. split; [by exists d'|done].
  - intros log i bs off x g (d & -> & Hh) Hx Hl. destruct (sink_fill log i bs off x d Hh Hx Hl) as (d' & Hf & Hh').
    exists (put l d' g0). split; [by apply through_done|]. by exists d'.
  - intros log i bs off x g (d & -> & Hh) Ho Hl. apply through_fault. by apply (sink_bound log i bs).
  - intros log i bs n g (d & -> & Hh) Hb Hn. destruct (sink_write log i bs n d Hh Hb Hn) as (d' & Hw & Hi).
    exists (put l d' g0). split; [by apply through_done|]. by exists d'.
Defined.

End Lens.

(** ** The machine *)

Section Machine.
Context {E R : Type} `{EngineQueue E} `{DmaEngine R} (jiffies : Z).

(** The process and the channels of the driver by the paths of their nodes. *)
Record machine := mk_machine {
  mc_os : local_os;
  mc_tx : gmap (list Z) (stream_sys E);
  mc_rx : gmap (list Z) (ring (dma_proxy_channel R))
}.

Definition on_os {A} (m : M local_os A) : M machine A :=
  zoom mc_os (λ o w, mk_machine o (mc_tx w) (mc_rx w)) m.

Definition tx_channel (path : list Z) : lens machine (stream_sys E) :=
  mk_lens (λ w, mc_tx w !! path) (λ s w, mk_machine (mc_os w) (<[path := s]> (mc_tx w)) (mc_rx w)).

Definition rx_channel (path : list Z) : lens machine (ring (dma_proxy_channel R)) :=
  mk_lens (λ w, mc_rx w !! path) (λ r w, mk_machine (mc_os w) (mc_tx w) (<[path := r]> (mc_rx w))).

#[export] Instance tx_channel_laws path : LensLaws (tx_channel path).
Proof. split; intros; [apply lookup_insert_eq|]. simpl. by rewrite insert_insert_eq. Qed.

#[export] Instance rx_channel_laws path : LensLaws (rx_channel path).
Proof. split; intros; [apply lookup_insert_eq|]. simpl. by rewrite insert_insert_eq. Qed.

Inductive machine_device :=
| MRegisters (d : mapped_dev)
| MStream (path : list Z) (d : stream_dev)
| MReceive (path : list Z) (d : stream_dev).

(** [open] of a channel's node runs [local_open] of the driver; the channel is
    then seen through the ring of this opening. *)
Definition open_ring {F} `{DmaEngine F} (r : ring (dma_proxy_channel F)) :
    M local_os (option (stream_dev * ring (dma_proxy_channel F))) := λ os,
  match local_open (rg_driver r) with
  | Fault f => Fault f
  | Done (_, pc) => @io_open_stream_local _ (channel_driver jiffies) pc os
  end.

(** A path that names no channel cannot be opened. *)
Definition open_channel (path : list Z) : M machine (option machine_device) :=
  w ← get;
  match mc_tx w !! path, mc_rx w !! path with
  | Some s, _ =>
      o ← on_os (open_ring (ss_ring s));
      match o with
      | None => mret None
      | Some (d, r) => modify (put (tx_channel path) (mk_sys r ∅ [] [])) ;; mret (Some (MStream path d))
      end
  | None, Some r =>
      o ← on_os (open_ring r);
      match o with
      | None => mret None
      | Some (d, r) => modify (put (rx_channel path) r) ;; mret (Some (MReceive path d))
      end
  | None, None => mret None
  end.

(** The local backend on this machine.  The mapping a closed stream leaves behind
    keeps its file open, so the driver's [release] does not run. *)
#[export] Instance machine_backend : Backend machine_device machine := {
  open_mapped := λ _ size, d ← on_os (io_open_mapped_local size); mret (MRegisters <$> d);
  open_stream := open_channel;
  close_mapped := λ p,
    match p with
    | MRegisters d => on_os (io_close_mapped_local (Some d)) ;; mret tt
    | MStream _ _ | MReceive _ _ => raise WildPointer
    end;
  close_stream := λ p,
    match p with
    | MStream _ d | MReceive _ d => on_os (io_close_stream_local (Some d)) ;; mret tt
    | MRegisters _ => raise WildPointer
    end;
  ch_write := λ p a v,
    match p with
    | MRegisters d => on_os (io_write_local d a v)
    | MStream _ _ | MReceive _ _ => raise WildPointer
    end;
  ch_read := λ p a,
    match p with
    | MRegisters d => on_os (io_read_local d a)
    | MStream _ _ | MReceive _ _ => raise WildPointer
    end;
  device_fd := λ p, match p with MRegisters d => md_fd d | MStream _ d | MReceive _ d => sd_fd d end
}.

#[export] Instance machine_heap : ProcessHeap machine := on_os malloc.

(** A register device has no stream functions. *)
Definition wild_stream : StreamDevice machine := {|
  io_stream_get_buffer := raise WildPointer;
  fill_buffer := λ _ _ _, raise WildPointer;
  fill_struct := λ _ _ _, raise WildPointer;
  buffer_bytes := λ _ _, raise WildPointer;
  io_write_stream_device := λ _ _, raise WildPointer;
  io_read_stream_device := λ _ _, raise WildPointer;
  io_sync_stream_device := raise WildPointer
|}.

Definition machine_stream (p : machine_device) : StreamDevice machine :=
  match p with
  | MStream path _ => @lens_device _ _ (tx_channel path) (local_stream_device jiffies)
  | MReceive path _ => @lens_device _ _ (rx_channel path) (ring_device jiffies)
  | MRegisters _ => wild_stream
  end.

End Machine.

(** ** Lemmas: calls inside a larger state *)

Lemma exec_lens {G D} (l : lens G D) `{!LensLaws l} `{StreamDevice D} {B} (c : call B) d g :
  @exec G (lens_device l) B c (put l d g) =
    match exec c d with Done (o, d') => Done (o, put l d' g) | Fault f => Fault f end.
Proof.
  destruct c; simpl; unfold through; rewrite view_put;
    match goal with |- context [match ?m d with Done _ => _ | Fault _ => _ end] => destruct (m d) as [[]|] end;
    by rewrite ?put_put.
Qed.

(** ** What the process holds for a device *)

Definition device_type (x : machine_device) : IO_DEVICE_TYPE :=
  match x with MRegisters _ => MAPPED_DEVICE | MStream _ _ | MReceive _ _ => STREAM_DEVICE end.

Definition held_fd (x : machine_device) : Z :=
  match x with MRegisters d => md_fd d | MStream _ d | MReceive _ d => sd_fd d end.

Definition ring_pages : Z := pages (sizeof_channel_buffer * Z.of_nat BUFFER_COUNT).

Definition held_map (x : machine_device) : Z * Z :=
  match x with
  | MRegisters d => (ch_start d, pages (ch_end d - ch_start d))
  | MStream _ d | MReceive _ d => (sd_buffers d, ring_pages)
  end.

(** What opening and closing a device does to the mappings: closing a stream
    unmaps the pages of one channel buffer, the rest of its ring stays mapped. *)
Definition open_map (x : machine_device) (m : gmap Z Z) : gmap Z Z := <[fst (held_map x) := snd (held_map x)]> m.

Definition ring_left (base : Z) (m : gmap Z Z) : gmap Z Z :=
  <[base + pages sizeof_channel_buffer := ring_pages - pages sizeof_channel_buffer]> (delete base m).

Definition closed_map (x : machine_device) (m : gmap Z Z) : gmap Z Z :=
  match x with
  | MRegisters d => delete (ch_start d) m
  | MStream _ d | MReceive _ d => ring_left (sd_buffers d) m
  end.

Definition held_blocks (x : machine_device) : Z :=
  match x with MRegisters _ => 1 | MStream _ _ | MReceive _ _ => 3 end.

(** The mappings of the devices, one behind the other in [lo..hi]. *)
Fixpoint laid_out (lo hi : Z) (maps : gmap Z Z) (xs : list machine_device) : Prop :=
  match xs with
  | [] => lo ≤ hi
  | x :: xs' =>
      lo ≤ fst (held_map x) ∧ 0 < snd (held_map x) ∧ maps !! fst (held_map x) = Some (snd (held_map x)) ∧
      laid_out (fst (held_map x) + snd (held_map x)) hi maps xs'
  end.

Lemma laid_out_le lo hi maps xs : laid_out lo hi maps xs → lo ≤ hi.
Proof. revert lo. induction xs as [|x xs IH]; intros lo; [done|]. intros (? & ? & _ & Hl%IH). lia. Qed.

Lemma laid_out_ext lo hi maps maps' xs :
  laid_out lo hi maps xs → (∀ p, lo ≤ p < hi → maps' !! p = maps !! p) → laid_out lo hi maps' xs.
Proof.
  revert lo. induction xs as [|x xs IH]; intros lo; [done|]. intros (Hlo & Hn & Hm & Hl) Hp.
  pose proof (laid_out_le _ _ _ _ Hl). split; [done|]. split; [done|]. split; [rewrite Hp; [done|lia]|].
  apply IH; [done|]. intros p ?. apply Hp. lia.
Qed.

Lemma laid_out_snoc lo hi hi' maps maps' xs x :
  laid_out lo hi maps xs → (∀ p, lo ≤ p < hi → maps' !! p = maps !! p) →
  hi ≤ fst (held_map x) → 0 < snd (held_map x) → maps' !! fst (held_map x) = Some (snd (held_map x)) →
  fst (held_map x) + snd (held_map x) ≤ hi' → laid_out lo hi' maps' (xs ++ [x]).
Proof.
  intros Hl Hp Hx Hn Hm Hhi. revert lo Hl Hp. induction xs as [|y xs IH]; intros lo Hl Hp; [simpl in *; repeat split; [lia|done..]|].
  destruct Hl as (Hlo & Hny & Hmy & Hl). pose proof (laid_out_le _ _ _ _ Hl). simpl.
  split; [done|]. split; [done|]. split; [rewrite Hp; [done|lia]|]. apply IH; [done|]. intros p ?. apply Hp. lia.
Qed.

Lemma ring_pages_more : pages sizeof_channel_buffer < ring_pages.
Proof. vm_compute. reflexivity. Qed.

Lemma closed_open x m : closed_map x (open_map x m) = closed_map x m.
Proof. unfold open_map. destruct x; simpl; unfold ring_left; by rewrite delete_insert_eq. Qed.

Lemma closed_open_comm x y m :
  fst (held_map x) + snd (held_map x) ≤ fst (held_map y) → 0 < snd (held_map x) →
  closed_map x (open_map y m) = open_map y (closed_map x m).
Proof.
  pose proof ring_pages_more. pose proof (pages_bounds sizeof_channel_buffer ltac:(vm_compute; congruence)) as Hp.
  unfold open_map. destruct x; simpl; unfold ring_left; intros Hle Hpos.
  - by rewrite delete_insert_ne by lia.
  - rewrite delete_insert_ne by lia. rewrite insert_insert_ne by lia. done.
  - rewrite delete_insert_ne by lia. rewrite insert_insert_ne by lia. done.
Qed.

(** What is left of the mappings when all devices are closed again. *)
Lemma closed_opened lo hi maps xs m :
  laid_out lo hi maps xs →
  foldl (λ m x, closed_map x m) (foldl (λ m x, open_map x m) m xs) xs = foldl (λ m x, closed_map x m) m xs.
Proof.
  assert (∀ x ys lo m, laid_out lo hi maps ys → fst (held_map x) + snd (held_map x) ≤ lo → 0 < snd (held_map x) →
    closed_map x (foldl (λ m x, open_map x m) m ys) = foldl (λ m x, open_map x m) (closed_map x m) ys) as Hcomm.
  { intros x ys. induction ys as [|y ys IH]; intros lo' m' Hl Hle Hpos; [done|]. destruct Hl as (Hy & Hny & _ & Hl).
    cbn [foldl]. rewrite (IH (fst (held_map y) + snd (held_map y))) by (done || lia).
    by rewrite closed_open_comm by lia. }
  revert lo m. induction xs as [|x xs IH]; intros lo m Hl; [done|]. destruct Hl as (Hx & Hn & _ & Hl).
  cbn [foldl]. rewrite (Hcomm x xs _ _ Hl) by lia. rewrite closed_open. exact (IH _ _ Hl).
Qed.

(** ** Lemmas: opening devices in a process *)

(** The descriptors the next calls of [open] give, all new to the process of
    [os0], and as many mappings that succeed. *)
Record process_ready (os0 : local_os) (fds : list Z) (os : local_os) : Prop := {
  pr_opens : fds `prefix_of` lo_opens os;
  pr_fds : Forall (λ fd, 1 ≤ fd ∧ fd ∉ lo_fds os0) fds;
  pr_mmaps : replicate (length fds) true `prefix_of` lo_mmaps os;
  pr_next : 0 < lo_next os
}.

(** The process after a device was opened: [n] bytes mapped, [k] blocks allocated. *)
Definition opened_os (fd n k : Z) (os : local_os) : local_os :=
  mk_os (tail (lo_opens os)) (tail (lo_mmaps os)) ({[fd]} ∪ lo_fds os) (<[lo_next os := n]> (lo_maps os)) (lo_mem os)
    (lo_next os + n + PAGE) (lo_blocks os + k).

Lemma ready_cons os0 fd fds os :
  process_ready os0 (fd :: fds) os → ∃ l ms, lo_opens os = fd :: l ∧ lo_mmaps os = true :: ms ∧ 1 ≤ fd ∧ fd ∉ lo_fds os0.
Proof.
  intros [[l Ho] [[H1 H2] _]%Forall_cons_1 [ms Hm] _]. exists (fds ++ l), (replicate (length fds) true ++ ms). done.
Qed.

Lemma ready_opened os0 fd fds n k os :
  process_ready os0 (fd :: fds) os → 0 ≤ n → process_ready os0 fds (opened_os fd n k os).
Proof.
  intros [[l Ho] [_ Hf]%Forall_cons_1 [ms Hm] Hn] Hp. split; [|done| |].
  - exists l. simpl. by rewrite Ho.
  - exists ms. simpl. by rewrite Hm.
  - cbn [lo_next opened_os]. unfold PAGE. lia.
Qed.

Lemma open_registers_run os0 fd fds os size :
  process_ready os0 (fd :: fds) os →
  io_open_mapped_local size os =
    Done (Some (mk_mapped_dev (lo_next os) (lo_next os + size * 4) fd), opened_os fd (pages (size * 4)) 1 os).
Proof.
  intros Hr. destruct (ready_cons _ _ _ _ Hr) as (l & ms & Ho & Hm & H1 & _).
  rewrite (open_mapped_run os fd l true ms size Ho H1 Hm (pr_next _ _ _ Hr)).
  unfold opened_os. by rewrite Ho, Hm.
Qed.

Section Rings.
Context {F : Type} `{DmaEngineLaws F} (jiffies : Z).
Abbreviation chan := (dma_proxy_channel F).
Implicit Types (pc : chan).

#[local] Instance driver : DmaDriver chan := channel_driver jiffies.

Lemma local_open_run pc :
  wf_channel pc →
  ∃ pc', local_open pc = Done (0, pc') ∧ wf_channel pc' ∧ channel_p pc' = device_terminate_all (channel_p pc).
Proof.
  intros Hwf. destruct (wp_run _ _ _ (clear_statuses_run _ (wf_set_engine pc (device_terminate_all (channel_p pc)) Hwf)))
    as ([] & pc' & Hr & Hwf' & _ & He & _).
  exists pc'. split; [|by split]. eapply bind_done; [reflexivity|]. eapply bind_done; [exact Hr|done].
Qed.

(** Opening clears the statuses and keeps what the buffers hold. *)
Lemma clear_keeps_data pc u pc' : wf_channel pc → clear_statuses pc = Done (u, pc') → wf_channel pc' ∧ datas pc' = datas pc.
Proof.
  intros Hwf Hr. assert (wp clear_statuses (λ _ pc', wf_channel pc' ∧ datas pc' = datas pc) pc) as Hwp.
  { apply (wp_for (λ _ pc', wf_channel pc' ∧ datas pc' = datas pc)); [|done]. intros k pc1 Hk (Hwf1 & Hd).
    destruct (slot_exists pc1 k Hwf1 Hk) as (d & b & Hs). eapply wp_done; [by eapply update_buffer_run|].
    split; [by apply wf_put_buffer|]. by rewrite (datas_put_buffer pc1 k d b). }
  unfold wp in Hwp. by rewrite Hr in Hwp.
Qed.

Lemma opened_keeps_data pc0 pc os dev (r : ring chan) os' :
  wf_channel pc0 → local_open pc0 = Done (0, pc) → io_open_stream_local pc os = Done (Some (dev, r), os') →
  datas (rg_driver r) = datas pc0 ∧ current_buffer_id r = 0.
Proof.
  intros Hwf Hop Hst. apply bind_inv in Hop as ([] & pc1 & Hm & Hop). unfold modify in Hm. injection Hm as <-.
  apply bind_inv in Hop as ([] & pc2 & Hc & Hop). unfold mret, M_ret in Hop. injection Hop as <-.
  destruct (clear_keeps_data _ _ _ (wf_set_engine pc0 _ Hwf) Hc) as [Hwf2 Hd2].
  destruct (open_stream_inv jiffies _ _ _ _ _ Hst) as (u & pc3 & Hfor & ->).
  destruct (clear_keeps_data pc2 u pc3 Hwf2 Hfor) as [_ Hd3]. split; [|done].
  cbn [rg_driver]. by rewrite Hd3, Hd2.
Qed.

Lemma open_stream_run os0 fd fds os pc :
  process_ready os0 (fd :: fds) os → wf_channel pc →
  ∃ r, io_open_stream_local pc os = Done (Some (mk_stream_dev fd (lo_next os), r), opened_os fd ring_pages 3 os).
Proof.
  intros Hp Hwf. destruct (ready_cons _ _ _ _ Hp) as (l & ms & Ho & Hm & Hfd & _).
  destruct (wp_run _ _ _ (clear_buffers_run jiffies pc Hwf)) as ([] & pc' & Hr & _).
  assert (for_ BUFFER_COUNT (λ i, drv_set_status i PROXY_NO_ERROR) pc = Done (tt, pc')) as Hset by exact Hr.
  eexists. unfold io_open_stream_local.
  eapply bind_done; [unfold sys_open; rewrite Ho, (proj2 (Z.ltb_ge fd 0)) by lia; reflexivity|].
  rewrite (proj2 (Z.ltb_ge fd 1)) by lia. eapply bind_done; [reflexivity|].
  unfold io_local_buffer_init, buffer_allocate. rewrite Z.ltb_irrefl.
  eapply bind_done.
  { eapply bind_done.
    { eapply bind_done; [unfold sys_mmap; cbn [lo_mmaps set_opens set_blocks]; rewrite Hm; reflexivity|].
      eapply bind_done; reflexivity. }
    eapply bind_done; [reflexivity|]. eapply bind_done; [reflexivity|]. cbn [lo_maps set_blocks set_maps lo_next set_opens].
    rewrite bool_decide_eq_false_2 by (by rewrite lookup_insert_eq). cbv beta. rewrite Hset. reflexivity. }
  cbv beta iota. unfold mret, M_ret. do 2 f_equal. unfold opened_os, ring_pages, set_blocks, set_maps, set_opens.
  cbn [lo_opens lo_mmaps lo_fds lo_maps lo_mem lo_next lo_blocks]. rewrite Ho, Hm. cbn [tail]. f_equal. lia.
Qed.

(** Opening a channel's node: the driver opens the channel, the library the device. *)
Lemma open_ring_run os0 fd fds os (r : ring chan) :
  process_ready os0 (fd :: fds) os → wf_channel (rg_driver r) →
  ∃ pc r', local_open (rg_driver r) = Done (0, pc) ∧
    channel_p pc = device_terminate_all (channel_p (rg_driver r)) ∧
    io_open_stream_local pc os = Done (Some (mk_stream_dev fd (lo_next os), r'), opened_os fd ring_pages 3 os) ∧
    open_ring jiffies r os = Done (Some (mk_stream_dev fd (lo_next os), r'), opened_os fd ring_pages 3 os).
Proof.
  intros Hp Hwf. destruct (local_open_run _ Hwf) as (pc & Hop & Hwf' & He).
  destruct (open_stream_run os0 fd fds os pc Hp Hwf') as [r' Hr]. exists pc, r'. split; [done|]. split; [done|]. split; [exact Hr|].
  unfold open_ring. rewrite Hop. exact Hr.
Qed.

End Rings.

(** ** Lemmas: a program and its devices *)

Section Program.
Context {E R : Type} `{EngineQueue E} `{!DmaEngineLaws E} `{DmaEngineLaws R} (jiffies : Z).
Abbreviation machine := (machine (E:=E) (R:=R)).
Abbreviation wd := (world machine_device machine).
Implicit Types (g : machine) (os : local_os) (x : machine_device) (es : list (entry (P:=machine_device))).

#[local] Instance the_backend : Backend machine_device machine := machine_backend jiffies.

(** Closing one device gives its descriptor and its blocks back and leaves the
    mappings behind it alone. *)
Lemma close_device_run x g :
  lo_maps (mc_os g) !! fst (held_map x) = Some (snd (held_map x)) →
  ∃ os', (match device_type x with STREAM_DEVICE => close_stream x | MAPPED_DEVICE => close_mapped x end) g =
      Done (tt, mk_machine os' (mc_tx g) (mc_rx g)) ∧
    lo_fds os' = lo_fds (mc_os g) ∖ {[held_fd x]} ∧ lo_mem os' = lo_mem (mc_os g) ∧
    lo_blocks os' = lo_blocks (mc_os g) - held_blocks x ∧ lo_maps os' = closed_map x (lo_maps (mc_os g)) ∧
    ∀ p, fst (held_map x) + snd (held_map x) ≤ p → 0 < snd (held_map x) → lo_maps os' !! p = lo_maps (mc_os g) !! p.
Proof.
  assert (∀ d, lo_maps (mc_os g) !! sd_buffers d = Some ring_pages → ∃ os',
    io_close_stream_local (Some d) (mc_os g) = Done (0, os') ∧ lo_fds os' = lo_fds (mc_os g) ∖ {[sd_fd d]} ∧
    lo_mem os' = lo_mem (mc_os g) ∧ lo_blocks os' = lo_blocks (mc_os g) - 3 ∧
    lo_maps os' = ring_left (sd_buffers d) (lo_maps (mc_os g)) ∧
    ∀ p, sd_buffers d + ring_pages ≤ p → 0 < ring_pages → lo_maps os' !! p = lo_maps (mc_os g) !! p) as Hstream.
  { intros d Hm. eexists. split.
    { unfold io_close_stream_local, buffer_release.
      eapply bind_done; [eapply bind_done; [unfold sys_munmap; rewrite Hm; reflexivity|reflexivity]|].
      eapply bind_done; [reflexivity|]. eapply bind_done; [reflexivity|]. eapply bind_done; reflexivity. }
    split; [done|]. split; [done|]. split; [simpl; lia|]. pose proof ring_pages_more as Hlt.
    cbn [lo_maps set_blocks set_opens set_maps]. rewrite (proj2 (Z.ltb_lt _ _)) by exact Hlt.
    split; [done|]. intros p Hp Hpos. rewrite lookup_insert_ne, lookup_delete_ne by lia. done. }
  destruct x as [d|path d|path d]; cbn [held_map fst snd device_type held_fd held_blocks]; intros Hm;
    [|destruct (Hstream d Hm) as (os' & Hr & Hrest); exists os'; split; [|exact Hrest];
      cbn [close_stream the_backend machine_backend]; unfold on_os;
      eapply bind_done; [apply zoom_done; exact Hr|reflexivity]..].
  assert (∃ os', io_close_mapped_local (Some d) (mc_os g) = Done (0, os') ∧
    os' = set_blocks (lo_blocks (mc_os g) - 1) (set_opens (lo_opens (mc_os g)) (lo_fds (mc_os g) ∖ {[md_fd d]})
      (set_maps (lo_mmaps (mc_os g)) (delete (ch_start d) (lo_maps (mc_os g))) (lo_next (mc_os g)) (mc_os g)))) as (os' & Hr & He).
  { eexists. split; [|reflexivity]. unfold io_close_mapped_local.
    eapply bind_done; [unfold sys_munmap; rewrite Hm, Z.ltb_irrefl; reflexivity|].
    eapply bind_done; [reflexivity|]. eapply bind_done; reflexivity. }
  exists os'. split.
  { cbn [close_mapped the_backend machine_backend]. unfold on_os.
    eapply bind_done; [apply zoom_done; exact Hr|reflexivity]. }
  rewrite He. split; [done|]. split; [done|]. split; [done|]. split; [done|]. intros p Hp Hpos.
  cbn [lo_maps set_blocks set_opens set_maps]. by rewrite lookup_delete_ne by lia.
Qed.

Definition sum_blocks es : Z := foldr (λ e n, held_blocks e.2 + n) 0 es.
Lemma sum_blocks_snoc es e : sum_blocks (es ++ [e]) = sum_blocks es + held_blocks e.2.
Proof. induction es as [|e' es IH]; simpl; lia. Qed.

Definition all_fds es : gset Z := list_to_set ((λ e : entry, held_fd e.2) <$> es).

Lemma close_all_run es g lo hi :
  Forall (λ e : entry, e.1.2 = device_type e.2) es → laid_out lo hi (lo_maps (mc_os g)) (snd <$> es) →
  ∃ os', close_all es g = Done (tt, mk_machine os' (mc_tx g) (mc_rx g)) ∧
    lo_fds os' = lo_fds (mc_os g) ∖ all_fds es ∧ lo_mem os' = lo_mem (mc_os g) ∧
    lo_blocks os' = lo_blocks (mc_os g) - sum_blocks es ∧
    lo_maps os' = foldl (λ m x, closed_map x m) (lo_maps (mc_os g)) (snd <$> es).
Proof.
  revert g lo. induction es as [|[[p t] x] es IH]; intros g lo Ht Hl.
  - exists (mc_os g). split; [by destruct g|]. split; [|split; [done|split; [simpl; lia|done]]].
    unfold all_fds. cbn [fmap list_fmap list_to_set foldr]. set_solver.
  - apply Forall_cons_1 in Ht as [Ht Hts]. cbn [fst snd] in Ht. subst t. destruct Hl as (Hlo & Hn & Hm & Hl). cbn [snd] in *.
    destruct (close_device_run x g Hm) as (os1 & Hr & Hf1 & Hm1 & Hb1 & Hmp1 & Hk).
    destruct (IH (mk_machine os1 (mc_tx g) (mc_rx g)) _ Hts
      (laid_out_ext _ _ _ _ _ Hl (λ p Hp, Hk p (proj1 Hp) Hn))) as (os2 & Hr2 & Hf2 & Hm2 & Hb2 & Hmp2).
    exists os2. cbn [mc_os mc_tx mc_rx] in *. split; [eapply bind_done; [exact Hr|exact Hr2]|].
    split; [rewrite Hf2, Hf1; unfold all_fds; rewrite fmap_cons; cbn [list_to_set foldr snd]; set_solver|].
    split; [by rewrite Hm2|]. split; [simpl; lia|]. by rewrite Hmp2, Hmp1.
Qed.

(** A program that created its context in [w0] and has the devices [es] open;
    [fds] are the descriptors still to come.  The values of the registers and the
    channels are left open. *)
Record program_at (w0 : wd) (fds : list Z) (w : wd) es : Prop := {
  pa_opened : opened w0 w (next_ptr w0) es;
  pa_ready : process_ready (mc_os (backend w0)) fds (mc_os (backend w));
  pa_types : Forall (λ e : entry, e.1.2 = device_type e.2) es;
  pa_layout : laid_out (lo_next (mc_os (backend w0))) (lo_next (mc_os (backend w))) (lo_maps (mc_os (backend w))) (snd <$> es);
  pa_maps : lo_maps (mc_os (backend w)) = foldl (λ m x, open_map x m) (lo_maps (mc_os (backend w0))) (snd <$> es);
  pa_fds : lo_fds (mc_os (backend w)) = all_fds es ∪ lo_fds (mc_os (backend w0));
  pa_fresh : Forall (λ e : entry, held_fd e.2 ∉ lo_fds (mc_os (backend w0))) es;
  pa_blocks : lo_blocks (mc_os (backend w)) = lo_blocks (mc_os (backend w0)) + sum_blocks es
}.

(** The process may open [n] devices. *)
Definition ready (w0 : wd) (n : nat) : Prop :=
  wf_heap w0 ∧ ∃ fds, length fds = n ∧ process_ready (mc_os (backend w0)) fds (mc_os (backend w0)).

(** What changes registers and channels only leaves it such a program. *)
Lemma program_backend w0 fds w es m tx rx :
  program_at w0 fds w es → program_at w0 fds (set_backend (mk_machine (set_mem m (mc_os (backend w))) tx rx) w) es.
Proof. intros [Hod [] ? ? ? ? ? ?]. split; try done. by apply opened_backend. Qed.

(** A block the program allocates for itself and keeps. *)
Definition mallocd w : wd :=
  set_backend (mk_machine (set_blocks (lo_blocks (mc_os (backend w)) + 1) (mc_os (backend w)))
    (mc_tx (backend w)) (mc_rx (backend w))) w.

Lemma program_malloc w0 fds w es : program_at w0 fds w es → program_at (mallocd w0) fds (mallocd w) es.
Proof.
  intros [Hod [] ? ? ? ? ? Hb]. split; try done.
  - apply opened_backend. by destruct Hod.
  - cbn [mallocd backend set_backend mc_os set_blocks lo_blocks]. rewrite Hb. lia.
Qed.

Lemma ready_malloc w0 n : ready w0 n → ready (mallocd w0) n.
Proof.
  intros [[] (fds & Hl & [])]. split; [by split|]. exists fds. split; [done|]. by split.
Qed.

Lemma program_streams w0 fds w es tx rx :
  program_at w0 fds w es → program_at w0 fds (set_backend (mk_machine (mc_os (backend w)) tx rx) w) es.
Proof.
  intros Hp. replace (mc_os (backend w)) with (set_mem (lo_mem (mc_os (backend w))) (mc_os (backend w)))
    by (by destruct (mc_os (backend w))).
  by apply program_backend.
Qed.

Lemma program_created w0 fds :
  wf_heap w0 → process_ready (mc_os (backend w0)) fds (mc_os (backend w0)) → program_at w0 fds (created w0) [].
Proof.
  intros Hwf Hr. split; [by apply create_opened|exact Hr|constructor|simpl; lia|done| |constructor|simpl; lia].
  unfold all_fds. cbn [fmap list_fmap list_to_set foldr]. rewrite (left_id_L ∅ (∪)). done.
Qed.

(** Appending a device whose opening did [opened_os]. *)
Lemma program_snoc w0 fd fds w es w' p x n tx rx :
  program_at w0 (fd :: fds) w es → opened w0 w' (next_ptr w0) (es ++ [(p, device_type x, x)]) →
  backend w' = mk_machine (opened_os fd n (held_blocks x) (mc_os (backend w))) tx rx →
  held_fd x = fd → held_map x = (lo_next (mc_os (backend w)), n) → 0 < n →
  program_at w0 fds w' (es ++ [(p, device_type x, x)]).
Proof.
  intros [Hod Hr Ht Hl Hmp Hf Hfr Hb] Hod' Hb' Hfd Hmap Hn.
  destruct (ready_cons _ _ _ _ Hr) as (l & ms & Ho & Hm & Hfd1 & Hnew).
  split; rewrite ?Hb'; cbn [mc_os opened_os lo_next lo_maps lo_fds lo_blocks].
  - exact Hod'.
  - apply ready_opened; [done|lia].
  - apply Forall_app. split; [done|]. by constructor.
  - rewrite fmap_app. eapply laid_out_snoc; [exact Hl|..].
    + intros q Hq. apply lookup_insert_ne. lia.
    + cbn [snd]. rewrite Hmap. simpl. lia.
    + cbn [snd]. rewrite Hmap. done.
    + cbn [snd]. rewrite Hmap. apply lookup_insert_eq.
    + cbn [snd]. rewrite Hmap. cbn [fst snd]. unfold PAGE. lia.
  - rewrite fmap_app, foldl_app, Hmp. cbn [foldl fmap list_fmap snd]. unfold open_map at 2. by rewrite Hmap.
  - rewrite Hf. unfold all_fds. rewrite fmap_app, list_to_set_app_L. cbn [fmap list_fmap list_to_set snd]. rewrite Hfd. set_solver.
  - apply Forall_app. split; [done|]. constructor; [|constructor]. cbn [snd]. by rewrite Hfd.
  - rewrite sum_blocks_snoc, Hb. cbn [snd]. lia.
Qed.

Definition room es : Prop := (length es < MAX_DEVICE)%nat.

(** Adding the register device. *)
Lemma program_registers w0 fd fds w es path :
  program_at w0 (fd :: fds) w es → room es →
  let d := mk_mapped_dev (lo_next (mc_os (backend w))) (lo_next (mc_os (backend w)) + 512 * 4) fd in
  ∃ p w', io_add_mapped_device (next_ptr w0) path w = Done (Some p, w') ∧
    program_at w0 fds w' (es ++ [(p, MAPPED_DEVICE, MRegisters d)]) ∧
    lo_next (mc_os (backend w')) = lo_next (mc_os (backend w)) + pages (512 * 4) + PAGE ∧
    lo_mem (mc_os (backend w')) = lo_mem (mc_os (backend w)) ∧
    mc_tx (backend w') = mc_tx (backend w) ∧ mc_rx (backend w') = mc_rx (backend w).
Proof.
  intros Hp Hroom d. pose proof Hp as [Hod Hr _ _ _ _ _ _].
  assert (open_mapped path 512 (backend w) = Done (Some (MRegisters d),
    mk_machine (opened_os fd (pages (512 * 4)) 1 (mc_os (backend w))) (mc_tx (backend w)) (mc_rx (backend w)))) as Hopen.
  { cbn [open_mapped the_backend machine_backend]. unfold on_os.
    eapply bind_done; [apply zoom_done; exact (open_registers_run _ fd fds _ 512 Hr)|reflexivity]. }
  destruct (add_mapped_opened w0 w (next_ptr w0) es path _ _ Hod Hroom Hopen) as (p & w' & Hadd & Hod' & Hb').
  exists p, w'. split; [exact Hadd|]. rewrite Hb'. split; [|done].
  eapply (program_snoc w0 fd fds w es w' p (MRegisters d)); [exact Hp|exact Hod'|exact Hb'|done| |vm_compute; reflexivity].
  unfold d. cbn [held_map ch_start ch_end]. do 2 f_equal. lia.
Qed.

(** Adding a transmit or a receive channel. *)
Lemma program_transmit w0 fd fds w es path s :
  program_at w0 (fd :: fds) w es → room es → mc_tx (backend w) !! path = Some s → wf_channel (ring_chan s) →
  let d := mk_stream_dev fd (lo_next (mc_os (backend w))) in
  ∃ p w' s0, io_add_stream_device (next_ptr w0) path w = Done (Some p, w') ∧
    program_at w0 fds w' (es ++ [(p, STREAM_DEVICE, MStream path d)]) ∧ sys_init jiffies s0 ∧
    (datas (ring_chan s0) = datas (ring_chan s) ∧ current_buffer_id (ss_ring s0) = 0) ∧
    lo_next (mc_os (backend w')) = lo_next (mc_os (backend w)) + ring_pages + PAGE ∧
    lo_mem (mc_os (backend w')) = lo_mem (mc_os (backend w)) ∧
    mc_tx (backend w') = <[path := s0]> (mc_tx (backend w)) ∧ mc_rx (backend w') = mc_rx (backend w).
Proof.
  intros Hp Hroom Hs Hwf d. pose proof Hp as [Hod Hr _ _ _ _ _ _].
  destruct (open_ring_run jiffies _ fd fds (mc_os (backend w)) (ss_ring s) Hr Hwf) as (pc & r & Hop & _ & Hst & Hrun).
  assert (open_stream path (backend w) = Done (Some (MStream path d),
    mk_machine (opened_os fd ring_pages 3 (mc_os (backend w))) (<[path := mk_sys r ∅ [] []]> (mc_tx (backend w)))
      (mc_rx (backend w)))) as Hopen.
  { cbn [open_stream the_backend machine_backend]. unfold open_channel. eapply bind_done; [reflexivity|]. rewrite Hs.
    unfold on_os.
    eapply bind_done; [apply zoom_done; exact Hrun|]. reflexivity. }
  destruct (add_stream_opened w0 w (next_ptr w0) es path _ _ Hod Hroom Hopen) as (p & w' & Hadd & Hod' & Hb').
  exists p, w', (mk_sys r ∅ [] []). split; [exact Hadd|]. rewrite Hb'. split; [|split; [|split; [|done]]].
  - eapply (program_snoc w0 fd fds w es w' p (MStream path d)); [exact Hp|exact Hod'|exact Hb'|done|done|vm_compute; reflexivity].
  - exists (ring_chan s), pc, (mc_os (backend w)). do 2 eexists. split; [done|]. split; [done|]. split; [exact Hst|done].
  - exact (opened_keeps_data jiffies (ring_chan s) pc _ _ r _ Hwf Hop Hst).
Qed.

Lemma program_receive w0 fd fds w es path r :
  program_at w0 (fd :: fds) w es → room es →
  mc_tx (backend w) !! path = None → mc_rx (backend w) !! path = Some r → wf_channel (rg_driver r) →
  let d := mk_stream_dev fd (lo_next (mc_os (backend w))) in
  ∃ p w' pc r0, io_add_stream_device (next_ptr w0) path w = Done (Some p, w') ∧
    program_at w0 fds w' (es ++ [(p, STREAM_DEVICE, MReceive path d)]) ∧
    local_open (rg_driver r) = Done (0, pc) ∧ channel_p pc = device_terminate_all (channel_p (rg_driver r)) ∧
    @io_open_stream_local _ (channel_driver jiffies) pc (mc_os (backend w)) =
      Done (Some (d, r0), opened_os fd ring_pages 3 (mc_os (backend w))) ∧
    lo_mem (mc_os (backend w')) = lo_mem (mc_os (backend w)) ∧
    mc_tx (backend w') = mc_tx (backend w) ∧ mc_rx (backend w') = <[path := r0]> (mc_rx (backend w)).
Proof.
  intros Hp Hroom Htx Hs Hwf d. pose proof Hp as [Hod Hr _ _ _ _ _ _].
  destruct (open_ring_run jiffies _ fd fds (mc_os (backend w)) r Hr Hwf) as (pc & r0 & Hop & He & Hst & Hrun).
  assert (open_stream path (backend w) = Done (Some (MReceive path d),
    mk_machine (opened_os fd ring_pages 3 (mc_os (backend w))) (mc_tx (backend w))
      (<[path := r0]> (mc_rx (backend w))))) as Hopen.
  { cbn [open_stream the_backend machine_backend]. unfold open_channel. eapply bind_done; [reflexivity|]. rewrite Htx, Hs.
    unfold on_os.
    eapply bind_done; [apply zoom_done; exact Hrun|]. reflexivity. }
  destruct (add_stream_opened w0 w (next_ptr w0) es path _ _ Hod Hroom Hopen) as (p & w' & Hadd & Hod' & Hb').
  exists p, w', pc, r0. split; [exact Hadd|]. rewrite Hb'. split; [|by repeat (split; [done|])].
  eapply (program_snoc w0 fd fds w es w' p (MReceive path d)); [exact Hp|exact Hod'|exact Hb'|done|done|vm_compute; reflexivity].
Qed.

(** Closing the context gives every descriptor and block back, and of the mappings
    what [closed_map] says. *)
Lemma close_program w0 fds w es :
  program_at w0 fds w es →
  ∃ w', io_close_context (next_ptr w0) w = Done (tt, w') ∧
    mc_tx (backend w') = mc_tx (backend w) ∧ mc_rx (backend w') = mc_rx (backend w) ∧
    lo_mem (mc_os (backend w')) = lo_mem (mc_os (backend w)) ∧
    lo_fds (mc_os (backend w')) = lo_fds (mc_os (backend w0)) ∧
    lo_blocks (mc_os (backend w')) = lo_blocks (mc_os (backend w0)) ∧
    lo_maps (mc_os (backend w')) = foldl (λ m x, closed_map x m) (lo_maps (mc_os (backend w0))) (snd <$> es) ∧
    contexts w' = contexts w0 ∧ arrays w' = arrays w0 ∧ devices w' = devices w0.
Proof.
  intros [Hod _ Ht Hl Hmp Hf Hfr Hb].
  destruct (close_all_run es (backend w) _ _ Ht Hl) as (os & Hcl & Hfo & Hmo & Hbo & Hmpo).
  destruct (close_opened w0 w (next_ptr w0) es _ Hod Hcl) as (w' & Hrun & Hb' & Hc & Ha & Hd).
  exists w'. split; [exact Hrun|]. rewrite Hb'. cbn [mc_tx mc_rx mc_os]. do 2 (split; [done|]). split; [done|].
  rewrite Hmp, (closed_opened _ _ _ _ _ Hl) in Hmpo. split; [|split; [lia|done]]. rewrite Hfo, Hf. apply set_eq. intros fd. rewrite elem_of_difference, elem_of_union.
  split; [by intros [[?|?] ?]|]. intros Hin. split; [by right|].
  unfold all_fds. rewrite elem_of_list_to_set, list_elem_of_fmap. intros (e & -> & He).
  rewrite Forall_forall in Hfr. by apply (Hfr e).
Qed.

(** ** Lemmas: registers *)

(** Words stored to registers, in order. *)
Definition stored (start : Z) (l : list (Z * Z)) (m : gmap Z Z) : gmap Z Z :=
  foldl (λ m (r : Z * Z), <[start + 4 * fst r := snd r]> m) m l.

(** The process with new register contents. *)
Definition with_mem (m : gmap Z Z) (w : wd) : wd :=
  set_backend (mk_machine (set_mem m (mc_os (backend w))) (mc_tx (backend w)) (mc_rx (backend w))) w.

(** The window of a register device that is open. *)
Lemma program_live w0 fds w es p d size :
  program_at w0 fds w es → (p, MAPPED_DEVICE, MRegisters d) ∈ es → 0 < size → ch_end d = ch_start d + 4 * size →
  live d size (mc_os (backend w)).
Proof.
  intros [_ _ _ Hl _ _ _ _] Hin Hs He. split; [done|]. split; [|done].
  revert Hl. generalize (lo_next (mc_os (backend w0))). induction es as [|e es IH]; intros lo; [by apply elem_of_nil in Hin|].
  rewrite fmap_cons. intros (_ & _ & Hm & Hl). apply elem_of_cons in Hin as [<-|Hin]; [|by eapply IH].
  cbn [snd held_map fst] in Hm. rewrite Hm. do 2 f_equal. lia.
Qed.

Lemma core_write_run w0 fds w es p d size a v :
  program_at w0 fds w es → (p, MAPPED_DEVICE, MRegisters d) ∈ es → ch_end d = ch_start d + 4 * size → 0 ≤ a < size →
  core_write_mapped p a v w = Done (tt, with_mem (<[ch_start d + 4 * a := v]> (lo_mem (mc_os (backend w)))) w).
Proof.
  intros Hp Hin He Ha. pose proof (program_live _ _ _ _ _ _ size Hp Hin ltac:(lia) He) as Hl.
  destruct (opened_at w0 w _ es p MAPPED_DEVICE _ (pa_opened _ _ _ _ Hp) Hin) as (dv & Hd & Ht & Hx).
  pose proof (pages_bounds (4 * size) ltac:(lia)). unfold core_write_mapped, device_at.
  eapply bind_done; [eapply bind_done; [reflexivity|]; by rewrite Hd|]. cbv beta.
  rewrite bool_decide_eq_true_2 by done. unfold with_mem, on_backend. apply zoom_done.
  rewrite Hx. cbn [ch_write the_backend machine_backend].
  unfold on_os. erewrite zoom_done; [|eapply (write_local_run d size); [exact Hl|lia|lia|lia]]. done.
Qed.

End Program.
