(* ===== verification/AppMain.v ===== *)
(** * AppMain: the applications' main functions

    [main_tx_test], [main_txrx_test], [main_tx_file] and [txrx_test_thread] of
    [src/userspace/test_app/src] and [main_tx], [main_rx] and [main] of
    [src/userspace/io_client/src/client_test.c], whole: a context is created or
    given, devices are opened in it, the loops of [TestApp] or the threads of
    [Threads] run on them through the device table, and the context is closed.
    The theorems follow two of them on the machine of
    [Machine]; [TxRxTest] and [FileTest] follow two more. *)
From Stdlib Require Import ZArith Lia.
From stdpp Require Import base list numbers option gmap sets.
From S2P Require Import Prelude Socket NetClient DmaChannel Devices LocalBackend ZeroCopy LocalStream Context BackendContext Server TestApp Threads LocalReceive StreamChannel Machine.

(** ** Programs on a context *)

(** "/dev/tc", "/dev/axi_dma_1", "/dev/streamio_tx_0", "/dev/streamio_tx_1" and
    "/dev/streamio_rx_0". *)
Definition dev_tc : list Z := [47; 100; 101; 118; 47; 116; 99].
Definition dev_axi_dma_1 : list Z := [47; 100; 101; 118; 47; 97; 120; 105; 95; 100; 109; 97; 95; 49].
Definition dev_streamio (dir n : Z) : list Z :=
  [47; 100; 101; 118; 47; 115; 116; 114; 101; 97; 109; 105; 111; 95; dir; 120; 95; n].
Definition dev_streamio_tx_0 : list Z := dev_streamio 116 48.
Definition dev_streamio_tx_1 : list Z := dev_streamio 116 49.
Definition dev_streamio_rx_0 : list Z := dev_streamio 114 48.

Section Mains.
Context {P W : Type} `{Backend P W} `{ProcessHeap W} (ops : P → StreamDevice W).
Abbreviation wd := (world P W).

(** The devices a program got; no program tests for NULL, so the first use of a
    device that was not opened dereferences it. *)
Definition mapped_of (o : option Z) : MappedDevice wd := {|
  io_write_mapped_device := λ a v, p ← require NullDeref o; core_write_mapped p a v;
  io_read_mapped_device := λ a, p ← require NullDeref o; core_read_mapped p a
|}.

Definition on_stream {A} (o : option Z) (op : StreamDevice W → M W A) : M wd A :=
  p ← require NullDeref o; dispatch ops p op.

Definition stream_of (o : option Z) : StreamDevice wd := {|
  io_stream_get_buffer := on_stream o (@io_stream_get_buffer W);
  fill_buffer := λ b off x, on_stream o (λ d, @fill_buffer W d b off x);
  fill_struct := λ b off x, on_stream o (λ d, @fill_struct W d b off x);
  buffer_bytes := λ b n, on_stream o (λ d, @buffer_bytes W d b n);
  io_write_stream_device := λ b n, on_stream o (λ d, @io_write_stream_device W d b n);
  io_read_stream_device := λ b n, on_stream o (λ d, @io_read_stream_device W d b n);
  io_sync_stream_device := on_stream o (@io_sync_stream_device W)
|}.

(** The heap of the program's process. *)
#[export] Instance world_heap `{ProcessHeap W} : ProcessHeap wd := on_backend heap_malloc.

(** All devices of a program are in the one state. *)
Definition here {A} (m : M wd A) : M wd A := m.

(** ** tc_test.c and txrx_test_thread.c *)

Definition main_tx_test : M wd Z :=
  ctx ← io_create_context;
  map_dev ← io_add_mapped_device ctx dev_tc;
  dma_tx ← io_add_stream_device ctx dev_axi_dma_1;
  @tx_test_body wd wd wd (mapped_of map_dev) (stream_of dma_tx) (@here) (@here) heap_malloc ;;
  io_close_context ctx ;;
  mret 0.

(** The devices of the programs that send and receive. *)
Definition open_devices (tx : list Z) (ctx : Z) : M wd (option Z * option Z * option Z) :=
  map_dev ← io_add_mapped_device ctx dev_tc;
  dma_tx ← io_add_stream_device ctx tx;
  dma_rx ← io_add_stream_device ctx dev_streamio_rx_0;
  mret (map_dev, dma_tx, dma_rx).

Definition main_txrx_test (time : Z) : M wd Z :=
  ctx ← io_create_context;
  '(map_dev, dma_tx, dma_rx) ← open_devices dev_streamio_tx_1 ctx;
  @txrx_test_body wd wd wd wd (mapped_of map_dev) (stream_of dma_tx) (stream_of dma_rx)
    (@here) (@here) (@here) time ;;
  io_close_context ctx ;;
  mret 0.

(** The result of the program with what its two threads did. *)
Definition txrx_test_thread (verify : bool) (stop : nat → bool) (sel : list select_result) (sched : list bool) :
    M wd (Z * (nat * list (Z * Z))) :=
  ctx ← io_create_context;
  '(map_dev, dma_tx, dma_rx) ← open_devices dev_streamio_tx_1 ctx;
  r ← @thread_test_body wd wd wd wd (mapped_of map_dev) (stream_of dma_tx) (stream_of dma_rx)
        (@here) (@here) (@here) verify stop sel sched;
  io_close_context ctx ;;
  mret (0, r).

(** [main_tx_file]: [input_f] is what [fopen] and [sscanf] make of the input file,
    [output_f] whether the output file can be opened; the result comes with the
    numbers printed to it.  The array of the numbers ([input_temp]) and that of the
    results ([output_temp]) are never freed. *)
Definition main_tx_file (arguments : arguments) (input_f : option (list (option Z))) (output_f : bool) :
    M wd (Z * option (list Z)) :=
  match input_file_path arguments with
  | None => mret (-1, None)
  | Some _ =>
      match (lines ← input_f; read_values lines) with
      | None => mret (-1, None)
      | Some input =>
          heap_malloc ;;
          ctx ← io_create_context;
          '(map_dev, dma_tx, dma_rx) ← open_devices dev_streamio_tx_0 ctx;
          output ← @tx_file_body wd wd wd wd (mapped_of map_dev) (stream_of dma_tx) (stream_of dma_rx)
                     (@here) (@here) (@here) heap_malloc input;
          io_close_context ctx ;;
          match output_file_path arguments with
          | None => mret (0, None)
          | Some _ => mret (if output_f then (0, Some (s32 <$> output)) else (-1, None))
          end
      end
  end.

(** ** client_test.c *)

Definition main_tx (ctx : Z) : M wd Z :=
  dma_tx ← io_add_stream_device ctx dev_streamio_tx_0;
  @main_tx_loop wd (stream_of dma_tx) ;;
  io_close_context ctx ;;
  mret 0.

(** The registers are written before the streams are opened; every way out of the
    loop closes the context. *)
Definition main_rx (stop : nat → bool) (ctx : Z) : M wd Z :=
  map_dev ← io_add_mapped_device ctx dev_tc;
  @write_registers wd (mapped_of map_dev) [(5, 3); (6, 1024 * 2); (5, 0)] ;;
  dma_rx ← io_add_stream_device ctx dev_streamio_rx_0;
  dma_tx ← io_add_stream_device ctx dev_streamio_tx_0;
  @client_loop wd wd wd (stream_of dma_tx) (stream_of dma_rx) (@here) (@here)
    stop (1024 * 2) (Z.to_nat 10000000) 0 ;;
  io_close_context ctx ;;
  mret 0.

End Mains.

(** [main] of the client: the context is created and left; [resolves] is what
    [gethostbyname] makes of the host. *)
Definition client_main (argv : list (list Z)) (resolves : bool) : M net_world Z :=
  if (length argv <? 3)%nat then mret 0
  else
    ctx ← io_create_net_context resolves;
    match ctx with
    | None => mret (-1)
    | Some _ => mret 0
    end.

(** ** Lemmas: programs on the machine *)

Section Table.
Context {P W : Type} `{Backend P W} (ops : P → StreamDevice W) (w : world P W) (p : Z) (d : io_device P) (x : P).
Hypothesis device_there : devices w !! p = Some d.
Hypothesis device_payload : dv_private d = x.

(** A call through the device table is the call of the device. *)
Lemma on_stream_run {A} (op : StreamDevice W → M W A) b :
  on_stream ops (Some p) op (set_backend b w) =
    match op (ops x) b with Done (a, b') => Done (a, set_backend b' w) | Fault f => Fault f end.
Proof.
  unfold on_stream. eapply bind_done; [reflexivity|]. destruct (op (ops x) b) as [[a b']|f] eqn:Hop.
  - by apply (dispatch_run ops w p d x device_there device_payload).
  - by apply (dispatch_fault ops w p d x device_there device_payload).
Qed.

Lemma exec_table {B} (c : call B) b :
  @exec _ (stream_of ops (Some p)) B c (set_backend b w) =
    match @exec _ (ops x) B c b with Done (o, b') => Done (o, set_backend b' w) | Fault f => Fault f end.
Proof. destruct c; apply on_stream_run. Qed.

End Table.

Section Registers.
Context {E R : Type} `{EngineQueue E} `{!DmaEngineLaws E} `{DmaEngineLaws R} (jiffies : Z).
Abbreviation wd := (world machine_device (@machine E R)).
Implicit Types (w : wd).

#[local] Instance on_machine : Backend machine_device (@machine E R) := machine_backend jiffies.

Lemma write_registers_run w0 fds w es p d size l :
  program_at w0 fds w es → (p, MAPPED_DEVICE, MRegisters d) ∈ es → ch_end d = ch_start d + 4 * size →
  Forall (λ x, 0 ≤ fst x < size) l →
  @write_registers _ (mapped_of (Some p)) l w =
    Done (tt, with_mem (stored (ch_start d) l (lo_mem (mc_os (backend w)))) w).
Proof.
  intros Hp Hin He. revert w Hp. induction l as [|[a v] l IH]; intros w Hp Hf.
  - destruct w as [? ? ? ? [[] ? ?]]. done.
  - apply Forall_cons_1 in Hf as [Ha Hf]. cbn [write_registers]. eapply bind_done.
    { eapply bind_done; [reflexivity|]. by apply (core_write_run jiffies w0 fds w es p d size). }
    rewrite IH; [done|by apply program_backend|done].
Qed.

End Registers.

(** ** Properties *)

Section Properties.
Context {E R : Type} `{EngineQueue E} `{!DmaEngineLaws E} `{DmaEngine R} `{!DmaEngineLaws R} (jiffies : Z).
Abbreviation wd := (world machine_device (@machine E R)).
Implicit Types (w : wd).

#[local] Instance on_machine2 : Backend machine_device (@machine E R) := machine_backend jiffies.

(** The stream device of a program is a sink; everything else stays as in [w]. *)
Definition program_sink `{!TransmitEngine E, !HealthyEngine E} w p d path sd
    (Hd : devices w !! p = Some d) (Hp : dv_private d = MStream path sd) :
  @StreamSink _ (stream_of (machine_stream jiffies) (Some p)) :=
  @context_sink _ _ (machine_stream jiffies) w p d (MStream path sd) Hd Hp
    (@lens_sink _ _ (tx_channel path) _ (local_stream_device jiffies) (backend w) (local_sink jiffies)).

(** Where the rings of the programs are mapped: behind the registers, one page apart. *)
Definition first_ring (os : local_os) : Z := lo_next os + pages (512 * 4) + PAGE.
Definition second_ring (os : local_os) : Z := first_ring os + ring_pages + PAGE.

(** What [main_tx_test] has done when its loop starts. *)
Definition tx_test_setup : list (Z * Z) := [(5, 3); (4, 1); (6, 1024); (7, 0); (5, 0)].

Record at_loop (w0 : wd) (path : list Z) (p1 p2 : Z) (regs : mapped_dev) (dma : stream_dev) (w : wd) : Prop := {
  al_program : program_at w0 [] w [(p1, MAPPED_DEVICE, MRegisters regs); (p2, STREAM_DEVICE, MStream path dma)];
  al_regs : ch_start regs = lo_next (mc_os (backend w0)) ∧ ch_end regs = ch_start regs + 4 * 512;
  al_ring : sd_buffers dma = first_ring (mc_os (backend w0));
  al_mem : lo_mem (mc_os (backend w)) =
    stored (lo_next (mc_os (backend w0))) tx_test_setup (lo_mem (mc_os (backend w0)));
  al_channel : ∃ s0, sys_init jiffies s0 ∧ mc_tx (backend w) = <[path := s0]> (mc_tx (backend w0)) ∧
    mc_rx (backend w) = mc_rx (backend w0)
}.

Lemma main_tx_test_starts w0 s :
  ready w0 2 → mc_tx (backend w0) !! dev_axi_dma_1 = Some s → wf_channel (ring_chan s) →
  ∃ p1 p2 regs dma w2 w3 w4,
    at_loop w0 dev_axi_dma_1 p1 p2 regs dma w4 ∧
    io_add_mapped_device (next_ptr w0) dev_tc (created w0) = Done (Some p1, w2) ∧
    io_add_stream_device (next_ptr w0) dev_axi_dma_1 w2 = Done (Some p2, w3) ∧
    @write_registers _ (mapped_of (Some p1)) tx_test_setup w3 = Done (tt, w4).
Proof.
  intros (Hwf & fds & Hlen & Hready) Hs Hch. destruct fds as [|fd1 [|fd2 [|]]]; try done.
  pose proof (program_created w0 _ Hwf Hready) as Hp.
  destruct (program_registers jiffies w0 fd1 [fd2] _ [] dev_tc Hp) as (p1 & w2 & Hadd1 & Hp2 & Hn2 & Hm2 & Ht2 & Hr2);
    [unfold room, MAX_DEVICE; simpl; lia|].
  set (regs := mk_mapped_dev _ _ fd1) in *.
  destruct (program_transmit jiffies w0 fd2 [] w2 _ dev_axi_dma_1 s Hp2)
    as (p2 & w3 & s0 & Hadd2 & Hp3 & Hinit & _ & _ & Hm3 & Ht3 & Hr3);
    [unfold room, MAX_DEVICE; simpl; lia|by rewrite Ht2|done|].
  set (dma := mk_stream_dev fd2 _) in *.
  assert (ch_end regs = ch_start regs + 4 * 512) as He by (unfold regs; cbn [ch_end ch_start]; lia).
  pose proof (write_registers_run jiffies w0 [] w3 _ p1 regs 512 tx_test_setup Hp3
    ltac:(apply list_elem_of_here) He ltac:(repeat constructor; simpl; lia)) as Hregs.
  exists p1, p2, regs, dma. do 3 eexists. split; [|split; [exact Hadd1|split; [exact Hadd2|exact Hregs]]].
  split; [by apply program_backend|by split|exact Hn2| |].
  - cbn [backend set_backend with_mem mc_os set_mem lo_mem]. by rewrite Hm3, Hm2.
  - exists s0. cbn [backend set_backend with_mem mc_tx mc_rx]. by rewrite Ht3, Ht2, Hr3, Hr2.
Qed.

(** The stream of such a program, and its state. *)
Lemma at_loop_stream w0 path p1 p2 regs dma w :
  at_loop w0 path p1 p2 regs dma w →
  ∃ d s0, devices w !! p2 = Some d ∧ dv_private d = MStream path dma ∧ sys_init jiffies s0 ∧
    backend w = put (tx_channel path) s0 (mk_machine (mc_os (backend w)) (mc_tx (backend w0)) (mc_rx (backend w0))).
Proof.
  intros [Hp _ _ _ (s0 & Hinit & Ht & Hr)].
  destruct (opened_at w0 w _ _ p2 STREAM_DEVICE _ (pa_opened _ _ _ _ Hp) ltac:(apply list_elem_of_further, list_elem_of_here))
    as (d & Hd & _ & Hx).
  exists d, s0. split; [done|]. split; [done|]. split; [done|]. cbn [put tx_channel mc_os mc_tx mc_rx].
  rewrite <-Ht, <-Hr. by destruct (backend w).
Qed.

Lemma heap_malloc_run w : heap_malloc w = Done (tt, mallocd w).
Proof. reflexivity. Qed.

Lemma at_loop_malloc w0 path p1 p2 regs dma w :
  at_loop w0 path p1 p2 regs dma w → at_loop (mallocd w0) path p1 p2 regs dma (mallocd w).
Proof. intros [Hp ? ? ? ?]. split; [by apply program_malloc|done..]. Qed.

(** Opening a register device always returns. *)
Lemma open_mapped_total size os : ∃ o os', io_open_mapped_local size os = Done (o, os').
Proof.
  unfold io_open_mapped_local, sys_open, sys_mmap, mbind, M_bind.
  destruct (lo_opens os) as [|fd l]; [by do 2 eexists|].
  destruct (fd <? 0); [by do 2 eexists|]. cbv beta iota. destruct (fd <? 1); [by do 2 eexists|].
  cbv beta iota. cbn [malloc modify lo_mmaps set_blocks set_opens].
  destruct (lo_mmaps os) as [|[] ms]; cbv beta iota; destruct (_ =? 0); by do 2 eexists.
Qed.

(** C22: Without a node called /dev/axi_dma_1 [main_tx_test] crashes before it sends
    anything, whatever else the process can open: the result of the failed open is
    dereferenced.  The channels of the device tree in the repository are
    streamio_rx_0, streamio_tx_0 and streamio_tx_1. *)
Theorem main_tx_test_no_node w0 :
  wf_heap w0 → mc_tx (backend w0) !! dev_axi_dma_1 = None → mc_rx (backend w0) !! dev_axi_dma_1 = None →
  main_tx_test (machine_stream jiffies) w0 = Fault NullDeref.
Proof.
  intros Hwf Htx Hrx. pose proof (create_opened w0 Hwf) as Hod.
  unfold main_tx_test. eapply bind_done; [apply create_run|].
  destruct (open_mapped_total 512 (mc_os (backend w0))) as (o & os & Ho).
  assert (open_mapped dev_tc 512 (backend (created w0)) =
    Done (MRegisters <$> o, mk_machine os (mc_tx (backend w0)) (mc_rx (backend w0)))) as Hopen.
  { cbn [open_mapped on_machine2 machine_backend]. unfold on_os.
    eapply bind_done; [apply zoom_done; exact Ho|reflexivity]. }
  destruct o as [md|].
  - destruct (add_mapped_opened w0 _ _ [] dev_tc _ _ Hod ltac:(unfold MAX_DEVICE; simpl; lia) Hopen)
      as (p1 & w2 & Hadd & Hod2 & Hb2).
    eapply bind_done; [exact Hadd|]. apply bind_fault.
    apply (add_stream_missing w0 w2 _ _ dev_axi_dma_1 (backend w2) Hod2).
    cbn [open_stream on_machine2 machine_backend]. unfold open_channel. eapply bind_done; [reflexivity|].
    rewrite Hb2. cbn [mc_tx mc_rx]. by rewrite Htx, Hrx.
  - apply bind_fault. by apply (add_mapped_missing w0 _ _ [] dev_tc _ Hod Hopen).
Qed.

(** C4: The test application's [main_tx_test], from nothing to the end, on a machine
    whose hardware takes and finishes every transfer: it returns 0; the hardware
    has sent exactly its two million packets, in order and complete; the
    registers were written in their order, the design is held in reset at the
    end.  Every descriptor is given back and the heap of contexts is what it was;
    what stays behind is the block of [data_copy], which the program never frees,
    and the mapping of the ring but for its first 33 pages. *)
Theorem main_tx_test_on_hardware `{!TransmitEngine E, !HealthyEngine E} w0 s :
  ready w0 2 → mc_tx (backend w0) !! dev_axi_dma_1 = Some s → wf_channel (ring_chan s) →
  let os := mc_os (backend w0) in
  ∃ w1 s1, main_tx_test (machine_stream jiffies) w0 = Done (0, w1) ∧
    mc_tx (backend w1) = <[dev_axi_dma_1 := s1]> (mc_tx (backend w0)) ∧
    ss_sent s1 = tx_test_packet (1024 * 2) <$> seq 0 (Z.to_nat 2000000) ∧
    lo_mem (mc_os (backend w1)) =
      stored (lo_next os) [(5, 3); (4, 1); (6, 1024); (7, 0); (5, 0); (5, 3)] (lo_mem os) ∧
    lo_fds (mc_os (backend w1)) = lo_fds os ∧ lo_blocks (mc_os (backend w1)) = lo_blocks os + 1 ∧
    lo_maps (mc_os (backend w1)) = ring_left (first_ring os) (delete (lo_next os) (lo_maps os)) ∧
    contexts w1 = contexts w0 ∧ arrays w1 = arrays w0 ∧ devices w1 = devices w0.
Proof.
  intros Hready Hs Hch os.
  destruct (main_tx_test_starts w0 s Hready Hs Hch) as (p1 & p2 & regs & dma & w2 & w3 & w3' & Hal & Hadd1 & Hadd2 & Hregs).
  apply at_loop_malloc in Hal. set (w4 := mallocd w3') in *.
  destruct (at_loop_stream _ _ _ _ _ _ _ Hal) as (d2 & s0 & Hd2 & Hx2 & Hinit & Hb4).
  destruct Hal as [Hp [Hst He] Hring Hmem _].
  destruct (@tx_test_loop_run _ _ (program_sink w4 p2 d2 dev_axi_dma_1 _ Hd2 Hx2) (1024 * 2) (Z.to_nat 2000000) 0 [] w4)
    as (w5 & (b5 & -> & s5 & -> & Hi5) & Hloop).
  { exists (backend w4). split; [by destruct w4|]. exists s0. split; [by rewrite Hb4, put_put|].
    split; [by apply sys_init_ok|]. by destruct Hinit as (? & ? & ? & ? & ? & ? & ? & ? & ? & Hi & _). }
  { vm_compute. congruence. }
  destruct (stream_sync jiffies _ s5 Hi5) as (s6 & Hsync & _ & Hsent).
  set (w6 := set_backend (put (tx_channel dev_axi_dma_1) s6 (backend w4)) w4).
  assert (program_at (mallocd w0) [] w6 [(p1, MAPPED_DEVICE, MRegisters regs); (p2, STREAM_DEVICE, MStream dev_axi_dma_1 dma)]) as Hp6
    by (by apply program_streams).
  pose proof (core_write_run jiffies (mallocd w0) [] w6 _ p1 regs 512 5 3 Hp6 ltac:(apply list_elem_of_here) He ltac:(lia)) as Hhold.
  set (mem := <[_ := 3]> (lo_mem _)) in Hhold.
  destruct (close_program jiffies (mallocd w0) [] (with_mem mem w6) _ (program_backend (mallocd w0) [] w6 _ mem _ _ Hp6))
    as (w8 & Hcl & Htx & _ & Hmem8 & Hfd8 & Hbl8 & Hmp8 & Hrest).
  exists w8, s6. split; [|split; [|split; [exact Hsent|split; [|split; [exact Hfd8|split; [exact Hbl8|split; [|exact Hrest]]]]]]].
  - unfold main_tx_test. eapply bind_done; [apply create_run|]. eapply bind_done; [exact Hadd1|].
    eapply bind_done; [exact Hadd2|]. eapply bind_done; [|eapply bind_done; [exact Hcl|reflexivity]].
    unfold tx_test_body, here. eapply bind_done; [exact Hregs|]. eapply bind_done; [apply heap_malloc_run|].
    eapply bind_done; [|exact Hhold].
    fold w4. rewrite Hloop. apply (dispatch_run (machine_stream jiffies) w4 p2 d2 _ Hd2 Hx2).
    by apply (through_done (tx_channel dev_axi_dma_1)).
  - rewrite Htx. unfold with_mem, w6. cbn [backend set_backend put tx_channel mc_tx]. rewrite Hb4.
    cbn [put tx_channel mc_tx]. by rewrite insert_insert_eq.
  - rewrite Hmem8. unfold with_mem, w6. cbn [backend set_backend mc_os set_mem lo_mem]. unfold mem, w6.
    cbn [backend set_backend put tx_channel mc_os]. rewrite Hmem, Hst. reflexivity.
  - rewrite Hmp8. cbn [fmap list_fmap snd foldl closed_map]. by rewrite Hst, Hring.
Qed.

(** A program that sends and receives when its loops start: its three devices are
    open and the registers [setup] are written. *)
Definition thread_setup : list (Z * Z) := [(5, 3); (6, 1024 * 4); (7, 16); (5, 0)].

Record at_threads (tx : list Z) (setup : list (Z * Z)) (w0 : wd) (p1 p2 p3 : Z) (regs : mapped_dev) (dtx drx : stream_dev) (t : stream_sys E)
    (r : ring (dma_proxy_channel R)) (w : wd) : Prop := {
  at_program : program_at w0 [] w [(p1, MAPPED_DEVICE, MRegisters regs);
    (p2, STREAM_DEVICE, MStream tx dtx); (p3, STREAM_DEVICE, MReceive dev_streamio_rx_0 drx)];
  at_regs : ch_start regs = lo_next (mc_os (backend w0)) ∧ ch_end regs = ch_start regs + 4 * 512;
  at_rings : sd_buffers dtx = first_ring (mc_os (backend w0)) ∧ sd_buffers drx = second_ring (mc_os (backend w0));
  at_mem : lo_mem (mc_os (backend w)) =
    stored (lo_next (mc_os (backend w0))) setup (lo_mem (mc_os (backend w0)));
  at_tx_channel : mc_tx (backend w) = <[tx := t]> (mc_tx (backend w0));
  at_rx_channel : mc_rx (backend w) = <[dev_streamio_rx_0 := r]> (mc_rx (backend w0))
}.

Lemma devices_ready `{!EngineQueue R, !ReceiveEngine R} tx setup w0 s r inc :
  Forall (λ x, 0 ≤ fst x < 512) setup →
  ready w0 3 → mc_tx (backend w0) !! tx = Some s → wf_channel (ring_chan s) →
  mc_tx (backend w0) !! dev_streamio_rx_0 = None →
  mc_rx (backend w0) !! dev_streamio_rx_0 = Some r → wf_channel (rg_driver r) →
  incoming (device_terminate_all (channel_p (rg_driver r))) = inc → good_blocks inc →
  ∃ p1 p2 p3 regs dtx drx t0 r0 w3 w4,
    at_threads tx setup w0 p1 p2 p3 regs dtx drx t0 r0 w4 ∧ sys_init jiffies t0 ∧
    (datas (ring_chan t0) = datas (ring_chan s) ∧ current_buffer_id (ss_ring t0) = 0) ∧ receive_opened jiffies inc r0 ∧
    open_devices tx (next_ptr w0) (created w0) = Done ((Some p1, Some p2, Some p3), w3) ∧
    @write_registers _ (mapped_of (Some p1)) setup w3 = Done (tt, w4).
Proof.
  intros Hsetup (Hwf & fds & Hlen & Hready) Hs Hch Hno Hr Hrch Hinc Hgood. destruct fds as [|fd1 [|fd2 [|fd3 [|]]]]; try done.
  pose proof (program_created w0 _ Hwf Hready) as Hp.
  destruct (program_registers jiffies w0 fd1 [fd2; fd3] _ [] dev_tc Hp) as (p1 & w1 & Hadd1 & Hp1 & Hn1 & Hm1 & Ht1 & Hr1);
    [unfold room, MAX_DEVICE; simpl; lia|].
  set (regs := mk_mapped_dev _ _ fd1) in *.
  destruct (program_transmit jiffies w0 fd2 [fd3] w1 _ tx s Hp1)
    as (p2 & w2 & t0 & Hadd2 & Hp2 & Hinit & Hkeep & Hn2 & Hm2 & Ht2 & Hr2);
    [unfold room, MAX_DEVICE; simpl; lia|by rewrite Ht1|done|].
  set (dtx := mk_stream_dev fd2 _) in *.
  destruct (program_receive jiffies w0 fd3 [] w2 _ dev_streamio_rx_0 r Hp2)
    as (p3 & w3 & pc & r0 & Hadd3 & Hp3 & Hop & Hpc & Hst & Hm3 & Ht3 & Hr3);
    [unfold room, MAX_DEVICE; simpl; lia|rewrite Ht2, Ht1, lookup_insert_ne by congruence; exact Hno|by rewrite Hr2, Hr1|done|].
  set (drx := mk_stream_dev fd3 _) in *.
  assert (ch_end regs = ch_start regs + 4 * 512) as He by (unfold regs; cbn [ch_end ch_start]; lia).
  pose proof (write_registers_run jiffies w0 [] w3 _ p1 regs 512 setup Hp3
    ltac:(apply list_elem_of_here) He Hsetup) as Hregs.
  exists p1, p2, p3, regs, dtx, drx, t0, r0, w3. eexists.
  split; [|split; [exact Hinit|split; [exact Hkeep|split; [|split; [|exact Hregs]]]]].
  - split; [by apply program_backend|by split|..]; cbn [backend set_backend with_mem mc_os set_mem lo_mem mc_tx mc_rx].
    + split; [exact Hn1|]. change (lo_next (mc_os (backend w2)) = second_ring (mc_os (backend w0))). by rewrite Hn2, Hn1.
    + by rewrite Hm3, Hm2, Hm1.
    + by rewrite Ht3, Ht2, Ht1.
    + by rewrite Hr3, Hr2, Hr1.
  - exists (rg_driver r), pc, (mc_os (backend w2)). do 2 eexists. split; [done|]. split; [done|].
    split; [exact Hst|]. split; [by rewrite Hpc|done].
  - unfold open_devices. eapply bind_done; [exact Hadd1|]. eapply bind_done; [exact Hadd2|].
    eapply bind_done; [exact Hadd3|]. reflexivity.
Qed.

(** The two channels inside the world of such a program. *)
Definition threads_world (tx : list Z) (w : wd) (t : stream_sys E) (r : ring (dma_proxy_channel R)) : wd :=
  set_backend (mk_machine (mc_os (backend w)) (<[tx := t]> (mc_tx (backend w)))
    (<[dev_streamio_rx_0 := r]> (mc_rx (backend w)))) w.

(** A call of such a program on one of its streams concerns that channel only. *)
Lemma threads_calls tx setup w0 p1 p2 p3 regs dtx drx t0 r0 w t r {C} (c : call C) :
  at_threads tx setup w0 p1 p2 p3 regs dtx drx t0 r0 w →
  @exec _ (stream_of (machine_stream jiffies) (Some p2)) C c (threads_world tx w t r) =
    match @exec _ (local_stream_device jiffies) C c t with
    | Done (o, t') => Done (o, threads_world tx w t' r)
    | Fault f => Fault f
    end ∧
  @exec _ (stream_of (machine_stream jiffies) (Some p3)) C c (threads_world tx w t r) =
    match @exec _ (ring_device jiffies) C c r with
    | Done (o, r') => Done (o, threads_world tx w t r')
    | Fault f => Fault f
    end.
Proof.
  intros [Hp _ _ _ _ _].
  destruct (opened_at w0 w _ _ p2 STREAM_DEVICE (MStream tx dtx) (pa_opened _ _ _ _ Hp)) as (d2 & Hd2 & _ & Hx2);
    [by apply list_elem_of_further, list_elem_of_here|].
  destruct (opened_at w0 w _ _ p3 STREAM_DEVICE (MReceive dev_streamio_rx_0 drx) (pa_opened _ _ _ _ Hp)) as (d3 & Hd3 & _ & Hx3);
    [by apply list_elem_of_further, list_elem_of_further, list_elem_of_here|].
  split.
  - etransitivity; [exact (exec_table (machine_stream jiffies) w p2 d2 _ Hd2 Hx2 c _)|].
    assert (@exec _ (machine_stream jiffies (MStream tx dtx)) C c
      (put (tx_channel tx) t (backend (threads_world tx w t r))) =
      match @exec _ (local_stream_device jiffies) C c t with
      | Done (o, t2) => Done (o, put (tx_channel tx) t2 (backend (threads_world tx w t r)))
      | Fault f => Fault f
      end) as Hc by apply (@exec_lens _ _ (tx_channel tx) _ (local_stream_device jiffies)).
    unfold threads_world in *. cbn [backend set_backend put tx_channel mc_os mc_tx mc_rx] in *.
    destruct (@exec _ (local_stream_device jiffies) C c t) as [[o t2]|f];
      rewrite !insert_insert_eq in Hc; by rewrite Hc.
  - etransitivity; [exact (exec_table (machine_stream jiffies) w p3 d3 _ Hd3 Hx3 c _)|].
    assert (@exec _ (machine_stream jiffies (MReceive dev_streamio_rx_0 drx)) C c
      (put (rx_channel dev_streamio_rx_0) r (backend (threads_world tx w t r))) =
      match @exec _ (ring_device jiffies) C c r with
      | Done (o, r2) => Done (o, put (rx_channel dev_streamio_rx_0) r2 (backend (threads_world tx w t r)))
      | Fault f => Fault f
      end) as Hc by apply (@exec_lens _ _ (rx_channel dev_streamio_rx_0) _ (ring_device jiffies)).
    unfold threads_world in *. cbn [backend set_backend put rx_channel mc_os mc_tx mc_rx] in *.
    destruct (@exec _ (ring_device jiffies) C c r) as [[o r2]|f];
      rewrite !insert_insert_eq in Hc; by rewrite Hc.
Qed.

Lemma threads_run tx setup w0 p1 p2 p3 regs dtx drx t0 r0 w {A B} sched (a : prog A) (b : prog B) t r x t' y r' :
  at_threads tx setup w0 p1 p2 p3 regs dtx drx t0 r0 w →
  run (@exec _ (local_stream_device jiffies)) a t = Done (x, t') →
  run (@exec _ (ring_device jiffies)) b r = Done (y, r') →
  interleave (λ C c, @exec _ (stream_of (machine_stream jiffies) (Some p2)) C c)
    (λ C c, @exec _ (stream_of (machine_stream jiffies) (Some p3)) C c) sched a b (threads_world tx w t r) =
    Done ((x, y), threads_world tx w t' r').
Proof.
  intros Hat Ha Hb.
  apply (@interleave_run _ _ _ (local_stream_device jiffies) (ring_device jiffies) _ _ (threads_world tx w)); [..|done|done];
    intros C c t1 r1; apply (threads_calls _ _ _ _ _ _ _ _ _ _ _ _ t1 r1 c Hat).
Qed.

(** The channels such a program starts with, and its end: the design is held in
    reset and the context closed, whatever its loops did to the channels. *)
Lemma threads_start tx setup w0 p1 p2 p3 regs dtx drx t0 r0 w :
  at_threads tx setup w0 p1 p2 p3 regs dtx drx t0 r0 w → threads_world tx w t0 r0 = w.
Proof.
  intros [_ _ _ _ Htx Hrx]. unfold threads_world. rewrite Htx, Hrx, !insert_insert_eq, <-Htx, <-Hrx.
  by destruct w as [? ? ? ? []].
Qed.

Lemma devices_finish tx setup w0 p1 p2 p3 regs dtx drx t0 r0 w t r :
  at_threads tx setup w0 p1 p2 p3 regs dtx drx t0 r0 w →
  let os := mc_os (backend w0) in
  ∃ w1 w2, @hold_reset wd wd (mapped_of (Some p1)) (@here _ _) (threads_world tx w t r) = Done (tt, w1) ∧
    io_close_context (next_ptr w0) w1 = Done (tt, w2) ∧
    mc_tx (backend w2) = <[tx := t]> (mc_tx (backend w0)) ∧
    lo_mem (mc_os (backend w2)) = stored (lo_next os) (setup ++ [(5, 3)]) (lo_mem os) ∧
    lo_fds (mc_os (backend w2)) = lo_fds os ∧ lo_blocks (mc_os (backend w2)) = lo_blocks os ∧
    lo_maps (mc_os (backend w2)) = ring_left (second_ring os) (ring_left (first_ring os) (delete (lo_next os) (lo_maps os))) ∧
    contexts w2 = contexts w0 ∧ arrays w2 = arrays w0 ∧ devices w2 = devices w0.
Proof.
  intros [Hp [Hst He] [Hring1 Hring2] Hmem Htx0 Hrx0] os. set (w5 := threads_world tx w t r).
  assert (program_at w0 [] w5 [(p1, MAPPED_DEVICE, MRegisters regs);
    (p2, STREAM_DEVICE, MStream tx dtx); (p3, STREAM_DEVICE, MReceive dev_streamio_rx_0 drx)]) as Hp5
    by (by apply program_streams).
  pose proof (core_write_run jiffies w0 [] w5 _ p1 regs 512 5 3 Hp5 ltac:(apply list_elem_of_here) He ltac:(lia)) as Hhold.
  set (mem := <[_ := 3]> (lo_mem _)) in Hhold.
  destruct (close_program jiffies w0 [] (with_mem mem w5) _ (program_backend w0 [] w5 _ mem _ _ Hp5))
    as (w8 & Hcl & Htx & _ & Hmem8 & Hfd8 & Hbl8 & Hmp8 & Hrest).
  exists (with_mem mem w5), w8. split; [exact Hhold|]. split; [exact Hcl|].
  split; [|split; [|split; [exact Hfd8|split; [exact Hbl8|split; [|exact Hrest]]]]].
  - rewrite Htx. unfold with_mem, w5, threads_world. cbn [backend set_backend mc_tx]. by rewrite Htx0, insert_insert_eq.
  - rewrite Hmem8. unfold with_mem, mem, w5, threads_world. cbn [backend set_backend mc_os set_mem lo_mem].
    rewrite Hmem, Hst. unfold stored. by rewrite foldl_app.
  - rewrite Hmp8. cbn [fmap list_fmap snd foldl closed_map]. by rewrite Hst, Hring1, Hring2.
Qed.

Lemma at_threads_malloc tx setup w0 p1 p2 p3 regs dtx drx t0 r0 w :
  at_threads tx setup w0 p1 p2 p3 regs dtx drx t0 r0 w →
  at_threads tx setup (mallocd w0) p1 p2 p3 regs dtx drx t0 r0 (mallocd w).
Proof. intros [Hp ? ? ? ? ?]. split; [by apply program_malloc|done..]. Qed.

(** C6: The whole of [txrx_test_thread] on this machine, its two threads taking turns
    in any order call by call: it returns 0; what the sending channel's engine has
    sent, with what is still in its queue, is the sender's packets in order and
    complete, 213568 of them or up to the stop; the receiver, with its check on,
    reports nothing if and only if the words the hardware received are the
    pattern; the registers were set up and the design is held in reset at the end;
    and every descriptor and every block of memory is given back.  Of the mappings
    the registers' is gone, and of each of the two rings all but the first 33 pages
    stay mapped. *)
Theorem txrx_test_thread_on_hardware
    `{!TransmitEngine E, !HealthyEngine E} `{!EngineQueue R, !ReceiveEngine R}
    w0 s r verify stop sel sched packets inc :
  ready w0 3 → mc_tx (backend w0) !! dev_streamio_tx_1 = Some s → wf_channel (ring_chan s) →
  mc_tx (backend w0) !! dev_streamio_rx_0 = None →
  mc_rx (backend w0) !! dev_streamio_rx_0 = Some r → wf_channel (rg_driver r) →
  incoming (device_terminate_all (channel_p (rg_driver r))) = inc → good_blocks inc →
  Forall2 carries_packet packets inc → ready_count sel = Some (length packets) →
  let os := mc_os (backend w0) in
  ∃ w1 m rs t1, txrx_test_thread (machine_stream jiffies) verify stop sel sched w0 = Done ((0, (m, rs)), w1) ∧
    mc_tx (backend w1) = <[dev_streamio_tx_1 := t1]> (mc_tx (backend w0)) ∧
    ss_sent t1 ++ contents (ring_chan t1) = tx_packet (Z.to_nat (2 ^ 14)) <$> seq 0 m ∧
    (Z.of_nat m = 213568 ∨ Z.of_nat m < 213568 ∧ stop m = true) ∧
    (rs = [] ↔ verify = false ∨ concat packets = pattern 0 (length (concat packets))) ∧
    lo_mem (mc_os (backend w1)) =
      stored (lo_next os) [(5, 3); (6, 1024 * 4); (7, 16); (5, 0); (5, 3)] (lo_mem os) ∧
    lo_fds (mc_os (backend w1)) = lo_fds os ∧ lo_blocks (mc_os (backend w1)) = lo_blocks os ∧
    lo_maps (mc_os (backend w1)) = ring_left (second_ring os) (ring_left (first_ring os) (delete (lo_next os) (lo_maps os))) ∧
    contexts w1 = contexts w0 ∧ arrays w1 = arrays w0 ∧ devices w1 = devices w0.
Proof.
  intros Hready Hs Hch Hno Hr Hrch Hinc Hgood Hpk Hsel os.
  destruct (devices_ready dev_streamio_tx_1 thread_setup w0 s r inc ltac:(repeat constructor; simpl; lia) Hready Hs Hch Hno Hr Hrch Hinc Hgood)
    as (p1 & p2 & p3 & regs & dtx & drx & t0 & r0 & w3 & w4 & Hat & Hinit & _ & Hrx & Hopen & Hregs).
  destruct (threads_on_hardware jiffies verify stop sel packets inc t0 r0 Hinit Hrx Hpk Hsel)
    as (m & rs & t1 & r1 & Ht & Hrun & Hsent & Hm & Hrs).
  pose proof (threads_run dev_streamio_tx_1 thread_setup w0 p1 p2 p3 regs dtx drx t0 r0 w4 sched _ _ _ _ _ _ _ _ Hat Ht Hrun) as Hthreads.
  rewrite (threads_start _ _ _ _ _ _ _ _ _ _ _ _ Hat) in Hthreads.
  destruct (devices_finish _ _ _ _ _ _ _ _ _ _ _ _ t1 r1 Hat) as (w7 & w8 & Hhold & Hcl & Htx & Hmem8 & Hrest).
  exists w8, m, rs, t1. split; [|split; [exact Htx|split; [exact Hsent|split; [exact Hm|split; [exact Hrs|split; [exact Hmem8|exact Hrest]]]]]].
  unfold txrx_test_thread. eapply bind_done; [apply create_run|]. eapply bind_done; [exact Hopen|]. cbv beta iota.
  eapply bind_done; [|eapply bind_done; [exact Hcl|reflexivity]].
  unfold thread_test_body, here. eapply bind_done; [exact Hregs|].
  eapply bind_done; [exact Hthreads|]. eapply bind_done; [exact Hhold|reflexivity].
Qed.

End Properties.

(** ** Concrete runs *)

(** A machine whose process has opened nothing, with one transmit channel and one
    receive channel whose hardware will deliver the blocks [inc]. *)
Definition demo_machine (mode : wait_mode) (path : list Z) (inc : list (list Z)) :
    world machine_device (@machine (queue_engine mode) block_engine) :=
  mk_world ∅ ∅ ∅ 1
    (mk_machine (mk_os [3; 4; 5] [true; true; true] ∅ ∅ ∅ 65536 0)
       {[path := mk_sys (mk_ring (fresh_channel (mk_queue_engine [] None 10) 4096) 32 0) ∅ [] []]}
       {[dev_streamio_rx_0 := mk_ring (fresh_channel (mk_block_engine [] None 10 inc) 4096) 32 0]}).

Definition demo_channel_stream mode : stream_sys (queue_engine mode) :=
  mk_sys (mk_ring (fresh_channel (mk_queue_engine [] None 10) 4096) 32 0) ∅ [] [].

Lemma demo_machine_ready mode path inc n : (n ≤ 3)%nat → ready (demo_machine mode path inc) n.
Proof.
  intros Hn. split; [split; intros p [x Hx]; cbn in Hx; by rewrite lookup_empty in Hx|].
  exists (take n [3; 4; 5]). split; [rewrite length_take; simpl; lia|]. split.
  - apply prefix_take.
  - apply Forall_take. repeat constructor; try lia; apply not_elem_of_empty.
  - rewrite length_take, Nat.min_l by (simpl; lia). exists (replicate (3 - n) true).
    rewrite <-replicate_add. by replace (n + (3 - n))%nat with 3%nat by lia.
  - reflexivity.
Qed.

Lemma main_tx_test_on_hardware_witness :
  let B := machine_backend (E:=queue_engine Finishes) (R:=block_engine) 300 in
  ∃ w1 (s1 : stream_sys (queue_engine Finishes)),
    main_tx_test (machine_stream 300) (demo_machine Finishes dev_axi_dma_1 []) = Done (0, w1) ∧
    ss_sent s1 = tx_test_packet (1024 * 2) <$> seq 0 (Z.to_nat 2000000) ∧
    lo_mem (mc_os (backend w1)) !! (65536 + 4 * 5) = Some 3 ∧
    lo_mem (mc_os (backend w1)) !! (65536 + 4 * 6) = Some 1024.
Proof.
  intros B.
  destruct (main_tx_test_on_hardware 300 (demo_machine Finishes dev_axi_dma_1 []) (demo_channel_stream Finishes)
    (demo_machine_ready Finishes dev_axi_dma_1 [] 2 ltac:(lia)) ltac:(apply lookup_singleton_eq) ltac:(apply wf_fresh_channel))
    as (w1 & s1 & Hr & _ & Hs & Hm & _).
  exists w1, s1. split; [exact Hr|]. split; [exact Hs|]. rewrite Hm. split; reflexivity.
Defined.

Lemma main_tx_test_no_node_witness :
  let B := machine_backend (E:=queue_engine Finishes) (R:=block_engine) 300 in
  main_tx_test (machine_stream 300) (demo_machine Finishes dev_streamio_tx_1 []) = Fault NullDeref.
Proof. intros B. apply (main_tx_test_no_node 300); [apply (demo_machine_ready _ _ _ 0); lia|reflexivity|reflexivity]. Defined.

(** The receiver takes two packets, with an error of [select] between them. *)
Lemma txrx_test_thread_on_hardware_witness :
  let B := machine_backend (E:=queue_engine Finishes) (R:=block_engine) 300 in
  ∃ w1 m,
    txrx_test_thread (machine_stream 300) true (λ j, (2 <=? j)%nat) [SelReady true; SelError; SelReady true; SelTimeout]
      [true; false; false; true; false]
      (demo_machine Finishes dev_streamio_tx_1 [demo_packet [1; 2]; demo_packet [3]]) = Done ((0, (m, [])), w1) ∧
    (2 ≤ m)%nat.
Proof.
  intros B.
  assert (Forall2 carries_packet [[1; 2]; [3]] [demo_packet [1; 2]; demo_packet [3]]) as Hc.
  { constructor; [|constructor; [|constructor]]; apply demo_carries;
      try (repeat constructor; lia); unfold BUFFER_IN_BYTES, sizeof_header, BUFFER_SIZE; simpl; lia. }
  destruct (txrx_test_thread_on_hardware 300 (demo_machine Finishes dev_streamio_tx_1 [demo_packet [1; 2]; demo_packet [3]])
    (demo_channel_stream Finishes)
    (mk_ring (fresh_channel (mk_block_engine [] None 10 [demo_packet [1; 2]; demo_packet [3]]) 4096) 32 0)
    true (λ j, (2 <=? j)%nat) [SelReady true; SelError; SelReady true; SelTimeout] [true; false; false; true; false]
    [[1; 2]; [3]] [demo_packet [1; 2]; demo_packet [3]]) as (w1 & m & rs & t1 & Hr & _ & _ & Hm & Hrs & _).
  - by apply demo_machine_ready.
  - apply lookup_singleton_eq.
  - apply wf_fresh_channel.
  - reflexivity.
  - apply lookup_singleton_eq.
  - apply wf_fresh_channel.
  - reflexivity.
  - apply Forall2_cons in Hc as [(? & ? & ? & Hb1 & _) Hc]. apply Forall2_cons in Hc as [(? & ? & ? & Hb2 & _) _].
    constructor; [|constructor; [|constructor]]; (split; [assumption|apply demo_packet_bytes]).
  - exact Hc.
  - reflexivity.
  - destruct Hrs as [_ Hrs]. rewrite (Hrs (or_intror eq_refl)) in Hr. exists w1, m. split; [exact Hr|].
    destruct Hm as [Hm|[_ Hm]]; [lia|]. by apply Nat.leb_le.
Defined.
