(* ===== verification/TxRxTest.v ===== *)
(** * TxRxTest: sending and receiving in one thread

    [main_txrx_test] of [src/userspace/test_app/src/tc_test.c] on the machine of
    [Machine].  Before it fills a buffer the program clears as much of it as the
    length in the buffer's memory says, and opening a device leaves that memory as
    it was.  The theorem follows the program as long as the lengths the 32 buffers
    held before it started keep the clearing inside the struct of each buffer: the
    data, and the status and the length behind it, which are stored anew before
    anybody reads them.  A larger length clears the structs that follow. *)
From Stdlib Require Import ZArith Lia.
From stdpp Require Import base list numbers option gmap sets.
From S2P Require Import Prelude Socket NetClient DmaChannel BufferData Devices LocalBackend ZeroCopy LocalStream Context BackendContext TestApp Threads LocalReceive Machine AppMain.

(** ** What a buffer holds *)

Section Buffers.
Context {E : Type} `{EngineQueue E}.

Definition buffer_of (s : stream_sys E) (i : nat) : list Z :=
  buffer_data (default ∅ (data_at (ring_chan s) i)).

(** The length a buffer's header says, and whether clearing that many words stays
    in the struct of the buffer. *)
Definition header_length (bs : list Z) : Z := le_val (drop 8 (take 12 bs)).
Definition length_fits (bs : list Z) : bool := BUFFER_IN_BYTES (header_length bs) <=? sizeof_channel_buffer.

End Buffers.

(** What the program sends. *)
Definition txrx_packet (start : Z) (packet_size j : nat) : list Z :=
  packet_bytes start (Z.of_nat j)
    ((λ i, u32 (start + Z.of_nat i + Z.of_nat j * Z.of_nat packet_size)) <$> seq 0 packet_size).

(** ** Lemmas: a computation on one device of a larger state *)

Section Lifted.
Context {D G : Type} `{StreamDevice D} `{StreamDevice G} (emb : D → G).

(** Calls on [G]'s device are calls on the embedded one. *)
Hypothesis calls_apart : ∀ C (c : call C) d,
  @exec G _ C c (emb d) = match exec c d with Done (o, d') => Done (o, emb d') | Fault f => Fault f end.

Definition lifted {A} (mg : M G A) (md : M D A) : Prop :=
  ∀ d, mg (emb d) = match md d with Done (a, d') => Done (a, emb d') | Fault f => Fault f end.

Lemma lifted_ret {A} (a : A) : lifted (mret a) (mret a).
Proof. by intros d. Qed.

Lemma lifted_bind {A B} (mg : M G A) md (kg : A → M G B) kd :
  lifted mg md → (∀ a, lifted (kg a) (kd a)) → lifted (mg ≫= kg) (md ≫= kd).
Proof.
  intros Hm Hk d. unfold mbind, M_bind. rewrite Hm. destruct (md d) as [[a d']|f]; [apply Hk|done].
Qed.

Lemma lifted_for n bg bd lo :
  (∀ i, lifted (bg i) (bd i)) → lifted (for_from lo n bg) (for_from lo n bd).
Proof. intros Hb. revert lo. induction n as [|n IH]; intros lo; [apply lifted_ret|]. by apply lifted_bind. Qed.

Lemma lifted_get_buffer : lifted get_buffer get_buffer.
Proof. apply lifted_bind; [exact (calls_apart _ CGet)|]. by intros [b|] d. Qed.

Lemma lifted_fill b off x : lifted (fill_buffer b off x) (fill_buffer b off x).
Proof. exact (calls_apart _ (CFill b off x)). Qed.

Lemma lifted_struct b off x : lifted (fill_struct b off x) (fill_struct b off x).
Proof. exact (calls_apart _ (CStruct b off x)). Qed.

Lemma lifted_bytes b n : lifted (buffer_bytes b n) (buffer_bytes b n).
Proof. exact (calls_apart _ (CBytes b n)). Qed.

Lemma lifted_write b n : lifted (io_write_stream_device b n) (io_write_stream_device b n).
Proof. exact (calls_apart _ (CWrite b n)). Qed.

Lemma lifted_read b n : lifted (io_read_stream_device b n) (io_read_stream_device b n).
Proof. exact (calls_apart _ (CRead b n)). Qed.

Lemma lifted_sync : lifted io_sync_stream_device io_sync_stream_device.
Proof. exact (calls_apart _ CSync). Qed.

Lemma lifted_txrx_fill start j n : lifted (txrx_fill start j n) (txrx_fill start j n).
Proof.
  apply lifted_bind; [apply lifted_get_buffer|]. intros b. apply lifted_bind; [apply lifted_bytes|]. intros h.
  apply lifted_bind; [apply lifted_struct|]. intros []. do 3 (apply lifted_bind; [apply lifted_fill|]; intros []).
  apply lifted_ret.
Qed.

Lemma lifted_txrx_send b start j n : lifted (txrx_send b start j n) (txrx_send b start j n).
Proof.
  apply lifted_bind; [apply lifted_for; intros i; apply lifted_fill|]. intros []. apply lifted_write.
Qed.

Lemma lifted_rx_mark : lifted rx_mark rx_mark.
Proof.
  apply lifted_bind; [apply lifted_get_buffer|]. intros b.
  do 2 (apply lifted_bind; [apply lifted_fill|]; intros []). apply lifted_ret.
Qed.

Lemma lifted_done {A} (mg : M G A) md d a d' : lifted mg md → md d = Done (a, d') → mg (emb d) = Done (a, emb d').
Proof. intros Hl Hm. by rewrite Hl, Hm. Qed.

Lemma lifted_fault {A} (mg : M G A) md d f : lifted mg md → md d = Fault f → mg (emb d) = Fault f.
Proof. intros Hl Hm. by rewrite Hl, Hm. Qed.

End Lifted.

(** ** Lemmas: which buffers a call changes *)

Section Frames.
Context {E : Type} `{EngineQueue E} `{!DmaEngineLaws E, !TransmitEngine E, !HealthyEngine E} (jiffies : Z).
Abbreviation chan := (dma_proxy_channel E).
Abbreviation dev := (stream_sys E).
Implicit Types (s : dev) (r : ring chan).

#[local] Instance frame_driver : DmaDriver chan := channel_driver jiffies.
#[local] Instance frame_driver_laws : DmaDriverLaws chan := channel_driver_laws jiffies.
#[local] Instance frame_device : StreamDevice dev := local_stream_device jiffies.

Abbreviation next s := (current_buffer_id (ss_ring s)).

(** At most buffer [i] was changed, and the ring stands where it stood. *)
Definition only_buffer (i : nat) s s' : Prop :=
  next s' = next s ∧ ∀ j, j ≠ i → buffer_of s' j = buffer_of s j.

Lemma only_trans i s1 s2 s3 : only_buffer i s1 s2 → only_buffer i s2 s3 → only_buffer i s1 s3.
Proof. intros [N1 B1] [N2 B2]. split; [congruence|]. intros j Hj. by rewrite B2, B1. Qed.

Lemma buffer_of_datas s s' j : datas (ring_chan s') = datas (ring_chan s) → buffer_of s' j = buffer_of s j.
Proof. intros Hd. unfold buffer_of. by rewrite (data_at_datas _ _ j Hd). Qed.

Lemma holds_buffer log i bs s : stream_holds jiffies log i bs s → buffer_of s i = bs.
Proof. intros (_ & _ & d & b & Hs & <-). unfold buffer_of. by rewrite (slot_data _ i d b Hs). Qed.

Lemma on_ring_inv {A} (m : M (ring chan) A) s a s' :
  on_ring m s = Done (a, s') → ∃ r, m (ss_ring s) = Done (a, r) ∧ s' = mk_sys r (ss_held s) (ss_issued s) (ss_sent s).
Proof. unfold on_ring, zoom. destruct (m (ss_ring s)) as [[x r]|]; [|done]. intros [= <- <-]. by exists r. Qed.

Lemma get_frame log s :
  stream_idle jiffies log s → let i := Z.to_nat (next s) in
  ∃ s', io_stream_get_buffer s = Done (Some i, s') ∧ stream_holds jiffies log i (buffer_of s i) s' ∧
    next s' = (next s + 1) mod Z.of_nat BUFFER_COUNT ∧ ∀ j, buffer_of s' j = buffer_of s j.
Proof.
  intros Hidle i. destruct (stream_get jiffies log s Hidle) as (i0 & bs & s' & Hg & Hh & _).
  destruct Hidle as [[Hr Hq _ _] _].
  pose proof Hg as Hinv. apply bind_inv in Hinv as (s0 & s1 & Hs0 & Hinv). injection Hs0 as <- <-.
  apply bind_inv in Hinv as (o & s1 & Hring & Hinv). apply on_ring_inv in Hring as (r & Hring & ->).
  apply bind_inv in Hinv as ([] & s2 & Hm & Ho). unfold modify in Hm. unfold mret, M_ret in Ho.
  injection Ho as -> ->. injection Hm as Hs'.
  destruct (get_progress jiffies _ _ _ Hr Hq Hring) as (_ & _ & Hp & _).
  destruct (get_run (ss_ring s) Hr) as (r2 & st & _ & _ & _ & _ & Hcase). fold i in Hcase.
  destruct (bool_decide _); destruct Hcase as [Hrun Hnext]; pose proof (eq_trans (eq_sym Hring) Hrun) as He; [done|].
  injection He as -> ->.
  assert (∀ j, buffer_of s' j = buffer_of s j) as Hb.
  { intros j. apply buffer_of_datas. rewrite <-Hs'. exact (pr_data _ _ Hp). }
  exists s'. split; [exact Hg|]. split; [|split; [by rewrite <-Hs'|exact Hb]].
  by rewrite <-Hb, (holds_buffer log i bs s' Hh).
Qed.

Lemma fill_frame log i bs off x s s' :
  stream_holds jiffies log i bs s → fill_buffer i off x s = Done (tt, s') → only_buffer i s s'.
Proof.
  intros ([Hok _] & Hi & _) Hf. destruct (so_held _ _ Hok i Hi) as [Hlt _].
  apply on_ring_inv in Hf as (r & Hf & ->). apply on_driver_inv in Hf as (Hf & _ & Hn).
  destruct (store_inv i off x _ _ (wr_ok _ (so_ring _ _ Hok)) Hlt Hf) as (b & d & Hc).
  split; [exact Hn|]. intros j Hj. unfold buffer_of, ring_chan. cbn [ss_ring]. by rewrite Hc, data_put_other.
Qed.

Lemma write_frame log i bs n s s' :
  stream_holds jiffies log i bs s → io_write_stream_device i n s = Done (tt, s') →
  next s' = next s ∧ ∀ j, buffer_of s' j = buffer_of s j.
Proof.
  intros ([Hok _] & Hi & _) Hw. destruct (so_held _ _ Hok i Hi) as [Hlt _].
  pose proof (so_ring _ _ Hok) as Hr.
  apply bind_inv in Hw as (s0 & s1 & Hs0 & Hw). injection Hs0 as <- <-.
  apply bind_inv in Hw as (id & s1 & Hring & Hm). apply on_ring_inv in Hring as (r & Hring & ->).
  unfold modify in Hm. injection Hm as <-.
  destruct (write_ring_run (ss_ring s) i n Hr Hlt) as (r2 & Hrun & _ & Hn & _).
  pose proof (eq_trans (eq_sym Hring) Hrun) as He. injection He as -> <-. split; [exact Hn|].
  intros j. apply buffer_of_datas. unfold ring_chan. cbn [ss_ring]. set (pc := rg_driver (ss_ring s)).
  destruct (slot_exists pc i (wr_ok _ Hr) Hlt) as (d & b & Hs).
  apply bind_inv in Hring as ([] & r1 & H1 & Hring). apply on_driver_inv in H1 as [H1 _]. fold pc in H1.
  change (drv_set_length i n) with (update_buffer (E:=E) (Z.of_nat i) (set_cb_length n)) in H1.
  erewrite update_buffer_run in H1 by exact Hs. injection H1 as H1.
  apply bind_inv in Hring as (x & r3 & H2 & Hring). apply on_driver_inv in H2 as [H2 _].
  unfold mret, M_ret in Hring. injection Hring as <-.
  assert (wf_channel (rg_driver r1)) as Hwf1 by (rewrite <-H1; by apply wf_put_buffer, (wr_ok _ Hr)).
  rewrite (ioctl_keeps_data _ jiffies _ i _ _ Hwf1 Hlt (ioctl_inv _ _ _ _ _ _ Hlt H2)), <-H1.
  by apply (datas_put_buffer pc i d b).
Qed.

Lemma sync_frame log s s' :
  stream_idle jiffies log s → io_sync_stream_device s = Done (tt, s') →
  next s' = next s ∧ ∀ j, buffer_of s' j = buffer_of s j.
Proof.
  intros [[Hr Hq _ _] _] Hs. apply bind_inv in Hs as (s0 & s1 & Hs0 & Hs). injection Hs0 as <- <-.
  apply bind_inv in Hs as ([] & s1 & Hring & Hm). apply on_ring_inv in Hring as (r & Hring & ->).
  unfold modify in Hm. injection Hm as <-.
  destruct (sync_progress jiffies _ _ Hr Hq Hring) as (_ & _ & Hp).
  split; [|intros j; apply buffer_of_datas; exact (pr_data _ _ Hp)].
  assert (wp io_finish_stream_local (λ _ r', wf_ring r' ∧ current_buffer_id r' = next s) (ss_ring s)) as Hwp.
  { unfold io_finish_stream_local. wp_step. rewrite (wr_count _ Hr), Nat2Z.id.
    apply (wp_for (λ _ r', wf_ring r' ∧ current_buffer_id r' = next s)); [|done]. intros k r1 Hk (Hr1 & Hn).
    destruct (law_status (rg_driver r1) k (wr_ok r1 Hr1) Hk) as [st Hst].
    destruct (finish_run r1 k st Hr1 Hk Hst) as (r2 & st2 & Hrun & Hr2 & Hn2 & _).
    apply wp_bind. eapply wp_done; [by apply status_of_run|]. eapply wp_done; [exact Hrun|].
    split; [done|]. by rewrite Hn2. }
  apply wp_run in Hwp as ([] & r2 & Hrun & _ & Hn). pose proof (eq_trans (eq_sym Hring) Hrun) as He.
  injection He as <-. exact Hn.
Qed.

End Frames.

(** ** Lemmas: one packet *)

Lemma overwrite_start a l : overwrite 0 a l = a ++ drop (length a) l.
Proof. done. Qed.

Lemma header_length_packet dts tts ws bs :
  Z.of_nat (length ws) < 2 ^ 32 →
  header_length (overwrite 0 (packet_bytes dts tts ws) bs) = Z.of_nat (length ws).
Proof.
  intros Hn. rewrite overwrite_start. unfold header_length, packet_bytes. rewrite <-!app_assoc.
  rewrite take_app_length' by (by rewrite length_header).
  unfold header_bytes. rewrite app_assoc, drop_app_length' by (by rewrite length_app, !length_le_bytes).
  apply le_val_bytes. simpl. lia.
Qed.

Section Packets.
Context {E : Type} `{EngineQueue E} `{!DmaEngineLaws E, !TransmitEngine E, !HealthyEngine E} (jiffies : Z).
Abbreviation dev := (stream_sys E).
Implicit Types (s : dev).

#[local] Instance packet_device : StreamDevice dev := local_stream_device jiffies.
Abbreviation next s := (current_buffer_id (ss_ring s)).

Lemma holds_bytes log i bs n s :
  stream_holds jiffies log i bs s → Z.of_nat n ≤ BUFFER_SIZE → buffer_bytes i n s = Done (take n bs, s).
Proof.
  intros (_ & _ & d & b & Hs & <-) Hn. rewrite take_buffer_data by lia.
  destruct s as [[pc c k] h iss snt].
  apply (on_ring_run _ (mk_sys (mk_ring pc c k) h iss snt)), (on_driver_run (load_buffer i n) (mk_ring pc c k)).
  unfold load_buffer. eapply bind_done; [by eapply read_buffer_run|]. by rewrite (proj2 (Z.leb_le _ _)).
Qed.

Lemma put_frame log i bs done v s :
  stream_holds jiffies log i (overwrite 0 done bs) s → (length done + 4 ≤ length bs)%nat →
  ∃ s', put_word i (Z.of_nat (length done)) v s = Done (tt, s') ∧
    stream_holds jiffies log i (overwrite 0 (done ++ le_bytes 4 v) bs) s' ∧ only_buffer i s s'.
Proof.
  intros Hh Hl. destruct (@put_next _ _ (local_sink jiffies) log i bs done v s Hh Hl) as (s' & Hp & Hh').
  exists s'. split; [exact Hp|]. split; [exact Hh'|]. exact (fill_frame jiffies log i _ _ _ s s' Hh Hp).
Qed.

(** A store into the struct changes the data of its buffer only. *)
Lemma struct_frame log i bs x s :
  stream_holds jiffies log i bs s → is_block bs → Forall is_byte x → Z.of_nat (length x) ≤ sizeof_channel_buffer →
  ∃ s' cleared, fill_struct i 0 x s = Done (tt, s') ∧ is_block cleared ∧
    stream_holds jiffies log i cleared s' ∧ only_buffer i s s'.
Proof.
  intros Hh Hblk Hx Hle. unfold is_block in Hblk.
  destruct (stream_struct jiffies log i bs 0 x s Hh Hblk Hx) as (s' & Hr & Hh' & b' & Hc & Hn); [lia|exact Hle|].
  rewrite Nat.sub_0_r in Hh'. set (y := take (length bs) x) in *.
  exists s', (overwrite 0 y bs). split; [exact Hr|]. split.
  { unfold is_block. rewrite length_overwrite; [exact Hblk|]. unfold y. rewrite length_take. lia. }
  split; [exact Hh'|]. split; [exact Hn|]. intros j Hj. unfold buffer_of. by rewrite Hc, data_put_other.
Qed.

(** The memset. *)
Lemma txrx_fill_clears log s start j n :
  stream_idle jiffies log s → let i := Z.to_nat (next s) in let bs := buffer_of s i in
  length_fits bs = true →
  ∃ s' cleared, txrx_fill start j n s = Done (i, s') ∧ is_block cleared ∧
    stream_holds jiffies log i (overwrite 0 (header_bytes start j (Z.of_nat n)) cleared) s' ∧
    next s' = (next s + 1) mod Z.of_nat BUFFER_COUNT ∧ ∀ k, k ≠ i → buffer_of s' k = buffer_of s k.
Proof.
  intros Hidle i bs Hfit%Z.leb_le. destruct (get_frame jiffies log s Hidle) as (s1 & Hg & Hh1 & Hn1 & Hb1). fold i bs in Hg, Hh1.
  assert (is_block bs) as Hblk by (unfold is_block, bs, buffer_of; apply length_buffer_data).
  set (ones := replicate (Z.to_nat (BUFFER_IN_BYTES (header_length bs))) 255).
  assert (get_buffer s = Done (i, s1)) as Hget by (eapply bind_done; [exact Hg|reflexivity]).
  assert (buffer_bytes i 12 s1 = Done (take 12 bs, s1)) as Hhead
    by (apply (holds_bytes log); [done|unfold BUFFER_SIZE; lia]).
  destruct (struct_frame log i bs ones s1 Hh1 Hblk) as (s2 & cleared & Hf2 & Hc & Hh2 & Ho2);
    [apply Forall_replicate; unfold is_byte; lia|unfold ones; rewrite length_replicate; change sizeof_channel_buffer with 132096 in *; lia|].
  pose proof Hc as Hcl. unfold is_block, BUFFER_SIZE in Hcl. rewrite <-(overwrite_nil 0 cleared) in Hh2.
  destruct (put_frame log i cleared [] start s2 Hh2) as (s3 & H3 & Hh3 & Ho3); [simpl; lia|].
  destruct (put_frame log i cleared (le_bytes 4 start) j s3 Hh3) as (s4 & H4 & Hh4 & Ho4); [rewrite length_le_bytes; lia|].
  destruct (put_frame log i cleared (le_bytes 4 start ++ le_bytes 4 j) (Z.of_nat n) s4 Hh4) as (s5 & H5 & Hh5 & Ho5).
  { rewrite length_app, !length_le_bytes. lia. }
  rewrite length_le_bytes in H4. rewrite length_app, !length_le_bytes in H5. rewrite <-app_assoc in Hh5.
  fold (header_bytes start j (Z.of_nat n)) in Hh5.
  pose proof (only_trans i _ _ _ (only_trans i _ _ _ (only_trans i _ _ _ Ho2 Ho3) Ho4) Ho5) as [Hn Hb].
  exists s5, cleared. split; [|split; [exact Hc|split; [exact Hh5|split; [by rewrite Hn|]]]].
  - unfold txrx_fill. eapply bind_done; [exact Hget|]. eapply bind_done; [exact Hhead|].
    eapply bind_done; [exact Hf2|]. eapply bind_done; [exact H3|]. eapply bind_done; [exact H4|].
    eapply bind_done; [exact H5|reflexivity].
  - intros k Hk. by rewrite Hb, Hb1.
Qed.

(** The words and the transfer. *)
Lemma txrx_send_run log s i start j n bs :
  stream_holds jiffies log i (overwrite 0 (header_bytes start (Z.of_nat j) (Z.of_nat n)) bs) s → is_block bs →
  BUFFER_IN_BYTES (Z.of_nat n) ≤ BUFFER_SIZE →
  ∃ s', txrx_send i start (Z.of_nat j) n s = Done (tt, s') ∧
    stream_idle jiffies (log ++ [txrx_packet start n j]) s' ∧ only_buffer i s s' ∧
    header_length (buffer_of s' i) = Z.of_nat n.
Proof.
  intros Hh Hblk Hn. unfold is_block in Hblk. unfold BUFFER_IN_BYTES, sizeof_header in *.
  set (word k := u32 (start + Z.of_nat k + Z.of_nat j * Z.of_nat n)).
  set (hdr := header_bytes start (Z.of_nat j) (Z.of_nat n)) in *.
  set (p := txrx_packet start n j).
  assert (p = hdr ++ word_bytes (word <$> seq 0 n)) as Hp.
  { unfold p, txrx_packet, packet_bytes. by rewrite length_fmap, length_seq. }
  assert (length p = 12 + 4 * n)%nat as Hlp.
  { rewrite Hp, length_app, length_word_bytes, length_fmap, length_seq. unfold hdr. by rewrite length_header. }
  assert (wp (for_ n (λ k, put_word i (12 + 4 * Z.of_nat k) (word k)))
    (λ _ s', stream_holds jiffies log i (overwrite 0 p bs) s' ∧ only_buffer i s s') s) as Hwp.
  { rewrite Hp. apply (wp_for (λ k s', stream_holds jiffies log i
      (overwrite 0 (hdr ++ word_bytes (word <$> seq 0 k)) bs) s' ∧ only_buffer i s s')).
    - intros k s1 Hk [Hs1 Ho1].
      assert (length (hdr ++ word_bytes (word <$> seq 0 k)) = 12 + 4 * k)%nat as Hlk.
      { rewrite length_app, length_word_bytes, length_fmap, length_seq. unfold hdr. by rewrite length_header. }
      destruct (put_frame log i bs _ (word k) s1 Hs1) as (s2 & Hr & Hs2 & Ho2); [lia|].
      rewrite Hlk in Hr. replace (Z.of_nat (12 + 4 * k)) with (12 + 4 * Z.of_nat k) in Hr by lia.
      eapply wp_done; [exact Hr|]. rewrite fmap_seq_snoc, word_bytes_snoc, app_assoc.
      split; [exact Hs2|exact (only_trans i _ _ _ Ho1 Ho2)].
    - change (word_bytes (word <$> seq 0 0)) with (@nil Z). rewrite app_nil_r.
      split; [exact Hh|]. split; [reflexivity|]. intros k _. reflexivity. }
  apply wp_run in Hwp as ([] & s1 & Hfor & Hs1 & Ho1).
  destruct (stream_write jiffies log i (overwrite 0 p bs) (Z.of_nat n * 4 + 12) s1 Hs1) as (s2 & Hw & Hi2);
    [unfold is_block; rewrite length_overwrite; [exact Hblk|lia]|lia|].
  destruct (write_frame jiffies log i _ _ s1 s2 Hs1 Hw) as [Hn2 Hb2].
  exists s2. split; [|split; [|split]].
  - unfold txrx_send. eapply bind_done; [exact Hfor|].
    unfold BUFFER_IN_BYTES, sizeof_header. rewrite (uwrap_small 32); [exact Hw|]. unfold BUFFER_SIZE in Hn. lia.
  - replace (Z.to_nat (Z.of_nat n * 4 + 12)) with (length p) in Hi2 by lia. by rewrite take_overwrite in Hi2.
  - destruct Ho1 as [Hn1 Hb1]. split; [congruence|]. intros k Hk. by rewrite Hb2, Hb1.
  - rewrite Hb2, (holds_buffer jiffies log i _ s1 Hs1). unfold p, txrx_packet. rewrite header_length_packet.
    + by rewrite length_fmap, length_seq.
    + rewrite length_fmap, length_seq. unfold BUFFER_SIZE in Hn. lia.
Qed.

(** The stream after [n] packets: the ring has moved on [n] places, the buffers
    behind it hold the program's packets, and those before it what they held. *)
Record after_packets (stale : nat → list Z) (packet_size : nat) (log : list (list Z)) (n : nat) s : Prop := {
  ap_idle : stream_idle jiffies log s;
  ap_next : next s = Z.of_nat (n mod BUFFER_COUNT);
  ap_stale : ∀ i, (n ≤ i < BUFFER_COUNT)%nat → buffer_of s i = stale i;
  ap_sent : ∀ i, (i < BUFFER_COUNT)%nat → (i < n)%nat → header_length (buffer_of s i) = Z.of_nat packet_size
}.

(** The sender's part of a round. *)
Lemma sender_round stale packet_size log n s start :
  after_packets stale packet_size log n s → BUFFER_IN_BYTES (Z.of_nat packet_size) ≤ BUFFER_SIZE →
  ((n < BUFFER_COUNT)%nat → length_fits (stale n) = true) →
  ∃ b s1 s2 s3, txrx_fill start (Z.of_nat n) packet_size s = Done (b, s1) ∧
    txrx_send b start (Z.of_nat n) packet_size s1 = Done (tt, s2) ∧ io_sync_stream_device s2 = Done (tt, s3) ∧
    after_packets stale packet_size (log ++ [txrx_packet start packet_size n]) (S n) s3 ∧
    ss_sent s3 = log ++ [txrx_packet start packet_size n].
Proof.
  intros [Hidle Hnext Hold Hnew] Hps Hstale.
  pose proof (txrx_fill_clears log s start (Z.of_nat n) packet_size Hidle) as Hfill. cbv zeta in Hfill.
  rewrite Hnext, Nat2Z.id in Hfill. set (b := (n mod BUFFER_COUNT)%nat) in *.
  assert (b < BUFFER_COUNT)%nat as Hb by (apply Nat.mod_upper_bound; unfold BUFFER_COUNT; lia).
  assert (length_fits (buffer_of s b) = true) as Hfits.
  { destruct (Nat.leb_spec BUFFER_COUNT n) as [Hle|Hlt].
    - unfold length_fits. rewrite Hnew by lia. apply Z.leb_le. change sizeof_channel_buffer with 132096. unfold BUFFER_SIZE in Hps. lia.
    - assert (b = n) as -> by (apply Nat.mod_small; lia). rewrite Hold by lia. by apply Hstale. }
  destruct (Hfill Hfits) as (s1 & cl & Hf & Hcl & Hh & Hn1 & Hb1).
  destruct (txrx_send_run log s1 b start n packet_size cl Hh Hcl Hps) as (s2 & Hs2 & Hi2 & [Hn2 Hb2] & Hlen2).
  destruct (stream_sync jiffies _ s2 Hi2) as (s3 & Hs3 & Hi3 & Hsent).
  destruct (sync_frame jiffies _ s2 s3 Hi2 Hs3) as [Hn3 Hb3].
  exists b, s1, s2, s3. do 3 (split; [assumption|]). split; [|exact Hsent]. split; [exact Hi3| | |].
  - rewrite Hn3, Hn2, Hn1. unfold b. rewrite !Nat2Z.inj_mod, Nat2Z.inj_succ. by apply Z.add_mod_idemp_l.
  - intros i Hi. rewrite Hb3, Hb2, Hb1 by (unfold b; rewrite Nat.mod_small; lia). apply Hold. lia.
  - intros i Hi Hin. rewrite Hb3. destruct (decide (i = b)) as [->|Hne]; [exact Hlen2|]. rewrite Hb2, Hb1 by done.
    apply Hnew; [done|]. destruct (decide (n < BUFFER_COUNT)%nat) as [Hlt|Hge]; [|lia].
    unfold b in Hne. rewrite Nat.mod_small in Hne by done. lia.
Qed.

End Packets.

(** ** Lemmas: the loop in the program's world *)

Section Whole.
Context {E R : Type} `{EngineQueue E} `{!DmaEngineLaws E} `{DmaEngine R} `{!DmaEngineLaws R} (jiffies : Z).
Context `{!TransmitEngine E, !HealthyEngine E} `{!EngineQueue R, !ReceiveEngine R}.
Abbreviation wd := (world machine_device (@machine E R)).
Implicit Types (w : wd).

#[local] Instance txrx_machine : Backend machine_device (@machine E R) := machine_backend jiffies.

Section Loop.
Context (tx : list Z) (setup : list (Z * Z)) (w0 : wd) (p1 p2 p3 : Z) (regs : mapped_dev) (dtx drx : stream_dev)
  (t0 : stream_sys E) (r0 : ring (dma_proxy_channel R)) (w : wd).
Hypothesis started : at_threads tx setup w0 p1 p2 p3 regs dtx drx t0 r0 w.

#[local] Instance the_tx : StreamDevice (stream_sys E) := local_stream_device jiffies.
#[local] Instance the_rx : StreamDevice (ring (dma_proxy_channel R)) := ring_device jiffies.

(** What a call on one of the program's streams does to the channels. *)
Lemma on_sender {A} (mg : M wd A) (md : M (stream_sys E) A) t r a t' :
  @lifted _ _ (λ t, threads_world tx w t r) A mg md → md t = Done (a, t') →
  mg (threads_world tx w t r) = Done (a, threads_world tx w t' r).
Proof. intros Hl Hm. exact (lifted_done _ _ _ _ _ _ Hl Hm). Qed.

Lemma on_receiver {A} (mg : M wd A) (md : M (ring (dma_proxy_channel R)) A) t r a r' :
  @lifted _ _ (λ r, threads_world tx w t r) A mg md → md r = Done (a, r') →
  mg (threads_world tx w t r) = Done (a, threads_world tx w t r').
Proof. intros Hl Hm. exact (lifted_done _ _ _ _ _ _ Hl Hm). Qed.

Abbreviation tx_dev := (stream_of (machine_stream jiffies) (Some p2)).
Abbreviation rx_dev := (stream_of (machine_stream jiffies) (Some p3)).

Lemma sender_calls r C (c : call C) t :
  @exec wd tx_dev C c (threads_world tx w t r) =
    match exec c t with Done (o, t') => Done (o, threads_world tx w t' r) | Fault f => Fault f end.
Proof. exact (proj1 (threads_calls jiffies _ _ _ _ _ _ _ _ _ _ _ _ t r c started)). Qed.

Lemma receiver_calls t C (c : call C) r :
  @exec wd rx_dev C c (threads_world tx w t r) =
    match exec c r with Done (o, r') => Done (o, threads_world tx w t r') | Fault f => Fault f end.
Proof. exact (proj2 (threads_calls jiffies _ _ _ _ _ _ _ _ _ _ _ _ t r c started)). Qed.

Lemma round_run stale packet_size log j start t r blk blocks :
  after_packets jiffies stale packet_size log j t → BUFFER_IN_BYTES (Z.of_nat packet_size) ≤ BUFFER_SIZE →
  receive_idle jiffies (blk :: blocks) r → ((j < BUFFER_COUNT)%nat → length_fits (stale j) = true) →
  let round := @txrx_round wd wd wd tx_dev rx_dev (@here _ _) (@here _ _) start packet_size j in
  ∃ t' r', round (threads_world tx w t r) = Done (tt, threads_world tx w t' r') ∧
    after_packets jiffies stale packet_size (log ++ [txrx_packet start packet_size j]) (S j) t' ∧
    ss_sent t' = log ++ [txrx_packet start packet_size j] ∧ receive_idle jiffies blocks r'.
Proof.
  intros Ht Hps Hr Hfit round.
  destruct (sender_round jiffies stale packet_size log j t start Ht Hps Hfit) as (b & t1 & t2 & t3 & T1 & T2 & T3 & Ht3 & Hsent).
  assert (is_block blk) as Hblk by (pose proof (ri_good _ _ _ Hr) as Hg; apply Forall_cons in Hg as [[? _] _]; done).
  destruct (@reader_round _ _ (receive_reader jiffies) blk blocks r Hr Hblk) as (brx & r1 & Hg & Hround).
  destruct (Hround (le_bytes 4 (u32 (-1))) (le_bytes 4 (u32 (-1)))) as (r2 & r3 & r4 & r5 & R1 & R2 & R3 & R4 & _ & Hr5);
    [apply length_le_bytes..|].
  assert (rx_mark r = Done (brx, r3)) as Hmark.
  { eapply bind_done; [eapply bind_done; [exact Hg|reflexivity]|].
    eapply bind_done; [exact R1|]. eapply bind_done; [exact R2|reflexivity]. }
  exists t3, r5. split; [|by repeat (split; [assumption|])].
  unfold round, txrx_round, here.
  eapply bind_done; [eapply on_sender; [apply (lifted_txrx_fill _ (sender_calls r))|exact T1]|].
  eapply bind_done; [eapply on_receiver; [apply (lifted_rx_mark _ (receiver_calls t1))|exact Hmark]|].
  eapply bind_done; [eapply on_sender; [apply (lifted_txrx_send _ (sender_calls r3))|exact T2]|].
  eapply bind_done; [eapply on_receiver; [apply (lifted_read _ (receiver_calls t2))|exact R3]|].
  eapply bind_done; [eapply on_sender; [apply (lifted_sync _ (sender_calls r4))|exact T3]|].
  eapply on_receiver; [apply (lifted_sync _ (receiver_calls t3))|exact R4].
Qed.

(** All rounds. *)
Lemma rounds_run stale packet_size n start t r :
  after_packets jiffies stale packet_size [] 0 t → ss_sent t = [] → BUFFER_IN_BYTES (Z.of_nat packet_size) ≤ BUFFER_SIZE →
  (n ≤ length (incoming (channel_p (rg_driver r))))%nat → receive_idle jiffies (incoming (channel_p (rg_driver r))) r →
  (∀ j, (j < BUFFER_COUNT)%nat → length_fits (stale j) = true) →
  let rounds := for_ n (@txrx_round wd wd wd tx_dev rx_dev (@here _ _) (@here _ _) start packet_size) in
  ∃ t' r', rounds (threads_world tx w t r) = Done (tt, threads_world tx w t' r') ∧
    ss_sent t' = txrx_packet start packet_size <$> seq 0 n.
Proof.
  set (inc := incoming _). intros Ht Hsent Hps Hinc Hr Hfit rounds.
  set (I := λ j (w' : wd), ∃ t' r', w' = threads_world tx w t' r' ∧
    after_packets jiffies stale packet_size (txrx_packet start packet_size <$> seq 0 j) j t' ∧
    ss_sent t' = txrx_packet start packet_size <$> seq 0 j ∧ receive_idle jiffies (drop j inc) r').
  assert (wp rounds (λ _, I n) (threads_world tx w t r)) as Hwp.
  { apply wp_for; [|exists t, r; split; [done|]; split; [exact Ht|]; split; [exact Hsent|exact Hr]].
    intros j w' Hj (t' & r' & -> & Ht' & Hs' & Hr'). destruct (drop j inc) as [|blk blocks] eqn:Ed.
    { apply (f_equal length) in Ed. rewrite length_drop in Ed. simpl in Ed. lia. }
    destruct (round_run _ _ _ _ start _ _ _ _ Ht' Hps Hr' (Hfit j)) as (t2 & r2 & Hrun & Ht2 & Hs2 & Hr2).
    eapply wp_done; [exact Hrun|].
    assert (drop (S j) inc = blocks) as Ed2 by (by rewrite <-Nat.add_1_r, <-drop_drop, Ed).
    exists t2, r2. rewrite seq_S, fmap_app, Ed2. cbn [plus fmap list_fmap]. by repeat (split; [assumption || reflexivity|]). }
  apply wp_run in Hwp as ([] & w' & Hrun & t' & r' & -> & _ & Hs' & _). by exists t', r'.
Qed.

End Loop.

(** ** Properties *)

(** C7: [main_txrx_test] from nothing to the end, on a machine whose hardware finishes
    every transfer and delivers at least as many blocks as the program reads.  If
    the length in the header of each of the 32 buffers of the sending channel,
    whoever left it there, is at most 33021 (clearing that many words stays in the
    struct of the buffer, though it may run over the status and the length behind
    the data), the program returns 0: the hardware has sent its 1000 packets in
    order and complete, the registers were set up and the design is held in reset
    at the end, and every descriptor and every block of memory is given back.  All
    but the first 33 pages of each of the two rings stay mapped. *)
Theorem main_txrx_test_outcome w0 s r time inc :
  ready w0 3 → mc_tx (backend w0) !! dev_streamio_tx_1 = Some s → wf_channel (ring_chan s) →
  mc_tx (backend w0) !! dev_streamio_rx_0 = None →
  mc_rx (backend w0) !! dev_streamio_rx_0 = Some r → wf_channel (rg_driver r) →
  incoming (device_terminate_all (channel_p (rg_driver r))) = inc → good_blocks inc → (1000 ≤ length inc)%nat →
  (∀ i, (i < BUFFER_COUNT)%nat → header_length (buffer_of s i) ≤ 33021) →
  let os := mc_os (backend w0) in
  ∃ w1 t1, main_txrx_test (machine_stream jiffies) time w0 = Done (0, w1) ∧
    mc_tx (backend w1) = <[dev_streamio_tx_1 := t1]> (mc_tx (backend w0)) ∧
    ss_sent t1 = txrx_packet (u16 time) (1024 * 16) <$> seq 0 1000 ∧
    lo_mem (mc_os (backend w1)) =
      stored (lo_next os) [(5, 3); (6, 1024 * 16); (7, 16); (5, 0); (5, 3)] (lo_mem os) ∧
    lo_fds (mc_os (backend w1)) = lo_fds os ∧ lo_blocks (mc_os (backend w1)) = lo_blocks os ∧
    lo_maps (mc_os (backend w1)) = ring_left (second_ring os) (ring_left (first_ring os) (delete (lo_next os) (lo_maps os))) ∧
    contexts w1 = contexts w0 ∧ arrays w1 = arrays w0 ∧ devices w1 = devices w0.
Proof.
  intros Hready Hs Hch Hno Hr Hrch Hinc Hgood Hlen Hfit os.
  set (setup := [(5, 3); (6, 1024 * 16); (7, 16); (5, 0)]).
  destruct (devices_ready jiffies dev_streamio_tx_1 setup w0 s r inc ltac:(repeat constructor; simpl; lia) Hready Hs Hch Hno Hr Hrch Hinc Hgood)
    as (p1 & p2 & p3 & regs & dtx & drx & t0 & r0 & w3 & w4 & Hat & Hinit & [Hdata Hcur] & Hrx & Hopen & Hregs).
  pose proof (opened_idle jiffies inc r0 Hrx) as Hidle. pose proof (ri_stream _ _ _ Hidle) as Hstream.
  assert (∀ i, buffer_of t0 i = buffer_of s i) as Hbuf.
  { intros i. unfold buffer_of. by rewrite (data_at_datas _ _ i Hdata). }
  assert (after_packets jiffies (buffer_of s) (1024 * 16) [] 0 t0 ∧ ss_sent t0 = []) as [Ht0 Hsent0].
  { pose proof (sys_init_ok jiffies t0 Hinit) as Hok. destruct Hinit as (? & ? & ? & ? & ? & ? & ? & ? & ? & Hi & Hsn).
    split; [|exact Hsn]. split; [split; [exact Hok|exact Hi]|exact Hcur|intros i _; apply Hbuf|intros i _ Hlt; lia]. }
  pose proof (rounds_run dev_streamio_tx_1 setup w0 p1 p2 p3 regs dtx drx t0 r0 w4 Hat (buffer_of s) (1024 * 16) 1000 (u16 time) t0 r0 Ht0 Hsent0)
    as Hrun. rewrite Hstream, (threads_start _ _ _ _ _ _ _ _ _ _ _ _ Hat) in Hrun.
  destruct (Hrun ltac:(vm_compute; congruence) Hlen Hidle) as (t1 & r1 & Hrounds & Hsent).
  { intros i Hi. apply Z.leb_le. specialize (Hfit i Hi). unfold BUFFER_IN_BYTES, sizeof_header.
    change sizeof_channel_buffer with 132096. lia. }
  destruct (devices_finish jiffies _ _ _ _ _ _ _ _ _ _ _ _ t1 r1 Hat) as (w7 & w8 & Hhold & Hcl & Htx & Hmem & Hrest).
  exists w8, t1. split; [|split; [exact Htx|split; [exact Hsent|split; [exact Hmem|exact Hrest]]]].
  unfold main_txrx_test. eapply bind_done; [apply create_run|]. eapply bind_done; [exact Hopen|]. cbv beta iota.
  eapply bind_done; [|eapply bind_done; [exact Hcl|reflexivity]].
  unfold txrx_test_body. eapply bind_done; [exact Hregs|]. eapply bind_done; [exact Hrounds|exact Hhold].
Qed.

End Whole.

(** ** Concrete runs *)

(** A machine whose third transmit buffer was left with a length in its header, and
    whose receive channel will get a thousand blocks. *)
Definition stale_stream (len : Z) : stream_sys (queue_engine Finishes) :=
  mk_sys (mk_ring (put_buffer 2 (mk_buffer {[2 := len]} PROXY_NO_ERROR 0)
    (fresh_channel (mk_queue_engine [] None 10) 4096)) 32 0) ∅ [] [].

Definition stale_machine (len : Z) (inc : list (list Z)) : world machine_device (@machine (queue_engine Finishes) block_engine) :=
  let w := demo_machine Finishes dev_streamio_tx_1 inc in
  set_backend (put (tx_channel dev_streamio_tx_1) (stale_stream len) (backend w)) w.

Lemma header_length_load g : header_length (buffer_data g) = le_val (drop 8 (load 12 g)).
Proof. unfold header_length. rewrite take_buffer_data; [done|]. unfold BUFFER_SIZE. lia. Qed.

(** The longest length whose clearing stays in the struct: it runs over the status
    and the length of the third buffer. *)
Lemma stale_lengths i : (i < BUFFER_COUNT)%nat → header_length (buffer_of (stale_stream 33021) i) ≤ 33021.
Proof.
  intros Hi. unfold buffer_of. rewrite header_length_load.
  assert (forallb (λ i, le_val (drop 8 (load 12 (default ∅ (data_at (ring_chan (stale_stream 33021)) i)))) <=? 33021)
    (seq 0 BUFFER_COUNT) = true) as Hall by (vm_compute; reflexivity).
  apply Z.leb_le. apply (proj1 (forallb_forall _ _) Hall), in_seq. lia.
Qed.

Lemma main_txrx_test_outcome_witness :
  let B := machine_backend (E:=queue_engine Finishes) (R:=block_engine) 300 in
  let inc := replicate 1000 (replicate (Z.to_nat BUFFER_SIZE) 7) in
  header_length (buffer_of (stale_stream 33021) 2) = 33021 ∧
  ∃ w1 (t1 : stream_sys (queue_engine Finishes)),
    main_txrx_test (machine_stream 300) 70000 (stale_machine 33021 inc) = Done (0, w1) ∧
    ss_sent t1 = txrx_packet 4464 (1024 * 16) <$> seq 0 1000 ∧
    lo_mem (mc_os (backend w1)) !! (65536 + 4 * 6) = Some (1024 * 16).
Proof.
  intros B inc.
  assert (good_blocks inc) as Hgood.
  { apply Forall_replicate. split; [apply replicate_block|]. apply Forall_replicate. unfold is_byte. lia. }
  assert (ready (stale_machine 33021 inc) 3) as Hready.
  { destruct (demo_machine_ready Finishes dev_streamio_tx_1 inc 3 ltac:(lia)) as [[] Hr].
    split; [split; assumption|exact Hr]. }
  split; [unfold buffer_of; rewrite header_length_load; vm_compute; reflexivity|].
  destruct (main_txrx_test_outcome 300 (stale_machine 33021 inc) (stale_stream 33021)
    (mk_ring (fresh_channel (mk_block_engine [] None 10 inc) 4096) 32 0) 70000 inc
    Hready ltac:(apply lookup_insert_eq) ltac:(apply wf_put_buffer, wf_fresh_channel)
    ltac:(reflexivity) ltac:(apply lookup_singleton_eq) ltac:(apply wf_fresh_channel) eq_refl Hgood
    ltac:(unfold inc; rewrite length_replicate; lia) stale_lengths) as (w1 & t1 & Hr & _ & Hs & Hm & _).
  exists w1, t1. split; [exact Hr|]. split; [exact Hs|]. rewrite Hm. reflexivity.
Defined.
