(* ===== verification/FileTest.v ===== *)
(** * FileTest: a file through the hardware

    [main_tx_file] of [src/userspace/test_app/src/tc_test.c] on the machine of
    [Machine]: the numbers of a file are sent, what comes back is printed.  The
    theorem says what one run does for a file of 1 to 32765 lines, whose words fit
    behind a header in the data of one buffer: they are stored behind a header
    nobody writes, and the transfer is as long as the words alone. *)
From Stdlib Require Import ZArith Lia.
From stdpp Require Import base list numbers option gmap sets.
From S2P Require Import Prelude Socket NetClient DmaChannel BufferData Devices LocalBackend ZeroCopy LocalStream Context BackendContext TestApp Threads LocalReceive Machine AppMain TxRxTest.

(** What the engine sends of a file: as many bytes as its words have, of the
    buffer's old header and the words. *)
Definition file_block (header : list Z) (input : list Z) : list Z :=
  take (4 * length input) (header ++ word_bytes input).

(** What the program returns and prints when its devices worked. *)
Definition file_result (a : arguments) (output_f : bool) (output : list Z) : Z * option (list Z) :=
  match output_file_path a with
  | None => (0, None)
  | Some _ => if output_f then (0, Some (s32 <$> output)) else (-1, None)
  end.

Lemma nonempty_head (input : list Z) : input ≠ [] → ∃ x, head input = Some x.
Proof. destruct input as [|x l]; [done|]. intros _. by exists x. Qed.

(** ** Lemmas: one chunk *)

Lemma file_packet_bytes : Z.of_nat file_packet_size * 4 = BUFFER_SIZE.
Proof. unfold file_packet_size, BUFFER_SIZE. lia. Qed.

Section LiftedChunks.
Context {D G : Type} `{StreamDevice D} `{StreamDevice G} (emb : D → G).
Hypothesis calls_apart : ∀ C (c : call C) d,
  @exec G _ C c (emb d) = match exec c d with Done (o, d') => Done (o, emb d') | Fault f => Fault f end.

Lemma lifted_tx_chunk chunk : lifted emb (tx_chunk chunk) (tx_chunk chunk).
Proof.
  apply lifted_bind; [by apply lifted_get_buffer|]. intros b.
  apply lifted_bind; [by apply lifted_struct|]. intros []. by apply lifted_write.
Qed.

Lemma lifted_rx_chunk n : lifted emb (rx_chunk n) (rx_chunk n).
Proof.
  apply lifted_bind; [by apply lifted_get_buffer|]. intros b.
  apply lifted_bind; [by apply lifted_read|]. intros []. apply lifted_bind; [by apply lifted_sync|]. intros [].
  apply lifted_bind; [by apply lifted_bytes|]. intros bs. apply lifted_ret.
Qed.

End LiftedChunks.

Section SendChunk.
Context {E : Type} `{EngineQueue E} `{!DmaEngineLaws E, !TransmitEngine E, !HealthyEngine E} (jiffies : Z).
Implicit Types (s : stream_sys E).

#[local] Instance send_device : StreamDevice (stream_sys E) := local_stream_device jiffies.

Lemma tx_chunk_run log chunk s :
  stream_idle jiffies log s → BUFFER_IN_BYTES (Z.of_nat (length chunk)) ≤ BUFFER_SIZE →
  let old := buffer_of s (Z.to_nat (current_buffer_id (ss_ring s))) in
  ∃ s', tx_chunk chunk s = Done (tt, s') ∧ stream_idle jiffies (log ++ [file_block (take 12 old) chunk]) s'.
Proof.
  intros Hidle Hfit old. unfold BUFFER_IN_BYTES, sizeof_header in Hfit.
  destruct (get_frame jiffies log s Hidle) as (s1 & Hg & Hh & _). fold old in Hh.
  set (i := Z.to_nat _) in *. assert (is_block old) as Hb by (unfold is_block, old, buffer_of; apply length_buffer_data).
  assert (get_buffer s = Done (i, s1)) as Hget by (eapply bind_done; [exact Hg|reflexivity]).
  pose proof Hb as Hblk. unfold is_block in Hblk. assert (sizeof_channel_buffer = 132096) as Hsz by reflexivity.
  unfold BUFFER_SIZE in Hblk, Hfit.
  destruct (stream_struct jiffies log i old 12 (word_bytes chunk) s1 Hh Hb) as (s2 & Hf & Hh2 & _);
    [apply word_bytes_bytes|lia|rewrite length_word_bytes; lia|].
  rewrite take_ge in Hh2 by (rewrite length_word_bytes; lia).
  destruct (stream_write jiffies log i (overwrite 12 (word_bytes chunk) old) (Z.of_nat (length chunk) * 4) s2 Hh2)
    as (s3 & Hw & Hi3);
    [unfold is_block, BUFFER_SIZE; rewrite length_overwrite; [exact Hblk|rewrite length_word_bytes; lia]|unfold BUFFER_SIZE; lia|].
  exists s3. split; [unfold tx_chunk; eapply bind_done; [exact Hget|]; eapply bind_done; [exact Hf|exact Hw]|].
  assert (take (Z.to_nat (Z.of_nat (length chunk) * 4)) (overwrite 12 (word_bytes chunk) old) =
          file_block (take 12 old) chunk) as <-; [|exact Hi3].
  unfold file_block, overwrite. replace (Z.to_nat _) with (4 * length chunk)%nat by lia.
  rewrite app_assoc. apply take_app_le. rewrite length_app, length_word_bytes. lia.
Qed.

End SendChunk.

Section ReceiveChunk.
Context {E : Type} `{ReceiveEngine E} `{!DmaEngineLaws E} (jiffies : Z).
Implicit Types (r : ring (dma_proxy_channel E)).

#[local] Instance chunk_driver : DmaDriver (dma_proxy_channel E) := channel_driver jiffies.
#[local] Instance chunk_driver_laws : DmaDriverLaws (dma_proxy_channel E) := channel_driver_laws jiffies.
#[local] Instance receive_device : StreamDevice (ring (dma_proxy_channel E)) := ring_device jiffies.

Lemma rx_chunk_run n blk blocks r :
  receive_idle jiffies (blk :: blocks) r → BUFFER_IN_BYTES (Z.of_nat n) ≤ BUFFER_SIZE →
  ∃ r', rx_chunk n r = Done (words_of n (take (12 + 4 * n) blk), r') ∧ receive_idle jiffies blocks r'.
Proof.
  intros Hidle Hn. unfold BUFFER_IN_BYTES, sizeof_header in Hn. pose proof (at_ring_lt r 0) as Hb. set (b := at_ring r 0) in *.
  assert (io_stream_get_buffer r = Done (Some b, advance r)) as Hg
    by (apply (get_advance jiffies); [apply Hidle|by apply Hidle]).
  apply idle_advance in Hidle.
  destruct (read_idle jiffies b _ _ Hidle Hb) as (r1 & Hr1 & Hp1 & _).
  destruct (sync_pending jiffies b blk blocks r1 Hp1) as (r2 & g & Hr2 & Hi2 & _ & Hd & Hdata).
  destruct (data_insert _ _ b g (wr_ok r1 (rp_ring _ _ _ _ Hp1)) Hb Hd) as [Hg2 _].
  exists r2. split; [|exact Hi2]. unfold rx_chunk. rewrite file_packet_bytes. eapply bind_done; [eapply bind_done; [exact Hg|reflexivity]|].
  eapply bind_done; [exact Hr1|]. eapply bind_done; [exact Hr2|].
  eapply bind_done; [apply (bytes_run jiffies b g); [apply Hi2|exact Hb|exact Hg2|lia]|]. by rewrite Hdata.
Qed.

End ReceiveChunk.

Lemma words_of_take n bs : words_of n (take (12 + 4 * n) bs) = words_of n bs.
Proof.
  unfold words_of, words_at. apply list_fmap_ext. intros k x Hx. apply lookup_seq in Hx as [-> Hk].
  cbn [plus]. f_equal. rewrite !take_drop_commute, take_take, Nat.min_l by lia. done.
Qed.

(** On hardware that gives back what it was sent, all words return but the last
    three. *)
Lemma file_loopback header input tail :
  length header = 12%nat → Forall (λ v, 0 ≤ v < 2 ^ 32) input →
  take (length input - 3) (words_of (length input) (file_block header input ++ tail)) = take (length input - 3) input.
Proof.
  intros Hh Hin. set (k := (length input - 3)%nat).
  assert (take k (words_of (length input) (file_block header input ++ tail)) =
          words_of k (file_block header input ++ tail)) as ->.
  { unfold words_of, words_at. rewrite <-fmap_take, take_seq. by replace (k `min` length input)%nat with k by lia. }
  destruct (decide (3 ≤ length input)%nat) as [Hle|Hlt].
  - assert (file_block header input = header ++ word_bytes (take k input)) as ->.
    { unfold file_block. rewrite <-(take_drop k input) at 2. rewrite word_bytes_app, app_assoc. apply take_app_length'.
      rewrite length_app, length_word_bytes, length_take. unfold k. lia. }
    rewrite <-app_assoc. replace k with (length (take k input)) at 1 by (rewrite length_take; unfold k; lia).
    apply words_of_packet; [done|by apply Forall_take].
  - by replace k with 0%nat by (unfold k; lia).
Qed.

(** ** Lemmas: the loop in the program's world *)

Section Whole.
Context {E R : Type} `{EngineQueue E} `{!DmaEngineLaws E} `{DmaEngine R} `{!DmaEngineLaws R} (jiffies : Z).
Context `{!TransmitEngine E, !HealthyEngine E} `{!EngineQueue R, !ReceiveEngine R}.
Abbreviation wd := (world machine_device (@machine E R)).
Implicit Types (w : wd).

#[local] Instance file_machine : Backend machine_device (@machine E R) := machine_backend jiffies.

Section Loop.
Context (tx : list Z) (setup : list (Z * Z)) (w0 : wd) (p1 p2 p3 : Z) (regs : mapped_dev) (dtx drx : stream_dev)
  (t0 : stream_sys E) (r0 : ring (dma_proxy_channel R)) (w : wd).
Hypothesis started : at_threads tx setup w0 p1 p2 p3 regs dtx drx t0 r0 w.

#[local] Instance the_tx : StreamDevice (stream_sys E) := local_stream_device jiffies.
#[local] Instance the_rx : StreamDevice (ring (dma_proxy_channel R)) := ring_device jiffies.

Abbreviation tx_dev := (stream_of (machine_stream jiffies) (Some p2)).
Abbreviation rx_dev := (stream_of (machine_stream jiffies) (Some p3)).

Lemma file_run input t r blk blocks :
  stream_idle jiffies [] t → receive_idle jiffies (blk :: blocks) r → input ≠ [] →
  BUFFER_IN_BYTES (Z.of_nat (length input)) ≤ BUFFER_SIZE →
  let old := buffer_of t (Z.to_nat (current_buffer_id (ss_ring t))) in
  ∃ t' r', @tx_file wd wd wd tx_dev rx_dev (@here _ _) (@here _ _) input (threads_world tx w t r) =
      Done (words_of (length input) (take (12 + 4 * length input) blk), threads_world tx w t' r') ∧
    ss_sent t' = [file_block (take 12 old) input].
Proof.
  intros Ht Hr Hne Hfit old.
  assert (Nat.min file_packet_size (length input) = length input) as Hn.
  { assert (file_packet_size = Z.to_nat 32768) as Hmax by (unfold file_packet_size; lia).
    unfold BUFFER_IN_BYTES, sizeof_header, BUFFER_SIZE in Hfit. lia. }
  assert (∃ fuel, @tx_file_loop wd wd wd tx_dev rx_dev (@here _ _) (@here _ _) (length input) input =
    (@here _ _ _ (@tx_chunk wd tx_dev input) ;;
     out ← @here _ _ _ (@rx_chunk wd rx_dev (length input));
     rest ← @tx_file_loop wd wd wd tx_dev rx_dev (@here _ _) (@here _ _) fuel [];
     mret (out ++ rest))) as [fuel Hloop].
  { destruct input as [|x l]; [done|]. exists (length l). cbn [tx_file_loop length]. cbv zeta.
    change (S (length l)) with (length (x :: l)). by rewrite Hn, firstn_all, skipn_all. }
  pose proof (sender_calls jiffies _ _ _ _ _ _ _ _ _ _ _ _ started) as CT.
  pose proof (receiver_calls jiffies _ _ _ _ _ _ _ _ _ _ _ _ started) as CR.
  destruct (tx_chunk_run jiffies [] input t Ht Hfit) as (t1 & Htx & Hi1). fold old in Hi1.
  destruct (rx_chunk_run jiffies (length input) blk blocks r Hr Hfit) as (r1 & Hrx & Hir1).
  destruct (stream_sync jiffies _ t1 Hi1) as (t2 & Hsync & _ & Hsent).
  pose proof (sync_ready jiffies r1 (ri_ring _ _ _ Hir1) (ri_status _ _ _ Hir1)) as Hrsync.
  exists t2, r1. split; [|exact Hsent]. unfold tx_file.
  eapply bind_done.
  { rewrite Hloop. unfold here.
    eapply bind_done; [exact (on_sender _ _ _ _ _ _ _ _ (lifted_tx_chunk _ (CT r) input) Htx)|].
    eapply bind_done; [exact (on_receiver _ _ _ _ _ _ _ _ (lifted_rx_chunk _ (CR t1) (length input)) Hrx)|].
    eapply bind_done; [by destruct fuel|]. rewrite app_nil_r. reflexivity. }
  eapply bind_done; [exact (on_sender _ _ _ _ _ _ _ _ (lifted_sync _ (CT r1)) Hsync)|].
  eapply bind_done; [exact (on_receiver _ _ _ _ _ _ _ _ (lifted_sync _ (CR t2)) Hrsync)|]. reflexivity.
Qed.

End Loop.

(** ** Properties *)

(** C8: [main_tx_file] from nothing to the end on a machine whose hardware finishes
    every transfer, for a file of 1 to 32765 numbers: they are sent as one block,
    which starts with the 12 bytes the buffer held before and ends before the last
    three numbers; what is printed is the words behind the header of the block that
    was received, so on hardware that loops the stream back all but the last three
    are those of the file.  Every descriptor is given back; the two arrays of the
    program stay allocated, and all but the first 33 pages of each of the two rings
    stay mapped. *)
Theorem main_tx_file_outcome w0 s r blk blocks a f lines input output_f :
  ready w0 3 → mc_tx (backend w0) !! dev_streamio_tx_0 = Some s → wf_channel (ring_chan s) →
  mc_tx (backend w0) !! dev_streamio_rx_0 = None →
  mc_rx (backend w0) !! dev_streamio_rx_0 = Some r → wf_channel (rg_driver r) →
  incoming (device_terminate_all (channel_p (rg_driver r))) = blk :: blocks → good_blocks (blk :: blocks) →
  input_file_path a = Some f → read_values lines = Some input → 1 ≤ Z.of_nat (length input) ≤ 32765 →
  let os := mc_os (backend w0) in
  let sent := file_block (take 12 (buffer_of s 0)) input in
  ∃ output w1 t1, main_tx_file (machine_stream jiffies) a (Some lines) output_f w0 =
      Done (file_result a output_f output, w1) ∧
    output = words_of (length input) blk ∧
    (∀ tail, Forall (λ v, 0 ≤ v < 2 ^ 32) input → blk = sent ++ tail →
       take (length input - 3) output = take (length input - 3) input) ∧
    mc_tx (backend w1) = <[dev_streamio_tx_0 := t1]> (mc_tx (backend w0)) ∧ ss_sent t1 = [sent] ∧
    lo_mem (mc_os (backend w1)) =
      stored (lo_next os) [(5, 3); (6, Z.of_nat file_packet_size); (7, 0); (5, 0); (5, 3)] (lo_mem os) ∧
    lo_fds (mc_os (backend w1)) = lo_fds os ∧ lo_blocks (mc_os (backend w1)) = lo_blocks os + 2 ∧
    lo_maps (mc_os (backend w1)) = ring_left (second_ring os) (ring_left (first_ring os) (delete (lo_next os) (lo_maps os))) ∧
    contexts w1 = contexts w0 ∧ arrays w1 = arrays w0 ∧ devices w1 = devices w0.
Proof.
  intros Hready Hs Hch Hno Hr Hrch Hinc Hgood Ha Hlines Hlen os sent.
  set (setup := [(5, 3); (6, Z.of_nat file_packet_size); (7, 0); (5, 0)]).
  destruct (devices_ready jiffies dev_streamio_tx_0 setup (mallocd w0) s r _ ltac:(repeat constructor; simpl; lia)
    (ready_malloc w0 3 Hready) Hs Hch Hno Hr Hrch Hinc Hgood)
    as (p1 & p2 & p3 & regs & dtx & drx & t0 & r0 & w3 & w4 & Hat & Hinit & [Hdata Hcur] & Hrx & Hopen & Hregs).
  apply at_threads_malloc in Hat.
  pose proof (opened_idle jiffies _ r0 Hrx) as Hidle.
  assert (stream_idle jiffies [] t0) as Ht0.
  { pose proof (sys_init_ok jiffies t0 Hinit) as Hok. destruct Hinit as (? & ? & ? & ? & ? & ? & ? & ? & ? & Hi & _).
    split; [exact Hok|exact Hi]. }
  assert (buffer_of t0 (Z.to_nat (current_buffer_id (ss_ring t0))) = buffer_of s 0) as Hbuf.
  { rewrite Hcur. unfold buffer_of. by rewrite (data_at_datas _ _ _ Hdata). }
  assert (main_tx_file (machine_stream jiffies) a (Some lines) output_f w0 =
    (@tx_file_body wd wd wd wd (mapped_of (Some p1)) (stream_of (machine_stream jiffies) (Some p2))
       (stream_of (machine_stream jiffies) (Some p3)) (@here _ _) (@here _ _) (@here _ _) heap_malloc input ≫= λ output,
     io_close_context (next_ptr w0) ;; mret (file_result a output_f output)) w3) as Hmain.
  { unfold main_tx_file. rewrite Ha. cbn [mbind option_bind]. rewrite Hlines.
    eapply bind_done; [apply heap_malloc_run|].
    eapply bind_done; [apply create_run|]. eapply bind_done; [exact Hopen|].
    unfold file_result. by destruct (output_file_path a), output_f. }
  assert (input ≠ []) as Hne by (intros ->; simpl in Hlen; lia).
  rewrite Hmain. clear Hmain. unfold tx_file_body. destruct (nonempty_head input Hne) as [x Hhead].
  destruct (file_run _ setup _ p1 p2 p3 regs dtx drx t0 r0 _ Hat input t0 r0 blk blocks Ht0 Hidle Hne)
    as (t1 & r1 & Hfile & Hsent); [unfold BUFFER_IN_BYTES, sizeof_header, BUFFER_SIZE; lia|].
  rewrite Hbuf in Hsent. rewrite (threads_start _ _ _ _ _ _ _ _ _ _ _ _ Hat), words_of_take in Hfile. fold sent in Hsent.
  destruct (devices_finish jiffies _ _ _ _ _ _ _ _ _ _ _ _ t1 r1 Hat)
    as (w7 & w8 & Hhold & Hcl & Htx & Hmem & Hfd & Hbl & Hmp & Hrest).
  exists (words_of (length input) blk), w8, t1.
  split; [|split; [reflexivity|split; [|split; [exact Htx|split; [exact Hsent|split; [exact Hmem|split; [exact Hfd|split; [|split; [exact Hmp|exact Hrest]]]]]]]]].
  - eapply bind_done; [|eapply bind_done; [exact Hcl|reflexivity]].
    eapply bind_done; [exact Hregs|]. eapply bind_done; [rewrite Hhead; reflexivity|].
    eapply bind_done; [apply heap_malloc_run|].
    eapply bind_done; [exact Hfile|]. eapply bind_done; [exact Hhold|reflexivity].
  - intros tail Hin ->. apply file_loopback; [|exact Hin].
    pose proof (length_buffer_data (default ∅ (data_at (ring_chan s) 0))) as Hl. unfold buffer_of.
    rewrite length_take. unfold BUFFER_SIZE in Hl. lia.
  - rewrite Hbl. cbn [mallocd backend set_backend mc_os set_blocks lo_blocks]. fold os. lia.
Qed.

End Whole.

(** ** Concrete runs *)

Lemma read_values_some l : read_values (Some <$> l) = Some l.
Proof.
  assert (count_lines (Some <$> l) = Some (length l)) as Hc
    by (induction l as [|x l IH]; [done|]; rewrite fmap_cons; cbn [count_lines length]; by rewrite IH).
  assert (omap id (Some <$> l) = l) as Ho 
    by (clear Hc; induction l as [|x l IH]; [done|]; change (x :: omap id (Some <$> l) = x :: l); by rewrite IH).
  unfold read_values. rewrite Hc. cbn [mbind option_bind]. by rewrite Ho, firstn_all.
Qed.

(** Four numbers on hardware that gives back what it was sent. *)
Lemma main_tx_file_outcome_witness :
  let B := machine_backend (E:=queue_engine Finishes) (R:=block_engine) 300 in
  let sent := file_block (replicate 12 0) [1; 2; 3; 4] in
  let blk := sent ++ replicate (Z.to_nat BUFFER_SIZE - 16) 0 in
  let w0 := demo_machine Finishes dev_streamio_tx_0 [blk] in
  let a := mk_arguments (Some [105]) (Some [111]) in
  ∃ output w1 (t1 : stream_sys (queue_engine Finishes)),
    main_tx_file (machine_stream 300) a (Some (Some <$> [1; 2; 3; 4])) true w0 =
      Done ((0, Some (s32 <$> output)), w1) ∧
    take 1 output = [1] ∧ ss_sent t1 = [sent] ∧ lo_blocks (mc_os (backend w1)) = 2.
Proof.
  intros B sent blk w0 a.
  assert (length sent = 16%nat) as Hlen by reflexivity.
  assert (good_blocks [blk]) as Hgood.
  { constructor; [|constructor]. split.
    - unfold is_block, blk. rewrite length_app, Hlen, length_replicate. pose proof buffer_size_nat as Hb.
      unfold BUFFER_SIZE in *. lia.
    - apply Forall_app. split; [unfold sent, file_block; apply Forall_take, Forall_app; split;
        [repeat constructor; unfold is_byte; lia|apply word_bytes_bytes]|apply Forall_replicate; unfold is_byte; lia]. }
  assert (take 12 (buffer_of (demo_channel_stream Finishes) 0) = replicate 12 0) as Hold.
  { unfold buffer_of. rewrite take_buffer_data by (unfold BUFFER_SIZE; lia). vm_compute. reflexivity. }
  destruct (main_tx_file_outcome 300 w0 (demo_channel_stream Finishes)
    (mk_ring (fresh_channel (mk_block_engine [] None 10 [blk]) 4096) 32 0) blk [] a [105] (Some <$> [1; 2; 3; 4]) [1; 2; 3; 4] true
    (demo_machine_ready Finishes dev_streamio_tx_0 [blk] 3 ltac:(lia)) ltac:(apply lookup_singleton_eq)
    ltac:(apply wf_fresh_channel) ltac:(reflexivity) ltac:(apply lookup_singleton_eq) ltac:(apply wf_fresh_channel)
    eq_refl Hgood eq_refl (read_values_some [1; 2; 3; 4]) ltac:(cbn [length]; lia))
    as (output & w1 & t1 & Hr & _ & Hloop & _ & Hs & _ & _ & Hbl & _).
  rewrite Hold in Hs, Hloop. exists output, w1, t1. split; [exact Hr|]. split; [|split; [exact Hs|exact Hbl]].
  apply (Hloop (replicate (Z.to_nat BUFFER_SIZE - 16) 0)); [|reflexivity]. repeat constructor; lia.
Defined.
