(* ===== verification/ClientTest.v ===== *)
(** * ClientTest: what the client's receiver checks

    The loop of [main_rx] of [src/userspace/io_client/src/client_test.c] on two
    channels of this machine: the words are checked before the transfer is waited
    for, so the check is of the bytes the program itself has just stored. *)
From Stdlib Require Import ZArith Lia.
From stdpp Require Import base list numbers option gmap sets.
From S2P Require Import Prelude DmaChannel BufferData Devices LocalBackend ZeroCopy LocalStream TestApp LocalReceive TxRxTest.

(** ** Lemmas: a check of stored bytes *)

Lemma words_replicate n v : words_at 0 n (replicate (4 * n) v) = replicate n (le_val (replicate 4 v)).
Proof.
  unfold words_at. apply list_eq_same_length with n; [by rewrite length_replicate|by rewrite length_fmap, length_seq|].
  intros k x y Hk Hx Hy. rewrite lookup_replicate_2 in Hy by done. apply (inj Some) in Hy as <-.
  rewrite list_lookup_fmap, lookup_seq_lt in Hx by done. apply (inj Some) in Hx as <-.
  rewrite drop_replicate, take_replicate. do 2 f_equal. lia.
Qed.

(** The bytes of the memset are not the expected words. *)
Lemma memset_invalid n : (0 < n)%nat → validate_data n (words_at 0 n (replicate (4 * n) 254)) = -1.
Proof.
  intros Hn. rewrite words_replicate. unfold validate_data. rewrite take_replicate, Nat.min_id.
  destruct n as [|n]; [lia|]. reflexivity.
Qed.

(** ** The receiver *)

Section Receiver.
Context {T : Type} {E : Type} `{EngineQueue T} `{!DmaEngineLaws T, !TransmitEngine T, !HealthyEngine T}
  `{ReceiveEngine E} `{!DmaEngineLaws E} (jiffies : Z).
Implicit Types (t : stream_sys T) (r : ring (dma_proxy_channel E)).

#[local] Instance rx_driver : DmaDriver (dma_proxy_channel E) := channel_driver jiffies.
#[local] Instance rx_driver_laws : DmaDriverLaws (dma_proxy_channel E) := channel_driver_laws jiffies.
#[local] Instance tx_stream : StreamDevice (stream_sys T) := local_stream_device jiffies.
#[local] Instance rx_stream : StreamDevice (ring (dma_proxy_channel E)) := ring_device jiffies.

(** The two channels of the program. *)
Abbreviation both := (stream_sys T * ring (dma_proxy_channel E))%type.
Definition on_first {A} (m : M (stream_sys T) A) : M both A := zoom fst (λ t s, (t, snd s)) m.
Definition on_second {A} (m : M (ring (dma_proxy_channel E)) A) : M both A := zoom snd (λ r s, (fst s, r)) m.

(** Starting a transfer leaves the buffers' data as they are. *)
Lemma start_idle i n inc r :
  receive_idle jiffies inc r → (i < BUFFER_COUNT)%nat →
  ∃ r', io_read_stream_device i n r = Done (tt, r') ∧ wf_ring r' ∧ datas (rg_driver r') = datas (rg_driver r).
Proof.
  intros [Hr _ Hq _ _] Hi. set (pc := rg_driver r) in *. destruct (slot_exists pc i (wr_ok r Hr) Hi) as (d & b & Hs).
  destruct (write_ring_run r i n Hr Hi) as (r' & Hrun & Hr' & _).
  exists r'. split; [by eapply bind_done|]. split; [done|].
  apply bind_inv in Hrun as ([] & r1 & Hlen & Hrun). apply on_driver_inv in Hlen as [Hlen _]. fold pc in Hlen.
  change (drv_set_length i n) with (update_buffer (E:=E) (Z.of_nat i) (set_cb_length n)) in Hlen.
  erewrite update_buffer_run in Hlen by exact Hs. injection Hlen as Hlen.
  apply bind_inv in Hrun as (x & r2 & Hio & Hrun). apply on_driver_inv in Hio as [Hio _].
  unfold mret, M_ret in Hrun. injection Hrun as <-. rewrite <-Hlen in Hio.
  destruct (start_receives jiffies i d (set_cb_length n b) (put_buffer i (set_cb_length n b) pc) x (rg_driver r2))
    as (_ & _ & _ & _ & _ & _ & Hd);
    [by apply wf_put_buffer, (wr_ok r Hr)|done|by eapply slot_put_buffer|by rewrite queue_put_buffer|exact Hio|].
  rewrite Hd. by apply (datas_put_buffer pc i d b).
Qed.

(** The check of one round, on any hardware, is of the 254s stored before. *)
Lemma client_round_invalid log inc n t r :
  stream_idle jiffies log t → receive_idle jiffies inc r → (0 < n)%nat → 4 * Z.of_nat n ≤ BUFFER_SIZE →
  ∃ t' r', client_round (@on_first) (@on_second) n (t, r) = Done (Some RxInvalid, (t', r')).
Proof.
  intros Ht Hr Hn Hsz. destruct (get_frame jiffies log t Ht) as (t1 & Hgt & _).
  pose proof (at_ring_lt r 0) as Hb. set (b := at_ring r 0) in *.
  assert (io_stream_get_buffer r = Done (Some b, advance r)) as Hgr
    by (apply (get_advance jiffies); [apply Hr|by apply Hr]).
  apply idle_advance in Hr.
  destruct (fill_idle jiffies b 0 (replicate (4 * n) 254) _ _ Hr Hb) as (r1 & g1 & Hf & Hr1 & _ & Hd1);
    [lia|rewrite length_replicate; lia|].
  destruct (start_idle b (4 * Z.of_nat n) _ _ Hr1 Hb) as (r2 & Hs & Hr2 & Hd2).
  assert (∃ g, data_at (rg_driver r1) b = Some g ∧ take (4 * n) (buffer_data g) = replicate (4 * n) 254) as (g & Hg & Hdata).
  { apply on_driver_inv in Hf as [Hf _]. destruct (slot_exists _ b (wr_ok _ (ri_ring _ _ _ Hr)) Hb) as (d & bf & Hslot).
    pose proof (length_buffer_data (cb_buffer bf)) as Hl.
    destruct (store_data 0 (replicate (4 * n) 254) (cb_buffer bf)) as (g & Hst & Hov);
      [apply Forall_replicate; unfold is_byte; lia|rewrite length_replicate; lia|].
    change 0 with (Z.of_nat 0) in Hf. rewrite (store_buffer_run b 0 _ _ d bf Hslot), Hst in Hf. injection Hf as Hf.
    exists g. split; [rewrite <-Hf; exact (slot_data _ b d _ (slot_put_buffer _ b d bf _ Hslot))|].
    rewrite Hov. pose proof (take_overwrite (replicate (4 * n) 254) (buffer_data (cb_buffer bf))) as Ht2.
    by rewrite length_replicate in Ht2. }
  rewrite <-(data_at_datas _ _ b Hd2) in Hg.
  pose proof (bytes_run jiffies b g (4 * n) r2 Hr2 Hb Hg ltac:(lia)) as Hbytes. rewrite Hdata in Hbytes.
  exists t1, r2. unfold client_round.
  eapply bind_done; [unfold on_first; eapply zoom_done; exact Hgt|]. 
  apply (zoom_done snd (λ r s, (fst s, r)) _ (t1, r) _ r2).
  eapply bind_done; [exact Hgr|]. cbv beta iota. eapply bind_done; [exact Hf|]. eapply bind_done; [exact Hs|].
  eapply bind_done; [exact Hbytes|]. cbv beta. by rewrite memset_invalid.
Qed.

(** Unless it is stopped before, the program ends after its first packet, whatever
    the hardware received. *)
Theorem client_ends_at_once log inc stop k t r :
  stream_idle jiffies log t → receive_idle jiffies inc r → stop 0%nat = false → stop 1%nat = false →
  ∃ t' r', client_loop (@on_first) (@on_second) stop (1024 * 2) (S k) 0 (t, r) = Done (RxInvalid, (t', r')).
Proof.
  intros Ht Hr H0' H1'. destruct (client_round_invalid log inc (1024 * 2) t r Ht Hr) as (t' & r' & Hround);
    [lia|unfold BUFFER_SIZE; lia|].
  exists t', r'. cbn [client_loop Nat.mul Nat.add]. rewrite H0', H1'.
  eapply bind_done; [exact Hround|]. reflexivity.
Qed.

End Receiver.

(** ** Concrete runs *)

Lemma client_ends_at_once_witness :
  let tx := local_stream_device (E:=queue_engine Finishes) 300 in let rx := ring_device (E:=block_engine) 300 in
  ∃ t' r', client_loop (@on_first (queue_engine Finishes) block_engine)
    (@on_second (queue_engine Finishes) block_engine) (λ _, false) (1024 * 2) 5 0
    (mk_sys (stream_opened Finishes) ∅ [] [], receive_ring []) = Done (RxInvalid, (t', r')).
Proof.
  intros tx rx. apply (client_ends_at_once 300 [] []); [|apply opened_idle, receive_ring_opened; constructor|reflexivity..].
  split; [apply sys_init_ok, (opened_init Finishes)|reflexivity].
Defined.
