(* ===== verification/Served.v ===== *)
(** * Served: a channel of this machine, lent to a client

    The stream channel of [StreamChannel] on the machine of [Machine]: from the
    handshake of a remote client to the blocks the DMA engine sends and the closing
    of the device, through the server's command handlers, a context with its
    device table, the local backend, the driver and the engine.  The server as it
    is never gets there: the only call of [client_stream_channel] is in a block of
    [main] that is commented out ([io_backend.c], 381-384), and [start_task]
    serves frames that open and close contexts only.  What is shown is what the
    handler does when it is called.

    A session ends when a reply cannot be sent: [send] returns -1.  That is the
    first error after the client reset the connection (ECONNRESET, which raises no
    signal), or any later one (EPIPE) in a process that ignores SIGPIPE, as one
    started by a service manager does; the program itself installs no handler, so
    that where SIGPIPE has its default action EPIPE ends the process instead. *)
From Stdlib Require Import ZArith Lia.
From stdpp Require Import base list numbers option gmap sets.
From S2P Require Import Prelude Socket NetClient DmaChannel Devices BackendCall Remote LocalBackend ZeroCopy LocalStream Context BackendContext StreamChannel TestApp LocalReceive Machine AppMain.

(** What arrives from a client that terminates the path: the request for the
    device, the write command, and its packets in the pieces TCP makes of them. *)
Definition session_segments (path : list Z) (size : Z) (segss : list (list (list Z))) : list (list Z) :=
  le_bytes 4 (Z.of_nat (length path) + 1) :: (path ++ [0]) :: le_bytes 8 size :: [6] :: concat segss.

Section Served.
Context `{Stack} {E R : Type} `{EngineQueue E} `{!DmaEngineLaws E, !TransmitEngine E, !HealthyEngine E}.
Context `{DmaEngine R} `{!DmaEngineLaws R} (jiffies : Z).
Abbreviation machine := (@machine E R).
Abbreviation wd := (world machine_device machine).
Implicit Types (g : machine) (w : wd).

#[local] Instance served_backend : Backend machine_device machine := machine_backend jiffies.

(** A transmit channel of the machine just opened: the sink in it is idle. *)
Lemma open_transmit g fd path s :
  process_ready (mc_os g) [fd] (mc_os g) → mc_tx g !! path = Some s → wf_channel (ring_chan s) →
  ∃ s0, sys_init jiffies s0 ∧
    open_stream path g = Done (Some (MStream path (mk_stream_dev fd (lo_next (mc_os g)))),
      put (tx_channel path) s0 (mk_machine (opened_os fd ring_pages 3 (mc_os g)) (mc_tx g) (mc_rx g))).
Proof.
  intros Hr Hs Hwf.
  destruct (open_ring_run jiffies _ fd [] (mc_os g) (ss_ring s) Hr Hwf) as (pc & r & Hop & _ & Hst & Hrun).
  exists (mk_sys r ∅ [] []). split.
  - exists (ring_chan s), pc, (mc_os g). do 2 eexists. split; [done|]. split; [done|]. split; [exact Hst|done].
  - cbn [open_stream served_backend machine_backend]. unfold open_channel. eapply bind_done; [reflexivity|]. rewrite Hs.
    unfold on_os. eapply bind_done; [apply zoom_done; exact Hrun|]. reflexivity.
Qed.

(** Closing it gives the process of before but for the mapping that stays. *)
Lemma close_transmit g fd path s :
  process_ready (mc_os g) [fd] (mc_os g) →
  let x := MStream path (mk_stream_dev fd (lo_next (mc_os g))) in
  ∃ os', close_stream x (put (tx_channel path) s (mk_machine (opened_os fd ring_pages 3 (mc_os g)) (mc_tx g) (mc_rx g))) =
      Done (tt, mk_machine os' (<[path := s]> (mc_tx g)) (mc_rx g)) ∧
    lo_fds os' = lo_fds (mc_os g) ∧ lo_mem os' = lo_mem (mc_os g) ∧ lo_blocks os' = lo_blocks (mc_os g) ∧
    lo_maps os' = ring_left (lo_next (mc_os g)) (lo_maps (mc_os g)).
Proof.
  intros Hr x. destruct (ready_cons _ _ _ _ Hr) as (l & ms & _ & _ & _ & Hnew).
  set (g1 := put _ _ _).
  destruct (close_device_run jiffies x g1) as (os' & Hrun & Hf & Hm & Hb & Hmp & _).
  { unfold g1, x. cbn [put tx_channel mc_os opened_os lo_maps held_map fst snd sd_buffers]. apply lookup_insert_eq. }
  exists os'. split; [exact Hrun|]. rewrite Hf, Hm, Hb, Hmp. unfold g1, x.
  cbn [put tx_channel mc_os opened_os lo_fds lo_mem lo_blocks lo_maps held_fd held_blocks closed_map sd_fd sd_buffers].
  split; [set_solver|]. split; [done|]. split; [lia|]. unfold ring_left. by rewrite delete_insert_eq.
Qed.

(** C5: A whole stream channel of the server on this machine's hardware, against a
    client that terminates the path and writes packets until a reply to it cannot be
    sent: the channel named by the path is opened; the DMA engine sends blocks of
    exactly 128 KiB that together with fewer than 128 KiB left behind are the
    client's packets in order, and has sent all of these blocks when the device is
    closed; then every descriptor and every block of memory is given back, and the
    contexts and devices are those of before; of the ring of buffers only the first
    33 pages are unmapped, those the first buffer reaches into: the others stay
    mapped. *)
Theorem stream_channel_on_hardware w0 fd s path size nodelay c ps segss k fuel inner :
  wf_heap w0 → process_ready (mc_os (backend w0)) [fd] (mc_os (backend w0)) →
  mc_tx (backend w0) !! path = Some s → wf_channel (ring_chan s) →
  0 ≤ nodelay → Forall (λ c, c ≠ 0) path → Z.of_nat (length path) + 1 < 2 ^ 32 →
  rx c = session_segments path size segss →
  sends_left c = Some (S (S k)) →
  Forall2 packet_segs ps segss → Forall (Forall is_byte) ps → aligned 0 ps →
  (length ps ≤ k)%nat → (k < fuel)%nat → BUFFER_SIZE < Z.of_nat inner →
  ∃ c' w' s' cur,
    client_stream_channel (machine_stream jiffies) nodelay fuel inner (mk_session c w0) =
      Done (Some 0, mk_session c' w') ∧
    mc_tx (backend w') = <[path := s']> (mc_tx (backend w0)) ∧ mc_rx (backend w') = mc_rx (backend w0) ∧
    Forall is_block (ss_sent s') ∧ Z.of_nat (length cur) < BUFFER_SIZE ∧ concat (ss_sent s') ++ cur = concat ps ∧
    lo_fds (mc_os (backend w')) = lo_fds (mc_os (backend w0)) ∧
    lo_mem (mc_os (backend w')) = lo_mem (mc_os (backend w0)) ∧
    lo_blocks (mc_os (backend w')) = lo_blocks (mc_os (backend w0)) ∧
    lo_maps (mc_os (backend w')) = ring_left (lo_next (mc_os (backend w0))) (lo_maps (mc_os (backend w0))) ∧
    contexts w' = contexts w0 ∧ devices w' = devices w0.
Proof.
  intros Hwf Hr Hs Hch Hno Hpath Hlen Hrx Hsend Hps Hby Ha Hk Hf Hin.
  destruct (open_transmit (backend w0) fd path s Hr Hs Hch) as (s0 & Hinit & Hopen).
  set (x := MStream path (mk_stream_dev fd (lo_next (mc_os (backend w0))))) in *.
  set (g0 := mk_machine (opened_os fd ring_pages 3 (mc_os (backend w0))) (mc_tx (backend w0)) (mc_rx (backend w0))) in *.
  pose (sink := @lens_sink _ _ (tx_channel path) _ (local_stream_device jiffies) g0 (local_sink jiffies)).
  assert (∀ log i bs b, @holds _ _ sink log i bs b → ∃ s2, @io_sync_stream_device _ (machine_stream jiffies x) b =
      Done (tt, put (tx_channel path) s2 g0) ∧ ss_sent s2 = log) as Hsync.
  { intros log i bs b (s1 & -> & Hidle & _). destruct (stream_sync jiffies log s1 Hidle) as (s2 & Hrun & _ & Hsent).
    exists s2. split; [|exact Hsent]. by apply (through_done (tx_channel path)). }
  destruct (@stream_channel_run _ _ _ _ (machine_stream jiffies) x sink w0 c path size nodelay _ ps segss k fuel inner
    Hwf Hno Hpath Hlen Hopen) as (c' & w' & log & cur & i & bs & b2 & b3 & Hrun & Hh & _ & Hblk & Hcur & Hcat & Hs2 & Hcl & Hcx & Hdv);
    try done.
  { exists s0. split; [done|]. split; [by apply sys_init_ok|]. by destruct Hinit as (? & ? & ? & ? & ? & ? & ? & ? & ? & Hi & _). }
  { intros log i bs b Hh. destruct (Hsync log i bs b Hh) as (s2 & Hrun & _).
    destruct (close_transmit (backend w0) fd path s2 Hr) as (os' & Hcl & _). do 2 eexists. split; [exact Hrun|exact Hcl]. }
  destruct (Hsync log i bs b2 Hh) as (s2 & Hrun2 & Hsent).
  assert (b3 = put (tx_channel path) s2 g0) as -> by (pose proof (eq_trans (eq_sym Hs2) Hrun2) as Heq; by injection Heq).
  destruct (close_transmit (backend w0) fd path s2 Hr) as (os' & Hcl2 & Hfd & Hmem & Hbl & Hmp).
  assert (backend w' = mk_machine os' (<[path := s2]> (mc_tx (backend w0))) (mc_rx (backend w0))) as Hb
    by (pose proof (eq_trans (eq_sym Hcl) Hcl2) as Heq; by injection Heq).
  exists c', w', s2, cur. rewrite Hb, Hsent. by repeat (split; [done|]).
Qed.

End Served.

(** ** A concrete run *)

(** A packet of three bytes, then the connection breaks. *)
Lemma stream_channel_on_hardware_witness :
  let B := machine_backend (E:=queue_engine Finishes) (R:=block_engine) 300 in
  let c := mk_socket (session_segments dev_streamio_tx_0 0 [[[6] ++ le_bytes 4 3 ++ [1]; [2; 3]]]) 0 [] (Some 3%nat) in
  ∃ c' w', client_stream_channel (machine_stream 300) 0 2 (Z.to_nat (BUFFER_SIZE + 1))
      (mk_session c (demo_machine Finishes dev_streamio_tx_0 [])) = Done (Some 0, mk_session c' w') ∧
    lo_fds (mc_os (backend w')) = ∅ ∧ lo_maps (mc_os (backend w')) = {[200704 := 4091904]} ∧ contexts w' = ∅.
Proof.
  intros B c. destruct (demo_machine_ready Finishes dev_streamio_tx_0 [] 1 ltac:(lia)) as [Hwf _].
  destruct (stream_channel_on_hardware 300 (demo_machine Finishes dev_streamio_tx_0 []) 3 (demo_channel_stream Finishes)
    dev_streamio_tx_0 0 0 c [[1; 2; 3]] [[[6] ++ le_bytes 4 3 ++ [1]; [2; 3]]] 1 2 (Z.to_nat (BUFFER_SIZE + 1)))
    as (c' & w' & s' & cur & Hr & _ & _ & _ & _ & _ & Hf & _ & _ & Hm & Hc & _).
  - exact Hwf.
  - split; [by exists [4; 5]|repeat constructor; try lia; apply not_elem_of_empty|by exists [true; true]|reflexivity].
  - apply lookup_singleton_eq.
  - apply wf_fresh_channel.
  - lia.
  - by repeat constructor.
  - simpl. lia.
  - reflexivity.
  - reflexivity.
  - constructor; [|constructor]. exists [1], [[2; 3]]. split; [by repeat constructor|]. split; [reflexivity|]. by left.
  - repeat constructor; lia.
  - rewrite <-(Nat2Z.id 0). simpl. rewrite BUFFER_SIZE_val. simpl. lia.
  - simpl. lia.
  - lia.
  - rewrite Z2Nat.id by (rewrite BUFFER_SIZE_val; lia). lia.
  - exists c', w'. split; [exact Hr|]. split; [exact Hf|]. split; [exact Hm|exact Hc].
Defined.
