(* ===== verification/Stalled.v ===== *)
(** * Stalled: hardware that stops

    What the code above a local stream device does when the hardware takes every
    transfer and finishes none, so that every wait of the driver ends with its
    timeout: the ring of [src/lib/bbio/src/bbio_backend_local.c] hands out each of
    its 32 buffers once and then NULL, and no caller looks: the server hands it to
    [writev], which fails and ends the command; the test application stores
    through it. *)
From Stdlib Require Import ZArith Lia.
From stdpp Require Import base list numbers option gmap.
From S2P Require Import Prelude Socket DmaChannel BufferData Devices BackendCall LocalBackend ZeroCopy LocalStream Context BackendContext TestApp LocalReceive StreamChannel Machine AppMain.

(** A provider that takes every transfer; every wait times out. *)
Class StalledEngine (E : Type) `{DmaEngine E} : Prop := {
  stalled_accepts : ¬ refusal (E:=E);
  stalled_wait : ∀ bd jiffies (pc : dma_proxy_channel E) r pc',
    wait_for_completion_interruptible_timeout bd jiffies pc = Done (r, pc') → r = 0
}.

(** A device that runs out of buffers: [stuck k c d]: the first [k] buffers were
    handed to the hardware and [c] were handed out. *)
Class StuckDevice (D : Type) `{StreamDevice D} := {
  stuck : nat → nat → D → Prop;
  stuck_get : ∀ k d, stuck k k d → (k < BUFFER_COUNT)%nat →
    ∃ d', io_stream_get_buffer d = Done (Some k, d') ∧ stuck k (S k) d';
  stuck_null : ∀ d, stuck BUFFER_COUNT BUFFER_COUNT d →
    ∃ d', io_stream_get_buffer d = Done (None, d') ∧ stuck BUFFER_COUNT BUFFER_COUNT d';
  stuck_fill : ∀ k c d i off x, stuck k c d → (i < BUFFER_COUNT)%nat → 0 ≤ off →
    off + Z.of_nat (length x) ≤ BUFFER_SIZE →
    ∃ d', fill_buffer i off x d = Done (tt, d') ∧ stuck k c d';
  stuck_bytes : ∀ k c d i n, stuck k c d → (i < BUFFER_COUNT)%nat → Z.of_nat n ≤ BUFFER_SIZE →
    ∃ bs, buffer_bytes i n d = Done (bs, d) ∧ length bs = n;
  stuck_write : ∀ k d n, stuck k (S k) d → (k < BUFFER_COUNT)%nat →
    ∃ d', io_write_stream_device k n d = Done (tt, d') ∧ stuck (S k) (S k) d';
  stuck_read : ∀ k d n, stuck k (S k) d → (k < BUFFER_COUNT)%nat →
    ∃ d', io_read_stream_device k n d = Done (tt, d') ∧ stuck (S k) (S k) d';
  stuck_sync : ∀ k c d, stuck k c d → ∃ d', io_sync_stream_device d = Done (tt, d') ∧ stuck k c d'
}.

(** ** Lemmas: the commands *)

Section Commands.
Context {E : Type} `{StalledEngine E} `{!DmaEngineLaws E} (jiffies : Z).
Abbreviation chan := (dma_proxy_channel E).
Implicit Types (pc : chan) (r : ring chan).

Lemma finish_stalled i pc x pc' :
  wf_channel pc → (i < BUFFER_COUNT)%nat →
  channel_ioctl jiffies FINISH_XFER (Z.of_nat i) pc = Done (x, pc') →
  status_at pc' i = Some PROXY_TIMEOUT.
Proof.
  intros Hwf Hi Hw%finish_inv; [|done]. set (pc0 := set_bdindex (Z.of_nat i) pc) in *.
  destruct (slot_exists pc0 i (wf_set_bdindex pc _ Hwf) Hi) as (d & b & Hs).
  destruct (wait_run pc0 i d b jiffies (wf_set_bdindex pc _ Hwf) eq_refl Hs) as (pc1 & ret & n & b1 & Hwt & _ & Hs1 & _ & Hr).
  apply stalled_wait in Hwt as ->. rewrite Hw in Hr. injection Hr as ->.
  change (final_status (u64 0) _) with PROXY_TIMEOUT.
  by destruct (slot_view _ _ _ _ (slot_put_buffer _ _ _ _ (set_cb_status PROXY_TIMEOUT b1) Hs1)) as [_ ->].
Qed.

Lemma start_stalled i pc x pc' :
  wf_channel pc → (i < BUFFER_COUNT)%nat →
  channel_ioctl jiffies START_XFER (Z.of_nat i) pc = Done (x, pc') →
  status_at pc' i = Some PROXY_QUEUED.
Proof.
  intros Hwf Hi Hw%start_inv; [|done]. set (pc0 := set_bdindex (Z.of_nat i) pc) in *.
  destruct (slot_exists pc0 i (wf_set_bdindex pc _ Hwf) Hi) as (d & b & Hs).
  rewrite (start_run pc0 i d b eq_refl Hs) in Hw.
  destruct (device_prep_slave_sg _ _ _) as [[ds|] e1] eqn:Ep.
  - destruct (dmaengine_submit ds i e1) as [c e2] eqn:Es. destruct (dma_submit_error c) eqn:Ec.
    + destruct stalled_accepts. do 4 eexists. rewrite Ep, Es. exact Ec.
    + injection Hw as <-.
      assert (slot (put_buffer i (set_cb_status PROXY_QUEUED b) (submitted i d b c e2 pc0)) i
        (set_cookie c (set_cmp_done init_completion (set_sglist (dma_handle d, cb_length b) d)))
        (set_cb_status PROXY_QUEUED b)) as Hs2 by (eapply slot_put_buffer, slot_submitted, Hs).
      by destruct (slot_view _ _ _ _ Hs2) as [_ Hv].
  - destruct stalled_accepts. do 2 eexists. exists i. eexists. by rewrite Ep.
Qed.

End Commands.

(** ** Lemmas: the ring *)

Section Ring.
Context {E : Type} `{StalledEngine E} `{!DmaEngineLaws E} (jiffies : Z).
Abbreviation chan := (dma_proxy_channel E).
Implicit Types (pc : chan) (r : ring chan).

#[local] Instance driver : DmaDriver chan := channel_driver jiffies.
#[local] Instance driver_laws : DmaDriverLaws chan := channel_driver_laws jiffies.

(** The transfers of the first [k] buffers are outstanding; the next buffer is
    number [c]. *)
Record stuck_ring (k c : nat) r : Prop := {
  sk_ring : wf_ring r;
  sk_next : current_buffer_id r = Z.of_nat c mod Z.of_nat BUFFER_COUNT;
  sk_fired : ∀ i, (i < k)%nat → ∃ st, status_at (rg_driver r) i = Some st ∧ st ≠ PROXY_NO_ERROR;
  sk_idle : ∀ i, (k ≤ i < BUFFER_COUNT)%nat → status_at (rg_driver r) i = Some PROXY_NO_ERROR
}.

Lemma stuck_ring_get k r :
  stuck_ring k k r → (k < BUFFER_COUNT)%nat →
  ∃ r', io_stream_zc_buffer_local r = Done (Some k, r') ∧ stuck_ring k (S k) r'.
Proof.
  intros [Hr Hn Hf Hid] Hk.
  assert (current_buffer_id r = Z.of_nat k) as Hc by (rewrite Hn; apply Z.mod_small; lia).
  assert (status_at (rg_driver r) (Z.to_nat (current_buffer_id r)) = Some PROXY_NO_ERROR) as Hst.
  { rewrite Hc, Nat2Z.id. apply Hid. lia. }
  pose proof (get_ready jiffies r Hr Hst) as Hg. rewrite Hc, Nat2Z.id in Hg.
  eexists. split; [exact Hg|].
  split; cbn [rg_driver current_buffer_id]; [|f_equal; lia|done|done].
  destruct Hr as [Hok Hcnt _]. split; [done|done|]. cbn [current_buffer_id].
  apply Z.mod_pos_bound. unfold BUFFER_COUNT. lia.
Qed.

(** The ring has come round: the wait on buffer 0 times out. *)
Lemma stuck_ring_null r :
  stuck_ring BUFFER_COUNT BUFFER_COUNT r →
  ∃ r', io_stream_zc_buffer_local r = Done (None, r') ∧ stuck_ring BUFFER_COUNT BUFFER_COUNT r'.
Proof.
  intros [Hr Hn Hf _]. rewrite Z_mod_same_full in Hn.
  destruct (get_run r Hr) as (r' & st & Hr' & Hst & _ & Ho & Hcase). rewrite Hn in Hst, Ho, Hcase.
  change (Z.to_nat 0) with 0%nat in Hst, Ho, Hcase.
  assert (∃ o, io_stream_zc_buffer_local r = Done (o, r')) as [o Hrun]
    by (destruct (bool_decide _); destruct Hcase as [-> _]; by eexists).
  assert (st = PROXY_TIMEOUT) as ->.
  { destruct (get_inv jiffies r o r' Hrun) as (st0 & r1 & Hst0 & Hfin & Hd). rewrite Hn in Hst0, Hfin.
    destruct (Hf 0%nat) as (st1 & Hst1 & Hne); [unfold BUFFER_COUNT; lia|].
    change (drv_status (rg_driver r) (Z.to_nat 0)) with (status_at (rg_driver r) 0) in Hst0.
    rewrite Hst1 in Hst0. injection Hst0 as <-.
    unfold finish_if_busy in Hfin. rewrite bool_decide_eq_false_2 in Hfin by done.
    apply bind_inv in Hfin as (y & r2 & Hio & Hm). unfold mret, M_ret in Hm. injection Hm as <-.
    apply on_driver_inv in Hio as [Hio _].
    apply (finish_stalled jiffies 0) in Hio; [|apply (wr_ok r Hr)|unfold BUFFER_COUNT; lia].
    rewrite <-Hd in Hio. change (status_at (rg_driver r') 0 = Some st) in Hst. congruence. }
  rewrite bool_decide_eq_true_2 in Hcase by done. destruct Hcase as [Hnull Hcur].
  exists r'. split; [exact Hnull|]. split; [done|by rewrite Hcur, Z_mod_same_full| |lia].
  intros i Hi. destruct (decide (i = 0%nat)) as [->|Hne]; [by exists PROXY_TIMEOUT|].
  destruct (Hf i Hi) as (st1 & Hst1 & Hst1'). exists st1. split; [|done]. rewrite <-Hst1. exact (Ho i Hne).
Qed.

(** Replacing the driver's state by one with the same statuses. *)
Lemma stuck_ring_driver k c r (pc : chan) :
  stuck_ring k c r → wf_channel pc → (∀ i, status_at pc i = status_at (rg_driver r) i) →
  stuck_ring k c (mk_ring pc (buffer_count r) (current_buffer_id r)).
Proof.
  intros [Hr Hn Hf Hid] Hwf Hst. split; cbn [rg_driver current_buffer_id]; [by apply wf_ring_driver|done| |].
  - intros i Hi. rewrite Hst. by apply Hf.
  - intros i Hi. rewrite Hst. by apply Hid.
Qed.

Lemma stuck_ring_fill k c r i off x :
  stuck_ring k c r → (i < BUFFER_COUNT)%nat → 0 ≤ off → off + Z.of_nat (length x) ≤ BUFFER_SIZE →
  ∃ r', on_driver (store_buffer i off x) r = Done (tt, r') ∧ stuck_ring k c r'.
Proof.
  intros Hs Hi Hoff Hle. pose proof (wr_ok r (sk_ring _ _ _ Hs)) as Hwf.
  destruct (slot_exists _ i Hwf Hi) as (d & b & Hsl).
  destruct (store_bytes_some off x (cb_buffer b) Hoff Hle) as [g Hg].
  eexists. split.
  { apply on_driver_run. rewrite <-(Z2Nat.id off) by lia. rewrite (store_buffer_run i _ x _ d b Hsl), Z2Nat.id, Hg by lia. done. }
  apply stuck_ring_driver; [done|by apply wf_put_buffer|]. intros j.
  destruct (decide (j = i)) as [->|Hne].
  - destruct (slot_view _ _ _ _ (slot_put_buffer _ i d b (set_cb_buffer g b) Hsl)) as [_ ->].
    by destruct (slot_view _ _ _ _ Hsl) as [_ ->].
  - apply (frame_status i); [done|by apply wf_put_buffer| |done]. by eapply frame_put_buffer.
Qed.

Lemma stuck_ring_write k r n :
  stuck_ring k (S k) r → (k < BUFFER_COUNT)%nat →
  ∃ r', io_write_stream_local k n r = Done (Z.of_nat k, r') ∧ stuck_ring (S k) (S k) r'.
Proof.
  intros [Hr Hn Hf Hid] Hk. destruct (write_ring_run r k n Hr Hk) as (r' & Hrun & Hr' & Hcur & Ho).
  exists r'. split; [exact Hrun|].
  assert (status_at (rg_driver r') k = Some PROXY_QUEUED) as Hq.
  { apply bind_inv in Hrun as ([] & r1 & H1' & Hrun). apply on_driver_inv in H1' as [H1' _].
    apply bind_inv in Hrun as (y & r2 & H2 & Hrun). apply on_driver_inv in H2 as [H2 _].
    unfold mret, M_ret in Hrun. injection Hrun as <-.
    destruct (law_set_length (rg_driver r) k n (wr_ok r Hr) Hk) as (c1 & Hc1 & Hok1 & _).
    rewrite H1' in Hc1. injection Hc1 as <-. exact (start_stalled jiffies k _ _ _ Hok1 Hk H2). }
  split; [done|by rewrite Hcur| |].
  - intros i Hi. destruct (decide (i = k)) as [->|Hne]; [by exists PROXY_QUEUED|].
    destruct (Hf i) as (st & Hst & Hne'); [lia|]. exists st. split; [|done]. rewrite <-Hst. exact (Ho i Hne).
  - intros i Hi. rewrite <-(Hid i) by lia. apply Ho. lia.
Qed.

Lemma stuck_ring_sync k c r :
  stuck_ring k c r → ∃ r', io_finish_stream_local r = Done (tt, r') ∧ stuck_ring k c r'.
Proof.
  intros Hs. pose proof (sk_ring _ _ _ Hs) as Hr.
  assert (wp io_finish_stream_local (λ _, stuck_ring k c) r) as Hwp.
  { unfold io_finish_stream_local. wp_step. rewrite (wr_count r Hr), Nat2Z.id.
    apply (wp_for (λ _, stuck_ring k c)); [|done]. intros j r1 Hj Hs1. pose proof Hs1 as [Hr1 Hn Hf Hid].
    destruct (law_status (rg_driver r1) j (wr_ok r1 Hr1) Hj) as [st Hst].
    apply wp_bind. eapply wp_done; [by apply status_of_run|].
    destruct (bool_decide_reflect (st = PROXY_NO_ERROR)) as [->|Hne]; [done|].
    destruct (law_finish (rg_driver r1) j (wr_ok r1 Hr1) Hj) as (c' & st' & Hio & Hok & Hst' & _ & Ho).
    apply wp_bind. eapply wp_done; [by apply on_driver_run|].
    change (status_at (rg_driver r1) j = Some st) in Hst.
    assert (j < k)%nat as Hjk.
    { destruct (decide (j < k)%nat); [done|]. rewrite Hid in Hst by lia. congruence. }
    split; cbn [rg_driver current_buffer_id]; [by apply wf_ring_driver|done| |].
    - intros i Hi. destruct (decide (i = j)) as [->|Hne'].
      + exists PROXY_TIMEOUT. split; [|done]. exact (finish_stalled jiffies j _ _ _ (wr_ok r1 Hr1) Hj Hio).
      + destruct (Hf i Hi) as (st2 & Hst2 & Hne2). exists st2. split; [|done]. rewrite <-Hst2. exact (Ho i Hne').
    - intros i Hi. rewrite <-(Hid i) by lia. apply Ho. lia. }
  apply wp_run in Hwp as ([] & r' & Hrun & Hs'). by exists r'.
Qed.

End Ring.

(** ** The local devices get stuck *)

Section Instances.
Context {E : Type} `{StalledEngine E} `{!DmaEngineLaws E} (jiffies : Z).
Abbreviation chan := (dma_proxy_channel E).

#[local] Instance driver2 : DmaDriver chan := channel_driver jiffies.
#[local] Instance driver2_laws : DmaDriverLaws chan := channel_driver_laws jiffies.

(** A ring the library has just opened on a channel the driver has just opened. *)
Definition ring_opened (r : ring chan) : Prop :=
  ∃ pc0 pc w dev w',
    wf_channel pc0 ∧ local_open pc0 = Done (0, pc) ∧ io_open_stream_local pc w = Done (Some (dev, r), w').

Lemma opened_stuck r : ring_opened r → stuck_ring jiffies 0 0 r.
Proof.
  intros (pc0 & pc & w & dev & w' & Hwf0 & Hop & Hst).
  apply bind_inv in Hop as ([] & pc1 & Hm & Hop). unfold modify in Hm. injection Hm as <-.
  apply bind_inv in Hop as ([] & pc2 & Hc & Hop). unfold mret, M_ret in Hop. injection Hop as <-.
  pose proof (clear_statuses_run _ (wf_set_engine pc0 (device_terminate_all (channel_p pc0)) Hwf0)) as Hrun.
  unfold wp in Hrun. rewrite Hc in Hrun. destruct Hrun as (Hwf2 & _).
  destruct (open_stream_inv jiffies _ _ _ _ _ Hst) as (u & pc3 & Hfor & ->).
  pose proof (clear_buffers_run jiffies pc2 Hwf2) as Hrun. unfold wp in Hrun. rewrite Hfor in Hrun.
  destruct Hrun as (Hwf3 & _ & Hall).
  split; cbn [rg_driver current_buffer_id]; [|done|lia|intros i [_ Hi]; by apply Hall].
  split; [exact Hwf3|done|cbn; unfold BUFFER_COUNT; lia].
Qed.

Lemma stuck_ring_bytes k c r i n :
  stuck_ring jiffies k c r → (i < BUFFER_COUNT)%nat → Z.of_nat n ≤ BUFFER_SIZE →
  ∃ bs, on_driver (load_buffer i n) r = Done (bs, r) ∧ length bs = n.
Proof.
  intros Hs Hi Hn. destruct (slot_exists _ i (wr_ok r (sk_ring _ _ _ _ Hs)) Hi) as (d & b & Hsl).
  exists (load n (cb_buffer b)). split; [|unfold load; by rewrite length_fmap, length_seq].
  destruct r as [pc m id]. apply (on_driver_run (load_buffer i n) (mk_ring pc m id)).
  unfold load_buffer. eapply bind_done; [by eapply read_buffer_run|]. by rewrite (proj2 (Z.leb_le _ _)).
Qed.

#[local] Instance the_ring : StreamDevice (ring chan) := ring_device jiffies.

#[export, refine] Instance stuck_ring_device : StuckDevice (ring chan) := { stuck := stuck_ring jiffies }.
Proof.
  - intros k d. apply stuck_ring_get.
  - intros d. apply stuck_ring_null.
  - intros k c d i off x. apply stuck_ring_fill.
  - intros k c d i n. apply stuck_ring_bytes.
  - intros k d n Hs Hk. destruct (stuck_ring_write jiffies k d n Hs Hk) as (d' & Hr & Hs').
    exists d'. split; [by eapply bind_done|done].
  - intros k d n Hs Hk. destruct (stuck_ring_write jiffies k d n Hs Hk) as (d' & Hr & Hs').
    exists d'. split; [by eapply bind_done|done].
  - intros k c d. apply stuck_ring_sync.
Defined.

Context `{!EngineQueue E}.
#[local] Instance the_stream : StreamDevice (stream_sys E) := local_stream_device jiffies.

Lemma stuck_start k (s : stream_sys E) n :
  stuck_ring jiffies k (S k) (ss_ring s) → (k < BUFFER_COUNT)%nat →
  ∃ s', start_stream jiffies k n s = Done (tt, s') ∧ stuck_ring jiffies (S k) (S k) (ss_ring s').
Proof.
  intros Hs Hk. destruct (stuck_ring_write jiffies k _ n Hs Hk) as (r' & Hr & Hs').
  eexists (mk_sys r' _ _ _). split; [|exact Hs']. unfold start_stream. eapply bind_done; [reflexivity|].
  eapply bind_done; [by apply on_ring_run|]. reflexivity.
Qed.

#[export, refine] Instance stuck_stream_device : StuckDevice (stream_sys E) := {
  stuck := λ k c s, stuck_ring jiffies k c (ss_ring s)
}.
Proof.
  - intros k s Hs Hk. destruct (stuck_ring_get jiffies k _ Hs Hk) as (r' & Hr & Hs').
    eexists (mk_sys r' _ _ _). split; [|exact Hs']. cbn. unfold alloc_buffer. eapply bind_done; [reflexivity|].
    eapply bind_done; [by apply on_ring_run|]. reflexivity.
  - intros s Hs. destruct (stuck_ring_null jiffies _ Hs) as (r' & Hr & Hs').
    eexists (mk_sys r' _ _ _). split; [|exact Hs']. cbn. unfold alloc_buffer. eapply bind_done; [reflexivity|].
    eapply bind_done; [by apply on_ring_run|]. reflexivity.
  - intros k c s i off x Hs Hi Ho Hl. destruct (stuck_ring_fill jiffies k c _ i off x Hs Hi Ho Hl) as (r' & Hr & Hs').
    eexists (mk_sys r' _ _ _). split; [by apply on_ring_run|exact Hs'].
  - intros k c s i n Hs Hi Hn. destruct (stuck_ring_bytes k c _ i n Hs Hi Hn) as (bs & Hr & Hl).
    exists bs. split; [|exact Hl]. destruct s. by apply (on_ring_run (on_driver (load_buffer i n)) (mk_sys _ _ _ _)).
  - intros k s n. apply stuck_start.
  - intros k s n. apply stuck_start.
  - intros k c s Hs. destruct (stuck_ring_sync jiffies k c _ Hs) as (r' & Hr & Hs').
    eexists (mk_sys r' _ _ _). split; [|exact Hs']. cbn. unfold sync_stream. eapply bind_done; [reflexivity|].
    eapply bind_done; [by apply on_ring_run|]. reflexivity.
Defined.

End Instances.

(** ** Lemmas: the programs on a device that gets stuck *)

Section Programs.
Context {D : Type} `{StuckDevice D}.
Implicit Types (d : D).

Lemma stuck_put_word k c d i off v :
  stuck k c d → (i < BUFFER_COUNT)%nat → 0 ≤ off → off + 4 ≤ BUFFER_SIZE →
  ∃ d', put_word i off v d = Done (tt, d') ∧ stuck k c d'.
Proof. intros Hs Hi Ho Hl. apply stuck_fill; [done|done|done|]. rewrite length_le_bytes. lia. Qed.

Lemma stuck_fill_packet k c d i dts tts len n word :
  stuck k c d → (i < BUFFER_COUNT)%nat → BUFFER_IN_BYTES (Z.of_nat n) ≤ BUFFER_SIZE →
  ∃ d', fill_packet i dts tts len n word d = Done (tt, d') ∧ stuck k c d'.
Proof.
  unfold BUFFER_IN_BYTES, sizeof_header. intros Hs Hi Hn.
  destruct (stuck_put_word k c d i 0 dts Hs Hi) as (d1 & H1 & Hs1); [lia|lia|].
  destruct (stuck_put_word k c d1 i 4 tts Hs1 Hi) as (d2 & H2 & Hs2); [lia|lia|].
  destruct (stuck_put_word k c d2 i 8 len Hs2 Hi) as (d3 & H3 & Hs3); [lia|lia|].
  assert (wp (for_ n (λ j, put_word i (12 + 4 * Z.of_nat j) (word j))) (λ _, stuck k c) d3) as Hwp.
  { apply (wp_for (λ _, stuck k c)); [|done]. intros j e Hj He.
    destruct (stuck_put_word k c e i (12 + 4 * Z.of_nat j) (word j) He Hi) as (e' & Hr & He'); [lia|lia|].
    by eapply wp_done. }
  apply wp_run in Hwp as ([] & d4 & H4 & Hs4). exists d4. split; [|done]. unfold fill_packet.
  eapply bind_done; [exact H1|]. eapply bind_done; [exact H2|]. eapply bind_done; [exact H3|exact H4].
Qed.

Lemma stuck_send_packet k d dts tts n word :
  stuck k k d → (k < BUFFER_COUNT)%nat → BUFFER_IN_BYTES (Z.of_nat n) ≤ BUFFER_SIZE →
  ∃ d', send_packet dts tts n word d = Done (tt, d') ∧ stuck (S k) (S k) d'.
Proof.
  intros Hs Hk Hn. destruct (stuck_get k d Hs Hk) as (d1 & Hg & Hs1).
  destruct (stuck_fill_packet k (S k) d1 k dts tts (Z.of_nat n) n word Hs1 Hk Hn) as (d2 & Hf & Hs2).
  destruct (stuck_write k d2 (u32 (BUFFER_IN_BYTES (Z.of_nat n))) Hs2 Hk) as (d3 & Hw & Hs3).
  exists d3. split; [|done]. unfold send_packet, get_buffer.
  eapply bind_done; [eapply bind_done; [exact Hg|reflexivity]|].
  eapply bind_done; [exact Hf|exact Hw].
Qed.

Lemma stuck_send_null d dts tts n word :
  stuck BUFFER_COUNT BUFFER_COUNT d → send_packet dts tts n word d = Fault NullDeref.
Proof.
  intros Hs. destruct (stuck_null d Hs) as (d' & Hg & _). unfold send_packet, get_buffer.
  apply bind_fault. eapply bind_done; [exact Hg|]. done.
Qed.

Lemma tx_test_loop_stuck n packet_size j k d :
  stuck k k d → (k ≤ BUFFER_COUNT)%nat → (BUFFER_COUNT < k + n)%nat →
  BUFFER_IN_BYTES (Z.of_nat packet_size) ≤ BUFFER_SIZE →
  tx_test_loop packet_size n j d = Fault NullDeref.
Proof.
  revert j k d. induction n as [|n IH]; intros j k d Hs Hk Hn Hsz; [lia|]. cbn [tx_test_loop].
  destruct (decide (k = BUFFER_COUNT)) as [->|Hne]; [apply bind_fault; by apply stuck_send_null|].
  destruct (stuck_send_packet k d (Z.of_nat j) (Z.of_nat j + 1) packet_size (phase_word packet_size j) Hs)
    as (d' & Hr & Hs'); [lia|done|].
  eapply bind_done; [exact Hr|]. apply (IH (S j) (S k)); [done|lia|lia|done].
Qed.

(** The packets before. *)
Lemma send_packets_stuck packet_size d :
  stuck 0 0 d → BUFFER_IN_BYTES (Z.of_nat packet_size) ≤ BUFFER_SIZE →
  ∃ d', for_ BUFFER_COUNT (λ j, send_packet (Z.of_nat j) (Z.of_nat j + 1) packet_size (phase_word packet_size j)) d =
      Done (tt, d') ∧ stuck BUFFER_COUNT BUFFER_COUNT d'.
Proof.
  intros Hs Hsz.
  assert (wp (for_ BUFFER_COUNT (λ j, send_packet (Z.of_nat j) (Z.of_nat j + 1) packet_size (phase_word packet_size j)))
    (λ _, stuck BUFFER_COUNT BUFFER_COUNT) d) as Hwp.
  { apply (wp_for (λ j, stuck j j)); [|done]. intros j e Hj He.
    destruct (stuck_send_packet j e (Z.of_nat j) (Z.of_nat j + 1) packet_size (phase_word packet_size j) He Hj Hsz)
      as (e' & Hr & He'). by eapply wp_done. }
  apply wp_run in Hwp as ([] & d' & Hr & Hs'). by exists d'.
Qed.

Lemma tx_loop_stuck n packet_size stop start j k d :
  stuck k k d → (k ≤ BUFFER_COUNT)%nat → (BUFFER_COUNT < k + n)%nat →
  BUFFER_IN_BYTES (Z.of_nat packet_size) ≤ BUFFER_SIZE →
  (∀ l, (l ≤ BUFFER_COUNT - k)%nat → stop (j + l)%nat = false) →
  tx_loop stop start packet_size n j d = Fault NullDeref.
Proof.
  revert j k d. induction n as [|n IH]; intros j k d Hs Hk Hn Hsz Hst; [lia|]. cbn [tx_loop].
  pose proof (Hst 0%nat ltac:(lia)) as Hj. rewrite Nat.add_0_r in Hj. rewrite Hj.
  destruct (decide (k = BUFFER_COUNT)) as [->|Hne]; [apply bind_fault; by apply stuck_send_null|].
  destruct (stuck_send_packet k d 321 (u32 (Z.of_nat j + 1)) packet_size (tx_word start (Z.of_nat packet_size) j) Hs)
    as (d' & Hr & Hs'); [lia|done|].
  eapply bind_done; [exact Hr|]. apply (IH (S j) (S k)); [done|lia|lia|done|].
  intros l Hl. rewrite <-(Hst (S l)) by lia. f_equal. lia.
Qed.

Context `{Stack}.

(** The connection takes another packet, or refuses it. *)
Definition can_send (s : socket) : bool := match sends_left s with Some O => false | _ => true end.
Definition one_less (left : option nat) : option nat := pred <$> left.

(** One packet of the server that reads a stream. *)
Lemma send_body_stuck v k s d :
  stuck k k d → (k < BUFFER_COUNT)%nat →
  ∃ s' d', if can_send s
    then ∃ v' (bs : list Z), send_body v (mk_session s d) = Done (inl v', mk_session s' d') ∧ Z.of_nat (length bs) = send_size ∧
               tx s' = tx s ++ BackendCall.packet_bytes bs ∧ sends_left s' = one_less (sends_left s) ∧ stuck (S k) (S k) d'
    else send_body v (mk_session s d) = Done (inr tt, mk_session s' d') ∧ tx s' = tx s.
Proof.
  intros Hs Hk. destruct v as [accu sn].
  destruct (stuck_get k d Hs Hk) as (d1 & Hg & Hs1).
  destruct (stuck_sync k (S k) d1 Hs1) as (d2 & Hsy & Hs2).
  destruct (stuck_bytes k (S k) d2 k (Z.to_nat send_size) Hs2 Hk) as (bs & Hby & Hlb); [vm_compute; congruence|].
  destruct (stuck_fill k (S k) d2 k 0 (replicate (Z.to_nat read_stream_size) (u8 (-1))) Hs2 Hk) as (d3 & Hf & Hs3);
    [lia|rewrite length_replicate; vm_compute; congruence|].
  destruct (stuck_read k d3 read_stream_size Hs3 Hk) as (d4 & Hr & Hs4).
  set (packet := BackendCall.packet_bytes bs).
  assert (∀ n s', send packet s = Done (n, s') → send_body (accu, sn) (mk_session s d) =
    if n <=? 0 then Done (inr tt, mk_session s' d2)
    else Done (inl (u64 (accu + n), u32 (sn + 1)), mk_session s' d4)) as Hrun.
  { intros n s' Hsend. unfold send_body.
    eapply bind_done; [by apply on_dev_run|]. eapply bind_done; [by apply on_dev_run|].
    eapply bind_done.
    { eapply bind_done; [by apply on_dev_run|]. apply on_conn_run. unfold writev. rewrite <-Hsend.
      unfold packet, BackendCall.packet_bytes. simpl. by rewrite app_nil_r. }
    destruct (n <=? 0); [done|]. eapply bind_done; [done|].
    eapply bind_done; [by apply on_dev_run|]. eapply bind_done; [by apply on_dev_run|]. reflexivity. }
  assert (Z.of_nat (length packet) <=? 0 = false) as Hlen by (apply Z.leb_gt; unfold packet, BackendCall.packet_bytes; simpl; lia).
  unfold can_send, one_less. destruct (sends_left s) as [[|m]|] eqn:El.
  - exists s, d2. split; [|done]. apply (Hrun (-1) s). unfold send. by rewrite El.
  - exists (set_tx (tx s ++ packet) (Some m) s), d4. do 2 eexists.
    split; [|split; [rewrite Hlb, Z2Nat.id; [done|vm_compute; congruence]|by split]]. rewrite (Hrun (Z.of_nat (length packet)) (set_tx (tx s ++ packet) (Some m) s)), Hlen; [done|].
    unfold send. by rewrite El.
  - exists (set_tx (tx s ++ packet) None s), d4. do 2 eexists.
    split; [|split; [rewrite Hlb, Z2Nat.id; [done|vm_compute; congruence]|by split]]. rewrite (Hrun (Z.of_nat (length packet)) (set_tx (tx s ++ packet) None s)), Hlen; [done|].
    unfold send. by rewrite El.
Qed.

(** The ring is used up: the address of NULL is handed to [writev]. *)
Lemma send_body_null v s d :
  stuck BUFFER_COUNT BUFFER_COUNT d →
  ∃ d', send_body v (mk_session s d) = Done (inr tt, mk_session s d').
Proof.
  intros Hs. destruct v as [accu sn]. destruct (stuck_null d Hs) as (d1 & Hg & Hs1).
  destruct (stuck_sync _ _ d1 Hs1) as (d2 & Hsy & _). exists d2. unfold send_body.
  eapply bind_done; [by apply on_dev_run|]. eapply bind_done; [by apply on_dev_run|].
  eapply bind_done; [done|]. done.
Qed.

(** The packets served by a ring that has [k] buffers behind it. *)
Definition packets_left (k : nat) (left : option nat) : nat :=
  match left with Some m => Nat.min m (BUFFER_COUNT - k) | None => BUFFER_COUNT - k end.

Lemma read_stream_stuck fuel v k s d :
  stuck k k d → (k ≤ BUFFER_COUNT)%nat → (BUFFER_COUNT < k + fuel)%nat →
  ∃ s' d' packets, iterate fuel send_body v (mk_session s d) = Done (tt, mk_session s' d') ∧
    length packets = packets_left k (sends_left s) ∧ Forall (λ p, Z.of_nat (length p) = send_size) packets ∧
    tx s' = tx s ++ concat (BackendCall.packet_bytes <$> packets).
Proof.
  revert v k s d. induction fuel as [|fuel IH]; intros v k s d Hs Hk Hf; [lia|]. rewrite iterate_unfold.
  destruct (decide (k = BUFFER_COUNT)) as [->|Hne].
  { destruct (send_body_null v s d Hs) as (d' & Hr). exists s, d', []. split; [by eapply bind_done|].
    split; [|by rewrite app_nil_r]. unfold packets_left. destruct (sends_left s); simpl; lia. }
  destruct (send_body_stuck v k s d Hs) as (s' & d' & Hbody); [lia|]. destruct (can_send s) eqn:Ec.
  - destruct Hbody as (v' & bs & Hr & Hlb & Ht & Hl' & Hs').
    destruct (IH v' (S k) s' d' Hs') as (s2 & d2 & ps & Hr2 & Hlp & Hall & Ht2); [lia|lia|].
    exists s2, d2, (bs :: ps). split; [eapply bind_done; [exact Hr|exact Hr2]|].
    split; [|split; [by constructor|by rewrite Ht2, Ht, <-app_assoc]].
    cbn [length]. rewrite Hlp, Hl'. unfold can_send in Ec. unfold packets_left, one_less.
    destruct (sends_left s) as [[|m]|]; [done| |]; cbn [fmap option_fmap option_map pred]; lia.
  - unfold can_send in Ec. destruct (sends_left s) as [[|m]|] eqn:El; [|done|done]. destruct Hbody as [Hr Ht].
    exists s', d', []. split; [eapply bind_done; [exact Hr|done]|]. rewrite Ht, app_nil_r.
    split; [|done]. unfold packets_left. simpl. lia.
Qed.

End Programs.

(** ** Lemmas: inside a larger state *)

Section Lens.
Context {G D : Type} (l : lens G D) `{!LensLaws l} `{StuckDevice D} (g0 : G).

Lemma through_stuck {A} (m : M D A) k c d a :
  (∃ d', m d = Done (a, d') ∧ stuck k c d') →
  ∃ g', through l m (put l d g0) = Done (a, g') ∧ ∃ d', g' = put l d' g0 ∧ stuck k c d'.
Proof. intros (d' & Hr & Hs). exists (put l d' g0). split; [by apply through_done|by exists d']. Qed.

#[refine] Definition lens_stuck : @StuckDevice G (lens_device l) := {|
  stuck := λ k c g, ∃ d, g = put l d g0 ∧ stuck k c d
|}.
Proof.
  - intros k g (d & -> & Hs) Hk. by apply through_stuck, stuck_get.
  - intros g (d & -> & Hs). by apply through_stuck, stuck_null.
  - intros k c g i off x (d & -> & Hs) Hi Ho Hl. by apply through_stuck, stuck_fill.
  - intros k c g i n (d & -> & Hs) Hi Hn. destruct (stuck_bytes k c d i n Hs Hi Hn) as (bs & Hr & Hl).
    exists bs. split; [by apply through_done|done].
  - intros k g n (d & -> & Hs) Hk. by apply through_stuck, stuck_write.
  - intros k g n (d & -> & Hs) Hk. by apply through_stuck, stuck_read.
  - intros k c g (d & -> & Hs). by apply through_stuck, stuck_sync.
Defined.

End Lens.

Section Table.
Context {P W : Type} `{Backend P W} (ops : P → StreamDevice W).
Context (w0 : world P W) (p : Z) (d : io_device P) (x : P).
Hypothesis device_there : devices w0 !! p = Some d.
Hypothesis device_payload : dv_private d = x.
#[local] Instance payload : StreamDevice W := ops x.
Context `{!StuckDevice W}.

Lemma dispatch_stuck {A} (op : StreamDevice W → M W A) k c b a :
  (∃ b', op payload b = Done (a, b') ∧ stuck k c b') →
  ∃ w', dispatch ops p op (set_backend b w0) = Done (a, w') ∧ ∃ b', w' = set_backend b' w0 ∧ stuck k c b'.
Proof.
  intros (b' & Hr & Hs). exists (set_backend b' w0). split; [|by exists b'].
  by apply (dispatch_run ops w0 p d x device_there device_payload).
Qed.

#[refine] Definition table_stuck : @StuckDevice (world P W) (stream_of ops (Some p)) := {|
  stuck := λ k c w, ∃ b, w = set_backend b w0 ∧ stuck k c b
|}.
Proof.
  - intros k w (b & -> & Hs) Hk. by apply (dispatch_stuck _ k (S k)), stuck_get.
  - intros w (b & -> & Hs). by apply (dispatch_stuck _ BUFFER_COUNT BUFFER_COUNT), stuck_null.
  - intros k c w i off y (b & -> & Hs) Hi Ho Hl.
    by apply (dispatch_stuck (λ o, @fill_buffer W o i off y) k c), stuck_fill.
  - intros k c w i n (b & -> & Hs) Hi Hn. destruct (stuck_bytes k c b i n Hs Hi Hn) as (bs & Hr & Hl).
    exists bs. split; [|done]. by apply (dispatch_run ops w0 p d x device_there device_payload (λ o, @buffer_bytes W o i n)).
  - intros k w n (b & -> & Hs) Hk.
    by apply (dispatch_stuck (λ o, @io_write_stream_device W o k n) (S k) (S k)), stuck_write.
  - intros k w n (b & -> & Hs) Hk.
    by apply (dispatch_stuck (λ o, @io_read_stream_device W o k n) (S k) (S k)), stuck_read.
  - intros k c w (b & -> & Hs). by apply (dispatch_stuck _ k c), stuck_sync.
Defined.

End Table.

(** ** Properties *)

Section Properties.
Context {E : Type} `{StalledEngine E} `{!DmaEngineLaws E} (jiffies : Z).
Abbreviation chan := (dma_proxy_channel E).

(** C12: A machine whose hardware stops finishing transfers serves a reading client
    from the 32 buffers of the ring and then has none: whatever the client
    does, the command sends at most 32 packets (fewer if the connection breaks
    before), takes the NULL it got for the 33rd buffer to [writev], which fails,
    and returns 0 like the command of a client that left.  The client that is
    still there gets no word of it, and no time-out is ever reported. *)
Theorem stalled_read_ends `{Stack} (r : ring chan) s fuel :
  let dev := ring_device jiffies in
  ring_opened jiffies r → (BUFFER_COUNT < fuel)%nat →
  ∃ s' r' packets, client_cmd_read_stream_inf fuel (mk_session s r) = Done (0, mk_session s' r') ∧
    length packets = (match sends_left s with Some m => Nat.min m BUFFER_COUNT | None => BUFFER_COUNT end) ∧
    Forall (λ p, Z.of_nat (length p) = send_size) packets ∧
    tx s' = tx s ++ concat (BackendCall.packet_bytes <$> packets).
Proof.
  intros dev Hop Hf. unfold client_cmd_read_stream_inf.
  destruct (@read_stream_stuck _ dev (stuck_ring_device jiffies) fuel (0, 0) 0 s r (opened_stuck jiffies r Hop)
    ltac:(lia) ltac:(lia)) as (s' & r' & packets & Hrun & Hl & Hall & Ht).
  exists s', r', packets. split; [eapply bind_done; [exact Hrun|reflexivity]|]. split; [|done].
  rewrite Hl. unfold packets_left. by rewrite Nat.sub_0_r.
Qed.

End Properties.

(** C13: On such a machine [main_tx_test] opens its devices, sets the registers up,
    allocates [data_copy] and hands 32 packets to the hardware; then all buffers of the ring are
    outstanding, the next one is the NULL of a wait that timed out, and the program
    stores into it. *)
Theorem main_tx_test_stalled {E R} `{EngineQueue E} `{!StalledEngine E, !DmaEngineLaws E} `{DmaEngine R} `{!DmaEngineLaws R}
    jiffies (w0 : world machine_device (@machine E R)) s :
  let B := machine_backend jiffies in
  ready w0 2 → mc_tx (backend w0) !! dev_axi_dma_1 = Some s → wf_channel (ring_chan s) →
  ∃ p1 p2 w2 w3 w4 w5 s1,
    io_add_mapped_device (next_ptr w0) dev_tc (created w0) = Done (Some p1, w2) ∧
    io_add_stream_device (next_ptr w0) dev_axi_dma_1 w2 = Done (Some p2, w3) ∧
    @write_registers _ (mapped_of (Some p1)) tx_test_setup w3 = Done (tt, w4) ∧
    for_ BUFFER_COUNT (λ j, @send_packet _ (stream_of (machine_stream jiffies) (Some p2))
      (Z.of_nat j) (Z.of_nat j + 1) (1024 * 2) (phase_word (1024 * 2) j)) (mallocd w4) = Done (tt, w5) ∧
    mc_tx (backend w5) !! dev_axi_dma_1 = Some s1 ∧ stuck_ring jiffies BUFFER_COUNT BUFFER_COUNT (ss_ring s1) ∧
    main_tx_test (machine_stream jiffies) w0 = Fault NullDeref.
Proof.
  intros B Hready Hs Hch.
  destruct (main_tx_test_starts jiffies w0 s Hready Hs Hch)
    as (p1 & p2 & regs & dma & w2 & w3 & w3' & Hal & Hadd1 & Hadd2 & Hregs).
  apply at_loop_malloc in Hal. set (w4 := mallocd w3') in *.
  destruct (at_loop_stream jiffies _ _ _ _ _ _ _ Hal) as (d2 & s0 & Hd2 & Hx2 & Hinit & Hb4).
  pose (lsd := @lens_stuck _ _ (tx_channel (E:=E) (R:=R) dev_axi_dma_1) _ (local_stream_device jiffies)
    (stuck_stream_device jiffies) (backend w4)).
  pose (tsd := @table_stuck _ _ (machine_stream jiffies) w4 p2 d2 _ Hd2 Hx2 lsd).
  assert (@stuck _ _ tsd 0 0 w4) as Hstuck.
  { exists (backend w4). split; [by destruct w4|]. exists s0. split; [by rewrite Hb4, put_put|].
    destruct Hinit as (pc0 & pc & os & dv & os' & Hwf & Hop & Hst & _).
    apply (opened_stuck jiffies). by exists pc0, pc, os, dv, os'. }
  assert (BUFFER_IN_BYTES (Z.of_nat (1024 * 2)) ≤ BUFFER_SIZE) as Hsz by (vm_compute; congruence).
  destruct (@send_packets_stuck _ _ tsd (1024 * 2) w4 Hstuck Hsz) as (w5 & Hsend & b5 & -> & s1 & -> & Hs1).
  exists p1, p2, w2, w3, w3'. eexists (set_backend (put (tx_channel dev_axi_dma_1) s1 (backend w4)) w4), s1.
  do 3 (split; [eassumption|]). split; [exact Hsend|]. split; [apply lookup_insert_eq|]. split; [exact Hs1|].
  unfold main_tx_test. eapply bind_done; [apply create_run|]. eapply bind_done; [exact Hadd1|].
  eapply bind_done; [exact Hadd2|]. apply bind_fault. unfold tx_test_body, here.
  eapply bind_done; [exact Hregs|]. eapply bind_done; [apply heap_malloc_run|]. apply bind_fault. fold w4.
  apply (@tx_test_loop_stuck _ _ tsd (Z.to_nat 2000000) (1024 * 2) 0 0); [done|lia|unfold BUFFER_COUNT; lia|done].
Qed.

(** ** Concrete runs *)

#[export] Instance queue_engine_stalled : StalledEngine (queue_engine TimesOut).
Proof.
  split.
  - intros (sg & dir & i & e & Href). simpl in Href. unfold dma_submit_error in Href.
    apply Z.ltb_lt in Href. lia.
  - intros bd j pc r pc'. simpl. by intros [= <- _].
Qed.

Lemma main_tx_test_stalled_witness :
  let B := machine_backend (E:=queue_engine TimesOut) (R:=block_engine) 300 in
  main_tx_test (machine_stream 300) (demo_machine TimesOut dev_axi_dma_1 []) = Fault NullDeref.
Proof.
  intros B. destruct (main_tx_test_stalled 300 (demo_machine TimesOut dev_axi_dma_1 []) (demo_channel_stream TimesOut)
    (demo_machine_ready TimesOut dev_axi_dma_1 [] 2 ltac:(lia)) ltac:(apply lookup_singleton_eq) ltac:(apply wf_fresh_channel))
    as (p1 & p2 & w2 & w3 & w4 & w5 & s1 & _ & _ & _ & _ & _ & _ & Hr).
  exact Hr.
Defined.

Lemma stalled_ring_opened : ring_opened 300 (stream_opened TimesOut).
Proof. destruct (opened_init TimesOut) as (pc0 & pc & w & dev & w' & Hwf & Hop & Hst & _). by exists pc0, pc, w, dev, w'. Qed.

(** A client that stays, and one that leaves behind 31 packets. *)
Lemma stalled_read_ends_witness :
  let dev := ring_device (E:=queue_engine TimesOut) 300 in
  (∃ v, client_cmd_read_stream_inf 33 (mk_session (mk_socket [] 0 [] None) (stream_opened TimesOut)) = Done (0, v)) ∧
  ∃ v packets, client_cmd_read_stream_inf 33 (mk_session (mk_socket [] 0 [] (Some 31%nat)) (stream_opened TimesOut)) = Done (0, v) ∧
    length packets = 31%nat ∧ tx (conn v) = concat (BackendCall.packet_bytes <$> packets).
Proof.
  intros dev. split.
  - destruct (stalled_read_ends 300 (stream_opened TimesOut) (mk_socket [] 0 [] None) 33 stalled_ring_opened)
      as (s' & r' & ps & Hr & _); [unfold BUFFER_COUNT; lia|]. exact (ex_intro _ _ Hr).
  - destruct (stalled_read_ends 300 (stream_opened TimesOut) (mk_socket [] 0 [] (Some 31%nat)) 33 stalled_ring_opened)
      as (s' & r' & ps & Hr & Hl & _ & Ht); [unfold BUFFER_COUNT; lia|].
    exists (mk_session s' r'), ps. split; [exact Hr|]. split; [exact Hl|exact Ht].
Defined.
